(** * Super Lig player statistics: leaderboards and the top-tackler extractor

    A shallow embedding of [dashboard.py] ([load_data], [format_number],
    [build_top_table] and the sidebar defaults, filters and cards of
    [main]) and of [main.py] ([get_top_tacklers_super_lig], its local-file
    path and its scrape fallback), together with the properties their
    specification states about them and further properties read off the
    code.

    The programs are pandas code.  A [DataFrame] is modelled the way pandas
    stores it: an index of row labels and an ordered list of labelled,
    typed columns.  float64 cells are IEEE 754 binary64 values
    ([spec_float] of the Standard Library with [prec = 53] and
    [emax = 1024]), so that division by zero, infinities and NaN behave as
    they do in numpy.  Exceptions are values of type [exn], and a function
    that may raise returns a [result]. *)

From Stdlib Require Import String Ascii ZArith Bool Lia Arith List.
From Stdlib Require Import Permutation.
From Stdlib Require Import Floats.SpecFloat.
From Stdlib Require Import Numbers.DecimalString Numbers.DecimalZ Numbers.DecimalPos.
Import ListNotations.

Local Open Scope string_scope.
Local Open Scope Z_scope.

(** ** Exceptions and results *)

Inductive exn : Type :=
| KeyError (key : string)
| TypeError
| ValueError
| OverflowError
| RuntimeError (msg : string)
| OtherError (msg : string).

Definition result (A : Type) : Type := (exn + A)%type.

Definition ret {A : Type} (a : A) : result A := inr a.
Definition raise {A : Type} (e : exn) : result A := inl e.

Definition bind {A B : Type} (m : result A) (k : A -> result B) : result B :=
  match m with
  | inl e => inl e
  | inr a => k a
  end.

Notation "x <- m ;; k" := (bind m (fun x => k))
  (at level 61, m at next level, right associativity).

Fixpoint mapM {A B : Type} (f : A -> result B) (l : list A) : result (list B) :=
  match l with
  | [] => ret []
  | a :: l' => b <- f a ;; bs <- mapM f l' ;; ret (b :: bs)
  end.

(** ** binary64 *)

Module F64.

Definition prec : Z := 53.
Definition emax : Z := 1024.

Definition div : spec_float -> spec_float -> spec_float := SFdiv prec emax.

(** Conversion of an integer, rounding to nearest even; an integer too
    large for binary64 becomes an infinity. *)
Definition of_Z (z : Z) : spec_float := binary_normalize prec emax z 0 false.

Definition nan : spec_float := S754_nan.
Definition pinf : spec_float := S754_infinity false.
Definition ninf : spec_float := S754_infinity true.

(** The literal [90.0]. *)
Definition ninety : spec_float := Eval vm_compute in of_Z 90.

Definition isnan (x : spec_float) : bool :=
  match x with S754_nan => true | _ => false end.

Definition is_zero (x : spec_float) : bool :=
  match x with S754_zero _ => true | _ => false end.

Definition is_inf (x : spec_float) : bool :=
  match x with S754_infinity _ => true | _ => false end.

Definition ltb (x y : spec_float) : bool := SFltb x y.
Definition leb (x y : spec_float) : bool := SFleb x y.
Definition geb (x y : spec_float) : bool := SFleb y x.
Definition eqb (x y : spec_float) : bool := SFeqb x y.

(** numpy's order on floating-point keys, [a < b || (b != b && a == a)]:
    the IEEE order with every NaN above every number. *)
Definition npy_less (a b : spec_float) : bool :=
  ltb a b || (isnan b && negb (isnan a)).

(** [float.is_integer]. *)
Definition is_integer (x : spec_float) : bool :=
  match x with
  | S754_zero _ => true
  | S754_finite _ m e =>
      if 0 <=? e then true else (Zpos m mod 2 ^ (- e) =? 0)
  | _ => false
  end.

(** [int(x)] of a finite float: truncation towards zero. *)
Definition trunc (x : spec_float) : option Z :=
  match x with
  | S754_zero _ => Some 0
  | S754_finite s m e =>
      let a := if 0 <=? e then Zpos m * 2 ^ e else Zpos m / 2 ^ (- e) in
      Some (if s then - a else a)
  | _ => None
  end.

End F64.

(** ** Python values and the Number Formatter *)

Inductive pyval : Type :=
| PyNone
| PyInt (z : Z)
| PyFloat (f : spec_float)
| PyStr (s : string).

(** [pd.isna] on a scalar. *)
Definition isna (v : pyval) : bool :=
  match v with
  | PyNone => true
  | PyFloat f => F64.isnan f
  | _ => false
  end.

(** [float(val)] of an [int]: [OverflowError] when the integer rounds
    outside the binary64 range. *)
Definition float_of_int (z : Z) : result spec_float :=
  match F64.of_Z z with
  | S754_infinity _ => raise OverflowError
  | f => ret f
  end.

(** Decimal rendering of an integer, [f"{n}"]. *)
Definition str_of_Z (z : Z) : string := NilZero.string_of_int (Z.to_int z).

Definition digit_char (d : Z) : ascii := ascii_of_nat (48 + Z.to_nat d).

(** The nearest integer to [n / d], ties to even (for [0 <= n], [0 < d]). *)
Definition round_half_even (n d : Z) : Z :=
  let q := n / d in
  let r := n mod d in
  match 2 * r ?= d with
  | Lt => q
  | Gt => q + 1
  | Eq => if Z.even q then q else q + 1
  end.

Definition sign_str (s : bool) : string := if s then "-" else "".

(** The number of hundredths [f"{x:.2f}"] prints for the magnitude
    [m * 2^e]: the exact value, correctly rounded. *)
Definition hundredths (m : positive) (e : Z) : Z :=
  if 0 <=? e then 100 * Zpos m * 2 ^ e
  else round_half_even (100 * Zpos m) (2 ^ (- e)).

Definition fixed2_of_hundredths (s : bool) (n : Z) : string :=
  sign_str s ++ str_of_Z (n / 100) ++ "."
    ++ String (digit_char (n mod 100 / 10))
         (String (digit_char (n mod 10)) EmptyString).

(** [f"{x:.2f}"] of a float. *)
Definition fixed2 (x : spec_float) : string :=
  match x with
  | S754_nan => "nan"
  | S754_infinity s => sign_str s ++ "inf"
  | S754_zero s => fixed2_of_hundredths s 0
  | S754_finite s m e => fixed2_of_hundredths s (hundredths m e)
  end.

(** [format_number] of dashboard.py. *)
Definition format_number (val : pyval) : result string :=
  if isna val then ret ""
  else
    match val with
    | PyInt z =>
        f <- float_of_int z ;;
        if F64.is_integer f then ret (str_of_Z z) else ret (fixed2 f)
    | PyFloat f =>
        if F64.is_integer f then
          match F64.trunc f with
          | Some n => ret (str_of_Z n)
          | None => raise OverflowError
          end
        else ret (fixed2 f)
    | PyStr s => ret s
    | PyNone => ret ""
    end.

Definition three : spec_float := Eval vm_compute in F64.of_Z 3.
Definition three_and_a_half : spec_float :=
  Eval vm_compute in F64.div (F64.of_Z 7) (F64.of_Z 2).

Example format_three : format_number (PyFloat three) = ret "3".
Proof. reflexivity. Qed.

Example format_three_and_a_half :
  format_number (PyFloat three_and_a_half) = ret "3.50".
Proof. reflexivity. Qed.

(** ** Data frames *)

(** A column with its dtype.  An [Object] column holds text; [None] is a
    missing entry (the NaN that [read_csv] stores for an empty cell, or the
    [None] that [top[col] = None] stores). *)
Inductive column : Type :=
| Float64 (xs : list spec_float)
| Int64 (xs : list Z)
| Object (xs : list (option string)).

Record DataFrame : Type := mkFrame {
  index : list nat;
  columns : list (string * column)
}.

Definition col_len (c : column) : nat :=
  match c with
  | Float64 xs => length xs
  | Int64 xs => length xs
  | Object xs => length xs
  end.

Definition nrows (df : DataFrame) : nat := length (index df).

Definition labels (df : DataFrame) : list string := map fst (columns df).

(** [name in df.columns]. *)
Definition has_col (name : string) (df : DataFrame) : bool :=
  existsb (String.eqb name) (labels df).

Fixpoint lookup (name : string) (cs : list (string * column)) : option column :=
  match cs with
  | [] => None
  | (n, c) :: cs' => if String.eqb name n then Some c else lookup name cs'
  end.

(** [df[name]]. *)
Definition getcol (df : DataFrame) (name : string) : result column :=
  match lookup name (columns df) with
  | Some c => ret c
  | None => raise (KeyError name)
  end.

Fixpoint assign (name : string) (c : column) (cs : list (string * column))
  : list (string * column) :=
  match cs with
  | [] => [(name, c)]
  | (n, c') :: cs' =>
      if String.eqb name n then (n, c) :: cs' else (n, c') :: assign name c cs'
  end.

(** [df[name] = c]: replaces the column in place, or appends it. *)
Definition setcol (df : DataFrame) (name : string) (c : column) : DataFrame :=
  mkFrame (index df) (assign name c (columns df)).

(** The cells of a column as the Python values [Series.map] passes on. *)
Definition cells (c : column) : list pyval :=
  match c with
  | Float64 xs => map PyFloat xs
  | Int64 xs => map PyInt xs
  | Object xs =>
      map (fun o => match o with Some s => PyStr s | None => PyFloat F64.nan end) xs
  end.

(** [Series.isna()]. *)
Definition col_isna (c : column) : list bool := map isna (cells c).

(** Rows at the given positions, in that order. *)
Definition take {A : Type} (d : A) (pos : list nat) (xs : list A) : list A :=
  map (fun i => nth i xs d) pos.

Definition col_take (pos : list nat) (c : column) : column :=
  match c with
  | Float64 xs => Float64 (take F64.nan pos xs)
  | Int64 xs => Int64 (take 0 pos xs)
  | Object xs => Object (take None pos xs)
  end.

Definition frame_take (pos : list nat) (df : DataFrame) : DataFrame :=
  mkFrame (take 0%nat pos (index df))
          (map (fun nc => (fst nc, col_take pos (snd nc))) (columns df)).

(** Positions at which a boolean mask holds. *)
Definition where_true (mask : list bool) : list nat :=
  map fst (filter snd (combine (seq 0 (length mask)) mask)).

(** [df[mask]]. *)
Definition frame_filter (mask : list bool) (df : DataFrame) : DataFrame :=
  frame_take (where_true mask) df.

(** [df.head(n)]; a negative [n] drops the last [-n] rows. *)
Definition head_count (n : Z) (len : nat) : nat :=
  if 0 <=? n then Nat.min (Z.to_nat n) len else (len - Z.to_nat (- n))%nat.

Definition head (n : Z) (df : DataFrame) : DataFrame :=
  frame_take (seq 0 (head_count n (nrows df))) df.

(** [df.reset_index(drop=True)]. *)
Definition reset_index (df : DataFrame) : DataFrame :=
  mkFrame (seq 0 (nrows df)) (columns df).

(** [df[names]]: the named columns in the order asked for. *)
Definition select (names : list string) (df : DataFrame) : result DataFrame :=
  cs <- mapM (fun n => c <- getcol df n ;; ret (n, c)) names ;;
  ret (mkFrame (index df) cs).

(** [df.rename(columns={old: new})]. *)
Definition rename (old new : string) (df : DataFrame) : DataFrame :=
  mkFrame (index df)
          (map (fun nc => (if String.eqb (fst nc) old then new else fst nc, snd nc))
               (columns df)).

(** [df.insert(0, name, c)]. *)
Definition insert_first (name : string) (c : column) (df : DataFrame)
  : result DataFrame :=
  if has_col name df then raise ValueError
  else ret (mkFrame (index df) ((name, c) :: columns df)).

(** *** Element-wise operations on a column *)

(** The float64 view of a numeric column; text cannot take part in
    arithmetic. *)
Definition as_float (c : column) : result (list spec_float) :=
  match c with
  | Float64 xs => ret xs
  | Int64 xs => ret (map F64.of_Z xs)
  | Object xs =>
      mapM (fun o => match o with
                     | Some _ => raise TypeError
                     | None => ret F64.nan
                     end) xs
  end.

(** [series / 90.0] and [series / series]. *)
Definition div_scalar (c : column) (k : spec_float) : result (list spec_float) :=
  xs <- as_float c ;; ret (map (fun x => F64.div x k) xs).

Definition div_series (c : column) (ys : list spec_float) : result (list spec_float) :=
  xs <- as_float c ;; ret (map (fun xy => F64.div (fst xy) (snd xy)) (combine xs ys)).

(** [series >= k] and [series <= k] for an integer [k]. *)
Definition ge_scalar (c : column) (k : Z) : result (list bool) :=
  match c with
  | Int64 xs => ret (map (fun x => k <=? x) xs)
  | _ => xs <- as_float c ;; ret (map (fun x => F64.geb x (F64.of_Z k)) xs)
  end.

Definition le_scalar (c : column) (k : Z) : result (list bool) :=
  match c with
  | Int64 xs => ret (map (fun x => x <=? k) xs)
  | _ => xs <- as_float c ;; ret (map (fun x => F64.leb x (F64.of_Z k)) xs)
  end.

(** [series == s] and [series != s] for a text [s]. *)
Definition eq_text (c : column) (s : string) : list bool :=
  match c with
  | Object xs =>
      map (fun o => match o with Some t => String.eqb t s | None => false end) xs
  | _ => repeat false (col_len c)
  end.

Definition mask_and (a b : list bool) : list bool :=
  map (fun p => andb (fst p) (snd p)) (combine a b).

Definition mask_or (a b : list bool) : list bool :=
  map (fun p => orb (fst p) (snd p)) (combine a b).

Definition mask_not (a : list bool) : list bool := map negb a.

(** ** Sorting *)

(** [ndarray.argsort]: numpy promises that the result lists every position
    once and that the keys taken in that order are sorted.  Only
    [kind='stable'] (or ['mergesort']) promises more.  The programs call
    [sort_values] without [kind], so they may rely on this contract only. *)
Definition strict_weak {A : Type} (less : A -> A -> bool) : Prop :=
  (forall x, less x x = false) /\
  (forall x y, less x y = true -> less y x = false) /\
  (forall x y z, less y x = false -> less z y = false -> less z x = false).

Class ArgSort : Type := {
  argsort : forall {A : Type}, (A -> A -> bool) -> list A -> list nat;
  argsort_perm : forall (A : Type) (less : A -> A -> bool) (xs : list A),
      Permutation (argsort less xs) (seq 0 (length xs));
  argsort_sorted : forall (A : Type) (less : A -> A -> bool) (xs : list A) (d : A),
      strict_weak less ->
      forall i j : nat, (i < j < length xs)%nat ->
        less (nth (nth j (argsort less xs) 0%nat) xs d)
             (nth (nth i (argsort less xs) 0%nat) xs d) = false
}.

(** A sorter that keeps equal keys in their input order, as
    [kind='stable'] does. *)
Definition stable_sorter (S : ArgSort) : Prop :=
  forall (A : Type) (less : A -> A -> bool) (xs : list A) (d : A) (i j : nat),
    (i < j < length xs)%nat ->
    less (nth (nth i (argsort less xs) 0%nat) xs d)
         (nth (nth j (argsort less xs) 0%nat) xs d) = false ->
    (nth i (argsort less xs) 0%nat < nth j (argsort less xs) 0%nat)%nat.

Section Sorting.

Context {S : ArgSort}.

(** pandas' [nargsort] with [na_position='last']: the missing keys are set
    aside, the others are sorted (for a descending sort: reversed, sorted
    ascending, reversed again), and the missing ones follow in input
    order. *)
Definition nargsort {A : Type} (less : A -> A -> bool) (missing : A -> bool)
    (items : list A) (ascending : bool) : list nat :=
  let idx := combine (seq 0 (length items)) items in
  let present := filter (fun p => negb (missing (snd p))) idx in
  let nan_idx := map fst (filter (fun p => missing (snd p)) idx) in
  let non_nan_idx := map fst present in
  let non_nans := map snd present in
  let non_nan_idx := if ascending then non_nan_idx else rev non_nan_idx in
  let non_nans := if ascending then non_nans else rev non_nans in
  let indexer := map (fun k => nth k non_nan_idx 0%nat) (argsort less non_nans) in
  let indexer := if ascending then indexer else rev indexer in
  indexer ++ nan_idx.

Definition is_none {A : Type} (o : option A) : bool :=
  match o with None => true | Some _ => false end.

Definition text_less (a b : option string) : bool :=
  match a, b with
  | Some s, Some t => String.ltb s t
  | _, _ => false
  end.

(** The sorting permutation of one column. *)
Definition col_argsort (c : column) (ascending : bool) : list nat :=
  match c with
  | Float64 xs => nargsort F64.npy_less F64.isnan xs ascending
  | Int64 xs => nargsort Z.ltb (fun _ => false) xs ascending
  | Object xs => nargsort text_less is_none xs ascending
  end.

(** [df.sort_values(by, ascending=ascending)]. *)
Definition sort_values (by_ : string) (ascending : bool) (df : DataFrame)
  : result DataFrame :=
  c <- getcol df by_ ;;
  ret (frame_take (col_argsort c ascending) df).

End Sorting.

(** ** Text helpers *)

Definition is_upper (c : ascii) : bool :=
  ((65 <=? nat_of_ascii c) && (nat_of_ascii c <=? 90))%nat.

Definition is_lower (c : ascii) : bool :=
  ((97 <=? nat_of_ascii c) && (nat_of_ascii c <=? 122))%nat.

Definition to_upper (c : ascii) : ascii :=
  if is_lower c then ascii_of_nat (nat_of_ascii c - 32) else c.

Definition to_lower (c : ascii) : ascii :=
  if is_upper c then ascii_of_nat (nat_of_ascii c + 32) else c.

(** [str.isascii()]: every character is below 128. *)
Definition isascii (s : string) : bool :=
  forallb (fun c => (nat_of_ascii c <? 128)%nat) (list_ascii_of_string s).

(** [str.title()] on ASCII text: the first letter of every run of letters
    in upper case, the others in lower case.  Python's method knows the
    case of every Unicode letter; here a character outside ASCII counts
    as uncased, so the definition is [str.title()] on the texts for which
    [isascii] holds, and the properties that state a label through it
    are stated for such metric names (every metric of the page is one). *)
Fixpoint title_from (prev_cased : bool) (s : string) : string :=
  match s with
  | EmptyString => EmptyString
  | String c s' =>
      if is_lower c || is_upper c
      then String (if prev_cased then to_lower c else to_upper c) (title_from true s')
      else String c (title_from false s')
  end.

Definition title (s : string) : string := title_from false s.

(** [s.replace(a, b)] for single characters. *)
Fixpoint replace_char (a b : ascii) (s : string) : string :=
  match s with
  | EmptyString => EmptyString
  | String c s' => String (if Ascii.eqb c a then b else c) (replace_char a b s')
  end.

(** [needle in hay]. *)
Fixpoint contains (needle hay : string) : bool :=
  String.prefix needle hay ||
  match hay with
  | EmptyString => false
  | String _ hay' => contains needle hay'
  end.

Definition mem (s : string) (l : list string) : bool := existsb (String.eqb s) l.

(** ** dashboard.py: the Leaderboard Builder *)

Section Programs.

Context {S : ArgSort}.

(** Lines 42-44: the minutes filter. *)
Definition filter_minutes (work : DataFrame) (min_minutes : Z) : result DataFrame :=
  if has_col "minutesPlayed" work && (0 <? min_minutes) then
    c <- getcol work "minutesPlayed" ;;
    m <- ge_scalar c min_minutes ;;
    ret (frame_filter m work)
  else ret work.

(** [work[metric] / (work["minutesPlayed"] / 90.0)]. *)
Definition per90_values (work : DataFrame) (metric : string) : result (list spec_float) :=
  mc <- getcol work metric ;;
  mins <- getcol work "minutesPlayed" ;;
  per <- div_scalar mins F64.ninety ;;
  div_series mc per.

(** Lines 46-51: the ranking column, after the optional per-90 column has
    been added. *)
Definition add_per90 (work : DataFrame) (metric : string) (per_90 : bool)
  : result (DataFrame * string) :=
  if per_90 && has_col "minutesPlayed" work then
    v <- per90_values work metric ;;
    ret (setcol work (metric ++ "_per90") (Float64 v), metric ++ "_per90")
  else ret (work, metric).

(** Lines 40-51: the qualifying rows, in table order, with the name of
    their ranking column. *)
Definition keyed_rows (df : DataFrame) (metric : string) (per_90 : bool)
    (min_minutes : Z) : result (DataFrame * string) :=
  work <- filter_minutes df min_minutes ;;
  add_per90 work metric per_90.

(** Lines 40-54: [work] once sorted and cut to ten rows, with the name of
    the ranking column. *)
Definition rank_rows (df : DataFrame) (metric : string) (per_90 : bool)
    (min_minutes : Z) (ascending : bool) : result (DataFrame * string) :=
  wm <- keyed_rows df metric per_90 min_minutes ;;
  sorted <- sort_values (snd wm) ascending (fst wm) ;;
  ret (head 10 sorted, snd wm).

Definition unformatted : list string := ["Rk"; "player"; "team"; "country"; "Country"].

(** [display[col].map(format_number)]. *)
Definition format_column (c : column) : result column :=
  strs <- mapM format_number (cells c) ;;
  ret (Object (map Some strs)).

(** Lines 78-81. *)
Definition format_columns (display : DataFrame) : result DataFrame :=
  cs <- mapM (fun nc : string * column =>
                if mem (fst nc) unformatted then ret nc
                else c <- format_column (snd nc) ;; ret (fst nc, c))
             (columns display) ;;
  ret (mkFrame (index display) cs).

Definition rename_if_present (old new : string) (display : DataFrame) : DataFrame :=
  if has_col old display then rename old new display else display.

(** [if extra_cols: display_cols.extend(extra_cols)]. *)
Definition display_cols (metric_col : string) (extra_cols : option (list string))
  : list string :=
  (["player"; "team"; metric_col] ++
   match extra_cols with
   | Some l => l
   | None => []
   end)%list.

(** Lines 56-83: the display table of the ranked rows. *)
Definition display_table (work : DataFrame) (metric metric_col : string)
    (extra_cols : option (list string)) : result DataFrame :=
  display <- select (display_cols metric_col extra_cols) work ;;
  display <- insert_first "Rk" (Int64 (map Z.of_nat (seq 1 (nrows display)))) display ;;
  let pretty_name := title (replace_char "_" " " metric) in
  let display := rename metric_col pretty_name display in
  let display := rename_if_present "age" "Age" display in
  let display := rename_if_present "age_x" "Age" display in
  let display := rename_if_present "age_y" "Age" display in
  let display := rename_if_present "country" "Country" display in
  format_columns display.

(** [build_top_table] of dashboard.py. *)
Definition build_top_table (df : DataFrame) (metric : string) (per_90 : bool)
    (min_minutes : Z) (ascending : bool) (extra_cols : option (list string))
  : result DataFrame :=
  wm <- rank_rows df metric per_90 min_minutes ascending ;;
  display_table (fst wm) metric (snd wm) extra_cols.

(** ** Age reconciliation *)

(** The column both programs read the age from (dashboard.py lines
    229-235, main.py lines 28-34). *)
Definition choose_age_col (df : DataFrame) : option string :=
  if has_col "age" df then Some "age"
  else if has_col "age_x" df then Some "age_x"
  else if has_col "age_y" df then Some "age_y"
  else None.

(** ** dashboard.py: the filters and cards of [main] *)

(** The resolved values of the sidebar controls. *)
Record Controls : Type := mkControls {
  min_minutes_ctl : Z;
  age_range_ctl : Z * Z;
  nationality_ctl : string;
  per_90_ctl : bool
}.

(** Lines 270-272. *)
Definition filter_age_range (df : DataFrame) (age_col : option string)
    (age_range : Z * Z) : result DataFrame :=
  match age_col with
  | Some a =>
      c <- getcol df a ;;
      lo <- ge_scalar c (fst age_range) ;;
      hi <- le_scalar c (snd age_range) ;;
      ret (frame_filter (mask_and lo hi) df)
  | None => ret df
  end.

Definition turkiye : string := "Türkiye".

(** Lines 275-279. *)
Definition filter_nationality (df : DataFrame) (nationality_filter : string)
  : result DataFrame :=
  if has_col "country" df then
    c <- getcol df "country" ;;
    if String.eqb nationality_filter "Türk Oyuncular" then
      ret (frame_filter (eq_text c turkiye) df)
    else if String.eqb nationality_filter "Yabancı Oyuncular" then
      ret (frame_filter (mask_and (mask_not (eq_text c turkiye))
                                  (mask_not (col_isna c))) df)
    else ret df
  else ret df.

Definition metric_groups : list (string * list (string * bool)) :=
  [ ("Attacking",
     [("goals", false); ("assists", false); ("totalShots", false);
      ("shotsOnTarget", false); ("expectedGoals", false)]);
    ("Possession & Passing",
     [("accuratePassesPercentage", true); ("keyPasses", false);
      ("accurateFinalThirdPasses", false); ("accurateLongBallsPercentage", true)]);
    ("Defending",
     [("tackles", false); ("interceptions", false); ("clearances", false);
      ("groundDuelsWon", false); ("groundDuelsWonPercentage", true);
      ("totalDuelsWon", false); ("totalDuelsWonPercentage", true)]) ].

(** Lines 322-327: the extra columns [main] asks for. *)
Definition main_extra_cols (df : DataFrame) (age_col : option string)
  : option (list string) :=
  let extra := ((match age_col with Some a => [a] | None => [] end)
                ++ (if has_col "country" df then ["country"] else []))%list in
  match extra with
  | [] => None
  | _ => Some extra
  end.

(** Lines 316-336: the card of one metric; [None] when the table has no
    such column. *)
Definition card (df : DataFrame) (age_col : option string) (ctl : Controls)
    (m : string * bool) : result (option (string * DataFrame)) :=
  if negb (has_col (fst m) df) then ret None
  else
    table <- build_top_table df (fst m) (per_90_ctl ctl && negb (snd m))
               (min_minutes_ctl ctl) false (main_extra_cols df age_col) ;;
    ret (Some (fst m, table)).

(** The tables [main] renders, in order, for a loaded table and the values
    of the controls. *)
Definition dashboard_tables (loaded : DataFrame) (ctl : Controls)
  : result (list (string * DataFrame)) :=
  let age_col := choose_age_col loaded in
  df <- filter_age_range loaded age_col (age_range_ctl ctl) ;;
  df <- filter_nationality df (nationality_ctl ctl) ;;
  cards <- mapM (card df age_col ctl) (flat_map snd metric_groups) ;;
  ret (flat_map (fun o => match o with Some t => [t] | None => [] end) cards).

(** ** main.py: the Tackler Extractor *)

(** [df.dropna(subset=[name])]. *)
Definition dropna (name : string) (df : DataFrame) : result DataFrame :=
  c <- getcol df name ;;
  ret (frame_filter (mask_not (col_isna c)) df).

(** Line 39: [df[(df[age_col] >= min_age) | (df[age_col].isna())]]. *)
Definition filter_min_age (df : DataFrame) (age_col : string) (min_age : Z)
  : result DataFrame :=
  c <- getcol df age_col ;;
  m <- ge_scalar c min_age ;;
  ret (frame_filter (mask_or m (col_isna c)) df).

(** Line 41. *)
Definition filter_max_age (df : DataFrame) (age_col : string) (max_age : Z)
  : result DataFrame :=
  c <- getcol df age_col ;;
  m <- le_scalar c max_age ;;
  ret (frame_filter (mask_or m (col_isna c)) df).

(** Lines 36-41. *)
Definition filter_age_bounds (df : DataFrame) (age_col : option string)
    (min_age max_age : option Z) : result DataFrame :=
  match age_col with
  | Some a =>
      df <- match min_age with
            | Some lo => filter_min_age df a lo
            | None => ret df
            end ;;
      match max_age with
      | Some hi => filter_max_age df a hi
      | None => ret df
      end
  | None => ret df
  end.

(** Lines 56-58, for one column. *)
Definition ensure_col (name : string) (top : DataFrame) : DataFrame :=
  if has_col name top then top
  else setcol top name (Object (repeat None (nrows top))).

Definition tackler_columns : list string :=
  ["player"; "team"; "age"; "tackles"; "position"; "nationality"].

(** Lines 43-49: the rows ranked by tackles. *)
Definition rank_tacklers (df : DataFrame) (top_n : Z) : result DataFrame :=
  df <- dropna "tackles" df ;;
  sorted <- sort_values "tackles" false df ;;
  ret (reset_index (head top_n sorted)).

(** Lines 25-60: the fast path, on the table read from the CSV file. *)
Definition top_tacklers_local (df : DataFrame) (top_n : Z)
    (min_age max_age : option Z) : result DataFrame :=
  let age_col := choose_age_col df in
  df <- filter_age_bounds df age_col min_age max_age ;;
  top <- rank_tacklers df top_n ;;
  let top := match age_col with
             | Some a => if negb (String.eqb a "age") then rename a "age" top else top
             | None => top
             end in
  let top := ensure_col "position" top in
  let top := ensure_col "nationality" top in
  select tackler_columns top.

Definition scrape_failed_message : string :=
  "ScraperFC failed while fetching seasons from Sofascore "
  ++ "(missing 'seasons' key in API response). "
  ++ "Either update ScraperFC / try again later, or create "
  ++ "'tackles_joined.csv' and let this function load from it instead.".

(** Lines 65-79: the call of the scraping collaborator; [scraped] is what
    [scrape_player_league_stats] returned or raised. *)
Definition fetch_league_stats (scraped : result DataFrame) : result DataFrame :=
  match scraped with
  | inl (KeyError _) => raise (RuntimeError scrape_failed_message)
  | r => r
  end.

(** The world [get_top_tacklers_super_lig] runs in: the CSV file when it
    exists, the scraper's answer for a season, and the enrichment of the
    scraped table (lines 81-123), which the properties of this part do not
    depend on; [fallback_rank] further below is its model. *)
Record World : Type := mkWorld {
  csv_file : option DataFrame;
  scrape_player_league_stats : string -> result DataFrame;
  enrich_and_rank : DataFrame -> Z -> option Z -> option Z -> result DataFrame
}.

(** [get_top_tacklers_super_lig] of main.py. *)
Definition get_top_tacklers_super_lig (w : World) (season : string) (top_n : Z)
    (min_age max_age : option Z) : result DataFrame :=
  match csv_file w with
  | Some df => top_tacklers_local df top_n min_age max_age
  | None =>
      df <- fetch_league_stats (scrape_player_league_stats w season) ;;
      enrich_and_rank w df top_n min_age max_age
  end.

End Programs.

(** ** Two sorters

    Both meet numpy's contract.  [stable_kind] inserts every key after the
    keys equal to it, [tie_reversing_kind] before them. *)

Fixpoint insert_pair {A : Type} (before : A -> A -> bool) (p : nat * A)
    (l : list (nat * A)) : list (nat * A) :=
  match l with
  | [] => [p]
  | q :: l' =>
      if before (snd p) (snd q) then p :: q :: l'
      else q :: insert_pair before p l'
  end.

Definition isort {A : Type} (before : A -> A -> bool) (l : list (nat * A))
  : list (nat * A) :=
  fold_right (insert_pair before) [] l.

Definition enumerate {A : Type} (xs : list A) : list (nat * A) :=
  combine (seq 0 (length xs)) xs.

Definition insertion_argsort (stable : bool) (A : Type) (less : A -> A -> bool)
    (xs : list A) : list nat :=
  map fst (isort (fun x y => if stable then negb (less y x) else less x y)
                 (enumerate xs)).

(** *** Lists: positions and pairs *)

Lemma nth_take {A : Type} (d : A) (pos : list nat) (xs : list A) (i : nat) :
  (i < length pos)%nat -> nth i (take d pos xs) d = nth (nth i pos 0%nat) xs d.
Proof.
  intros Hi. unfold take.
  rewrite (nth_indep _ d (nth 0%nat xs d)) by (rewrite length_map; exact Hi).
  apply (map_nth (fun k => nth k xs d) pos 0%nat i).
Qed.

Lemma length_take {A : Type} (d : A) (pos : list nat) (xs : list A) :
  length (take d pos xs) = length pos.
Proof. unfold take. apply length_map. Qed.

Lemma take_seq_all {A : Type} (d : A) (xs : list A) :
  take d (seq 0 (length xs)) xs = xs.
Proof.
  apply (nth_ext _ _ d d).
  - rewrite length_take, length_seq. reflexivity.
  - intros i Hi. rewrite length_take, length_seq in Hi.
    rewrite nth_take by (rewrite length_seq; exact Hi).
    rewrite seq_nth by exact Hi. reflexivity.
Qed.

Lemma Permutation_take_seq {A : Type} (d : A) (p : list nat) (xs : list A) :
  Permutation p (seq 0 (length xs)) -> Permutation (take d p xs) xs.
Proof.
  intros H. rewrite <- (take_seq_all d xs) at 2.
  unfold take. apply Permutation_map. exact H.
Qed.

Lemma length_enumerate {A : Type} (xs : list A) : length (enumerate xs) = length xs.
Proof. unfold enumerate. rewrite length_combine, length_seq. apply Nat.min_id. Qed.

Lemma map_fst_enumerate {A : Type} (xs : list A) :
  map fst (enumerate xs) = seq 0 (length xs).
Proof.
  unfold enumerate.
  assert (H : forall (l : list A) (s : list nat), length s = length l ->
                map fst (combine s l) = s).
  { induction l as [|a l IH]; intros [|b s] Hl; simpl in *; try discriminate;
      try reflexivity.
    rewrite IH by (injection Hl; auto). reflexivity. }
  apply H. apply length_seq.
Qed.

Lemma map_snd_enumerate {A : Type} (xs : list A) : map snd (enumerate xs) = xs.
Proof.
  unfold enumerate.
  assert (H : forall (l : list A) (s : list nat), length s = length l ->
                map snd (combine s l) = l).
  { induction l as [|a l IH]; intros [|b s] Hl; simpl in *; try discriminate;
      try reflexivity.
    rewrite IH by (injection Hl; auto). reflexivity. }
  apply H. apply length_seq.
Qed.

(** Every pair of [enumerate xs] is a position with the value there. *)
Lemma In_enumerate {A : Type} (d : A) (xs : list A) (p : nat * A) :
  In p (enumerate xs) -> (fst p < length xs)%nat /\ nth (fst p) xs d = snd p.
Proof.
  unfold enumerate.
  assert (H : forall (l : list A) (k : nat) (q : nat * A),
             In q (combine (seq k (length l)) l) ->
             (k <= fst q < k + length l)%nat /\ nth (fst q - k) l d = snd q).
  { induction l as [|a l IH]; intros k q Hq; simpl in *; [contradiction|].
    destruct Hq as [<-|Hq]; simpl.
    - rewrite Nat.sub_diag. split; [lia|reflexivity].
    - apply IH in Hq. destruct Hq as [Hr Hn]. split; [lia|].
      replace (fst q - k)%nat with (Datatypes.S (fst q - Datatypes.S k)) by lia.
      exact Hn. }
  intros Hp. apply H in Hp. rewrite Nat.sub_0_r in Hp. destruct Hp; split; [lia|assumption].
Qed.

(** *** The insertion sorters meet the contract *)

Lemma insert_pair_perm {A : Type} (before : A -> A -> bool) (p : nat * A) l :
  Permutation (insert_pair before p l) (p :: l).
Proof.
  induction l as [|q l IH]; simpl; [reflexivity|].
  destruct (before (snd p) (snd q)); [reflexivity|].
  rewrite IH. apply perm_swap.
Qed.

Lemma isort_perm {A : Type} (before : A -> A -> bool) (l : list (nat * A)) :
  Permutation (isort before l) l.
Proof.
  induction l as [|p l IH]; simpl; [reflexivity|].
  rewrite insert_pair_perm. apply perm_skip. exact IH.
Qed.

Lemma insertion_argsort_perm (stable : bool) (A : Type) (less : A -> A -> bool)
    (xs : list A) :
  Permutation (insertion_argsort stable A less xs) (seq 0 (length xs)).
Proof.
  unfold insertion_argsort. rewrite <- map_fst_enumerate.
  apply Permutation_map. apply isort_perm.
Qed.

(** Pairwise relations, read by position. *)
Lemma ForallOrdPairs_nth {A : Type} (R : A -> A -> Prop) (l : list A) (d : A) :
  ForallOrdPairs R l ->
  forall i j, (i < j < length l)%nat -> R (nth i l d) (nth j l d).
Proof.
  induction 1 as [|a l Ha _ IH]; intros i j Hij; simpl in *; [lia|].
  destruct i as [|i], j as [|j]; try lia.
  - rewrite Forall_forall in Ha. apply Ha. apply nth_In. lia.
  - apply IH. lia.
Qed.

Lemma nth_ForallOrdPairs {A : Type} (R : A -> A -> Prop) (l : list A) (d : A) :
  (forall i j, (i < j < length l)%nat -> R (nth i l d) (nth j l d)) ->
  ForallOrdPairs R l.
Proof.
  induction l as [|a l IH]; intros H; constructor.
  - apply Forall_forall. intros x Hx.
    destruct (In_nth _ _ d Hx) as [k [Hk <-]].
    apply (H 0%nat (Datatypes.S k)). simpl. lia.
  - apply IH. intros i j Hij.
    apply (H (Datatypes.S i) (Datatypes.S j)). simpl. lia.
Qed.

Section InsertionSort.

Context {A : Type} (less before : A -> A -> bool).

Hypothesis less_sw : strict_weak less.
Hypothesis before_true : forall x y, before x y = true -> less y x = false.
Hypothesis before_false : forall x y, before x y = false -> less x y = false.

Let ordered (p q : nat * A) : Prop := less (snd q) (snd p) = false.

Lemma insert_pair_ordered (p : nat * A) (l : list (nat * A)) :
  ForallOrdPairs ordered l -> ForallOrdPairs ordered (insert_pair before p l).
Proof.
  destruct less_sw as [_ [_ Htrans]].
  induction 1 as [|q l Hq Hl IH]; simpl.
  - constructor; [constructor|constructor].
  - destruct (before (snd p) (snd q)) eqn:Hb.
    + constructor; [|constructor; assumption].
      constructor; [exact (before_true _ _ Hb)|].
      rewrite Forall_forall in Hq |- *. intros r Hr. unfold ordered in *.
      apply (Htrans (snd p) (snd q) (snd r)); [exact (before_true _ _ Hb)|auto].
    + constructor; [|exact IH].
      rewrite Forall_forall in Hq |- *. intros r Hr.
      apply (Permutation_in _ (insert_pair_perm before p l)) in Hr.
      destruct Hr as [<-|Hr]; [exact (before_false _ _ Hb)|auto].
Qed.

Lemma isort_ordered (l : list (nat * A)) : ForallOrdPairs ordered (isort before l).
Proof.
  induction l as [|p l IH]; simpl; [constructor|].
  apply insert_pair_ordered. exact IH.
Qed.

End InsertionSort.

(** The keys of a list of pairs drawn from [enumerate xs], by position. *)
Lemma nth_key_of_pairs {A : Type} (d : A) (xs : list A) (l : list (nat * A)) :
  (forall p, In p l -> In p (enumerate xs)) ->
  forall i, (i < length l)%nat ->
    nth (nth i (map fst l) 0%nat) xs d = snd (nth i l (0%nat, d)).
Proof.
  intros Hl i Hi.
  change 0%nat with (fst (0%nat, d)) at 1. rewrite map_nth.
  apply (In_enumerate d xs). apply Hl. apply nth_In. exact Hi.
Qed.

Lemma insertion_argsort_sorted (stable : bool) (A : Type) (less : A -> A -> bool)
    (xs : list A) (d : A) :
  strict_weak less ->
  forall i j : nat, (i < j < length xs)%nat ->
    less (nth (nth j (insertion_argsort stable A less xs) 0%nat) xs d)
         (nth (nth i (insertion_argsort stable A less xs) 0%nat) xs d) = false.
Proof.
  intros Hsw i j Hij. unfold insertion_argsort.
  set (before := fun x y : A => if stable then negb (less y x) else less x y).
  assert (Hlen : length (isort before (enumerate xs)) = length xs).
  { rewrite (Permutation_length (isort_perm before (enumerate xs))).
    apply length_enumerate. }
  assert (Hin : forall p, In p (isort before (enumerate xs)) -> In p (enumerate xs)).
  { intros p. apply Permutation_in. apply isort_perm. }
  rewrite !(nth_key_of_pairs d xs _ Hin) by lia.
  apply (ForallOrdPairs_nth (fun p q => less (snd q) (snd p) = false)); [|lia].
  apply isort_ordered; try assumption; unfold before; intros x y Hb.
  - destruct stable.
    + apply negb_true_iff in Hb. exact Hb.
    + destruct Hsw as [_ [Hasym _]]. apply Hasym. exact Hb.
  - destruct stable.
    + apply negb_false_iff in Hb. destruct Hsw as [_ [Hasym _]]. apply Hasym. exact Hb.
    + exact Hb.
Qed.

Definition stable_kind : ArgSort :=
  {| argsort := insertion_argsort true;
     argsort_perm := insertion_argsort_perm true;
     argsort_sorted := insertion_argsort_sorted true |}.

Definition tie_reversing_kind : ArgSort :=
  {| argsort := insertion_argsort false;
     argsort_perm := insertion_argsort_perm false;
     argsort_sorted := insertion_argsort_sorted false |}.

(** ** The order of the keys *)

(** binary64 keys in numpy's order, as triples compared lexicographically. *)
Definition fkey (x : spec_float) : Z * Z * Z :=
  match x with
  | S754_nan => (3, 0, 0)
  | S754_infinity false => (2, 0, 0)
  | S754_infinity true => (-2, 0, 0)
  | S754_zero _ => (0, 0, 0)
  | S754_finite false m e => (1, e, Zpos m)
  | S754_finite true m e => (-1, - e, - Zpos m)
  end.

Definition lex_ltb (a b : Z * Z * Z) : bool :=
  let '(a1, a2, a3) := a in
  let '(b1, b2, b3) := b in
  (a1 <? b1) || ((a1 =? b1) && ((a2 <? b2) || ((a2 =? b2) && (a3 <? b3)))).

Ltac bool_arith :=
  repeat match goal with
         | |- context [Z.ltb ?a ?b] => destruct (Z.ltb_spec a b)
         | |- context [Z.leb ?a ?b] => destruct (Z.leb_spec a b)
         | |- context [Z.eqb ?a ?b] => destruct (Z.eqb_spec a b)
         | H : context [Z.ltb ?a ?b] |- _ => destruct (Z.ltb_spec a b)
         | H : context [Z.leb ?a ?b] |- _ => destruct (Z.leb_spec a b)
         | H : context [Z.eqb ?a ?b] |- _ => destruct (Z.eqb_spec a b)
         end;
  simpl in *; try reflexivity; try discriminate; try lia.

Lemma SFcompare_finite_lex (s : bool) (m m' : positive) (e e' : Z) :
  SFcompare (S754_finite s m e) (S754_finite s m' e')
  = Some (if s
          then match e ?= e' with
               | Lt => Gt | Gt => Lt | Eq => CompOpp (m ?= m')%positive
               end
          else match e ?= e' with
               | Lt => Lt | Gt => Gt | Eq => (m ?= m')%positive
               end).
Proof. destruct s; reflexivity. Qed.

Lemma ltb_lex (x y : spec_float) :
  F64.isnan x = false -> F64.isnan y = false ->
  F64.ltb x y = lex_ltb (fkey x) (fkey y).
Proof.
  intros Hx Hy.
  destruct x as [sx|sx| |sx m e]; try discriminate;
    destruct y as [sy|sy| |sy m' e']; try discriminate;
    try (destruct sx, sy; reflexivity).
  unfold F64.ltb, SFltb.
  destruct sx, sy; try reflexivity; rewrite SFcompare_finite_lex; simpl;
    destruct (Z.compare_spec e e'); destruct (Pos.compare_spec m m');
    subst; simpl; bool_arith.
Qed.

Lemma npy_less_lex (x y : spec_float) :
  F64.npy_less x y = lex_ltb (fkey x) (fkey y).
Proof.
  unfold F64.npy_less.
  destruct (F64.isnan x) eqn:Hx, (F64.isnan y) eqn:Hy.
  - destruct x; try discriminate. destruct y; try discriminate. reflexivity.
  - destruct x; try discriminate.
    destruct y as [sy|sy| |sy m e]; try discriminate; try destruct sy; reflexivity.
  - destruct y; try discriminate.
    destruct x as [sx|sx| |sx m e]; try discriminate; try destruct sx; reflexivity.
  - rewrite ltb_lex by assumption. simpl. rewrite orb_false_r. reflexivity.
Qed.

Lemma lex_strict_weak {A : Type} (key : A -> Z * Z * Z) :
  strict_weak (fun x y => lex_ltb (key x) (key y)).
Proof.
  repeat split.
  - intros x. destruct (key x) as [[a1 a2] a3]. unfold lex_ltb. bool_arith.
  - intros x y. destruct (key x) as [[a1 a2] a3], (key y) as [[b1 b2] b3].
    unfold lex_ltb. bool_arith.
  - intros x y z.
    destruct (key x) as [[a1 a2] a3], (key y) as [[b1 b2] b3], (key z) as [[c1 c2] c3].
    unfold lex_ltb. bool_arith.
Qed.

Lemma npy_less_strict_weak : strict_weak F64.npy_less.
Proof.
  destruct (lex_strict_weak fkey) as [H1 [H2 H3]].
  repeat split; intros *; rewrite !npy_less_lex; auto.
  apply H3.
Qed.

Lemma Zltb_strict_weak : strict_weak Z.ltb.
Proof. repeat split; intros *; bool_arith. Qed.

(** [x >= y] leaves no room for [x < y]. *)
Lemma geb_not_ltb (x y : spec_float) : F64.geb x y = true -> F64.ltb x y = false.
Proof.
  unfold F64.geb, SFleb. intros H.
  destruct (F64.isnan x) eqn:Hx; [destruct x; try discriminate; reflexivity|].
  destruct (F64.isnan y) eqn:Hy; [destruct y; discriminate|].
  assert (Hyx : F64.ltb y x = true \/ fkey y = fkey x \/ F64.is_zero x && F64.is_zero y = true).
  { unfold F64.ltb, SFltb.
    destruct (SFcompare y x) as [[| |]|] eqn:Hc; try discriminate; [|left; reflexivity].
    right.
    destruct x as [sx|sx| |sx m e]; try discriminate;
      destruct y as [sy|sy| |sy m' e']; try discriminate;
      try (destruct sx, sy; simpl in *; try discriminate; auto; fail).
    destruct sx, sy; try discriminate; rewrite SFcompare_finite_lex in Hc;
      destruct (Z.compare_spec e' e); destruct (Pos.compare_spec m' m);
      subst; try discriminate; auto. }
  destruct (lex_strict_weak fkey) as [Hirr [Hasym _]].
  destruct Hyx as [Hlt|[Heq|Hz]].
  - rewrite ltb_lex in * by assumption. apply Hasym. exact Hlt.
  - rewrite ltb_lex by assumption. rewrite Heq. apply (Hirr x).
  - destruct x; try discriminate. destruct y; try discriminate. reflexivity.
Qed.

(** ** Facts about [nargsort] *)

Lemma nth_map_at {A B : Type} (f : A -> B) (l : list A) (d : A) (d' : B) (i : nat) :
  (i < length l)%nat -> nth i (map f l) d' = f (nth i l d).
Proof.
  intros Hi. rewrite (nth_indep _ d' (f d)) by (rewrite length_map; exact Hi).
  apply map_nth.
Qed.

Lemma nth_enumerate {A : Type} (d : A) (xs : list A) (i : nat) :
  (i < length xs)%nat -> nth i (enumerate xs) (0%nat, d) = (i, nth i xs d).
Proof.
  intros Hi. unfold enumerate.
  rewrite combine_nth by apply length_seq.
  rewrite seq_nth by exact Hi. reflexivity.
Qed.

Lemma enumerate_increasing {A : Type} (xs : list A) :
  ForallOrdPairs (fun p q : nat * A => (fst p < fst q)%nat) (enumerate xs).
Proof.
  destruct xs as [|d xs']; [constructor|]. set (xs := d :: xs').
  apply (nth_ForallOrdPairs _ _ (0%nat, d)). intros i j Hij.
  rewrite length_enumerate in Hij.
  rewrite !nth_enumerate by lia. simpl. lia.
Qed.

Lemma ForallOrdPairs_filter {A : Type} (R : A -> A -> Prop) (f : A -> bool) (l : list A) :
  ForallOrdPairs R l -> ForallOrdPairs R (filter f l).
Proof.
  induction 1 as [|a l Ha _ IH]; simpl; [constructor|].
  destruct (f a); [|exact IH].
  constructor; [|exact IH].
  rewrite Forall_forall in Ha |- *. intros x Hx. apply Ha.
  apply filter_In in Hx. tauto.
Qed.

Lemma ForallOrdPairs_rev {A : Type} (R : A -> A -> Prop) (l : list A) :
  ForallOrdPairs R l -> ForallOrdPairs (fun x y => R y x) (rev l).
Proof.
  destruct l as [|d l']; [constructor|]. set (l := d :: l').
  intros H. apply (nth_ForallOrdPairs _ _ d). intros i j Hij.
  rewrite length_rev in Hij. rewrite !rev_nth by lia.
  apply (ForallOrdPairs_nth R l d H). lia.
Qed.

Lemma filter_split_perm {A : Type} (f : A -> bool) (l : list A) :
  Permutation (filter (fun x => negb (f x)) l ++ filter f l) l.
Proof.
  induction l as [|a l IH]; simpl; [reflexivity|].
  destruct (f a); simpl.
  - rewrite <- Permutation_middle. apply perm_skip. exact IH.
  - apply perm_skip. exact IH.
Qed.

Section NargsortFacts.

Context {S : ArgSort} {A : Type}.
Variables (less : A -> A -> bool) (missing : A -> bool) (d : A).

Definition present_pairs (items : list A) : list (nat * A) :=
  filter (fun p => negb (missing (snd p))) (enumerate items).

Definition missing_positions (items : list A) : list nat :=
  map fst (filter (fun p => missing (snd p)) (enumerate items)).

(** The sorted part of [nargsort]'s answer, for the pairs [P] (the present
    ones, reversed for a descending sort). *)
Definition sorted_positions (P : list (nat * A)) : list nat :=
  map (fun k => nth k (map fst P) 0%nat) (argsort less (map snd P)).

Definition present_part (items : list A) (ascending : bool) : list nat :=
  if ascending then sorted_positions (present_pairs items)
  else rev (sorted_positions (rev (present_pairs items))).

Lemma nargsort_parts (items : list A) (ascending : bool) :
  nargsort less missing items ascending
  = (present_part items ascending ++ missing_positions items)%list.
Proof.
  unfold nargsort, present_part, sorted_positions, missing_positions, present_pairs,
    enumerate.
  destruct ascending; [reflexivity|].
  rewrite !map_rev. reflexivity.
Qed.

Lemma argsort_length (xs : list A) : length (argsort less xs) = length xs.
Proof.
  rewrite (Permutation_length (argsort_perm A less xs)). apply length_seq.
Qed.

Lemma argsort_bound (xs : list A) (i : nat) :
  (i < length xs)%nat -> (nth i (argsort less xs) 0 < length xs)%nat.
Proof.
  intros Hi.
  assert (Hin : In (nth i (argsort less xs) 0%nat) (argsort less xs)).
  { apply nth_In. rewrite argsort_length. exact Hi. }
  apply (Permutation_in _ (argsort_perm A less xs)) in Hin.
  apply in_seq in Hin. lia.
Qed.

Lemma sorted_positions_length (P : list (nat * A)) :
  length (sorted_positions P) = length P.
Proof.
  unfold sorted_positions. rewrite length_map, argsort_length. apply length_map.
Qed.

Lemma sorted_positions_perm (P : list (nat * A)) :
  Permutation (sorted_positions P) (map fst P).
Proof.
  unfold sorted_positions.
  rewrite (argsort_perm A less (map snd P)).
  rewrite length_map, <- (length_map fst P).
  change (Permutation (take 0%nat (seq 0 (length (map fst P))) (map fst P)) (map fst P)).
  rewrite take_seq_all. reflexivity.
Qed.

(** Position [i] of the sorted part, and the key found there. *)
Lemma sorted_positions_nth (P : list (nat * A)) (i : nat) :
  (i < length P)%nat ->
  nth i (sorted_positions P) 0%nat
  = fst (nth (nth i (argsort less (map snd P)) 0%nat) P (0%nat, d)).
Proof.
  intros Hi. unfold sorted_positions.
  rewrite (nth_map_at _ _ 0%nat) by (rewrite argsort_length, length_map; exact Hi).
  change 0%nat with (fst (0%nat, d)) at 2. apply map_nth.
Qed.

Lemma sorted_positions_key (items : list A) (P : list (nat * A)) (i : nat) :
  (forall p, In p P -> In p (enumerate items)) ->
  (i < length P)%nat ->
  nth (nth i (sorted_positions P) 0%nat) items d
  = nth (nth i (argsort less (map snd P)) 0%nat) (map snd P) d.
Proof.
  intros HP Hi. rewrite sorted_positions_nth by exact Hi.
  assert (Hb : (nth i (argsort less (map snd P)) 0 < length P)%nat).
  { rewrite <- (length_map snd P). apply argsort_bound. rewrite length_map. exact Hi. }
  change d with (snd (0%nat, d)) at 3. rewrite map_nth.
  apply (In_enumerate d items). apply HP. apply nth_In. exact Hb.
Qed.

Lemma present_pairs_in (items : list A) (p : nat * A) :
  In p (present_pairs items) -> In p (enumerate items) /\ missing (snd p) = false.
Proof.
  unfold present_pairs. rewrite filter_In. intros [H1 H2].
  split; [exact H1|]. apply negb_true_iff. exact H2.
Qed.

(** The answer lists every position once. *)
Lemma nargsort_perm (items : list A) (ascending : bool) :
  Permutation (nargsort less missing items ascending) (seq 0 (length items)).
Proof.
  rewrite nargsort_parts.
  assert (Hp : Permutation (present_part items ascending) (map fst (present_pairs items))).
  { unfold present_part. destruct ascending.
    - apply sorted_positions_perm.
    - rewrite <- Permutation_rev. rewrite sorted_positions_perm.
      rewrite map_rev. symmetry. apply Permutation_rev. }
  rewrite Hp. unfold missing_positions, present_pairs.
  rewrite <- map_app, <- map_fst_enumerate.
  apply Permutation_map. apply filter_split_perm.
Qed.

Lemma nargsort_length (items : list A) (ascending : bool) :
  length (nargsort less missing items ascending) = length items.
Proof.
  rewrite (Permutation_length (nargsort_perm items ascending)). apply length_seq.
Qed.

Lemma present_part_present (items : list A) (ascending : bool) (i : nat) :
  In i (present_part items ascending) ->
  (i < length items)%nat /\ missing (nth i items d) = false.
Proof.
  intros Hi.
  assert (Hin : In i (map fst (present_pairs items))).
  { unfold present_part in Hi. destruct ascending.
    - apply (Permutation_in _ (sorted_positions_perm _)) in Hi. exact Hi.
    - apply in_rev in Hi.
      apply (Permutation_in _ (sorted_positions_perm _)) in Hi.
      rewrite map_rev in Hi. apply in_rev in Hi. exact Hi. }
  apply in_map_iff in Hin. destruct Hin as [p [<- Hp]].
  apply present_pairs_in in Hp. destruct Hp as [Hp Hm].
  destruct (In_enumerate d items p Hp) as [Hlt Hk].
  split; [exact Hlt|]. rewrite Hk. exact Hm.
Qed.

Lemma missing_positions_missing (items : list A) (i : nat) :
  In i (missing_positions items) ->
  (i < length items)%nat /\ missing (nth i items d) = true.
Proof.
  unfold missing_positions. intros Hi.
  apply in_map_iff in Hi. destruct Hi as [p [<- Hp]].
  apply filter_In in Hp. destruct Hp as [Hp Hm].
  destruct (In_enumerate d items p Hp) as [Hlt Hk].
  split; [exact Hlt|]. rewrite Hk. exact Hm.
Qed.

(** Missing keys come last, whatever the direction. *)
Lemma nargsort_missing_last (items : list A) (ascending : bool) (i j : nat) :
  (i < j < length items)%nat ->
  missing (nth (nth i (nargsort less missing items ascending) 0%nat) items d) = true ->
  missing (nth (nth j (nargsort less missing items ascending) 0%nat) items d) = true.
Proof.
  intros Hij Hi.
  pose proof (nargsort_length items ascending) as Hlen.
  rewrite nargsort_parts in *. rewrite length_app in Hlen.
  destruct (Nat.lt_ge_cases i (length (present_part items ascending))) as [Hlt|Hge].
  - rewrite app_nth1 in Hi by exact Hlt.
    destruct (present_part_present items ascending _ (nth_In _ 0%nat Hlt)) as [_ Hp].
    congruence.
  - rewrite app_nth2 by lia.
    apply missing_positions_missing. apply nth_In. lia.
Qed.

End NargsortFacts.

Section NargsortOrder.

Context {S : ArgSort} {A : Type}.
Variables (less : A -> A -> bool) (missing : A -> bool) (d : A).

Local Abbreviation key items ascending i :=
  (nth (nth i (nargsort less missing items ascending) 0%nat) items d).

Lemma present_part_length (items : list A) (ascending : bool) :
  length (present_part less missing items ascending) = length (present_pairs missing items).
Proof.
  unfold present_part. destruct ascending.
  - apply sorted_positions_length.
  - rewrite length_rev, sorted_positions_length. apply length_rev.
Qed.

(** A key that is present stands in the sorted part. *)
Lemma present_position (items : list A) (ascending : bool) (i : nat) :
  (i < length items)%nat ->
  missing (key items ascending i) = false ->
  (i < length (present_pairs missing items))%nat.
Proof.
  intros Hi Hm.
  pose proof (nargsort_length less missing items ascending) as Hlen.
  rewrite nargsort_parts in *. rewrite length_app in Hlen.
  rewrite <- (present_part_length items ascending).
  destruct (Nat.lt_ge_cases i (length (present_part less missing items ascending)))
    as [Hlt|Hge]; [exact Hlt|].
  rewrite app_nth2 in Hm by exact Hge.
  assert (Hin : In (nth (i - length (present_part less missing items ascending))
                        (missing_positions missing items) 0%nat)
                   (missing_positions missing items)) by (apply nth_In; lia).
  apply (missing_positions_missing missing d) in Hin. destruct Hin as [_ Hin].
  congruence.
Qed.

Lemma rev_pairs_in (items : list A) (p : nat * A) :
  In p (rev (present_pairs missing items)) -> In p (enumerate items).
Proof.
  intros Hp. apply in_rev in Hp. apply present_pairs_in in Hp. tauto.
Qed.

Lemma pairs_in (items : list A) (p : nat * A) :
  In p (present_pairs missing items) -> In p (enumerate items).
Proof. intros Hp. apply present_pairs_in in Hp. tauto. Qed.

(** The key at position [i] of the answer, for [i] in the sorted part. *)
Lemma key_ascending (items : list A) (i : nat) :
  (i < length (present_pairs missing items))%nat ->
  key items true i
  = nth (nth i (argsort less (map snd (present_pairs missing items))) 0%nat)
        (map snd (present_pairs missing items)) d.
Proof.
  intros Hi. rewrite nargsort_parts.
  rewrite app_nth1 by (rewrite present_part_length; exact Hi).
  unfold present_part.
  apply sorted_positions_key; [apply pairs_in|exact Hi].
Qed.

Lemma key_descending (items : list A) (i : nat) :
  (i < length (present_pairs missing items))%nat ->
  key items false i
  = nth (nth (length (present_pairs missing items) - Datatypes.S i)
             (argsort less (map snd (rev (present_pairs missing items)))) 0%nat)
        (map snd (rev (present_pairs missing items))) d.
Proof.
  intros Hi. rewrite nargsort_parts.
  rewrite app_nth1 by (rewrite present_part_length; exact Hi).
  unfold present_part.
  rewrite rev_nth by (rewrite sorted_positions_length, length_rev; exact Hi).
  rewrite sorted_positions_length, length_rev.
  apply sorted_positions_key; [apply rev_pairs_in|rewrite length_rev; lia].
Qed.

(** Present keys stand in the requested order. *)
Lemma nargsort_ordered (items : list A) (ascending : bool) (i j : nat) :
  strict_weak less ->
  (i < j < length items)%nat ->
  missing (key items ascending j) = false ->
  (if ascending
   then less (key items ascending j) (key items ascending i)
   else less (key items ascending i) (key items ascending j)) = false.
Proof.
  intros Hsw Hij Hj.
  assert (Hjm : (j < length (present_pairs missing items))%nat)
    by (apply (present_position items ascending); [lia|exact Hj]).
  destruct ascending.
  - rewrite !key_ascending by lia.
    apply argsort_sorted; [exact Hsw|]. rewrite length_map. lia.
  - rewrite !key_descending by lia.
    apply argsort_sorted; [exact Hsw|]. rewrite length_map, length_rev. lia.
Qed.

(** The position in the input found at position [i] of the answer. *)
Lemma position_ascending (items : list A) (i : nat) :
  (i < length (present_pairs missing items))%nat ->
  nth i (nargsort less missing items true) 0%nat
  = fst (nth (nth i (argsort less (map snd (present_pairs missing items))) 0%nat)
             (present_pairs missing items) (0%nat, d)).
Proof.
  intros Hi. rewrite nargsort_parts.
  rewrite app_nth1 by (rewrite present_part_length; exact Hi).
  unfold present_part. apply sorted_positions_nth. exact Hi.
Qed.

Lemma position_descending (items : list A) (i : nat) :
  (i < length (present_pairs missing items))%nat ->
  nth i (nargsort less missing items false) 0%nat
  = fst (nth (nth (length (present_pairs missing items) - Datatypes.S i)
                  (argsort less (map snd (rev (present_pairs missing items)))) 0%nat)
             (rev (present_pairs missing items)) (0%nat, d)).
Proof.
  intros Hi. rewrite nargsort_parts.
  rewrite app_nth1 by (rewrite present_part_length; exact Hi).
  unfold present_part.
  rewrite rev_nth by (rewrite sorted_positions_length, length_rev; exact Hi).
  rewrite sorted_positions_length, length_rev.
  apply sorted_positions_nth. rewrite length_rev. lia.
Qed.

Lemma present_pairs_increasing (items : list A) :
  ForallOrdPairs (fun p q : nat * A => (fst p < fst q)%nat) (present_pairs missing items).
Proof. apply ForallOrdPairs_filter. apply enumerate_increasing. Qed.

(** With a stable sorter, present keys that tie keep their input order. *)
Lemma nargsort_stable (items : list A) (ascending : bool) (i j : nat) :
  stable_sorter S ->
  (i < j < length items)%nat ->
  missing (key items ascending j) = false ->
  less (key items ascending i) (key items ascending j) = false ->
  less (key items ascending j) (key items ascending i) = false ->
  (nth i (nargsort less missing items ascending) 0
   < nth j (nargsort less missing items ascending) 0)%nat.
Proof.
  intros Hst Hij Hj Hlij Hlji.
  assert (Hjm : (j < length (present_pairs missing items))%nat)
    by (apply (present_position items ascending); [lia|exact Hj]).
  set (m := length (present_pairs missing items)) in *.
  destruct ascending.
  - rewrite key_ascending in Hlij, Hlji by (fold m; lia).
    rewrite key_ascending in Hlij, Hlji by (fold m; lia).
    rewrite !position_ascending by (fold m; lia).
    pose proof (Hst A less (map snd (present_pairs missing items)) d i j) as Ha.
    rewrite length_map in Ha. specialize (Ha ltac:(fold m; lia) Hlij).
    apply (ForallOrdPairs_nth _ _ (0%nat, d) (present_pairs_increasing items)).
    split; [exact Ha|].
    rewrite <- (length_map snd). apply argsort_bound. rewrite length_map. fold m. lia.
  - rewrite key_descending in Hlij, Hlji by (fold m; lia).
    rewrite key_descending in Hlij, Hlji by (fold m; lia).
    rewrite !position_descending by (fold m; lia).
    fold m in Hlij, Hlji |- *.
    pose proof (Hst A less (map snd (rev (present_pairs missing items))) d
                    (m - Datatypes.S j)%nat (m - Datatypes.S i)%nat) as Ha.
    rewrite length_map, length_rev in Ha. fold m in Ha.
    specialize (Ha ltac:(lia) Hlji).
    pose proof (ForallOrdPairs_rev _ _ (present_pairs_increasing items)) as Hdec.
    apply (ForallOrdPairs_nth _ _ (0%nat, d) Hdec).
    split; [exact Ha|].
    rewrite <- (length_map snd). apply argsort_bound.
    rewrite length_map, length_rev. fold m. lia.
Qed.

(** Missing keys keep their input order. *)
Lemma nargsort_missing_in_order (items : list A) (ascending : bool) (i j : nat) :
  (i < j < length items)%nat ->
  missing (key items ascending i) = true ->
  (nth i (nargsort less missing items ascending) 0
   < nth j (nargsort less missing items ascending) 0)%nat.
Proof.
  intros Hij Hi.
  pose proof (nargsort_length less missing items ascending) as Hlen.
  rewrite nargsort_parts in *. rewrite length_app in Hlen.
  destruct (Nat.lt_ge_cases i (length (present_part less missing items ascending)))
    as [Hlt|Hge].
  - rewrite app_nth1 in Hi by exact Hlt.
    destruct (present_part_present less missing d items ascending _
                (nth_In _ 0%nat Hlt)) as [_ Hp].
    congruence.
  - rewrite !app_nth2 by lia.
    assert (Hinc : ForallOrdPairs lt (missing_positions missing items)).
    { unfold missing_positions.
      pose proof (ForallOrdPairs_filter _ (fun p : nat * A => missing (snd p)) _
                    (enumerate_increasing items)) as H.
      clear - H. induction H as [|a l Ha _ IH]; simpl; constructor; [|exact IH].
      rewrite Forall_forall in *. intros x Hx.
      apply in_map_iff in Hx. destruct Hx as [q [<- Hq]]. auto. }
    apply (ForallOrdPairs_nth _ _ 0%nat Hinc). lia.
Qed.

End NargsortOrder.

(** *** [stable_kind] is stable *)

Section StableInsertion.

Context {A : Type} (less : A -> A -> bool).

Let before (x y : A) : bool := negb (less y x).
Let in_order (p q : nat * A) : Prop :=
  less (snd p) (snd q) = false -> (fst p < fst q)%nat.

Lemma insert_pair_in_order (p : nat * A) (l : list (nat * A)) :
  Forall (fun q => (fst p < fst q)%nat) l ->
  ForallOrdPairs in_order l ->
  ForallOrdPairs in_order (insert_pair before p l).
Proof.
  intros Hp Hl. induction Hl as [|q l Hq Hl IH]; simpl.
  - constructor; constructor.
  - inversion Hp as [|? ? Hpq Hpl]; subst.
    destruct (before (snd p) (snd q)) eqn:Hb.
    + constructor; [|constructor; assumption].
      apply Forall_forall. intros r Hr _.
      rewrite Forall_forall in Hp. apply Hp. exact Hr.
    + constructor; [|apply IH; exact Hpl].
      apply Forall_forall. intros r Hr.
      apply (Permutation_in _ (insert_pair_perm before p l)) in Hr.
      destruct Hr as [<-|Hr].
      * unfold before in Hb. apply negb_false_iff in Hb.
        intros Hc. unfold in_order in *. congruence.
      * rewrite Forall_forall in Hq. apply Hq. exact Hr.
Qed.

Lemma isort_in_order (l : list (nat * A)) :
  ForallOrdPairs (fun p q : nat * A => (fst p < fst q)%nat) l ->
  ForallOrdPairs in_order (isort before l).
Proof.
  induction 1 as [|p l Hp _ IH]; simpl; [constructor|].
  apply insert_pair_in_order; [|exact IH].
  rewrite Forall_forall in Hp |- *. intros q Hq. apply Hp.
  apply (Permutation_in _ (isort_perm before l)). exact Hq.
Qed.

End StableInsertion.

Lemma stable_kind_stable : stable_sorter stable_kind.
Proof.
  intros A less xs d i j Hij Hl. simpl in *. unfold insertion_argsort in *.
  set (L := isort (fun x y : A => negb (less y x)) (enumerate xs)) in *.
  assert (Hlen : length L = length xs).
  { unfold L. rewrite (Permutation_length (isort_perm _ (enumerate xs))).
    apply length_enumerate. }
  assert (Hin : forall p, In p L -> In p (enumerate xs)).
  { intros p. apply Permutation_in. apply isort_perm. }
  rewrite !(nth_key_of_pairs d xs L Hin) in Hl by lia.
  change 0%nat with (fst (0%nat, d)). rewrite !map_nth.
  pose proof (isort_in_order less (enumerate xs) (enumerate_increasing xs)) as Hord.
  apply (ForallOrdPairs_nth _ _ (0%nat, d) Hord); [fold L; lia|exact Hl].
Qed.

(** ** Well-formed frames *)

(** Every column has one cell per row. *)
Definition frame_ok (df : DataFrame) : bool :=
  forallb (fun nc => Nat.eqb (col_len (snd nc)) (nrows df)) (columns df).

Definition numeric (c : column) : bool :=
  match c with
  | Object _ => false
  | _ => true
  end.

(** An integer that [float] converts without overflow; every int64 is. *)
Definition fits_float (z : Z) : bool :=
  match F64.of_Z z with
  | S754_infinity _ => false
  | _ => true
  end.

Definition col_fits (c : column) : bool :=
  match c with
  | Int64 xs => forallb fits_float xs
  | _ => true
  end.

Definition ints_fit (df : DataFrame) : bool :=
  forallb (fun nc => col_fits (snd nc)) (columns df).

(** [lookup] of a column that is numeric. *)
Definition numeric_at (name : string) (df : DataFrame) : bool :=
  match lookup name (columns df) with
  | Some c => numeric c
  | None => false
  end.

(** *** Frames under [take] *)

Lemma has_col_lookup (name : string) (df : DataFrame) :
  has_col name df = true <-> exists c, lookup name (columns df) = Some c.
Proof.
  unfold has_col, labels. destruct df as [ix cs]. simpl.
  induction cs as [|[n c] cs IH]; simpl.
  - split; [discriminate|intros [c H]; discriminate].
  - destruct (String.eqb name n); simpl; [split; eauto|exact IH].
Qed.

Lemma has_col_false_lookup (name : string) (df : DataFrame) :
  has_col name df = false <-> lookup name (columns df) = None.
Proof.
  pose proof (has_col_lookup name df) as [H1 H2].
  destruct (has_col name df), (lookup name (columns df)) as [c|] eqn:E; split; intros H;
    try reflexivity; try discriminate.
  - destruct (H1 eq_refl); discriminate.
  - assert (Hc : false = true) by (apply H2; exists c; reflexivity). discriminate.
Qed.

Lemma has_col_In (name : string) (df : DataFrame) :
  has_col name df = true <-> In name (labels df).
Proof.
  unfold has_col. rewrite existsb_exists. split.
  - intros [x [Hx He]]. apply String.eqb_eq in He. subst. exact Hx.
  - intros H. exists name. split; [exact H|apply String.eqb_refl].
Qed.

Lemma getcol_lookup (df : DataFrame) (name : string) (c : column) :
  getcol df name = ret c <-> lookup name (columns df) = Some c.
Proof.
  unfold getcol, ret, raise. destruct (lookup name (columns df)); split; intros H;
    try discriminate; congruence.
Qed.

Lemma col_len_take (pos : list nat) (c : column) : col_len (col_take pos c) = length pos.
Proof. destruct c; simpl; apply length_take. Qed.

Lemma lookup_map (f : column -> column) (name : string) (cs : list (string * column)) :
  lookup name (map (fun nc => (fst nc, f (snd nc))) cs) = option_map f (lookup name cs).
Proof.
  induction cs as [|[n c] cs IH]; simpl; [reflexivity|].
  destruct (String.eqb name n); [reflexivity|exact IH].
Qed.

Lemma lookup_frame_take (pos : list nat) (df : DataFrame) (name : string) :
  lookup name (columns (frame_take pos df))
  = option_map (col_take pos) (lookup name (columns df)).
Proof. apply lookup_map. Qed.

Lemma labels_frame_take (pos : list nat) (df : DataFrame) :
  labels (frame_take pos df) = labels df.
Proof.
  unfold labels, frame_take. simpl. rewrite map_map. reflexivity.
Qed.

Lemma has_col_frame_take (pos : list nat) (df : DataFrame) (name : string) :
  has_col name (frame_take pos df) = has_col name df.
Proof. unfold has_col. rewrite labels_frame_take. reflexivity. Qed.

Lemma nrows_frame_take (pos : list nat) (df : DataFrame) :
  nrows (frame_take pos df) = length pos.
Proof. unfold nrows, frame_take. simpl. apply length_take. Qed.

Lemma frame_ok_take (pos : list nat) (df : DataFrame) :
  frame_ok (frame_take pos df) = true.
Proof.
  unfold frame_ok. rewrite nrows_frame_take. apply forallb_forall.
  intros [n c] Hin. unfold frame_take in Hin. simpl in Hin.
  apply in_map_iff in Hin. destruct Hin as [[n' c'] [Heq _]].
  injection Heq as _ <-. simpl. rewrite col_len_take. apply Nat.eqb_refl.
Qed.

Lemma frame_ok_lookup (df : DataFrame) (name : string) (c : column) :
  frame_ok df = true -> lookup name (columns df) = Some c -> col_len c = nrows df.
Proof.
  unfold frame_ok. intros Hok Hl. rewrite forallb_forall in Hok.
  assert (Hin : In (name, c) (columns df) \/ exists n, In (n, c) (columns df)).
  { right. clear Hok. induction (columns df) as [|[n c'] cs IH]; simpl in *; [discriminate|].
    destruct (String.eqb name n).
    - injection Hl as ->. eauto.
    - destruct (IH Hl) as [n' Hn']. eauto. }
  destruct Hin as [Hin|[n Hin]]; apply Hok in Hin; simpl in Hin;
    apply Nat.eqb_eq in Hin; exact Hin.
Qed.

(** ** The Number Formatter *)

(** What a rendered number looks like and what it denotes. *)
Definition is_digit (c : ascii) : bool :=
  ((48 <=? nat_of_ascii c) && (nat_of_ascii c <=? 57))%nat.

Fixpoint all_digits (s : string) : bool :=
  match s with
  | EmptyString => true
  | String c s' => is_digit c && all_digits s'
  end.


(** The integer a text denotes. *)
Definition Z_of_str (s : string) : option Z :=
  option_map Z.of_int (NilZero.int_of_string s).


Definition float_sign (x : spec_float) : bool :=
  match x with
  | S754_zero s | S754_infinity s | S754_finite s _ _ => s
  | S754_nan => false
  end.








(** *** An integer converts to a whole float *)

Lemma iter_xO_val (p d : positive) : Zpos (Pos.iter xO p d) = Zpos p * 2 ^ Zpos d.
Proof.
  revert p. induction d using Pos.peano_ind; intros p.
  - simpl. lia.
  - rewrite Pos.iter_succ. rewrite Pos2Z.inj_xO, IHd.
    rewrite Pos2Z.inj_succ, Z.pow_succ_r by lia. lia.
Qed.

Lemma iter_xO_digits (p d : positive) :
  Zpos (digits2_pos (Pos.iter xO p d)) = Zpos (digits2_pos p) + Zpos d.
Proof.
  induction d using Pos.peano_ind.
  - simpl. lia.
  - rewrite Pos.iter_succ. simpl digits2_pos. rewrite Pos2Z.inj_succ, IHd. lia.
Qed.

Lemma shr_1_nonneg (mrs : shr_record) : 0 <= shr_m mrs -> 0 <= shr_m (shr_1 mrs).
Proof. destruct mrs as [m r s]. simpl. destruct m as [|[p|p|]|[p|p|]]; simpl; lia. Qed.

Lemma iter_pos_inv {A : Type} (P : A -> Prop) (f : A -> A) :
  (forall x, P x -> P (f x)) -> forall p x, P x -> P (iter_pos f p x).
Proof. intros Hf. induction p; intros x Hx; simpl; auto. Qed.

Lemma shr_nonneg (mrs : shr_record) (e n : Z) :
  0 <= shr_m mrs -> 0 <= shr_m (fst (shr mrs e n)) /\ e <= snd (shr mrs e n).
Proof.
  intros Hm. destruct n as [|p|p]; simpl; try (split; [assumption|lia]).
  split; [|lia]. apply iter_pos_inv; [apply shr_1_nonneg|assumption].
Qed.

Lemma shr_fexp_nonneg (m e : Z) (l : location) :
  0 <= m ->
  0 <= shr_m (fst (shr_fexp F64.prec F64.emax m e l))
  /\ e <= snd (shr_fexp F64.prec F64.emax m e l).
Proof.
  intros Hm. unfold shr_fexp. apply shr_nonneg.
  destruct l as [|[]]; simpl; exact Hm.
Qed.

Lemma round_nearest_even_nonneg (m : Z) (l : location) :
  0 <= m -> 0 <= round_nearest_even m l.
Proof. intros. destruct l as [|[]]; simpl; try lia. destruct (Z.even m); lia. Qed.

(** Rounding a non-negative mantissa with a non-negative exponent leaves
    the exponent non-negative. *)
Lemma binary_round_aux_nonneg (s : bool) (mx ex : Z) (lx : location) :
  0 <= mx -> 0 <= ex ->
  match binary_round_aux F64.prec F64.emax s mx ex lx with
  | S754_finite _ _ e => 0 <= e
  | S754_nan => False
  | _ => True
  end.
Proof.
  intros Hm He. unfold binary_round_aux.
  pose proof (shr_fexp_nonneg mx ex lx Hm) as [H1 H2].
  destruct (shr_fexp F64.prec F64.emax mx ex lx) as [mrs' e'] eqn:E1. simpl in H1, H2.
  pose proof (shr_fexp_nonneg
                (round_nearest_even (shr_m mrs') (loc_of_shr_record mrs')) e' loc_Exact
                (round_nearest_even_nonneg _ _ H1)) as [H3 H4].
  destruct (shr_fexp F64.prec F64.emax _ e' loc_Exact) as [mrs'' e''] eqn:E2.
  simpl in H3, H4.
  destruct (shr_m mrs'') as [|p|p]; try lia; auto.
  destruct (e'' <=? F64.emax - F64.prec); auto. lia.
Qed.

Lemma binary_round_integer (s : bool) (p : positive) :
  match binary_round F64.prec F64.emax s p 0 with
  | S754_nan => False
  | S754_infinity _ => True
  | x => F64.is_integer x = true
  end.
Proof.
  unfold binary_round, shl_align.
  set (ex' := fexp F64.prec F64.emax (Zpos (digits2_pos p) + 0)).
  destruct (ex' - 0) as [|d|d] eqn:Hd.
  - pose proof (binary_round_aux_nonneg s (Zpos p) 0 loc_Exact ltac:(lia) ltac:(lia)) as H.
    destruct (binary_round_aux F64.prec F64.emax s (Zpos p) 0 loc_Exact); auto.
    simpl. destruct (Z.leb_spec 0 e); auto; lia.
  - pose proof (binary_round_aux_nonneg s (Zpos p) 0 loc_Exact ltac:(lia) ltac:(lia)) as H.
    destruct (binary_round_aux F64.prec F64.emax s (Zpos p) 0 loc_Exact); auto.
    simpl. destruct (Z.leb_spec 0 e); auto; lia.
  - assert (Hex : ex' = Zneg d) by lia.
    assert (Hs : fexp F64.prec F64.emax (Zdigits2 (Zpos (Pos.iter xO p d)) + Zneg d)
                 - Zneg d = 0).
    { simpl Zdigits2. rewrite iter_xO_digits.
      unfold ex', fexp, emin, F64.prec, F64.emax in *. lia. }
    rewrite Hex. unfold binary_round_aux.
    unfold shr_fexp at 1. rewrite Hs.
    simpl shr. cbv iota beta. simpl round_nearest_even. simpl loc_of_shr_record.
    unfold shr_fexp. rewrite Hs. simpl.
    change (Z.pow_pos 2 d) with (2 ^ Zpos d).
    change (PosDef.Pos.iter xO p d) with (Pos.iter xO p d).
    rewrite iter_xO_val. rewrite Z.mod_mul by lia. reflexivity.
Qed.

Lemma of_Z_integer (z : Z) :
  fits_float z = true -> F64.is_integer (F64.of_Z z) = true.
Proof.
  unfold fits_float, F64.of_Z, binary_normalize.
  destruct z as [|p|p]; [reflexivity| |].
  - pose proof (binary_round_integer false p) as H.
    destruct (binary_round F64.prec F64.emax false p 0); try discriminate; tauto.
  - pose proof (binary_round_integer true p) as H.
    destruct (binary_round F64.prec F64.emax true p 0); try discriminate; tauto.
Qed.

Lemma format_number_int (z : Z) :
  fits_float z = true -> format_number (PyInt z) = ret (str_of_Z z).
Proof.
  intros Hz. pose proof (of_Z_integer z Hz) as Hi.
  unfold format_number, float_of_int. simpl isna. cbv iota.
  unfold fits_float in Hz.
  destruct (F64.of_Z z) as [s|s| |s m e]; try discriminate; unfold bind, ret;
    rewrite Hi; reflexivity.
Qed.

(** *** Rounding to hundredths *)






(** ** Results and frames: inversion lemmas *)

Lemma bind_ret {A B : Type} (m : result A) (k : A -> result B) (b : B) :
  bind m k = ret b -> exists a, m = ret a /\ k a = ret b.
Proof.
  unfold bind, ret. destruct m as [e|a]; [discriminate|]. intros H. exists a. auto.
Qed.

Lemma bind_ret_l {A B : Type} (a : A) (k : A -> result B) : bind (ret a) k = k a.
Proof. reflexivity. Qed.

Ltac inv_bind H :=
  let a := fresh "a" in
  let Ha := fresh "Ha" in
  apply bind_ret in H; destruct H as [a [Ha H]].

Tactic Notation "bind_inv" hyp(H) "as" ident(a) ident(Ha) :=
  apply bind_ret in H; destruct H as [a [Ha H]].

Ltac inv_ret H := unfold ret in H; injection H as H.

Lemma mapM_Forall2 {A B : Type} (f : A -> result B) (l : list A) (bs : list B) :
  mapM f l = ret bs -> Forall2 (fun a b => f a = ret b) l bs.
Proof.
  revert bs. induction l as [|a l IH]; intros bs H; simpl in H.
  - inv_ret H. subst. constructor.
  - inv_bind H. inv_bind H. inv_ret H. subst. constructor; auto.
Qed.

Lemma mapM_total {A B : Type} (f : A -> result B) (l : list A) :
  (forall a, In a l -> exists b, f a = ret b) -> exists bs, mapM f l = ret bs.
Proof.
  induction l as [|a l IH]; intros H; simpl.
  - eexists. reflexivity.
  - destruct (H a (or_introl eq_refl)) as [b Hb].
    destruct IH as [bs Hbs]; [intros; apply H; right; assumption|].
    exists (b :: bs). rewrite Hb. simpl. rewrite Hbs. reflexivity.
Qed.

Lemma mapM_raise {A B : Type} (f : A -> result B) (l : list A) (a : A) :
  In a l -> (forall b, f a <> ret b) -> forall bs, mapM f l <> ret bs.
Proof.
  intros Hin Hf bs H. apply mapM_Forall2 in H.
  revert Hin. induction H as [|x y l bs Hxy _ IH]; intros Hin; [contradiction|].
  destruct Hin as [->|Hin]; [exact (Hf _ Hxy)|auto].
Qed.

Lemma Forall2_length_eq {A B : Type} (R : A -> B -> Prop) (l : list A) (l' : list B) :
  Forall2 R l l' -> length l = length l'.
Proof. induction 1; simpl; congruence. Qed.

(** *** [select] *)

Lemma select_inv (names : list string) (df out : DataFrame) :
  select names df = ret out ->
  index out = index df
  /\ Forall2 (fun n nc => fst nc = n /\ lookup n (columns df) = Some (snd nc))
             names (columns out).
Proof.
  unfold select. intros H. inv_bind H. inv_ret H. subst out. simpl.
  split; [reflexivity|].
  apply mapM_Forall2 in Ha.
  induction Ha as [|n nc names cs Hn _ IH]; constructor; [|exact IH].
  bind_inv Hn as c Hc. inv_ret Hn. subst nc. simpl.
  apply getcol_lookup in Hc. auto.
Qed.

Lemma select_labels (names : list string) (df out : DataFrame) :
  select names df = ret out -> labels out = names.
Proof.
  intros H. apply select_inv in H. destruct H as [_ H]. unfold labels.
  induction H as [|n nc names cs [Hn _] _ IH]; simpl; congruence.
Qed.

Lemma select_present (names : list string) (df out : DataFrame) (n : string) :
  select names df = ret out -> In n names -> has_col n df = true.
Proof.
  intros H Hin. apply select_inv in H. destruct H as [_ H].
  induction H as [|n' nc names cs [_ Hl] _ IH]; [contradiction|].
  destruct Hin as [->|Hin]; [|auto].
  apply has_col_lookup. eauto.
Qed.

Lemma select_lookup (names : list string) (df out : DataFrame) (n : string) :
  select names df = ret out -> In n names ->
  lookup n (columns out) = lookup n (columns df).
Proof.
  intros H Hin. apply select_inv in H. destruct H as [_ H].
  induction H as [|n' [m c] names cs [Hn Hl] _ IH]; [contradiction|].
  simpl in *. subst m.
  destruct (String.eqb_spec n n') as [->|Hne]; [congruence|].
  destruct Hin as [Heq|Hin]; [congruence|auto].
Qed.

(** A selection fails at the first name the table lacks. *)
Lemma select_first_missing (pre post : list string) (n : string) (df : DataFrame) :
  (forall m, In m pre -> has_col m df = true) ->
  has_col n df = false ->
  select (pre ++ n :: post) df = raise (KeyError n).
Proof.
  intros Hpre Hn. unfold select.
  induction pre as [|m pre IH]; cbn [app mapM].
  - unfold getcol. apply has_col_false_lookup in Hn. rewrite Hn. reflexivity.
  - assert (Hm : has_col m df = true) by (apply Hpre; left; reflexivity).
    apply has_col_lookup in Hm. destruct Hm as [c Hc].
    unfold getcol at 1. rewrite Hc. rewrite !bind_ret_l.
    unfold bind, raise in *.
    destruct (mapM _ (pre ++ n :: post)) as [e|cs] eqn:Hmm.
    + rewrite <- IH; [reflexivity|]. intros k Hk. apply Hpre. right. exact Hk.
    + exfalso. assert (IH' := IH (fun k Hk => Hpre k (or_intror Hk))). discriminate.
Qed.

Lemma select_total (names : list string) (df : DataFrame) :
  (forall n, In n names -> has_col n df = true) ->
  exists out, select names df = ret out.
Proof.
  intros H. unfold select.
  destruct (mapM_total (fun n => c <- getcol df n ;; ret (n, c)) names) as [cs Hcs].
  - intros n Hn. apply H in Hn. apply has_col_lookup in Hn. destruct Hn as [c Hc].
    exists (n, c). apply getcol_lookup in Hc. rewrite Hc. reflexivity.
  - rewrite Hcs. eexists. reflexivity.
Qed.

Lemma select_missing (names : list string) (df : DataFrame) (n : string) :
  In n names -> has_col n df = false -> forall out, select names df <> ret out.
Proof.
  intros Hin Hn out H. apply (select_present _ _ _ n) in H; [congruence|exact Hin].
Qed.

(** *** [rename] and [setcol] *)

Lemma labels_rename (old new : string) (df : DataFrame) :
  labels (rename old new df)
  = map (fun n => if String.eqb n old then new else n) (labels df).
Proof. unfold labels, rename. simpl. rewrite !map_map. reflexivity. Qed.

Lemma rename_if_present_rename (old new : string) (df : DataFrame) :
  labels (rename_if_present old new df) = labels (rename old new df)
  /\ index (rename_if_present old new df) = index df
  /\ map snd (columns (rename_if_present old new df)) = map snd (columns df).
Proof.
  unfold rename_if_present.
  destruct (has_col old df) eqn:H.
  - repeat split. unfold rename. simpl. rewrite map_map. reflexivity.
  - repeat split. rewrite labels_rename.
    assert (Hn : ~ In old (labels df)).
    { intros Hin. apply has_col_In in Hin. congruence. }
    induction (labels df) as [|n l IH]; simpl; [reflexivity|].
    destruct (String.eqb_spec n old) as [->|Hne].
    + exfalso. apply Hn. left. reflexivity.
    + f_equal. apply IH. intros Hin. apply Hn. right. exact Hin.
Qed.

Lemma lookup_assign_same (name : string) (c : column) (cs : list (string * column)) :
  lookup name (assign name c cs) = Some c.
Proof.
  induction cs as [|[n c'] cs IH]; simpl.
  - rewrite String.eqb_refl. reflexivity.
  - destruct (String.eqb name n) eqn:E; simpl; rewrite E; [reflexivity|exact IH].
Qed.

Lemma lookup_assign_other (name n : string) (c : column) (cs : list (string * column)) :
  n <> name -> lookup n (assign name c cs) = lookup n cs.
Proof.
  intros Hne. induction cs as [|[m c'] cs IH]; simpl.
  - destruct (String.eqb_spec n name); [contradiction|reflexivity].
  - destruct (String.eqb_spec name m) as [->|Hm]; simpl.
    + destruct (String.eqb_spec n m); [contradiction|reflexivity].
    + destruct (String.eqb n m); [reflexivity|exact IH].
Qed.

Lemma has_col_setcol (df : DataFrame) (name n : string) (c : column) :
  has_col n df = true -> has_col n (setcol df name c) = true.
Proof.
  intros H. apply has_col_lookup in H. destruct H as [c' Hc'].
  apply has_col_lookup. unfold setcol. simpl.
  destruct (String.eqb_spec n name) as [->|Hne].
  - rewrite lookup_assign_same. eauto.
  - rewrite lookup_assign_other by exact Hne. eauto.
Qed.

(** ** The fallback of the Tackler Extractor *)

(** C10.  When the local file is absent and the scraping collaborator
    fails with a [KeyError], [get_top_tacklers_super_lig] does not let that
    error through: it raises a [RuntimeError] whose message names the
    cause (Sofascore's API response lacks the 'seasons' key) and the remedy
    (create 'tackles_joined.csv', which the function then loads). *)
Theorem scrape_key_error_is_explained {S : ArgSort} (w : World) (season : string)
    (top_n : Z) (min_age max_age : option Z) (k : string) :
  csv_file w = None ->
  scrape_player_league_stats w season = raise (KeyError k) ->
  get_top_tacklers_super_lig w season top_n min_age max_age
  = raise (RuntimeError scrape_failed_message)
  /\ get_top_tacklers_super_lig w season top_n min_age max_age <> raise (KeyError k)
  /\ contains "Sofascore" scrape_failed_message = true
  /\ contains "missing 'seasons' key in API response" scrape_failed_message = true
  /\ contains "create 'tackles_joined.csv'" scrape_failed_message = true
  /\ contains "load from it instead" scrape_failed_message = true.
Proof.
  intros Hcsv Hscrape.
  assert (H : get_top_tacklers_super_lig w season top_n min_age max_age
              = raise (RuntimeError scrape_failed_message)).
  { unfold get_top_tacklers_super_lig. rewrite Hcsv, Hscrape. reflexivity. }
  split; [exact H|]. split; [rewrite H; discriminate|].
  repeat split; vm_compute; reflexivity.
Qed.

(** A world without the local file, in which Sofascore's answer lacks the
    'seasons' key. *)
Definition drifted_world : World :=
  mkWorld None (fun _ => raise (KeyError "seasons")) (fun df _ _ _ => ret df).

Lemma scrape_key_error_witness :
  get_top_tacklers_super_lig (S := stable_kind) drifted_world "25/26" 15 None None
  = raise (RuntimeError scrape_failed_message)
  /\ get_top_tacklers_super_lig (S := stable_kind) drifted_world "25/26" 15 None None
     <> raise (KeyError "seasons")
  /\ contains "Sofascore" scrape_failed_message = true
  /\ contains "missing 'seasons' key in API response" scrape_failed_message = true
  /\ contains "create 'tackles_joined.csv'" scrape_failed_message = true
  /\ contains "load from it instead" scrape_failed_message = true.
Proof.
  apply (scrape_key_error_is_explained (S := stable_kind) drifted_world "25/26" 15
           None None "seasons"); reflexivity.
Defined.

(** ** Rows taken twice, and the head of a frame *)

Lemma take_take {A : Type} (d : A) (a b : list nat) (xs : list A) :
  Forall (fun i => (i < length b)%nat) a ->
  take d a (take d b xs) = take d (take 0%nat a b) xs.
Proof.
  intros Ha. unfold take. rewrite map_map.
  apply map_ext_in. intros i Hi. rewrite Forall_forall in Ha.
  apply (nth_take d b xs i). apply Ha. exact Hi.
Qed.

Lemma col_take_take (a b : list nat) (c : column) :
  Forall (fun i => (i < length b)%nat) a ->
  col_take a (col_take b c) = col_take (take 0%nat a b) c.
Proof. intros Ha. destruct c; simpl; rewrite take_take by exact Ha; reflexivity. Qed.

Lemma frame_take_take (a b : list nat) (df : DataFrame) :
  Forall (fun i => (i < length b)%nat) a ->
  frame_take a (frame_take b df) = frame_take (take 0%nat a b) df.
Proof.
  intros Ha. unfold frame_take. simpl. rewrite take_take by exact Ha. f_equal.
  rewrite map_map. apply map_ext. intros [n c]. simpl.
  rewrite col_take_take by exact Ha. reflexivity.
Qed.

Lemma take_seq_firstn {A : Type} (d : A) (h : nat) (xs : list A) :
  (h <= length xs)%nat -> take d (seq 0 h) xs = firstn h xs.
Proof.
  revert xs. induction h as [|h IH]; intros xs Hh; [reflexivity|].
  destruct xs as [|x xs]; simpl in Hh; [lia|].
  unfold take. cbn [seq map nth firstn]. f_equal.
  rewrite <- seq_shift. rewrite map_map. simpl. apply (IH xs). lia.
Qed.

Lemma head_frame_take (n : Z) (p : list nat) (df : DataFrame) :
  head n (frame_take p df) = frame_take (firstn (head_count n (length p)) p) df.
Proof.
  unfold head. rewrite nrows_frame_take.
  assert (Hh : (head_count n (length p) <= length p)%nat).
  { unfold head_count. destruct (0 <=? n); lia. }
  rewrite frame_take_take.
  - rewrite take_seq_firstn by exact Hh. reflexivity.
  - apply Forall_forall. intros i Hi. apply in_seq in Hi. lia.
Qed.

Lemma head_count_10 (len : nat) : head_count 10 len = Nat.min 10 len.
Proof. reflexivity. Qed.

Lemma nth_firstn_lt {A : Type} (d : A) (h i : nat) (xs : list A) :
  (i < h)%nat -> nth i (firstn h xs) d = nth i xs d.
Proof.
  revert i xs. induction h as [|h IH]; intros i xs Hi; [lia|].
  destruct xs as [|x xs]; [destruct i; reflexivity|].
  destruct i as [|i]; simpl; [reflexivity|]. apply IH. lia.
Qed.

Lemma In_firstn {A : Type} (n : nat) (l : list A) (x : A) :
  In x (firstn n l) -> In x l.
Proof.
  intros H. rewrite <- (firstn_skipn n l). apply in_or_app. left. exact H.
Qed.

(** *** The cells of a column, by row *)

Definition cell (c : column) (i : nat) : pyval := nth i (cells c) PyNone.

Lemma length_cells (c : column) : length (cells c) = col_len c.
Proof. destruct c; simpl; apply length_map. Qed.

Lemma cell_col_take (p : list nat) (c : column) (i : nat) :
  (i < length p)%nat -> (nth i p 0 < col_len c)%nat ->
  cell (col_take p c) i = cell c (nth i p 0%nat).
Proof.
  intros Hi Hp. unfold cell.
  destruct c as [xs|xs|xs]; simpl in *.
  - rewrite (nth_map_at _ _ F64.nan) by (rewrite length_take; exact Hi).
    rewrite (nth_map_at _ _ F64.nan) by exact Hp.
    rewrite nth_take by exact Hi. reflexivity.
  - rewrite (nth_map_at _ _ 0) by (rewrite length_take; exact Hi).
    rewrite (nth_map_at _ _ 0) by exact Hp.
    rewrite nth_take by exact Hi. reflexivity.
  - rewrite (nth_map_at _ _ None) by (rewrite length_take; exact Hi).
    rewrite (nth_map_at _ _ None) by exact Hp.
    rewrite nth_take by exact Hi. reflexivity.
Qed.

(** numpy's order on the cells of one column. *)
Definition cell_less (a b : pyval) : bool :=
  match a, b with
  | PyInt x, PyInt y => x <? y
  | PyFloat x, PyFloat y => F64.npy_less x y
  | PyStr s, PyStr t => String.ltb s t
  | _, _ => false
  end.

Lemma cell_float (xs : list spec_float) (k : nat) :
  (k < length xs)%nat -> cell (Float64 xs) k = PyFloat (nth k xs F64.nan).
Proof. intros Hk. unfold cell. simpl. apply nth_map_at. exact Hk. Qed.

Lemma cell_int (xs : list Z) (k : nat) :
  (k < length xs)%nat -> cell (Int64 xs) k = PyInt (nth k xs 0).
Proof. intros Hk. unfold cell. simpl. apply nth_map_at. exact Hk. Qed.

Lemma cell_object (xs : list (option string)) (k : nat) :
  (k < length xs)%nat ->
  cell (Object xs) k
  = match nth k xs None with Some s => PyStr s | None => PyFloat F64.nan end.
Proof.
  intros Hk. unfold cell. simpl.
  apply (nth_map_at
           (fun o : option string =>
              match o with Some s => PyStr s | None => PyFloat F64.nan end)).
  exact Hk.
Qed.

(** ** Sorting a column *)

Section ColumnSort.

Context {S : ArgSort}.

Lemma col_argsort_perm (c : column) (ascending : bool) :
  Permutation (col_argsort c ascending) (seq 0 (col_len c)).
Proof. destruct c; simpl; apply nargsort_perm. Qed.

Lemma col_argsort_length (c : column) (ascending : bool) :
  length (col_argsort c ascending) = col_len c.
Proof.
  rewrite (Permutation_length (col_argsort_perm c ascending)). apply length_seq.
Qed.

Lemma col_argsort_bound (c : column) (ascending : bool) (i : nat) :
  (i < col_len c)%nat -> (nth i (col_argsort c ascending) 0 < col_len c)%nat.
Proof.
  intros Hi.
  assert (Hin : In (nth i (col_argsort c ascending) 0%nat) (col_argsort c ascending)).
  { apply nth_In. rewrite col_argsort_length. exact Hi. }
  apply (Permutation_in _ (col_argsort_perm c ascending)) in Hin.
  apply in_seq in Hin. lia.
Qed.

Lemma col_argsort_NoDup (c : column) (ascending : bool) :
  NoDup (col_argsort c ascending).
Proof.
  apply (Permutation_NoDup (Permutation_sym (col_argsort_perm c ascending))).
  apply seq_NoDup.
Qed.

(** Missing cells sort last, ascending or descending. *)
Lemma col_argsort_missing_last (c : column) (ascending : bool) (i j : nat) :
  (i < j < col_len c)%nat ->
  isna (cell c (nth i (col_argsort c ascending) 0%nat)) = true ->
  isna (cell c (nth j (col_argsort c ascending) 0%nat)) = true.
Proof.
  intros Hij.
  pose proof (col_argsort_bound c ascending i ltac:(lia)) as Hbi.
  pose proof (col_argsort_bound c ascending j ltac:(lia)) as Hbj.
  destruct c as [xs|xs|xs]; simpl in *.
  - rewrite !cell_float by assumption. simpl.
    apply (nargsort_missing_last F64.npy_less F64.isnan F64.nan). exact Hij.
  - rewrite !cell_int by assumption. simpl. discriminate.
  - rewrite !cell_object by assumption.
    pose proof (nargsort_missing_last text_less is_none None xs ascending i j Hij) as H.
    destruct (nth (nth i (nargsort text_less is_none xs ascending) 0%nat) xs None);
      simpl; [discriminate|].
    intros _. specialize (H eq_refl).
    destruct (nth (nth j (nargsort text_less is_none xs ascending) 0%nat) xs None);
      [discriminate|reflexivity].
Qed.

(** The present cells of a numeric column stand in the requested order. *)
Lemma col_argsort_ordered (c : column) (ascending : bool) (i j : nat) :
  numeric c = true ->
  (i < j < col_len c)%nat ->
  isna (cell c (nth j (col_argsort c ascending) 0%nat)) = false ->
  (if ascending
   then cell_less (cell c (nth j (col_argsort c ascending) 0%nat))
                  (cell c (nth i (col_argsort c ascending) 0%nat))
   else cell_less (cell c (nth i (col_argsort c ascending) 0%nat))
                  (cell c (nth j (col_argsort c ascending) 0%nat))) = false.
Proof.
  intros Hnum Hij.
  pose proof (col_argsort_bound c ascending i ltac:(lia)) as Hbi.
  pose proof (col_argsort_bound c ascending j ltac:(lia)) as Hbj.
  destruct c as [xs|xs|xs]; simpl in *; try discriminate.
  - rewrite !cell_float by assumption. simpl. intros Hj.
    pose proof (nargsort_ordered F64.npy_less F64.isnan F64.nan xs ascending i j
                  npy_less_strict_weak Hij Hj) as H.
    destruct ascending; exact H.
  - rewrite !cell_int by assumption. simpl. intros _.
    pose proof (nargsort_ordered Z.ltb (fun _ => false) 0 xs ascending i j
                  Zltb_strict_weak Hij eq_refl) as H.
    destruct ascending; exact H.
Qed.

(** With a stable sorter, present cells that tie keep their input order. *)
Lemma col_argsort_stable (c : column) (ascending : bool) (i j : nat) :
  stable_sorter S ->
  (i < j < col_len c)%nat ->
  isna (cell c (nth j (col_argsort c ascending) 0%nat)) = false ->
  cell_less (cell c (nth i (col_argsort c ascending) 0%nat))
            (cell c (nth j (col_argsort c ascending) 0%nat)) = false ->
  cell_less (cell c (nth j (col_argsort c ascending) 0%nat))
            (cell c (nth i (col_argsort c ascending) 0%nat)) = false ->
  (nth i (col_argsort c ascending) 0 < nth j (col_argsort c ascending) 0)%nat.
Proof.
  intros Hst Hij.
  pose proof (col_argsort_bound c ascending i ltac:(lia)) as Hbi.
  pose proof (col_argsort_bound c ascending j ltac:(lia)) as Hbj.
  destruct c as [xs|xs|xs]; simpl in *.
  - rewrite !cell_float by assumption. simpl.
    apply (nargsort_stable F64.npy_less F64.isnan F64.nan); assumption.
  - rewrite !cell_int by assumption. simpl. intros _.
    apply (nargsort_stable Z.ltb (fun _ => false) 0); auto.
  - rewrite !cell_object by assumption.
    pose proof (nargsort_stable text_less is_none None xs ascending i j Hst Hij) as H.
    destruct (nth (nth j (nargsort text_less is_none xs ascending) 0%nat) xs None)
      as [t|] eqn:Ej; simpl; [|discriminate].
    intros _.
    destruct (nth (nth i (nargsort text_less is_none xs ascending) 0%nat) xs None)
      as [s|] eqn:Ei; simpl.
    + intros H1 H2. apply H; auto.
    + intros _ _. apply H; auto.
Qed.

(** Missing cells keep their input order. *)
Lemma col_argsort_missing_in_order (c : column) (ascending : bool) (i j : nat) :
  (i < j < col_len c)%nat ->
  isna (cell c (nth i (col_argsort c ascending) 0%nat)) = true ->
  (nth i (col_argsort c ascending) 0 < nth j (col_argsort c ascending) 0)%nat.
Proof.
  intros Hij.
  pose proof (col_argsort_bound c ascending i ltac:(lia)) as Hbi.
  destruct c as [xs|xs|xs]; simpl in *.
  - rewrite !cell_float by assumption. simpl.
    apply (nargsort_missing_in_order F64.npy_less F64.isnan F64.nan). exact Hij.
  - rewrite !cell_int by assumption. simpl. discriminate.
  - rewrite !cell_object by assumption. intros Hi.
    apply (nargsort_missing_in_order text_less is_none None xs ascending i j Hij).
    destruct (nth (nth i (nargsort text_less is_none xs ascending) 0%nat) xs None);
      [discriminate|reflexivity].
Qed.

End ColumnSort.

(** ** Element-wise operations, cell by cell *)

(** The float64 view of a numeric cell. *)
Definition float_view (v : pyval) : spec_float :=
  match v with
  | PyFloat f => f
  | PyInt z => F64.of_Z z
  | _ => F64.nan
  end.

(** [v >= k], [v <= k] and [v < k] for a cell [v] of a numeric column and
    an integer [k]. *)
Definition cell_ge (v : pyval) (k : Z) : bool :=
  match v with
  | PyInt x => k <=? x
  | PyFloat f => F64.geb f (F64.of_Z k)
  | _ => false
  end.

Definition cell_le (v : pyval) (k : Z) : bool :=
  match v with
  | PyInt x => x <=? k
  | PyFloat f => F64.leb f (F64.of_Z k)
  | _ => false
  end.

Definition cell_lt (v : pyval) (k : Z) : bool :=
  match v with
  | PyInt x => x <? k
  | PyFloat f => F64.ltb f (F64.of_Z k)
  | _ => false
  end.

(** The per-90 value of one row: [metric / (minutes / 90.0)]. *)
Definition per90 (metric minutes : spec_float) : spec_float :=
  F64.div metric (F64.div minutes F64.ninety).

Lemma cell_ge_not_lt (v : pyval) (k : Z) : cell_ge v k = true -> cell_lt v k = false.
Proof.
  destruct v as [|x|f|s]; simpl; try reflexivity.
  - intros H. bool_arith.
  - apply geb_not_ltb.
Qed.

Lemma as_float_view (c : column) (xs : list spec_float) :
  as_float c = ret xs -> xs = map float_view (cells c).
Proof.
  destruct c as [ys|ys|ys]; simpl.
  - intros H. inv_ret H. subst. rewrite map_map. simpl. symmetry. apply map_id.
  - intros H. inv_ret H. subst. rewrite map_map. reflexivity.
  - revert xs. induction ys as [|[s|] ys IH]; intros xs H; simpl in *.
    + inv_ret H. subst. reflexivity.
    + discriminate.
    + bind_inv H as zs Hzs. inv_ret H. subst. f_equal. apply IH. exact Hzs.
Qed.

Lemma as_float_total (c : column) :
  numeric c = true -> exists xs, as_float c = ret xs.
Proof. destruct c; simpl; try discriminate; eexists; reflexivity. Qed.

Lemma geb_nan (y : spec_float) : F64.geb F64.nan y = false.
Proof. destruct y; reflexivity. Qed.

Lemma ge_scalar_cells (c : column) (k : Z) (m : list bool) :
  ge_scalar c k = ret m -> m = map (fun v => cell_ge v k) (cells c).
Proof.
  destruct c as [ys|ys|ys]; unfold ge_scalar.
  - intros H. bind_inv H as xs Hxs. inv_ret H. subst.
    apply as_float_view in Hxs. subst. simpl. rewrite !map_map. reflexivity.
  - intros H. inv_ret H. subst. simpl. rewrite map_map. reflexivity.
  - intros H. bind_inv H as xs Hxs. inv_ret H. subst.
    apply as_float_view in Hxs. subst. simpl. rewrite !map_map.
    apply map_ext. intros [s|]; simpl; rewrite ?geb_nan; reflexivity.
Qed.

Lemma le_scalar_cells (c : column) (k : Z) (m : list bool) :
  le_scalar c k = ret m -> m = map (fun v => cell_le v k) (cells c).
Proof.
  destruct c as [ys|ys|ys]; unfold le_scalar.
  - intros H. bind_inv H as xs Hxs. inv_ret H. subst.
    apply as_float_view in Hxs. subst. simpl. rewrite !map_map. reflexivity.
  - intros H. inv_ret H. subst. simpl. rewrite map_map. reflexivity.
  - intros H. bind_inv H as xs Hxs. inv_ret H. subst.
    apply as_float_view in Hxs. subst. simpl. rewrite !map_map.
    apply map_ext. intros [s|]; simpl; rewrite ?geb_nan; reflexivity.
Qed.

Lemma ge_scalar_total (c : column) (k : Z) :
  numeric c = true -> exists m, ge_scalar c k = ret m.
Proof. destruct c; simpl; try discriminate; eexists; reflexivity. Qed.

Lemma le_scalar_total (c : column) (k : Z) :
  numeric c = true -> exists m, le_scalar c k = ret m.
Proof. destruct c; simpl; try discriminate; eexists; reflexivity. Qed.

(** *** Masks *)

Lemma where_true_In (m : list bool) (i : nat) :
  In i (where_true m) <-> (i < length m)%nat /\ nth i m false = true.
Proof.
  unfold where_true. fold (enumerate m). rewrite in_map_iff. split.
  - intros [p [<- Hp]]. apply filter_In in Hp. destruct Hp as [Hp Hs].
    destruct (In_enumerate false m p Hp) as [Hlt Hn]. split; [exact Hlt|congruence].
  - intros [Hi Hn]. exists (i, nth i m false). split; [reflexivity|].
    apply filter_In. split; [|exact Hn].
    rewrite <- (nth_enumerate false m i Hi). apply nth_In.
    rewrite length_enumerate. exact Hi.
Qed.

Lemma ForallOrdPairs_map_fst {A : Type} (l : list (nat * A)) :
  ForallOrdPairs (fun p q : nat * A => (fst p < fst q)%nat) l ->
  ForallOrdPairs lt (map fst l).
Proof.
  induction 1 as [|a l Ha _ IH]; simpl; constructor; [|exact IH].
  rewrite Forall_forall in *. intros x Hx.
  apply in_map_iff in Hx. destruct Hx as [q [<- Hq]]. auto.
Qed.

Lemma where_true_increasing (m : list bool) : ForallOrdPairs lt (where_true m).
Proof.
  unfold where_true. fold (enumerate m).
  apply ForallOrdPairs_map_fst. apply ForallOrdPairs_filter.
  apply enumerate_increasing.
Qed.

Lemma where_true_length (m : list bool) : (length (where_true m) <= length m)%nat.
Proof.
  unfold where_true. rewrite length_map.
  etransitivity; [apply filter_length_le|].
  rewrite length_combine, length_seq. lia.
Qed.

(** The rows of [df[mask]] are rows of [df] at which the mask holds. *)
Lemma frame_filter_index (m : list bool) (df : DataFrame) (l : nat) :
  In l (index (frame_filter m df)) ->
  exists i, (i < length m)%nat /\ nth i m false = true /\ l = nth i (index df) 0%nat.
Proof.
  unfold frame_filter, frame_take, take. simpl. intros H.
  apply in_map_iff in H. destruct H as [i [<- Hi]].
  apply where_true_In in Hi. exists i. tauto.
Qed.

Lemma frame_filter_keeps (m : list bool) (df : DataFrame) (i : nat) :
  (i < length m)%nat -> nth i m false = true ->
  In (nth i (index df) 0%nat) (index (frame_filter m df)).
Proof.
  intros Hi Hn. unfold frame_filter, frame_take, take. simpl.
  apply in_map_iff. exists i. split; [reflexivity|].
  apply where_true_In. tauto.
Qed.

Lemma frame_take_index_In (p : list nat) (df : DataFrame) (l : nat) :
  Forall (fun i => (i < nrows df)%nat) p ->
  In l (index (frame_take p df)) -> In l (index df).
Proof.
  unfold frame_take, take. simpl. intros Hp H.
  apply in_map_iff in H. destruct H as [i [<- Hi]].
  rewrite Forall_forall in Hp. apply nth_In. apply Hp. exact Hi.
Qed.

(** ** The steps of [build_top_table], inverted *)

Lemma combine_map_both {A B C D : Type} (f : A -> C) (g : B -> D)
    (a : list A) (b : list B) :
  combine (map f a) (map g b) = map (fun p => (f (fst p), g (snd p))) (combine a b).
Proof.
  revert b. induction a as [|x a IH]; intros [|y b]; simpl; try reflexivity.
  rewrite IH. reflexivity.
Qed.

Lemma firstn_min {A : Type} (n : nat) (l : list A) :
  firstn (Nat.min n (length l)) l = firstn n l.
Proof.
  destruct (Nat.le_ge_cases n (length l)) as [H|H].
  - rewrite Nat.min_l by exact H. reflexivity.
  - rewrite Nat.min_r by exact H. rewrite firstn_all. symmetry. apply firstn_all2. exact H.
Qed.

(** The label a column of [work] carries in the display table: lines
    65-76 applied to one label. *)
Definition relabel (old new n : string) : string :=
  if String.eqb n old then new else n.

Definition display_label (metric metric_col n : string) : string :=
  relabel "country" "Country"
    (relabel "age_y" "Age"
       (relabel "age_x" "Age"
          (relabel "age" "Age"
             (relabel metric_col (title (replace_char "_" " " metric)) n)))).

Definition extras_list (extra_cols : option (list string)) : list string :=
  match extra_cols with
  | Some l => l
  | None => []
  end.

Section ProgramFacts.

Context {S : ArgSort}.

Lemma sort_values_inv (by_ : string) (ascending : bool) (df sorted : DataFrame) :
  sort_values by_ ascending df = ret sorted ->
  exists c, lookup by_ (columns df) = Some c
            /\ sorted = frame_take (col_argsort c ascending) df.
Proof.
  unfold sort_values. intros H. bind_inv H as c Hc. inv_ret H.
  apply getcol_lookup in Hc. exists c. auto.
Qed.

(** The ten best rows are the first ten positions of the sorting
    permutation, taken from the qualifying rows. *)
Lemma rank_rows_inv (df : DataFrame) (metric : string) (per_90 : bool)
    (min_minutes : Z) (ascending : bool) (work : DataFrame) (mc : string) :
  rank_rows df metric per_90 min_minutes ascending = ret (work, mc) ->
  exists keyed c,
    keyed_rows df metric per_90 min_minutes = ret (keyed, mc)
    /\ lookup mc (columns keyed) = Some c
    /\ work = frame_take (firstn 10 (col_argsort c ascending)) keyed.
Proof.
  unfold rank_rows. intros H. bind_inv H as wm Hwm. bind_inv H as sorted Hs.
  destruct wm as [keyed mc']. simpl in *. inv_ret H. subst mc'.
  apply sort_values_inv in Hs. destruct Hs as [c [Hc ->]].
  exists keyed, c. repeat split; try assumption.
  rewrite <- H. rewrite head_frame_take, head_count_10. rewrite firstn_min. reflexivity.
Qed.

Lemma filter_minutes_inv (df q : DataFrame) (min_minutes : Z) :
  filter_minutes df min_minutes = ret q ->
  (q = df /\ has_col "minutesPlayed" df && (0 <? min_minutes) = false)
  \/ (has_col "minutesPlayed" df = true /\ 0 < min_minutes
      /\ exists c, lookup "minutesPlayed" (columns df) = Some c
                   /\ numeric c || forallb isna (cells c) = true
                   /\ q = frame_filter (map (fun v => cell_ge v min_minutes) (cells c)) df).
Proof.
  unfold filter_minutes.
  destruct (has_col "minutesPlayed" df) eqn:Hh; simpl.
  - destruct (Z.ltb_spec 0 min_minutes) as [Hm|Hm].
    + intros H. bind_inv H as c Hc. bind_inv H as m Hm'. inv_ret H.
      right. repeat split; try assumption.
      apply getcol_lookup in Hc. exists c. split; [exact Hc|].
      split.
      * destruct c as [xs|xs|xs]; try reflexivity. simpl.
        unfold ge_scalar in Hm'. bind_inv Hm' as ys Hys. clear - Hys. revert ys Hys.
        induction xs as [|[s|] xs IH]; intros ys H; simpl in *; try reflexivity.
        -- discriminate.
        -- bind_inv H as zs Hzs. eauto.
      * apply ge_scalar_cells in Hm'. subst. reflexivity.
    + intros H. inv_ret H. left. auto.
  - intros H. inv_ret H. left. auto.
Qed.

Lemma per90_values_inv (q : DataFrame) (metric : string) (v : list spec_float) :
  per90_values q metric = ret v ->
  exists mc mins,
    lookup metric (columns q) = Some mc
    /\ lookup "minutesPlayed" (columns q) = Some mins
    /\ v = map (fun xm => per90 (float_view (fst xm)) (float_view (snd xm)))
               (combine (cells mc) (cells mins)).
Proof.
  unfold per90_values, div_scalar, div_series. intros H.
  bind_inv H as mc Hmc. bind_inv H as mins Hmins. bind_inv H as per Hper.
  bind_inv Hper as ms Hms. inv_ret Hper. bind_inv H as xs Hxs. inv_ret H.
  apply getcol_lookup in Hmc, Hmins.
  apply as_float_view in Hms, Hxs. subst.
  exists mc, mins. repeat split; try assumption.
  rewrite map_map, combine_map_both, map_map. reflexivity.
Qed.

Lemma per90_values_total (q : DataFrame) (metric : string) :
  numeric_at metric q = true -> numeric_at "minutesPlayed" q = true ->
  exists v, per90_values q metric = ret v.
Proof.
  unfold numeric_at, per90_values, getcol.
  destruct (lookup metric (columns q)) as [mc|]; [|discriminate].
  destruct (lookup "minutesPlayed" (columns q)) as [mins|]; [|discriminate].
  intros Hmc Hmins. simpl. unfold div_scalar, div_series.
  destruct (as_float_total mins Hmins) as [ms ->].
  destruct (as_float_total mc Hmc) as [xs ->].
  simpl. eexists. reflexivity.
Qed.

Lemma keyed_rows_inv (df : DataFrame) (metric : string) (per_90 : bool)
    (min_minutes : Z) (keyed : DataFrame) (mc : string) :
  keyed_rows df metric per_90 min_minutes = ret (keyed, mc) ->
  exists q,
    filter_minutes df min_minutes = ret q
    /\ ((keyed = q /\ mc = metric /\ per_90 && has_col "minutesPlayed" q = false)
        \/ (per_90 = true /\ has_col "minutesPlayed" q = true
            /\ mc = metric ++ "_per90"
            /\ exists v, per90_values q metric = ret v
                         /\ keyed = setcol q mc (Float64 v))).
Proof.
  unfold keyed_rows, add_per90. intros H. bind_inv H as q Hq. exists q.
  split; [exact Hq|].
  destruct (per_90 && has_col "minutesPlayed" q) eqn:Hp.
  - bind_inv H as v Hv. inv_ret H. subst.
    apply andb_true_iff in Hp. destruct Hp as [-> Hh].
    right. repeat split; try assumption. exists v. auto.
  - inv_ret H. subst. left. auto.
Qed.

End ProgramFacts.

(** ** The display table *)

Lemma format_number_float_total (f : spec_float) :
  exists s, format_number (PyFloat f) = ret s.
Proof.
  unfold format_number.
  destruct f as [s|s| |s m e]; simpl; try (eexists; reflexivity).
  destruct (if 0 <=? e then true else Zpos m mod 2 ^ (- e) =? 0); eexists; reflexivity.
Qed.

Lemma format_number_total (v : pyval) :
  match v with PyInt z => fits_float z = true | _ => True end ->
  exists s, format_number v = ret s.
Proof.
  destruct v as [|z|f|s]; intros H.
  - eexists. reflexivity.
  - rewrite format_number_int by exact H. eexists. reflexivity.
  - apply format_number_float_total.
  - eexists. reflexivity.
Qed.

Lemma format_column_total (c : column) :
  col_fits c = true -> exists c', format_column c = ret c'.
Proof.
  intros Hc. unfold format_column.
  destruct (mapM_total format_number (cells c)) as [strs Hs].
  - intros v Hv. apply format_number_total.
    destruct c as [xs|xs|xs]; simpl in *.
    + apply in_map_iff in Hv. destruct Hv as [x [<- _]]. exact I.
    + apply in_map_iff in Hv. destruct Hv as [x [<- Hx]].
      rewrite forallb_forall in Hc. apply Hc. exact Hx.
    + apply in_map_iff in Hv. destruct Hv as [[s|] [<- _]]; exact I.
  - rewrite Hs. eexists. reflexivity.
Qed.

Lemma format_column_len (c c' : column) :
  format_column c = ret c' -> col_len c' = col_len c.
Proof.
  unfold format_column. intros H. bind_inv H as strs Hs. inv_ret H. subst c'.
  apply mapM_Forall2 in Hs. apply Forall2_length_eq in Hs.
  simpl. rewrite length_map, <- Hs. apply length_cells.
Qed.

Lemma format_columns_inv (d out : DataFrame) :
  format_columns d = ret out ->
  index out = index d
  /\ Forall2 (fun nc nc' : string * column =>
                fst nc' = fst nc
                /\ if mem (fst nc) unformatted then snd nc' = snd nc
                   else format_column (snd nc) = ret (snd nc'))
             (columns d) (columns out).
Proof.
  unfold format_columns. intros H. bind_inv H as cs Hcs. inv_ret H. subst out.
  cbn [index columns]. split; [reflexivity|].
  apply mapM_Forall2 in Hcs.
  induction Hcs as [|nc nc' l l' Hnc _ IH]; constructor; [|exact IH].
  cbv beta in *. destruct (mem (fst nc) unformatted).
  - inv_ret Hnc. subst. auto.
  - bind_inv Hnc as c Hc. inv_ret Hnc. subst. cbn [fst snd]. auto.
Qed.

Lemma format_columns_labels (d out : DataFrame) :
  format_columns d = ret out -> labels out = labels d.
Proof.
  intros H. apply format_columns_inv in H. destruct H as [_ H]. unfold labels.
  induction H as [|nc nc' l l' [Hn _] _ IH]; simpl; congruence.
Qed.

Lemma format_columns_ok (d out : DataFrame) :
  format_columns d = ret out -> frame_ok d = true -> frame_ok out = true.
Proof.
  intros H Hok. apply format_columns_inv in H. destruct H as [Hix H].
  unfold frame_ok, nrows in *. rewrite Hix.
  rewrite forallb_forall in Hok. apply forallb_forall.
  induction H as [|nc nc' l l' [_ Hc] _ IH]; intros x Hx; [contradiction|].
  destruct Hx as [<-|Hx].
  - assert (Hl : col_len (snd nc') = col_len (snd nc)).
    { destruct (mem (fst nc) unformatted); [congruence|apply format_column_len; exact Hc]. }
    rewrite Hl. apply (Hok nc). left. reflexivity.
  - apply IH; [|exact Hx]. intros y Hy. apply Hok. right. exact Hy.
Qed.

Lemma format_columns_total (d : DataFrame) :
  (forall nc, In nc (columns d) ->
     mem (fst nc) unformatted = true \/ col_fits (snd nc) = true) ->
  exists out, format_columns d = ret out.
Proof.
  intros H. unfold format_columns.
  destruct (mapM_total
              (fun nc : string * column =>
                 if mem (fst nc) unformatted then ret nc
                 else c <- format_column (snd nc) ;; ret (fst nc, c))
              (columns d)) as [cs Hcs].
  - intros nc Hnc. destruct (mem (fst nc) unformatted) eqn:Hm.
    + eexists. reflexivity.
    + destruct (H nc Hnc) as [Hc|Hc]; [congruence|].
      destruct (format_column_total _ Hc) as [c' ->]. eexists. reflexivity.
  - rewrite Hcs. eexists. reflexivity.
Qed.

Lemma labels_rename_if_present (old new : string) (df : DataFrame) :
  labels (rename_if_present old new df) = map (relabel old new) (labels df).
Proof.
  destruct (rename_if_present_rename old new df) as [H _]. rewrite H.
  apply labels_rename.
Qed.

Lemma index_rename_if_present (old new : string) (df : DataFrame) :
  index (rename_if_present old new df) = index df.
Proof. destruct (rename_if_present_rename old new df) as [_ [H _]]. exact H. Qed.

Lemma frame_ok_columns (df df' : DataFrame) :
  index df' = index df -> map snd (columns df') = map snd (columns df) ->
  frame_ok df = true -> frame_ok df' = true.
Proof.
  unfold frame_ok, nrows. intros Hix Hcs Hok. rewrite Hix.
  rewrite forallb_forall in *. intros [n c] Hin.
  assert (Hc : In c (map snd (columns df'))) by (apply in_map_iff; exists (n, c); auto).
  rewrite Hcs in Hc. apply in_map_iff in Hc. destruct Hc as [[n' c'] [Heq Hin']].
  simpl in Heq. subst c'. apply (Hok _ Hin').
Qed.

Lemma frame_ok_rename (old new : string) (df : DataFrame) :
  frame_ok df = true -> frame_ok (rename old new df) = true.
Proof.
  apply frame_ok_columns; [reflexivity|].
  unfold rename. simpl. rewrite map_map. reflexivity.
Qed.

Lemma frame_ok_rename_if_present (old new : string) (df : DataFrame) :
  frame_ok df = true -> frame_ok (rename_if_present old new df) = true.
Proof.
  destruct (rename_if_present_rename old new df) as [_ [H1 H2]].
  apply frame_ok_columns; assumption.
Qed.

Lemma frame_ok_select (names : list string) (df out : DataFrame) :
  select names df = ret out -> frame_ok df = true -> frame_ok out = true.
Proof.
  intros H Hok. apply select_inv in H. destruct H as [Hix H].
  unfold frame_ok, nrows. rewrite Hix. apply forallb_forall.
  induction H as [|n nc names cs [_ Hl] _ IH]; intros x Hx; [contradiction|].
  destruct Hx as [<-|Hx]; [|auto].
  apply Nat.eqb_eq. apply (frame_ok_lookup df n); assumption.
Qed.

(** What [display_table] returns: the rows of [work], under the labels of
    the display. *)
Lemma display_table_inv (work : DataFrame) (metric mc : string)
    (extra_cols : option (list string)) (display : DataFrame) :
  display_table work metric mc extra_cols = ret display ->
  index display = index work
  /\ labels display
     = map (display_label metric mc) ("Rk" :: display_cols mc extra_cols)
  /\ (forall n, In n (display_cols mc extra_cols) -> has_col n work = true)
  /\ mem "Rk" (display_cols mc extra_cols) = false
  /\ (frame_ok work = true -> frame_ok display = true).
Proof.
  unfold display_table. intros H.
  bind_inv H as sel Hsel. bind_inv H as ins Hins.
  unfold insert_first in Hins.
  destruct (has_col "Rk" sel) eqn:HRk; [discriminate|]. inv_ret Hins.
  pose proof (select_labels _ _ _ Hsel) as Hlab.
  pose proof (select_inv _ _ _ Hsel) as [Hix _].
  split.
  { apply format_columns_inv in H. destruct H as [H _]. rewrite H.
    rewrite !index_rename_if_present. subst ins. simpl. exact Hix. }
  split.
  { apply format_columns_labels in H. rewrite H.
    rewrite !labels_rename_if_present, labels_rename. subst ins.
    unfold labels at 1. simpl. fold (labels sel). rewrite Hlab.
    unfold display_label, relabel. rewrite !map_map. reflexivity. }
  split.
  { intros n Hn. apply (select_present _ _ _ n Hsel Hn). }
  split.
  { unfold has_col in HRk. rewrite Hlab in HRk. exact HRk. }
  intros Hok. apply (format_columns_ok _ _ H).
  repeat apply frame_ok_rename_if_present. apply frame_ok_rename.
  pose proof (frame_ok_select _ _ _ Hsel Hok) as Hsok.
  subst ins. unfold frame_ok, nrows in *. simpl.
  rewrite Hsok. rewrite length_map, length_seq, Nat.eqb_refl. reflexivity.
Qed.

Lemma lookup_In (name : string) (cs : list (string * column)) (c : column) :
  lookup name cs = Some c -> In (name, c) cs.
Proof.
  induction cs as [|[n c'] cs IH]; simpl; [discriminate|].
  destruct (String.eqb_spec name n) as [->|Hne].
  - intros H. injection H as ->. left. reflexivity.
  - intros H. right. apply IH. exact H.
Qed.

Lemma columns_rename_if_present (old new : string) (df : DataFrame) :
  columns (rename_if_present old new df)
  = map (fun nc => (relabel old new (fst nc), snd nc)) (columns df).
Proof.
  unfold rename_if_present. destruct (has_col old df) eqn:H; [reflexivity|].
  symmetry. rewrite <- (map_id (columns df)) at 2.
  apply map_ext_in. intros [n c] Hin. simpl. unfold relabel.
  destruct (String.eqb_spec n old) as [->|Hne]; [|reflexivity].
  exfalso. assert (Hc : has_col old df = true).
  { apply has_col_In. unfold labels. apply in_map_iff. exists (old, c). auto. }
  congruence.
Qed.

Lemma col_fits_take (p : list nat) (c : column) :
  col_fits c = true -> col_fits (col_take p c) = true.
Proof.
  destruct c as [xs|xs|xs]; simpl; try reflexivity.
  intros H. rewrite forallb_forall in *. intros z Hz.
  unfold take in Hz. apply in_map_iff in Hz. destruct Hz as [i [<- _]].
  destruct (nth_in_or_default i xs 0) as [Hin| ->]; [auto|reflexivity].
Qed.

Lemma ints_fit_take (p : list nat) (df : DataFrame) :
  ints_fit df = true -> ints_fit (frame_take p df) = true.
Proof.
  unfold ints_fit, frame_take. simpl. intros H.
  rewrite forallb_forall in *. intros nc Hnc.
  apply in_map_iff in Hnc. destruct Hnc as [[n c] [<- Hin]]. simpl.
  apply col_fits_take. apply (H _ Hin).
Qed.

Lemma ints_fit_lookup (df : DataFrame) (name : string) (c : column) :
  ints_fit df = true -> lookup name (columns df) = Some c -> col_fits c = true.
Proof.
  unfold ints_fit. intros H Hl. rewrite forallb_forall in H.
  apply (H _ (lookup_In _ _ _ Hl)).
Qed.

Lemma assign_In (name : string) (c : column) (cs : list (string * column))
    (nc : string * column) :
  In nc (assign name c cs) -> In nc cs \/ nc = (name, c).
Proof.
  induction cs as [|[n c'] cs IH]; simpl.
  - intros [<-|[]]. right. reflexivity.
  - destruct (String.eqb_spec name n) as [->|Hne]; simpl.
    + intros [<-|H]; auto.
    + intros [<-|H]; auto. destruct (IH H); auto.
Qed.

Lemma ints_fit_setcol_float (df : DataFrame) (name : string) (v : list spec_float) :
  ints_fit df = true -> ints_fit (setcol df name (Float64 v)) = true.
Proof.
  unfold ints_fit, setcol. simpl. intros H. rewrite forallb_forall in *.
  intros nc Hnc. apply assign_In in Hnc. destruct Hnc as [Hnc| ->]; [auto|reflexivity].
Qed.

Lemma frame_ok_setcol (df : DataFrame) (name : string) (c : column) :
  frame_ok df = true -> col_len c = nrows df -> frame_ok (setcol df name c) = true.
Proof.
  unfold frame_ok, setcol, nrows. simpl. intros H Hc. rewrite forallb_forall in *.
  intros nc Hnc. apply assign_In in Hnc. destruct Hnc as [Hnc| ->]; [auto|].
  simpl. apply Nat.eqb_eq. exact Hc.
Qed.

Lemma display_table_total (work : DataFrame) (metric mc : string)
    (extra_cols : option (list string)) :
  (forall n, In n (display_cols mc extra_cols) -> has_col n work = true) ->
  mem "Rk" (display_cols mc extra_cols) = false ->
  ints_fit work = true ->
  exists display, display_table work metric mc extra_cols = ret display.
Proof.
  intros Hcols HRk Hfit. unfold display_table.
  destruct (select_total _ _ Hcols) as [sel Hsel]. rewrite Hsel.
  pose proof (select_labels _ _ _ Hsel) as Hlab.
  assert (Hmc : String.eqb "Rk" mc = false).
  { destruct (String.eqb "Rk" mc) eqn:E; [|reflexivity]. exfalso.
    assert (Hc : mem "Rk" (display_cols mc extra_cols) = true); [|congruence].
    apply existsb_exists. exists mc. split; [|exact E].
    unfold display_cols. right. right. left. reflexivity. }
  assert (HRk' : has_col "Rk" sel = false).
  { unfold has_col. rewrite Hlab. exact HRk. }
  unfold bind, insert_first, ret. rewrite HRk'.
  apply format_columns_total. intros nc Hnc.
  rewrite !columns_rename_if_present in Hnc. unfold rename in Hnc.
  cbn [columns] in Hnc. rewrite !map_map in Hnc. cbn [map In fst snd] in Hnc.
  destruct Hnc as [<-|Hnc].
  - left. cbn [fst]. rewrite Hmc. reflexivity.
  - right. apply in_map_iff in Hnc. destruct Hnc as [[n c] [<- Hin]]. cbn [snd].
    apply select_inv in Hsel. destruct Hsel as [_ Hsel].
    clear - Hsel Hin Hfit.
    induction Hsel as [|n' nc names cs [_ Hl] _ IH]; [contradiction|].
    destruct Hin as [->|Hin]; [|auto].
    simpl in Hl. apply (ints_fit_lookup work n'); assumption.
Qed.

(** ** The size of the leaderboard *)

(** A table [build_top_table] accepts: whole columns, the identifier
    columns, a numeric ranking column (and minutes column, when there is
    one), every requested extra column, and no column that would clash
    with the rank column. *)
Definition leaderboard_input_ok (df : DataFrame) (metric : string)
    (extra_cols : option (list string)) : bool :=
  frame_ok df && ints_fit df
  && has_col "player" df && has_col "team" df
  && numeric_at metric df
  && implb (has_col "minutesPlayed" df) (numeric_at "minutesPlayed" df)
  && forallb (fun e => has_col e df) (extras_list extra_cols)
  && negb (mem "Rk" (display_cols metric extra_cols)).

Lemma numeric_col_take (p : list nat) (c : column) : numeric (col_take p c) = numeric c.
Proof. destruct c; reflexivity. Qed.

Lemma numeric_at_frame_take (p : list nat) (df : DataFrame) (name : string) :
  numeric_at name (frame_take p df) = numeric_at name df.
Proof.
  unfold numeric_at. rewrite lookup_frame_take.
  destruct (lookup name (columns df)); simpl; [apply numeric_col_take|reflexivity].
Qed.

Lemma numeric_at_has_col (name : string) (df : DataFrame) :
  numeric_at name df = true -> has_col name df = true.
Proof.
  unfold numeric_at. intros H. apply has_col_lookup.
  destruct (lookup name (columns df)) as [c|]; [eauto|discriminate].
Qed.

Lemma Rk_not_per90 (metric : string) : String.eqb "Rk" (metric ++ "_per90") = false.
Proof.
  apply String.eqb_neq.
  destruct metric as [|a [|b [|c m]]]; simpl; intros H; discriminate.
Qed.

Lemma mem_display_cols_Rk (metric mc : string) (extra_cols : option (list string)) :
  mc = metric \/ mc = metric ++ "_per90" ->
  mem "Rk" (display_cols metric extra_cols) = false ->
  mem "Rk" (display_cols mc extra_cols) = false.
Proof.
  intros [->| ->] H; [exact H|].
  unfold mem, display_cols in *. cbn [existsb app] in *.
  rewrite Rk_not_per90.
  destruct (String.eqb "Rk" "player"), (String.eqb "Rk" "team"),
    (String.eqb "Rk" metric); simpl in *; try discriminate; exact H.
Qed.

Lemma length_cells_lookup (df : DataFrame) (name : string) (c : column) :
  frame_ok df = true -> lookup name (columns df) = Some c ->
  length (cells c) = nrows df.
Proof. intros Hok Hl. rewrite length_cells. apply (frame_ok_lookup df name); assumption. Qed.

Section LeaderboardSize.

Context {S : ArgSort}.

Lemma filter_minutes_total (df : DataFrame) (min_minutes : Z) :
  implb (has_col "minutesPlayed" df) (numeric_at "minutesPlayed" df) = true ->
  exists q, filter_minutes df min_minutes = ret q
            /\ (q = df \/ exists m, q = frame_filter m df).
Proof.
  intros H. unfold filter_minutes.
  destruct (has_col "minutesPlayed" df) eqn:Hh; simpl in *.
  - destruct (0 <? min_minutes).
    + unfold numeric_at, getcol in *.
      destruct (lookup "minutesPlayed" (columns df)) as [c|]; [|discriminate].
      destruct (ge_scalar_total c min_minutes H) as [m Hm].
      simpl. rewrite Hm. simpl. eexists. split; [reflexivity|]. right. eauto.
    + eexists. split; [reflexivity|]. left. reflexivity.
  - eexists. split; [reflexivity|]. left. reflexivity.
Qed.

(** The qualifying rows and their ranking column exist for an accepted
    table. *)
Lemma keyed_rows_total (df : DataFrame) (metric : string) (per_90 : bool)
    (min_minutes : Z) (extra_cols : option (list string)) :
  leaderboard_input_ok df metric extra_cols = true ->
  exists q keyed mc c,
    filter_minutes df min_minutes = ret q
    /\ keyed_rows df metric per_90 min_minutes = ret (keyed, mc)
    /\ lookup mc (columns keyed) = Some c
    /\ nrows keyed = nrows q
    /\ frame_ok keyed = true /\ ints_fit keyed = true
    /\ (forall n, has_col n df = true -> has_col n keyed = true)
    /\ (mc = metric \/ mc = metric ++ "_per90").
Proof.
  unfold leaderboard_input_ok. intros H.
  repeat (apply andb_true_iff in H; destruct H as [H ?]).
  rename H into Hok, H0 into HRk, H1 into Hextras, H2 into Hmin, H3 into Hnum,
    H4 into Hteam, H5 into Hplayer, H6 into Hfit.
  destruct (filter_minutes_total df min_minutes Hmin) as [q [Hq Hshape]].
  assert (Hq_ok : frame_ok q = true).
  { destruct Hshape as [->|[m ->]]; [exact Hok|apply frame_ok_take]. }
  assert (Hq_fit : ints_fit q = true).
  { destruct Hshape as [->|[m ->]]; [exact Hfit|apply ints_fit_take; exact Hfit]. }
  assert (Hq_has : forall n, has_col n df = true -> has_col n q = true).
  { intros n Hn. destruct Hshape as [->|[m ->]]; [exact Hn|].
    unfold frame_filter. rewrite has_col_frame_take. exact Hn. }
  assert (Hq_num : forall n, numeric_at n df = true -> numeric_at n q = true).
  { intros n Hn. destruct Hshape as [->|[m ->]]; [exact Hn|].
    unfold frame_filter. rewrite numeric_at_frame_take. exact Hn. }
  assert (Hq_min : has_col "minutesPlayed" q = true -> numeric_at "minutesPlayed" q = true).
  { intros Hh. apply Hq_num.
    assert (Hd : has_col "minutesPlayed" df = true).
    { destruct Hshape as [->|[m ->]]; [exact Hh|].
      unfold frame_filter in Hh. rewrite has_col_frame_take in Hh. exact Hh. }
    rewrite Hd in Hmin. exact Hmin. }
  exists q. unfold keyed_rows. rewrite Hq. simpl. unfold add_per90.
  destruct (per_90 && has_col "minutesPlayed" q) eqn:Hp.
  - apply andb_true_iff in Hp. destruct Hp as [_ Hh].
    destruct (per90_values_total q metric (Hq_num _ Hnum) (Hq_min Hh)) as [v Hv].
    rewrite Hv. simpl.
    exists (setcol q (metric ++ "_per90") (Float64 v)), (metric ++ "_per90"), (Float64 v).
    assert (Hlen : length v = nrows q).
    { apply per90_values_inv in Hv. destruct Hv as [mc [mins [Hmc [Hmins ->]]]].
      rewrite length_map, length_combine.
      rewrite (length_cells_lookup q metric mc Hq_ok Hmc).
      rewrite (length_cells_lookup q "minutesPlayed" mins Hq_ok Hmins).
      apply Nat.min_id. }
    repeat split; try reflexivity.
    + unfold setcol. simpl. apply lookup_assign_same.
    + apply frame_ok_setcol; assumption.
    + apply ints_fit_setcol_float. exact Hq_fit.
    + intros n Hn. apply has_col_setcol. auto.
    + right. reflexivity.
  - apply numeric_at_has_col in Hnum. apply Hq_has in Hnum.
    apply has_col_lookup in Hnum. destruct Hnum as [c Hc].
    exists q, metric, c. repeat split; auto.
Qed.

(** For a table [build_top_table] accepts, the call returns a display
    table with one row per row that the minutes filter returned, up to
    ten, and every column of the display has that number of cells. *)
Lemma display_size (df : DataFrame) (metric : string) (per_90 : bool)
    (min_minutes : Z) (ascending : bool) (extra_cols : option (list string)) :
  leaderboard_input_ok df metric extra_cols = true ->
  exists q display,
    filter_minutes df min_minutes = ret q
    /\ build_top_table df metric per_90 min_minutes ascending extra_cols = ret display
    /\ nrows display = Nat.min 10 (nrows q)
    /\ frame_ok display = true
    /\ ((10 <= nrows q)%nat -> nrows display = 10%nat)
    /\ ((nrows q < 10)%nat -> nrows display = nrows q).
Proof.
  intros Hin.
  destruct (keyed_rows_total df metric per_90 min_minutes extra_cols Hin)
    as [q [keyed [mc [c [Hq [Hk [Hc [Hrows [Hok [Hfit [Hhas Hmc]]]]]]]]]]].
  unfold leaderboard_input_ok in Hin.
  repeat (apply andb_true_iff in Hin; destruct Hin as [Hin ?]).
  rename H into HRk, H0 into Hextras, H3 into Hteam, H4 into Hplayer.
  set (work := frame_take (firstn 10 (col_argsort c ascending)) keyed).
  assert (Hrank : rank_rows df metric per_90 min_minutes ascending = ret (work, mc)).
  { unfold rank_rows. rewrite Hk. simpl. unfold sort_values.
    apply getcol_lookup in Hc. rewrite Hc. simpl.
    rewrite head_frame_take, head_count_10, firstn_min. reflexivity. }
  assert (Hwork_rows : nrows work = Nat.min 10 (nrows q)).
  { unfold work. rewrite nrows_frame_take, length_firstn, col_argsort_length.
    rewrite (frame_ok_lookup keyed mc c Hok Hc). rewrite Hrows. reflexivity. }
  destruct (display_table_total work metric mc extra_cols) as [display Hd].
  - intros n Hn. unfold work. rewrite has_col_frame_take.
    unfold display_cols in Hn.
    destruct Hn as [<-|[<-|[<-|Hn]]]; auto.
    + apply has_col_lookup. eauto.
    + apply Hhas. rewrite forallb_forall in Hextras. apply Hextras. exact Hn.
  - apply (mem_display_cols_Rk metric mc extra_cols Hmc).
    apply negb_true_iff. exact HRk.
  - apply ints_fit_take. exact Hfit.
  - exists q, display.
    pose proof (display_table_inv _ _ _ _ _ Hd) as [Hix [_ [_ [_ Hdok]]]].
    assert (Hn : nrows display = Nat.min 10 (nrows q)).
    { unfold nrows at 1. rewrite Hix. exact Hwork_rows. }
    split; [exact Hq|]. split.
    { unfold build_top_table. rewrite Hrank. exact Hd. }
    split; [exact Hn|]. split; [apply Hdok; apply frame_ok_take|].
    split; intros; lia.
Qed.

End LeaderboardSize.

(** ** The minutes filter *)

Section MinutesFilter.

Context {S : ArgSort}.

Lemma per90_values_length (q : DataFrame) (metric : string) (v : list spec_float) :
  frame_ok q = true -> per90_values q metric = ret v -> length v = nrows q.
Proof.
  intros Hok Hv. apply per90_values_inv in Hv.
  destruct Hv as [mc [mins [Hmc [Hmins ->]]]].
  rewrite length_map, length_combine.
  rewrite (length_cells_lookup q metric mc Hok Hmc).
  rewrite (length_cells_lookup q "minutesPlayed" mins Hok Hmins).
  apply Nat.min_id.
Qed.

Lemma filter_minutes_ok (df q : DataFrame) (min_minutes : Z) :
  frame_ok df = true -> filter_minutes df min_minutes = ret q -> frame_ok q = true.
Proof.
  intros Hok Hq. apply filter_minutes_inv in Hq.
  destruct Hq as [[-> _]|[_ [_ [c [_ [_ ->]]]]]]; [exact Hok|apply frame_ok_take].
Qed.

(** The qualifying rows keep the labels of the filtered table, and their
    columns are whole. *)
Lemma keyed_rows_ok (df : DataFrame) (metric : string) (per_90 : bool)
    (min_minutes : Z) (keyed : DataFrame) (mc : string) :
  frame_ok df = true ->
  keyed_rows df metric per_90 min_minutes = ret (keyed, mc) ->
  exists q, filter_minutes df min_minutes = ret q
            /\ index keyed = index q /\ frame_ok keyed = true.
Proof.
  intros Hok Hk. apply keyed_rows_inv in Hk. destruct Hk as [q [Hq Hk]].
  pose proof (filter_minutes_ok df q min_minutes Hok Hq) as Hqok.
  exists q. split; [exact Hq|].
  destruct Hk as [[-> _]|[_ [_ [_ [v [Hv ->]]]]]]; [auto|].
  split; [reflexivity|].
  apply frame_ok_setcol; [exact Hqok|].
  simpl. apply (per90_values_length q metric); assumption.
Qed.

(** Every row of the ranked table is one of the qualifying rows. *)
Lemma rank_rows_index (df : DataFrame) (metric : string) (per_90 : bool)
    (min_minutes : Z) (ascending : bool) (work : DataFrame) (mc : string) (l : nat) :
  frame_ok df = true ->
  rank_rows df metric per_90 min_minutes ascending = ret (work, mc) ->
  In l (index work) ->
  exists q, filter_minutes df min_minutes = ret q /\ In l (index q).
Proof.
  intros Hok Hr Hl. apply rank_rows_inv in Hr.
  destruct Hr as [keyed [c [Hk [Hc ->]]]].
  destruct (keyed_rows_ok _ _ _ _ _ _ Hok Hk) as [q [Hq [Hix Hkok]]].
  exists q. split; [exact Hq|]. rewrite <- Hix.
  apply (frame_take_index_In (firstn 10 (col_argsort c ascending))); [|exact Hl].
  apply Forall_forall. intros i Hi. apply In_firstn in Hi.
  apply (Permutation_in _ (col_argsort_perm c ascending)) in Hi.
  apply in_seq in Hi. rewrite (frame_ok_lookup keyed mc c Hkok Hc) in Hi. lia.
Qed.

Lemma build_top_table_inv (df : DataFrame) (metric : string) (per_90 : bool)
    (min_minutes : Z) (ascending : bool) (extra_cols : option (list string))
    (display : DataFrame) :
  build_top_table df metric per_90 min_minutes ascending extra_cols = ret display ->
  exists work mc,
    rank_rows df metric per_90 min_minutes ascending = ret (work, mc)
    /\ display_table work metric mc extra_cols = ret display.
Proof.
  unfold build_top_table. intros H. bind_inv H as wm Hwm.
  destruct wm as [work mc]. exists work, mc. auto.
Qed.

(** C6.  When the table has a [minutesPlayed] column and [min_minutes] is
    positive, no row whose minutes are below [min_minutes] appears in the
    table [build_top_table] returns.  Rows are told apart by their index
    labels. *)
Theorem minutes_filter_excludes (df : DataFrame) (metric : string) (per_90 : bool)
    (min_minutes : Z) (ascending : bool) (extra_cols : option (list string))
    (display : DataFrame) (minutes : column) (i : nat) :
  frame_ok df = true ->
  NoDup (index df) ->
  lookup "minutesPlayed" (columns df) = Some minutes ->
  0 < min_minutes ->
  build_top_table df metric per_90 min_minutes ascending extra_cols = ret display ->
  (i < nrows df)%nat ->
  cell_lt (cell minutes i) min_minutes = true ->
  ~ In (nth i (index df) 0%nat) (index display).
Proof.
  intros Hok Hnd Hmin Hpos Hb Hi Hlt Hin.
  apply build_top_table_inv in Hb. destruct Hb as [work [mc [Hr Hd]]].
  apply display_table_inv in Hd. destruct Hd as [Hix _]. rewrite Hix in Hin.
  destruct (rank_rows_index _ _ _ _ _ _ _ _ Hok Hr Hin) as [q [Hq Hlq]].
  apply filter_minutes_inv in Hq.
  destruct Hq as [[_ Hno]|[_ [_ [c [Hc [_ ->]]]]]].
  - assert (Hh : has_col "minutesPlayed" df = true) by (apply has_col_lookup; eauto).
    rewrite Hh in Hno. simpl in Hno. apply Z.ltb_ge in Hno. lia.
  - rewrite Hmin in Hc. injection Hc as <-.
    apply frame_filter_index in Hlq. destruct Hlq as [k [Hk [Hmk Heq]]].
    rewrite length_map, (length_cells_lookup df _ _ Hok Hmin) in Hk.
    assert (Hik : i = k).
    { apply (proj1 (NoDup_nth (index df) 0%nat) Hnd); assumption. }
    subst k.
    rewrite (nth_map_at _ _ PyNone) in Hmk
      by (rewrite (length_cells_lookup df _ _ Hok Hmin); exact Hi).
    apply cell_ge_not_lt in Hmk. unfold cell in Hlt. congruence.
Qed.

End MinutesFilter.

(** ** A sample table *)

Definition squad_minutes : column :=
  Float64 (map F64.of_Z [900; 450; 300; 0; 1200; 90; 300; 600; 1500; 810; 990; 270]).

Definition squad_goals : column := Int64 [5; 3; 3; 0; 7; 1; 2; 2; 9; 4; 6; 3].

(** Twelve players as [load_data] returns them; the age arrived under the
    name [age_x]. *)
Definition squad : DataFrame :=
  mkFrame (seq 0 12)
    [ ("player",
       Object (map Some ["Icardi"; "Dzeko"; "Rafa"; "Uzun"; "Osimhen"; "Kilic";
                         "Tadic"; "Mertens"; "Immobile"; "Akturk"; "Szymanski";
                         "Yilmaz"]));
      ("team",
       Object (map Some ["GS"; "FB"; "BJK"; "TS"; "GS"; "BJK"; "FB"; "GS"; "BJK";
                         "TS"; "FB"; "GS"]));
      ("goals", squad_goals);
      ("minutesPlayed", squad_minutes);
      ("age_x",
       Float64 [F64.of_Z 31; F64.of_Z 38; F64.of_Z 30; F64.nan; F64.of_Z 25;
                F64.of_Z 24; F64.of_Z 35; F64.of_Z 36; F64.of_Z 34; F64.of_Z 27;
                F64.of_Z 25; F64.of_Z 23]);
      ("country",
       Object [Some "Argentina"; Some "Bosnia"; Some "Portugal"; Some turkiye;
               Some "Nigeria"; Some turkiye; Some "Serbia"; Some "Belgium";
               Some "Italy"; Some turkiye; Some "Poland"; None]) ].

Definition squad_extras : option (list string) := Some ["age_x"; "country"].

Definition frame_of (r : result DataFrame) : DataFrame :=
  match r with
  | inr df => df
  | inl _ => mkFrame [] []
  end.

(** Goals per 90 minutes among the players with at least 90 minutes. *)
Definition squad_goals_per90 : DataFrame :=
  Eval vm_compute in
    frame_of (build_top_table (S := stable_kind) squad "goals" true 90 false squad_extras).

Lemma minutes_filter_witness :
  ~ In (nth 3 (index squad) 0%nat) (index squad_goals_per90).
Proof.
  apply (minutes_filter_excludes (S := stable_kind) squad "goals" true 90 false
           squad_extras squad_goals_per90 squad_minutes 3).
  - reflexivity.
  - apply seq_NoDup.
  - reflexivity.
  - reflexivity.
  - vm_compute. reflexivity.
  - unfold nrows, squad. cbn [index]. rewrite length_seq. lia.
  - reflexivity.
Defined.

(** ** Ranking: order, ties and missing values *)

Lemma has_col_setcol_iff (df : DataFrame) (name n : string) (c : column) :
  has_col n (setcol df name c) = has_col n df || String.eqb n name.
Proof.
  destruct (has_col n (setcol df name c)) eqn:H1.
  - symmetry. apply has_col_lookup in H1. destruct H1 as [c' Hc'].
    unfold setcol in Hc'. simpl in Hc'.
    destruct (String.eqb_spec n name) as [->|Hne]; [apply orb_true_r|].
    rewrite lookup_assign_other in Hc' by exact Hne.
    rewrite orb_false_r. apply has_col_lookup. eauto.
  - symmetry. apply has_col_false_lookup in H1. unfold setcol in H1. simpl in H1.
    destruct (String.eqb_spec n name) as [->|Hne].
    + rewrite lookup_assign_same in H1. discriminate.
    + rewrite lookup_assign_other in H1 by exact Hne.
      rewrite orb_false_r. apply has_col_false_lookup. exact H1.
Qed.

Section Ranking.

Context {S : ArgSort}.

(** The positions, among the qualifying rows, of the rows of the ranked
    table. *)
Definition ranked_positions (c : column) (ascending : bool) : list nat :=
  firstn 10 (col_argsort c ascending).

Lemma ranked_positions_length (c : column) (ascending : bool) :
  length (ranked_positions c ascending) = Nat.min 10 (col_len c).
Proof. unfold ranked_positions. rewrite length_firstn, col_argsort_length. reflexivity. Qed.

Lemma ranked_positions_nth (c : column) (ascending : bool) (i : nat) :
  (i < length (ranked_positions c ascending))%nat ->
  nth i (ranked_positions c ascending) 0%nat = nth i (col_argsort c ascending) 0%nat.
Proof.
  rewrite ranked_positions_length. intros Hi. unfold ranked_positions.
  apply nth_firstn_lt. lia.
Qed.

Lemma ranked_positions_bound (c : column) (ascending : bool) :
  Forall (fun k => (k < col_len c)%nat) (ranked_positions c ascending).
Proof.
  apply Forall_forall. intros k Hk. unfold ranked_positions in Hk.
  apply In_firstn in Hk.
  apply (Permutation_in _ (col_argsort_perm c ascending)) in Hk.
  apply in_seq in Hk. lia.
Qed.

Lemma ranked_positions_NoDup (c : column) (ascending : bool) :
  NoDup (ranked_positions c ascending).
Proof.
  unfold ranked_positions.
  rewrite <- (firstn_skipn 10 (col_argsort c ascending)) at 1.
  pose proof (col_argsort_NoDup c ascending) as H.
  rewrite <- (firstn_skipn 10 (col_argsort c ascending)) in H.
  apply NoDup_app_remove_r in H. rewrite firstn_skipn. exact H.
Qed.

(** The ranking column of the ranked table, cell by cell. *)
Lemma ranked_cell (c : column) (ascending : bool) (i : nat) :
  (i < length (ranked_positions c ascending))%nat ->
  cell (col_take (ranked_positions c ascending) c) i
  = cell c (nth i (col_argsort c ascending) 0%nat).
Proof.
  intros Hi. rewrite cell_col_take.
  - rewrite ranked_positions_nth by exact Hi. reflexivity.
  - exact Hi.
  - pose proof (ranked_positions_bound c ascending) as H.
    rewrite Forall_forall in H. apply H. apply nth_In. exact Hi.
Qed.

End Ranking.

(** Two cells that tie in the ranking: both missing, or both present with
    neither below the other. *)
Definition tied (a b : pyval) : bool :=
  (isna a && isna b)
  || (negb (isna a) && negb (isna b) && negb (cell_less a b) && negb (cell_less b a)).

Section RankingTheorems.

Context {S : ArgSort}.

Lemma ranked_column (df : DataFrame) (metric : string) (per_90 : bool)
    (min_minutes : Z) (ascending : bool) (work : DataFrame) (mc : string) :
  rank_rows df metric per_90 min_minutes ascending = ret (work, mc) ->
  exists keyed c,
    keyed_rows df metric per_90 min_minutes = ret (keyed, mc)
    /\ lookup mc (columns keyed) = Some c
    /\ work = frame_take (ranked_positions c ascending) keyed
    /\ lookup mc (columns work) = Some (col_take (ranked_positions c ascending) c)
    /\ nrows work = length (ranked_positions c ascending).
Proof.
  intros H. apply rank_rows_inv in H. destruct H as [keyed [c [Hk [Hc ->]]]].
  exists keyed, c. fold (ranked_positions c ascending).
  repeat split; try assumption.
  - rewrite lookup_frame_take, Hc. reflexivity.
  - apply nrows_frame_take.
Qed.

Lemma per90_nan_minutes (x : spec_float) : per90 x F64.nan = F64.nan.
Proof. destruct x; reflexivity. Qed.

Lemma per90_zero_minutes_nan (x : spec_float) (s : bool) :
  F64.isnan x || F64.is_zero x = true -> per90 x (S754_zero s) = F64.nan.
Proof. destruct x; simpl; try discriminate; reflexivity. Qed.

Lemma per90_zero_minutes_inf (x : spec_float) (s : bool) :
  F64.isnan x || F64.is_zero x = false ->
  per90 x (S754_zero s) = S754_infinity (xorb (float_sign x) s).
Proof.
  destruct x; simpl; try discriminate; intros _; unfold per90; simpl;
    rewrite xorb_false_r; reflexivity.
Qed.

Lemma per90_values_numeric (q : DataFrame) (metric : string) (mc mins : column) :
  lookup metric (columns q) = Some mc ->
  lookup "minutesPlayed" (columns q) = Some mins ->
  numeric mc = true -> numeric mins = true ->
  per90_values q metric
  = ret (map (fun xm => per90 (float_view (fst xm)) (float_view (snd xm)))
             (combine (cells mc) (cells mins))).
Proof.
  intros Hmc Hmins Hn1 Hn2.
  destruct (per90_values_total q metric) as [v Hv].
  - unfold numeric_at. rewrite Hmc. exact Hn1.
  - unfold numeric_at. rewrite Hmins. exact Hn2.
  - rewrite Hv. apply per90_values_inv in Hv.
    destruct Hv as [mc' [mins' [Hmc' [Hmins' ->]]]].
    rewrite Hmc in Hmc'. rewrite Hmins in Hmins'.
    injection Hmc' as <-. injection Hmins' as <-. reflexivity.
Qed.

(** C1, as the code has it.  Per-90 normalisation never raises on numeric
    columns: it divides as IEEE 754 does.  A row whose minutes are missing
    gets a missing per-90 value, and so does a row with zero minutes whose
    metric is zero or missing.  A row with zero minutes and any other
    metric value gets a signed infinity, which is a defined value.  In the
    ranked table the rows whose ranking value is missing come after all
    rows whose ranking value is defined, ascending or descending. *)
Theorem per90_missing_sorts_last :
  (forall x, per90 x F64.nan = F64.nan)
  /\ (forall x s, F64.isnan x || F64.is_zero x = true ->
        per90 x (S754_zero s) = F64.nan)
  /\ (forall x s, F64.isnan x || F64.is_zero x = false ->
        per90 x (S754_zero s) = S754_infinity (xorb (float_sign x) s))
  /\ (forall q metric mc mins,
        lookup metric (columns q) = Some mc ->
        lookup "minutesPlayed" (columns q) = Some mins ->
        numeric mc = true -> numeric mins = true ->
        per90_values q metric
        = ret (map (fun xm => per90 (float_view (fst xm)) (float_view (snd xm)))
                   (combine (cells mc) (cells mins))))
  /\ (forall df metric per_90 min_minutes ascending work mc,
        rank_rows df metric per_90 min_minutes ascending = ret (work, mc) ->
        exists c, lookup mc (columns work) = Some c
                  /\ col_len c = nrows work
                  /\ forall i j, (i < j < nrows work)%nat ->
                       isna (cell c i) = true -> isna (cell c j) = true).
Proof.
  split; [exact per90_nan_minutes|]. split; [exact per90_zero_minutes_nan|].
  split; [exact per90_zero_minutes_inf|]. split; [exact per90_values_numeric|].
  intros df metric per_90 min_minutes ascending work mc H.
  apply ranked_column in H.
  destruct H as [keyed [c [_ [_ [_ [Hw Hn]]]]]].
  exists (col_take (ranked_positions c ascending) c).
  split; [exact Hw|]. split; [rewrite col_len_take; symmetry; exact Hn|].
  intros i j Hij. rewrite Hn in Hij.
  rewrite !ranked_cell by lia.
  apply col_argsort_missing_last.
  rewrite ranked_positions_length in Hij. lia.
Qed.

(** C2, as the code has it.  The ranked table holds the qualifying rows
    found at the first ten positions of a permutation computed from the
    ranking column and the direction alone: there is no secondary key.
    The present values of a numeric ranking column stand in the requested
    direction.  Rows that tie keep their input order whenever the sorting
    algorithm is stable; [sort_values] is called with the default
    algorithm, for which numpy promises a sorted result only. *)
Theorem ranking_order_and_ties (df : DataFrame) (metric : string) (per_90 : bool)
    (min_minutes : Z) (ascending : bool) (work : DataFrame) (mc : string) :
  rank_rows df metric per_90 min_minutes ascending = ret (work, mc) ->
  exists keyed c,
    keyed_rows df metric per_90 min_minutes = ret (keyed, mc)
    /\ lookup mc (columns keyed) = Some c
    /\ work = frame_take (ranked_positions c ascending) keyed
    /\ NoDup (ranked_positions c ascending)
    /\ (numeric c = true ->
        forall i j, (i < j < nrows work)%nat ->
          isna (cell c (nth j (ranked_positions c ascending) 0%nat)) = false ->
          (if ascending
           then cell_less (cell c (nth j (ranked_positions c ascending) 0%nat))
                          (cell c (nth i (ranked_positions c ascending) 0%nat))
           else cell_less (cell c (nth i (ranked_positions c ascending) 0%nat))
                          (cell c (nth j (ranked_positions c ascending) 0%nat)))
          = false)
    /\ (stable_sorter S ->
        forall i j, (i < j < nrows work)%nat ->
          tied (cell c (nth i (ranked_positions c ascending) 0%nat))
               (cell c (nth j (ranked_positions c ascending) 0%nat)) = true ->
          (nth i (ranked_positions c ascending) 0
           < nth j (ranked_positions c ascending) 0)%nat).
Proof.
  intros H. apply ranked_column in H.
  destruct H as [keyed [c [Hk [Hc [Hw [_ Hn]]]]]].
  exists keyed, c.
  split; [exact Hk|]. split; [exact Hc|]. split; [exact Hw|].
  split; [apply ranked_positions_NoDup|].
  assert (Hlen : forall i j, (i < j < nrows work)%nat -> (i < j < col_len c)%nat).
  { intros i j Hij. rewrite Hn, ranked_positions_length in Hij. lia. }
  split.
  - intros Hnum i j Hij. rewrite !ranked_positions_nth by (rewrite <- Hn; lia).
    apply col_argsort_ordered; auto.
  - intros Hst i j Hij. rewrite !ranked_positions_nth by (rewrite <- Hn; lia).
    unfold tied. intros Ht. apply orb_true_iff in Ht. destruct Ht as [Ht|Ht].
    + apply andb_true_iff in Ht. destruct Ht as [Hi _].
      apply col_argsort_missing_in_order; auto.
    + repeat (apply andb_true_iff in Ht; destruct Ht as [Ht ?]).
      apply col_argsort_stable; auto; apply negb_true_iff; assumption.
Qed.

End RankingTheorems.

(** ** Ranking on the sample tables *)

Definition ranked_of (r : result (DataFrame * string)) : DataFrame :=
  match r with
  | inr wm => fst wm
  | inl _ => mkFrame [] []
  end.

Definition bench_minutes : column := Float64 [F64.of_Z 0; F64.of_Z 90; F64.nan].

(** Three players: one who never played but is credited with a goal, one
    with a full match, one whose minutes are unknown. *)
Definition bench : DataFrame :=
  mkFrame (seq 0 3)
    [ ("player", Object [Some "Demir"; Some "Kaya"; Some "Arslan"]);
      ("team", Object [Some "GS"; Some "FB"; Some "TS"]);
      ("goals", Int64 [1; 2; 0]);
      ("minutesPlayed", bench_minutes) ].

Definition two : spec_float := Eval vm_compute in F64.of_Z 2.

(** C1 fails on the code: the first row of [bench] has zero minutes, yet
    its per-90 value is plus infinity, which is not a missing value, and a
    descending sort ranks it first, ahead of the defined value 2.0; the
    display shows it as "inf". *)
Lemma zero_minutes_ranks_first :
  cell bench_minutes 0 = PyFloat (S754_zero false)
  /\ rank_rows (S := stable_kind) bench "goals" true 0 false
     = ret (ranked_of (rank_rows (S := stable_kind) bench "goals" true 0 false),
            "goals_per90")
  /\ index (ranked_of (rank_rows (S := stable_kind) bench "goals" true 0 false))
     = [0; 1; 2]%nat
  /\ lookup "goals_per90"
       (columns (ranked_of (rank_rows (S := stable_kind) bench "goals" true 0 false)))
     = Some (Float64 [F64.pinf; two; F64.nan])
  /\ isna (PyFloat F64.pinf) = false
  /\ lookup "Goals"
       (columns (frame_of (build_top_table (S := stable_kind) bench "goals" true 0
                             false None)))
     = Some (Object [Some "inf"; Some "2"; Some ""]).
Proof. repeat split; vm_compute; reflexivity. Qed.

Definition squad_by_goals : DataFrame :=
  Eval vm_compute in
    ranked_of (rank_rows (S := stable_kind) squad "goals" false 0 false).

Lemma ranking_order_witness :
  exists keyed c,
    keyed_rows squad "goals" false 0 = ret (keyed, "goals")
    /\ lookup "goals" (columns keyed) = Some c
    /\ squad_by_goals = frame_take (ranked_positions (S := stable_kind) c false) keyed
    /\ NoDup (ranked_positions (S := stable_kind) c false)
    /\ (numeric c = true ->
        forall i j, (i < j < nrows squad_by_goals)%nat ->
          isna (cell c (nth j (ranked_positions (S := stable_kind) c false) 0%nat))
          = false ->
          (if false
           then cell_less
                  (cell c (nth j (ranked_positions (S := stable_kind) c false) 0%nat))
                  (cell c (nth i (ranked_positions (S := stable_kind) c false) 0%nat))
           else cell_less
                  (cell c (nth i (ranked_positions (S := stable_kind) c false) 0%nat))
                  (cell c (nth j (ranked_positions (S := stable_kind) c false) 0%nat)))
          = false)
    /\ (stable_sorter stable_kind ->
        forall i j, (i < j < nrows squad_by_goals)%nat ->
          tied (cell c (nth i (ranked_positions (S := stable_kind) c false) 0%nat))
               (cell c (nth j (ranked_positions (S := stable_kind) c false) 0%nat))
          = true ->
          (nth i (ranked_positions (S := stable_kind) c false) 0
           < nth j (ranked_positions (S := stable_kind) c false) 0)%nat).
Proof.
  apply (ranking_order_and_ties (S := stable_kind) squad "goals" false 0 false
           squad_by_goals "goals").
  vm_compute. reflexivity.
Defined.

(** C2 fails on the code: with a sorter that meets numpy's contract for
    the default algorithm but is not stable, Dzeko (row 1) and Rafa (row 2),
    who tie on three goals, come out as Rafa, then Dzeko. *)
Lemma default_sort_may_reorder_ties :
  exists (S : ArgSort) (work : DataFrame),
    rank_rows (S := S) squad "goals" false 0 false = ret (work, "goals")
    /\ index squad = seq 0 12
    /\ cell squad_goals 1 = cell squad_goals 2
    /\ nth 6 (index work) 0%nat = 2%nat
    /\ nth 7 (index work) 0%nat = 1%nat.
Proof.
  exists tie_reversing_kind.
  exists (ranked_of (rank_rows (S := tie_reversing_kind) squad "goals" false 0 false)).
  repeat split; vm_compute; reflexivity.
Qed.

(** ** The columns of the display *)

Section DisplayColumns.

Context {S : ArgSort}.

Lemma filter_minutes_has_col (df q : DataFrame) (min_minutes : Z) (n : string) :
  filter_minutes df min_minutes = ret q -> has_col n q = has_col n df.
Proof.
  intros H. apply filter_minutes_inv in H.
  destruct H as [[-> _]|[_ [_ [c [_ [_ ->]]]]]]; [reflexivity|].
  unfold frame_filter. apply has_col_frame_take.
Qed.

Lemma main_extra_cols_present (df : DataFrame) (e : string) :
  In e (extras_list (main_extra_cols df (choose_age_col df))) -> has_col e df = true.
Proof.
  unfold main_extra_cols, choose_age_col.
  destruct (has_col "age" df) eqn:Ha; [|destruct (has_col "age_x" df) eqn:Hx;
    [|destruct (has_col "age_y" df) eqn:Hy]];
    destruct (has_col "country" df) eqn:Hc; simpl; intuition (subst; assumption).
Qed.

(** C3, as the code has it.  When [build_top_table] returns, the columns of
    the display are the rank, [player], [team], the ranking column and the
    extra columns in the order given, under their display labels (stated
    for a metric name in ASCII, where [title] is Python's), and every
    extra column was present in the table (or is the per-90 column).  A
    requested extra column that is absent is not skipped: the call raises.
    It is the caller, [main], that asks for present columns only. *)
Theorem display_columns (df : DataFrame) (metric : string) (per_90 : bool)
    (min_minutes : Z) (ascending : bool) (extra_cols : option (list string)) :
  (forall display,
     isascii metric = true ->
     build_top_table df metric per_90 min_minutes ascending extra_cols = ret display ->
     exists mc,
       (mc = metric \/ mc = metric ++ "_per90")
       /\ labels display
          = map (display_label metric mc)
                ("Rk" :: "player" :: "team" :: mc :: extras_list extra_cols)
       /\ forall e, In e (extras_list extra_cols) ->
            has_col e df = true \/ e = metric ++ "_per90")
  /\ (forall e, In e (extras_list extra_cols) ->
        has_col e df = false -> e <> metric ++ "_per90" ->
        exists err,
          build_top_table df metric per_90 min_minutes ascending extra_cols = raise err)
  /\ (forall e, In e (extras_list (main_extra_cols df (choose_age_col df))) ->
        has_col e df = true).
Proof.
  assert (Hfirst : forall display,
     build_top_table df metric per_90 min_minutes ascending extra_cols = ret display ->
     exists mc,
       (mc = metric \/ mc = metric ++ "_per90")
       /\ labels display
          = map (display_label metric mc)
                ("Rk" :: "player" :: "team" :: mc :: extras_list extra_cols)
       /\ forall e, In e (extras_list extra_cols) ->
            has_col e df = true \/ e = metric ++ "_per90").
  { intros display Hb. apply build_top_table_inv in Hb.
    destruct Hb as [work [mc [Hr Hd]]].
    apply display_table_inv in Hd. destruct Hd as [_ [Hlab [Hpres _]]].
    apply rank_rows_inv in Hr. destruct Hr as [keyed [c [Hk [_ ->]]]].
    apply keyed_rows_inv in Hk. destruct Hk as [q [Hq Hk]].
    exists mc. split; [|split].
    - destruct Hk as [[_ [-> _]]|[_ [_ [-> _]]]]; auto.
    - exact Hlab.
    - intros e He.
      assert (Hw : has_col e keyed = true).
      { rewrite <- (has_col_frame_take (firstn 10 (col_argsort c ascending))).
        apply Hpres. unfold display_cols. right. right. right. exact He. }
      destruct Hk as [[-> _]|[_ [_ [-> [v [_ ->]]]]]].
      + left. rewrite <- (filter_minutes_has_col df q min_minutes e Hq). exact Hw.
      + rewrite has_col_setcol_iff in Hw. apply orb_true_iff in Hw.
        destruct Hw as [Hw|Hw].
        * left. rewrite <- (filter_minutes_has_col df q min_minutes e Hq). exact Hw.
        * right. apply String.eqb_eq. exact Hw. }
  split; [intros display _; apply Hfirst|]. split; [|apply main_extra_cols_present].
  intros e He Habs Hne.
  destruct (build_top_table df metric per_90 min_minutes ascending extra_cols)
    as [err|display] eqn:Hb.
  - exists err. reflexivity.
  - exfalso. destruct (Hfirst display eq_refl) as [mc [_ [_ Hp]]].
    destruct (Hp e He); congruence.
Qed.

End DisplayColumns.

(** C3 fails on the code: [squad] has no [height] column, and asking for
    it as an extra column raises [KeyError] where the claim promises a
    table without that column. *)
Lemma absent_extra_column_raises :
  has_col "height" squad = false
  /\ build_top_table (S := stable_kind) squad "goals" false 0 false
       (Some ["age_x"; "height"])
     = raise (KeyError "height").
Proof. split; vm_compute; reflexivity. Qed.

Lemma display_columns_witness :
  exists mc,
    (mc = "goals" \/ mc = "goals" ++ "_per90")
    /\ labels squad_goals_per90
       = map (display_label "goals" mc)
             ("Rk" :: "player" :: "team" :: mc :: extras_list squad_extras)
    /\ forall e, In e (extras_list squad_extras) ->
         has_col e squad = true \/ e = "goals" ++ "_per90".
Proof.
  destruct (display_columns (S := stable_kind) squad "goals" true 90 false squad_extras)
    as [H _].
  apply (H squad_goals_per90); [reflexivity|vm_compute; reflexivity].
Defined.

Example squad_goals_labels :
  labels squad_goals_per90 = ["Rk"; "player"; "team"; "Goals"; "Age"; "Country"].
Proof. reflexivity. Qed.

(** ** Age reconciliation *)

Lemma Forall2_In_r {A B : Type} (R : A -> B -> Prop) (l : list A) (l' : list B) (y : B) :
  Forall2 R l l' -> In y l' -> exists x, In x l /\ R x y.
Proof.
  induction 1 as [|a b l l' Hab _ IH]; intros Hy; [contradiction|].
  destruct Hy as [<-|Hy].
  - exists a. split; [left; reflexivity|exact Hab].
  - destruct (IH Hy) as [x [Hx Hr]]. exists x. split; [right; exact Hx|exact Hr].
Qed.

(** The columns of the display, one by one: each carries its display
    label and holds the column of [work] it was selected from, formatted
    unless its label is one of the identifier labels. *)
Lemma display_table_columns (work : DataFrame) (metric mc : string)
    (extra_cols : option (list string)) (display : DataFrame) :
  display_table work metric mc extra_cols = ret display ->
  exists rk cs,
    columns display = (display_label metric mc "Rk", rk) :: cs
    /\ Forall2 (fun n nc =>
                  fst nc = display_label metric mc n
                  /\ exists c, lookup n (columns work) = Some c
                               /\ if mem (display_label metric mc n) unformatted
                                  then snd nc = c
                                  else format_column c = ret (snd nc))
               (display_cols mc extra_cols) cs.
Proof.
  unfold display_table. intros H.
  bind_inv H as sel Hsel. bind_inv H as ins Hins.
  unfold insert_first in Hins.
  destruct (has_col "Rk" sel); [discriminate|]. inv_ret Hins. subst ins.
  apply format_columns_inv in H. destruct H as [_ H].
  rewrite !columns_rename_if_present in H. unfold rename in H.
  cbn [columns] in H. rewrite !map_map in H. cbn [map fst snd] in H.
  inversion H as [|a b l l' [Hab _] Hrest]; subst.
  exists (snd b), l'. split.
  { destruct b as [n c]. simpl in *. subst n. reflexivity. }
  apply select_inv in Hsel. destruct Hsel as [_ Hsel].
  clear - Hsel Hrest. revert l' Hrest.
  induction Hsel as [|n nc names cs [Hn Hl] _ IH]; intros l' Hrest;
    simpl in Hrest; inversion Hrest as [|a b l l'' [Hab Hf] Hrest']; subst;
    constructor.
  - split; [exact Hab|]. exists (snd nc). split; [exact Hl|exact Hf].
  - apply IH. exact Hrest'.
Qed.

Section AgeReconciliation.

Context {S : ArgSort}.

Lemma filter_age_range_has_col (df df' : DataFrame) (a : option string)
    (r : Z * Z) (n : string) :
  filter_age_range df a r = ret df' -> has_col n df' = has_col n df.
Proof.
  unfold filter_age_range. destruct a as [a|].
  - intros H. bind_inv H as c Hc. bind_inv H as lo Hlo. bind_inv H as hi Hhi.
    inv_ret H. subst. unfold frame_filter. apply has_col_frame_take.
  - intros H. inv_ret H. subst. reflexivity.
Qed.

Lemma filter_nationality_has_col (df df' : DataFrame) (f n : string) :
  filter_nationality df f = ret df' -> has_col n df' = has_col n df.
Proof.
  unfold filter_nationality. destruct (has_col "country" df).
  - intros H. bind_inv H as c Hc.
    destruct (String.eqb f "Türk Oyuncular");
      [|destruct (String.eqb f "Yabancı Oyuncular")];
      inv_ret H; subst; try reflexivity; unfold frame_filter; apply has_col_frame_take.
  - intros H. inv_ret H. subst. reflexivity.
Qed.

Lemma rank_rows_lookup (df : DataFrame) (metric : string) (per_90 : bool)
    (min_minutes : Z) (ascending : bool) (work : DataFrame) (mc n : string) :
  rank_rows df metric per_90 min_minutes ascending = ret (work, mc) ->
  n <> metric ++ "_per90" ->
  has_col n work = has_col n df.
Proof.
  intros H Hn. apply rank_rows_inv in H. destruct H as [keyed [c [Hk [_ ->]]]].
  rewrite has_col_frame_take.
  apply keyed_rows_inv in Hk. destruct Hk as [q [Hq Hk]].
  rewrite <- (filter_minutes_has_col df q min_minutes n Hq).
  destruct Hk as [[-> _]|[_ [_ [-> [v [_ ->]]]]]]; [reflexivity|].
  rewrite has_col_setcol_iff.
  destruct (String.eqb_spec n (metric ++ "_per90")); [contradiction|].
  apply orb_false_r.
Qed.

End AgeReconciliation.

(** The display labels of the dashboard's metrics, checked by computation:
    for each metric of [metric_groups], ranked as it is or per 90 minutes,
    the rank and identifier columns keep their labels, the ranking column
    gets a title that is not "Age", and [age_x] and [country] get the
    labels "Age" and "Country". *)
Definition labels_ok (m mc : string) : bool :=
  String.eqb (display_label m mc "Rk") "Rk"
  && String.eqb (display_label m mc "player") "player"
  && String.eqb (display_label m mc "team") "team"
  && String.eqb (display_label m mc mc) (title (replace_char "_" " " m))
  && negb (String.eqb (title (replace_char "_" " " m)) "Age")
  && String.eqb (display_label m mc "age_x") "Age"
  && String.eqb (display_label m mc "country") "Country"
  && negb (String.eqb "age_x" (m ++ "_per90"))
  && negb (mem (title (replace_char "_" " " m)) ["age"; "age_x"; "age_y"]).

Lemma metric_labels_ok (mp : string * bool) (mc : string) :
  In mp (flat_map snd metric_groups) ->
  mc = fst mp \/ mc = fst mp ++ "_per90" ->
  labels_ok (fst mp) mc = true.
Proof.
  intros Hin Hmc.
  assert (H : forallb (fun mp : string * bool =>
                         labels_ok (fst mp) (fst mp)
                         && labels_ok (fst mp) (fst mp ++ "_per90"))
                      (flat_map snd metric_groups) = true)
    by (vm_compute; reflexivity).
  rewrite forallb_forall in H. specialize (H mp Hin).
  apply andb_true_iff in H. destruct H as [H1 H2].
  destruct Hmc as [->| ->]; assumption.
Qed.

Section DashboardAge.

Context {S : ArgSort}.

Lemma card_inv (df : DataFrame) (age_col : option string) (ctl : Controls)
    (mp : string * bool) (m : string) (t : DataFrame) :
  card df age_col ctl mp = ret (Some (m, t)) ->
  m = fst mp
  /\ build_top_table df (fst mp) (per_90_ctl ctl && negb (snd mp))
       (min_minutes_ctl ctl) false (main_extra_cols df age_col) = ret t.
Proof.
  unfold card. destruct (negb (has_col (fst mp) df)).
  - intros H. inv_ret H. discriminate.
  - intros H. bind_inv H as table Ht. unfold ret in H. injection H as <- <-. auto.
Qed.

Lemma dashboard_tables_inv (loaded : DataFrame) (ctl : Controls)
    (tables : list (string * DataFrame)) (m : string) (t : DataFrame) :
  dashboard_tables loaded ctl = ret tables ->
  In (m, t) tables ->
  exists df1 df is_percentage,
    filter_age_range loaded (choose_age_col loaded) (age_range_ctl ctl) = ret df1
    /\ filter_nationality df1 (nationality_ctl ctl) = ret df
    /\ In (m, is_percentage) (flat_map snd metric_groups)
    /\ build_top_table df m (per_90_ctl ctl && negb is_percentage)
         (min_minutes_ctl ctl) false (main_extra_cols df (choose_age_col loaded))
       = ret t.
Proof.
  unfold dashboard_tables. intros H Hin.
  bind_inv H as df1 Hdf1. bind_inv H as df Hdf. bind_inv H as cards Hcards.
  inv_ret H. subst tables.
  apply in_flat_map in Hin. destruct Hin as [o [Ho Hin]].
  destruct o as [mt|]; [|contradiction]. destruct Hin as [->|[]].
  apply mapM_Forall2 in Hcards.
  destruct (Forall2_In_r _ _ _ _ Hcards Ho) as [mp [Hmp Hcard]].
  apply card_inv in Hcard. destruct Hcard as [-> Hb].
  exists df1, df, (snd mp). repeat split; try assumption.
  destruct mp; exact Hmp.
Qed.

End DashboardAge.

(** ** Filtering rows, by position *)

Lemma where_true_filter (m : list bool) :
  where_true m = filter (fun i => nth i m false) (seq 0 (length m)).
Proof.
  unfold where_true.
  assert (H : forall (l : list bool) (k : nat),
             map fst (filter snd (combine (seq k (length l)) l))
             = filter (fun i => nth (i - k) l false) (seq k (length l))).
  { induction l as [|b l IH]; intros k; [reflexivity|].
    cbn [length seq combine filter snd]. rewrite Nat.sub_diag. cbn [nth].
    assert (He : filter (fun i => nth (i - Datatypes.S k) l false)
                        (seq (Datatypes.S k) (length l))
                 = filter (fun i => match (i - k)%nat with
                                    | 0%nat => b
                                    | Datatypes.S j => nth j l false
                                    end) (seq (Datatypes.S k) (length l))).
    { apply filter_ext_in. intros i Hi. apply in_seq in Hi.
      replace (i - k)%nat with (Datatypes.S (i - Datatypes.S k)) by lia. reflexivity. }
    rewrite <- He, <- IH. destruct b; reflexivity. }
  rewrite H. apply filter_ext. intros i. rewrite Nat.sub_0_r. reflexivity.
Qed.

Lemma filter_filter_and {A : Type} (f g : A -> bool) (l : list A) :
  filter g (filter f l) = filter (fun x => f x && g x) l.
Proof.
  induction l as [|a l IH]; simpl; [reflexivity|].
  destruct (f a); simpl; [destruct (g a); simpl; rewrite IH; reflexivity|exact IH].
Qed.

Lemma map_filter_comm {A B : Type} (f : A -> B) (g : B -> bool) (l : list A) :
  map f (filter (fun x => g (f x)) l) = filter g (map f l).
Proof.
  induction l as [|a l IH]; simpl; [reflexivity|].
  destruct (g (f a)); simpl; rewrite IH; reflexivity.
Qed.

(** Taking from [xs] the positions whose element satisfies [g] is
    filtering [xs]. *)
Lemma take_filter_seq {A : Type} (d : A) (g : A -> bool) (xs : list A) :
  take d (filter (fun k => g (nth k xs d)) (seq 0 (length xs))) xs = filter g xs.
Proof.
  unfold take. rewrite (map_filter_comm (fun k => nth k xs d) g).
  change (map (fun k => nth k xs d) (seq 0 (length xs))) with (take d (seq 0 (length xs)) xs).
  rewrite take_seq_all. reflexivity.
Qed.

Lemma col_take_all (c : column) : col_take (seq 0 (col_len c)) c = c.
Proof. destruct c; simpl; rewrite take_seq_all; reflexivity. Qed.

Lemma frame_take_all (df : DataFrame) :
  frame_ok df = true -> frame_take (seq 0 (nrows df)) df = df.
Proof.
  intros Hok. destruct df as [ix cs]. unfold frame_ok in Hok.
  unfold frame_take, nrows in *. simpl in *. rewrite take_seq_all. f_equal.
  rewrite forallb_forall in Hok.
  rewrite <- (map_id cs) at 2. apply map_ext_in. intros [n c] Hin. simpl.
  specialize (Hok _ Hin). simpl in Hok. apply Nat.eqb_eq in Hok.
  rewrite <- Hok. rewrite col_take_all. reflexivity.
Qed.

Lemma cells_col_take (p : list nat) (c : column) :
  Forall (fun i => (i < col_len c)%nat) p ->
  cells (col_take p c) = map (cell c) p.
Proof.
  intros Hp. apply (nth_ext _ _ PyNone PyNone).
  - rewrite length_cells, col_len_take, length_map. reflexivity.
  - intros i Hi. rewrite length_cells, col_len_take in Hi.
    rewrite (nth_map_at _ _ 0%nat) by exact Hi.
    apply (cell_col_take p c i Hi).
    rewrite Forall_forall in Hp. apply Hp. apply nth_In. exact Hi.
Qed.

(** The rows of a table that [P] keeps, read off the cells of column [c]:
    positions in table order. *)
Definition rows_where (P : pyval -> bool) (c : column) (pos : list nat) : list nat :=
  filter (fun i => P (cell c i)) pos.

Lemma rows_where_bound (P : pyval -> bool) (c : column) (pos : list nat) (n : nat) :
  Forall (fun i => (i < n)%nat) pos -> Forall (fun i => (i < n)%nat) (rows_where P c pos).
Proof.
  intros H. apply Forall_forall. intros i Hi. unfold rows_where in Hi.
  apply filter_In in Hi. rewrite Forall_forall in H. apply H. tauto.
Qed.

Lemma seq_bound (n : nat) : Forall (fun i => (i < n)%nat) (seq 0 n).
Proof. apply Forall_forall. intros i Hi. apply in_seq in Hi. lia. Qed.

(** Filtering rows already taken from [df] by the cells of one of their
    columns: the rows kept are those of [pos] whose cell satisfies [P]. *)
Lemma frame_filter_taken (P : pyval -> bool) (df : DataFrame) (c : column)
    (pos : list nat) :
  Forall (fun i => (i < col_len c)%nat) pos ->
  frame_filter (map P (cells (col_take pos c))) (frame_take pos df)
  = frame_take (rows_where P c pos) df.
Proof.
  intros Hpos. unfold frame_filter.
  rewrite where_true_filter, length_map, length_cells, col_len_take.
  rewrite frame_take_take.
  - f_equal. unfold rows_where.
    rewrite <- (take_filter_seq 0%nat (fun i => P (cell c i)) pos).
    f_equal. apply filter_ext_in. intros k Hk. apply in_seq in Hk.
    rewrite (nth_map_at _ _ PyNone) by (rewrite length_cells, col_len_take; lia).
    f_equal. apply cell_col_take; [lia|].
    rewrite Forall_forall in Hpos. apply Hpos. apply nth_In. lia.
  - apply Forall_forall. intros k Hk. apply filter_In in Hk.
    destruct Hk as [Hk _]. apply in_seq in Hk. lia.
Qed.

Lemma frame_filter_rows (P : pyval -> bool) (df : DataFrame) (name : string) (c : column) :
  frame_ok df = true ->
  lookup name (columns df) = Some c ->
  frame_filter (map P (cells c)) df
  = frame_take (rows_where P c (seq 0 (nrows df))) df.
Proof.
  intros Hok Hc.
  pose proof (frame_ok_lookup df name c Hok Hc) as Hlen.
  rewrite <- (frame_take_all df Hok) at 1.
  rewrite <- (col_take_all c) at 1. rewrite Hlen.
  apply frame_filter_taken. rewrite <- Hlen. apply seq_bound.
Qed.

(** ** The Tackler Extractor, step by step *)

(** The age filter of the claim: a row passes when its age is missing or
    lies within the bounds given, the bounds included. *)
Definition age_passes (v : pyval) (min_age max_age : option Z) : bool :=
  isna v
  || ((match min_age with Some lo => cell_ge v lo | None => true end)
      && (match max_age with Some hi => cell_le v hi | None => true end)).

Definition present (v : pyval) : bool := negb (isna v).

Lemma mask_or_map {A : Type} (f g : A -> bool) (l : list A) :
  mask_or (map f l) (map g l) = map (fun v => f v || g v) l.
Proof.
  unfold mask_or. induction l as [|a l IH]; simpl; [reflexivity|].
  rewrite IH. reflexivity.
Qed.

Lemma lookup_rename_other (old new n : string) (df : DataFrame) :
  n <> old -> n <> new ->
  lookup n (columns (rename old new df)) = lookup n (columns df).
Proof.
  intros Ho Hn. unfold rename. simpl.
  induction (columns df) as [|[m c] cs IH]; simpl; [reflexivity|].
  destruct (String.eqb_spec m old) as [->|Hm].
  - destruct (String.eqb_spec n new); [contradiction|].
    destruct (String.eqb_spec n old); [contradiction|exact IH].
  - rewrite IH. reflexivity.
Qed.

Lemma lookup_rename_new (old new : string) (df : DataFrame) :
  has_col new df = false ->
  lookup new (columns (rename old new df)) = lookup old (columns df).
Proof.
  intros Hnew. apply has_col_false_lookup in Hnew. unfold rename. simpl.
  induction (columns df) as [|[m c] cs IH]; simpl in *; [reflexivity|].
  destruct (String.eqb_spec new m) as [->|Hm]; [discriminate|].
  destruct (String.eqb_spec m old) as [->|Hmo].
  - rewrite String.eqb_refl. rewrite String.eqb_refl. reflexivity.
  - destruct (String.eqb_spec new m); [contradiction|].
    destruct (String.eqb_spec old m); [congruence|]. apply IH. exact Hnew.
Qed.

Lemma lookup_ensure_col_other (name n : string) (top : DataFrame) :
  n <> name -> lookup n (columns (ensure_col name top)) = lookup n (columns top).
Proof.
  intros Hn. unfold ensure_col. destruct (has_col name top); [reflexivity|].
  unfold setcol. simpl. apply lookup_assign_other. exact Hn.
Qed.

Lemma has_col_ensure_col (name n : string) (top : DataFrame) :
  has_col n (ensure_col name top) = has_col n top || String.eqb n name.
Proof.
  unfold ensure_col. destruct (has_col name top) eqn:H.
  - destruct (String.eqb_spec n name) as [->|Hne].
    + rewrite H. reflexivity.
    + rewrite orb_false_r. reflexivity.
  - apply has_col_setcol_iff.
Qed.

Lemma has_col_rename (old new n : string) (df : DataFrame) :
  has_col n (rename old new df) = true <->
  (n <> old /\ has_col n df = true) \/ (n = new /\ has_col old df = true).
Proof.
  rewrite !has_col_In, labels_rename, in_map_iff. split.
  - intros [m [Hm Hin]]. destruct (String.eqb_spec m old) as [Heq|Hne].
    + right. subst. auto.
    + left. subst. auto.
  - intros [[Hne Hin]|[Heq Hin]].
    + exists n. destruct (String.eqb_spec n old); [contradiction|]. auto.
    + exists old. rewrite String.eqb_refl. auto.
Qed.

Section Tacklers.

Context {S : ArgSort}.

Lemma filter_min_age_taken (df : DataFrame) (a : string) (c : column)
    (pos : list nat) (lo : Z) :
  Forall (fun i => (i < col_len c)%nat) pos ->
  lookup a (columns df) = Some c -> numeric c = true ->
  filter_min_age (frame_take pos df) a lo
  = ret (frame_take (rows_where (fun v => cell_ge v lo || isna v) c pos) df).
Proof.
  intros Hpos Hc Hnum. unfold filter_min_age, getcol.
  rewrite lookup_frame_take, Hc. simpl.
  destruct (ge_scalar_total (col_take pos c) lo) as [m Hm].
  { rewrite numeric_col_take. exact Hnum. }
  rewrite Hm. simpl. apply ge_scalar_cells in Hm. subst m.
  unfold col_isna. rewrite mask_or_map.
  rewrite (frame_filter_taken _ df c pos Hpos). reflexivity.
Qed.

Lemma filter_max_age_taken (df : DataFrame) (a : string) (c : column)
    (pos : list nat) (hi : Z) :
  Forall (fun i => (i < col_len c)%nat) pos ->
  lookup a (columns df) = Some c -> numeric c = true ->
  filter_max_age (frame_take pos df) a hi
  = ret (frame_take (rows_where (fun v => cell_le v hi || isna v) c pos) df).
Proof.
  intros Hpos Hc Hnum. unfold filter_max_age, getcol.
  rewrite lookup_frame_take, Hc. simpl.
  destruct (le_scalar_total (col_take pos c) hi) as [m Hm].
  { rewrite numeric_col_take. exact Hnum. }
  rewrite Hm. simpl. apply le_scalar_cells in Hm. subst m.
  unfold col_isna. rewrite mask_or_map.
  rewrite (frame_filter_taken _ df c pos Hpos). reflexivity.
Qed.

Lemma rows_where_all (c : column) (pos : list nat) :
  rows_where (fun _ => true) c pos = pos.
Proof.
  unfold rows_where. induction pos as [|i pos IH]; simpl; [reflexivity|].
  rewrite IH. reflexivity.
Qed.

(** The age filter keeps, in table order, exactly the rows whose age is
    missing or within the bounds. *)
Lemma filter_age_bounds_rows (df : DataFrame) (a : string) (ages : column)
    (min_age max_age : option Z) :
  frame_ok df = true ->
  lookup a (columns df) = Some ages -> numeric ages = true ->
  filter_age_bounds df (Some a) min_age max_age
  = ret (frame_take
           (rows_where (fun v => age_passes v min_age max_age) ages (seq 0 (nrows df)))
           df).
Proof.
  intros Hok Hc Hnum.
  pose proof (frame_ok_lookup df a ages Hok Hc) as Hlen.
  assert (Hseq : Forall (fun i => (i < col_len ages)%nat) (seq 0 (nrows df)))
    by (rewrite Hlen; apply seq_bound).
  unfold filter_age_bounds.
  assert (Hfirst :
            match min_age with
            | Some lo => filter_min_age df a lo
            | None => ret df
            end
            = ret (frame_take
                     (rows_where
                        (fun v => match min_age with
                                  | Some lo => cell_ge v lo || isna v
                                  | None => true
                                  end) ages (seq 0 (nrows df))) df)).
  { destruct min_age as [lo|].
    - rewrite <- (frame_take_all df Hok) at 1.
      apply filter_min_age_taken; assumption.
    - rewrite rows_where_all, frame_take_all by exact Hok. reflexivity. }
  rewrite Hfirst. simpl.
  set (pos1 := rows_where _ ages (seq 0 (nrows df))).
  assert (Hpos1 : Forall (fun i => (i < col_len ages)%nat) pos1)
    by (apply rows_where_bound; exact Hseq).
  assert (Hsecond :
            match max_age with
            | Some hi => filter_max_age (frame_take pos1 df) a hi
            | None => ret (frame_take pos1 df)
            end
            = ret (frame_take
                     (rows_where
                        (fun v => match max_age with
                                  | Some hi => cell_le v hi || isna v
                                  | None => true
                                  end) ages pos1) df)).
  { destruct max_age as [hi|].
    - apply filter_max_age_taken; assumption.
    - rewrite rows_where_all. reflexivity. }
  rewrite Hsecond. f_equal. f_equal.
  unfold pos1, rows_where. rewrite filter_filter_and.
  apply filter_ext. intros i. unfold age_passes.
  destruct min_age, max_age, (isna (cell ages i));
    rewrite ?orb_true_r, ?orb_false_r, ?andb_true_r; simpl; reflexivity.
Qed.

Lemma filter_age_bounds_has_col (df kept : DataFrame) (a : option string)
    (min_age max_age : option Z) (n : string) :
  filter_age_bounds df a min_age max_age = ret kept -> has_col n kept = has_col n df.
Proof.
  unfold filter_age_bounds, filter_min_age, filter_max_age.
  destruct a as [a|]; [|intros H; inv_ret H; subst; reflexivity].
  intros H. bind_inv H as df1 Hdf1.
  assert (H1 : has_col n df1 = has_col n df).
  { destruct min_age as [lo|]; [|inv_ret Hdf1; subst; reflexivity].
    bind_inv Hdf1 as c Hc. bind_inv Hdf1 as m Hm. inv_ret Hdf1. subst.
    unfold frame_filter. apply has_col_frame_take. }
  rewrite <- H1.
  destruct max_age as [hi|]; [|inv_ret H; subst; reflexivity].
  bind_inv H as c Hc. bind_inv H as m Hm. inv_ret H. subst.
  unfold frame_filter. apply has_col_frame_take.
Qed.

(** The ranked tacklers: the rows with a tackle count, sorted descending
    and cut to [top_n]. *)
Lemma rank_tacklers_inv (kept : DataFrame) (top_n : Z) (top : DataFrame) :
  rank_tacklers kept top_n = ret top ->
  exists t0,
    lookup "tackles" (columns kept) = Some t0
    /\ top = reset_index
               (frame_take
                  (firstn (head_count top_n (length (where_true (map present (cells t0)))))
                          (col_argsort (col_take (where_true (map present (cells t0))) t0)
                                       false))
                  (frame_take (where_true (map present (cells t0))) kept)).
Proof.
  unfold rank_tacklers, dropna. intros H.
  bind_inv H as dropped Hd. bind_inv Hd as t0 Ht0. inv_ret Hd.
  bind_inv H as sorted Hs. inv_ret H.
  apply getcol_lookup in Ht0. exists t0. split; [exact Ht0|].
  subst top dropped. unfold frame_filter in Hs.
  apply sort_values_inv in Hs. destruct Hs as [c [Hc ->]].
  rewrite lookup_frame_take, Ht0 in Hc. simpl in Hc. injection Hc as <-.
  rewrite head_frame_take, col_argsort_length, col_len_take.
  unfold col_isna, mask_not. rewrite map_map. reflexivity.
Qed.

Lemma rank_tacklers_total (kept : DataFrame) (top_n : Z) :
  has_col "tackles" kept = true -> exists top, rank_tacklers kept top_n = ret top.
Proof.
  intros H. apply has_col_lookup in H. destruct H as [t0 Ht0].
  assert (Hd : dropna "tackles" kept = ret (frame_filter (mask_not (col_isna t0)) kept)).
  { unfold dropna, getcol. rewrite Ht0. reflexivity. }
  unfold rank_tacklers. rewrite Hd. rewrite bind_ret_l.
  unfold sort_values, getcol, frame_filter. rewrite lookup_frame_take, Ht0.
  eexists. reflexivity.
Qed.

Lemma rank_tacklers_has_col (kept top : DataFrame) (top_n : Z) (n : string) :
  rank_tacklers kept top_n = ret top -> has_col n top = has_col n kept.
Proof.
  intros H. apply rank_tacklers_inv in H. destruct H as [t0 [_ ->]].
  change (has_col n (reset_index ?x)) with (has_col n x).
  rewrite !has_col_frame_take. reflexivity.
Qed.

End Tacklers.

Section TacklerTheorems.

Context {S : ArgSort}.

Lemma choose_age_col_cases (df : DataFrame) (a : string) :
  choose_age_col df = Some a ->
  has_col a df = true /\ (a = "age" \/ a = "age_x" \/ a = "age_y").
Proof.
  unfold choose_age_col.
  destruct (has_col "age" df) eqn:H1; [intros H; injection H as <-; auto|].
  destruct (has_col "age_x" df) eqn:H2; [intros H; injection H as <-; auto|].
  destruct (has_col "age_y" df) eqn:H3; [intros H; injection H as <-; auto|].
  discriminate.
Qed.

(** The table the extractor selects its six columns from (lines 51-58). *)
Definition normalised (age_col : option string) (top : DataFrame) : DataFrame :=
  ensure_col "nationality"
    (ensure_col "position"
       (match age_col with
        | Some a => if negb (String.eqb a "age") then rename a "age" top else top
        | None => top
        end)).

Lemma top_tacklers_local_inv (df : DataFrame) (top_n : Z) (min_age max_age : option Z)
    (out : DataFrame) :
  top_tacklers_local df top_n min_age max_age = ret out ->
  exists kept top,
    filter_age_bounds df (choose_age_col df) min_age max_age = ret kept
    /\ rank_tacklers kept top_n = ret top
    /\ select tackler_columns (normalised (choose_age_col df) top) = ret out.
Proof.
  unfold top_tacklers_local. intros H.
  bind_inv H as kept Hk. bind_inv H as top Ht. exists kept, top. auto.
Qed.

Lemma lookup_normalised_tackles (a : string) (top : DataFrame) :
  a = "age" \/ a = "age_x" \/ a = "age_y" ->
  lookup "tackles" (columns (normalised (Some a) top)) = lookup "tackles" (columns top).
Proof.
  intros Ha. unfold normalised.
  rewrite !lookup_ensure_col_other by discriminate.
  destruct Ha as [->|[->| ->]]; simpl; try reflexivity;
    apply lookup_rename_other; discriminate.
Qed.

Lemma ranked_tackles_present (kept top : DataFrame) (top_n : Z) (t : column) :
  rank_tacklers kept top_n = ret top ->
  lookup "tackles" (columns top) = Some t ->
  forallb present (cells t) = true.
Proof.
  intros H Ht. apply rank_tacklers_inv in H. destruct H as [t0 [Ht0 ->]].
  unfold reset_index in Ht. cbn [columns] in Ht.
  rewrite !lookup_frame_take, Ht0 in Ht. simpl in Ht. injection Ht as <-.
  set (w := where_true (map present (cells t0))).
  set (p := firstn _ _).
  assert (Hw : Forall (fun i => (i < col_len t0)%nat) w).
  { apply Forall_forall. intros i Hi. apply where_true_In in Hi.
    rewrite length_map, length_cells in Hi. tauto. }
  assert (Hp : Forall (fun k => (k < col_len (col_take w t0))%nat) p).
  { apply Forall_forall. intros k Hk. unfold p in Hk. apply In_firstn in Hk.
    apply (Permutation_in _ (col_argsort_perm _ _)) in Hk. apply in_seq in Hk. lia. }
  rewrite cells_col_take by exact Hp.
  apply forallb_forall. intros v Hv. apply in_map_iff in Hv. destruct Hv as [k [<- Hk]].
  rewrite Forall_forall in Hp. specialize (Hp k Hk). rewrite col_len_take in Hp.
  rewrite cell_col_take.
  - assert (Hin : In (nth k w 0%nat) w) by (apply nth_In; exact Hp).
    apply where_true_In in Hin. destruct Hin as [Hlt Hn].
    rewrite (nth_map_at _ _ PyNone) in Hn by (rewrite length_map in Hlt; exact Hlt).
    exact Hn.
  - exact Hp.
  - rewrite Forall_forall in Hw. apply Hw. apply nth_In. exact Hp.
Qed.

(** C8.  In the local-file path of the Tackler Extractor the age filter
    keeps, in table order, exactly the rows whose age is missing or within
    the bounds supplied: every row with a missing age passes, and a bound
    is inclusive (an age equal to it passes).  Rows without a tackle count
    are dropped before ranking: no cell of the returned [tackles] column is
    missing. *)
Theorem tackler_age_filter_permissive (df : DataFrame) (a : string) (ages : column)
    (min_age max_age : option Z) :
  frame_ok df = true ->
  choose_age_col df = Some a ->
  lookup a (columns df) = Some ages ->
  numeric ages = true ->
  filter_age_bounds df (choose_age_col df) min_age max_age
  = ret (frame_take
           (rows_where (fun v => age_passes v min_age max_age) ages (seq 0 (nrows df)))
           df)
  /\ (forall i, (i < nrows df)%nat -> isna (cell ages i) = true ->
        In i (rows_where (fun v => age_passes v min_age max_age) ages
                         (seq 0 (nrows df))))
  /\ (forall i, (i < nrows df)%nat ->
        (In i (rows_where (fun v => age_passes v min_age max_age) ages
                          (seq 0 (nrows df)))
         <-> age_passes (cell ages i) min_age max_age = true))
  /\ (forall z : Z, age_passes (PyInt z) (Some z) (Some z) = true)
  /\ (forall top_n out t,
        top_tacklers_local df top_n min_age max_age = ret out ->
        lookup "tackles" (columns out) = Some t ->
        forallb present (cells t) = true).
Proof.
  intros Hok Hchoose Hages Hnum.
  assert (Hin : forall i, (i < nrows df)%nat ->
            (In i (rows_where (fun v => age_passes v min_age max_age) ages
                              (seq 0 (nrows df)))
             <-> age_passes (cell ages i) min_age max_age = true)).
  { intros i Hi. unfold rows_where. rewrite filter_In, in_seq. split; [tauto|].
    intros H. split; [lia|exact H]. }
  split; [rewrite Hchoose; apply filter_age_bounds_rows; assumption|].
  split.
  { intros i Hi Hna. apply Hin; [exact Hi|]. unfold age_passes. rewrite Hna. reflexivity. }
  split; [exact Hin|]. split.
  { intros z. unfold age_passes. simpl. rewrite Z.leb_refl. reflexivity. }
  intros top_n out t Hout Ht.
  apply top_tacklers_local_inv in Hout. destruct Hout as [kept [top [_ [Hr Hsel]]]].
  rewrite (select_lookup _ _ _ "tackles" Hsel) in Ht
    by (unfold tackler_columns; simpl; tauto).
  rewrite Hchoose in Ht.
  rewrite lookup_normalised_tackles in Ht
    by (apply (choose_age_col_cases df a Hchoose)).
  apply (ranked_tackles_present kept top top_n t Hr Ht).
Qed.

End TacklerTheorems.

(** ** Twenty rows, the first fifteen *)




Lemma filter_all {A : Type} (f : A -> bool) (l : list A) :
  (forall x, In x l -> f x = true) -> filter f l = l.
Proof.
  induction l as [|a l IH]; intros H; simpl; [reflexivity|].
  rewrite (H a (or_introl eq_refl)). f_equal. apply IH. intros x Hx. apply H. right. exact Hx.
Qed.

Lemma where_true_all (m : list bool) :
  forallb (fun b => b) m = true -> where_true m = seq 0 (length m).
Proof.
  intros H. rewrite where_true_filter. apply filter_all.
  intros i Hi. apply in_seq in Hi. rewrite forallb_forall in H.
  apply H. apply nth_In. lia.
Qed.




Lemma index_ensure_col (name : string) (top : DataFrame) :
  index (ensure_col name top) = index top.
Proof. unfold ensure_col. destruct (has_col name top); reflexivity. Qed.

Lemma index_normalised (a : option string) (top : DataFrame) :
  index (normalised a top) = index top.
Proof.
  unfold normalised. rewrite !index_ensure_col.
  destruct a as [a|]; [|reflexivity]. destruct (negb (a =? "age")%string); reflexivity.
Qed.


(** After normalisation the age column is called [age] and the other
    columns keep their names. *)
Lemma has_col_normalised_age (a : string) (top : DataFrame) :
  has_col a top = true -> has_col "age" (normalised (Some a) top) = true.
Proof.
  intros H. unfold normalised. rewrite !has_col_ensure_col.
  rewrite !orb_false_r.
  destruct (String.eqb_spec a "age") as [->|Hne]; simpl; [exact H|].
  apply has_col_rename. right. auto.
Qed.

Lemma has_col_normalised_other (a n : string) (top : DataFrame) :
  a = "age" \/ a = "age_x" \/ a = "age_y" ->
  n <> "age_x" -> n <> "age_y" ->
  has_col n top = true -> has_col n (normalised (Some a) top) = true.
Proof.
  intros Ha Hx Hy H. unfold normalised. rewrite !has_col_ensure_col.
  apply orb_true_iff. left. apply orb_true_iff. left.
  destruct (String.eqb_spec a "age") as [->|Hne]; simpl; [exact H|].
  apply has_col_rename. left. split; [|exact H].
  destruct Ha as [->|[->| ->]]; congruence.
Qed.

Lemma has_col_normalised_ensured (a : option string) (top : DataFrame) :
  has_col "position" (normalised a top) = true
  /\ has_col "nationality" (normalised a top) = true.
Proof.
  unfold normalised. rewrite !has_col_ensure_col. simpl.
  split; [rewrite orb_true_r; reflexivity|apply orb_true_r].
Qed.


Section TopFifteen.

Context {S : ArgSort}.

(** The extractor succeeds on a table that has the columns it reads. *)
Lemma top_tacklers_local_total (df : DataFrame) (top_n : Z) (a : string) (ages : column)
    (min_age max_age : option Z) :
  frame_ok df = true ->
  has_col "player" df = true -> has_col "team" df = true ->
  has_col "tackles" df = true ->
  choose_age_col df = Some a ->
  lookup a (columns df) = Some ages -> numeric ages = true ->
  exists out, top_tacklers_local df top_n min_age max_age = ret out.
Proof.
  intros Hok Hp Ht Hk Hchoose Hages Hnum.
  pose proof (choose_age_col_cases df a Hchoose) as [Ha Hcases].
  pose proof (filter_age_bounds_rows df a ages min_age max_age Hok Hages Hnum) as Hf.
  set (kept := frame_take _ df) in Hf.
  assert (Hkc : forall n, has_col n kept = has_col n df)
    by (intros n; apply has_col_frame_take).
  destruct (rank_tacklers_total kept top_n) as [top Htop]; [rewrite Hkc; exact Hk|].
  assert (Htc : forall n, has_col n top = has_col n df).
  { intros n. rewrite (rank_tacklers_has_col _ _ _ n Htop). apply Hkc. }
  destruct (select_total tackler_columns (normalised (Some a) top)) as [out Hout].
  { intros n Hn. unfold tackler_columns in Hn. simpl in Hn.
    destruct Hn as [<-|[<-|[<-|[<-|[<-|[<-|[]]]]]]].
    - apply has_col_normalised_other; [exact Hcases|discriminate|discriminate|].
      rewrite Htc. exact Hp.
    - apply has_col_normalised_other; [exact Hcases|discriminate|discriminate|].
      rewrite Htc. exact Ht.
    - apply has_col_normalised_age. rewrite Htc. exact Ha.
    - apply has_col_normalised_other; [exact Hcases|discriminate|discriminate|].
      rewrite Htc. exact Hk.
    - apply has_col_normalised_ensured.
    - apply has_col_normalised_ensured. }
  exists out. unfold top_tacklers_local. rewrite Hchoose, Hf, bind_ret_l, Htop, bind_ret_l.
  exact Hout.
Qed.






End TopFifteen.

(** ** A sample file for the extractor *)

Definition age_cell (o : option Z) : spec_float :=
  match o with
  | Some z => F64.of_Z z
  | None => F64.nan
  end.

Definition tackler_ages : column :=
  Float64 (map age_cell
             [Some 24; Some 31; None; Some 19; Some 27; Some 33; Some 22; None;
              Some 29; Some 30; Some 21; Some 26; Some 35; Some 20; Some 28;
              None; Some 23; Some 32; Some 25; Some 18]).

Definition tackle_counts : column :=
  Int64 [41; 58; 12; 77; 63; 25; 90; 34; 49; 71; 16; 83; 8; 55; 67; 29; 94; 38;
         46; 60].

(** Twenty players of [tackles_joined.csv]; the join left the age under
    the name [age_x], and three players without one. *)
Definition tackles_joined : DataFrame :=
  mkFrame (seq 0 20)
    [ ("player",
       Object (map Some ["Torreira"; "Fred"; "Sara"; "Amrabat"; "Lemina"; "Kokcu";
                         "Ndidi"; "Orkun"; "Skriniar"; "Sanchez"; "Bardakci";
                         "Djiku"; "Oosterwolde"; "Jakobs"; "Singo"; "Elmali";
                         "Masuaku"; "Svensson"; "Paulista"; "Uduokhai"]));
      ("team",
       Object (map Some ["GS"; "FB"; "GS"; "FB"; "GS"; "BJK"; "BJK"; "BJK"; "FB";
                         "GS"; "GS"; "FB"; "FB"; "GS"; "GS"; "GS"; "BJK"; "BJK";
                         "BJK"; "BJK"]));
      ("age_x", tackler_ages);
      ("tackles", tackle_counts) ].

Lemma tackler_age_filter_witness :
  filter_age_bounds tackles_joined (choose_age_col tackles_joined) (Some 21) (Some 30)
  = ret (frame_take
           (rows_where (fun v => age_passes v (Some 21) (Some 30)) tackler_ages
                       (seq 0 (nrows tackles_joined)))
           tackles_joined).
Proof.
  destruct (tackler_age_filter_permissive (S := stable_kind) tackles_joined "age_x"
              tackler_ages (Some 21) (Some 30)) as [H _];
    [reflexivity|reflexivity|reflexivity|reflexivity|exact H].
Defined.


(** The sample file without its age column. *)
Definition tackles_without_age : DataFrame :=
  mkFrame (index tackles_joined)
          (filter (fun nc => negb (String.eqb (fst nc) "age_x")) (columns tackles_joined)).


(** The fifteen counts the extractor returns for the sample, and the ages
    of the rows kept by the bounds 21 and 30. *)
Example sample_top_fifteen :
  option_map cells
    (lookup "tackles"
       (columns (frame_of (top_tacklers_local (S := stable_kind) tackles_joined 15
                             None None))))
  = Some (map PyInt [94; 90; 83; 77; 71; 67; 63; 60; 58; 55; 49; 46; 41; 38; 34]).
Proof. vm_compute. reflexivity. Qed.

Example sample_age_filter :
  rows_where (fun v => age_passes v (Some 21) (Some 30)) tackler_ages (seq 0 20)
  = [0; 2; 4; 6; 7; 8; 9; 10; 11; 14; 15; 16; 18]%nat.
Proof. vm_compute. reflexivity. Qed.

(** ** The size of the leaderboard, counted on the table *)

(** The condition of lines 43-44 on one row: a row qualifies for a
    leaderboard when the table has no minutes column, when the threshold
    is not positive, or when its minutes reach the threshold; under a
    positive threshold a row whose minutes are missing does not qualify. *)
Definition qualifies (df : DataFrame) (min_minutes : Z) (i : nat) : bool :=
  match lookup "minutesPlayed" (columns df) with
  | Some minutes => (min_minutes <=? 0) || cell_ge (cell minutes i) min_minutes
  | None => true
  end.

(** The qualifying rows of a table, as positions in table order. *)
Definition qualifying_rows (df : DataFrame) (min_minutes : Z) : list nat :=
  filter (qualifies df min_minutes) (seq 0 (nrows df)).

Lemma qualifying_rows_spec (df : DataFrame) (min_minutes : Z) (i : nat) :
  In i (qualifying_rows df min_minutes)
  <-> (i < nrows df)%nat /\ qualifies df min_minutes i = true.
Proof.
  unfold qualifying_rows. rewrite filter_In, in_seq. split; [tauto|].
  intros [H1 H2]. split; [lia|exact H2].
Qed.

Section QualifyingRows.

Context {S : ArgSort}.

(** The minutes filter keeps the qualifying rows, and only them. *)
Lemma filter_minutes_qualifying (df : DataFrame) (min_minutes : Z) :
  frame_ok df = true ->
  implb (has_col "minutesPlayed" df) (numeric_at "minutesPlayed" df) = true ->
  filter_minutes df min_minutes = ret (frame_take (qualifying_rows df min_minutes) df).
Proof.
  intros Hok Hnum.
  assert (Hall : (forall i, qualifies df min_minutes i = true) ->
                 ret (A := DataFrame) df
                 = ret (frame_take (qualifying_rows df min_minutes) df)).
  { intros H. unfold qualifying_rows. rewrite filter_all by (intros; apply H).
    rewrite frame_take_all by exact Hok. reflexivity. }
  unfold filter_minutes.
  destruct (has_col "minutesPlayed" df) eqn:Hh; cbn [andb].
  - cbn [implb] in Hnum. unfold numeric_at in Hnum.
    destruct (lookup "minutesPlayed" (columns df)) as [minutes|] eqn:Hm; [|discriminate].
    destruct (Z.ltb_spec 0 min_minutes) as [Hpos|Hpos].
    + unfold getcol. rewrite Hm, bind_ret_l.
      destruct (ge_scalar_total minutes min_minutes Hnum) as [m Hge].
      rewrite Hge, bind_ret_l. apply ge_scalar_cells in Hge. subst m.
      rewrite (frame_filter_rows _ df "minutesPlayed" minutes Hok Hm).
      unfold rows_where, qualifying_rows. do 2 f_equal.
      apply filter_ext. intros i. unfold qualifies. rewrite Hm.
      destruct (Z.leb_spec min_minutes 0); [lia|reflexivity].
    + apply Hall. intros i. unfold qualifies. rewrite Hm.
      destruct (Z.leb_spec min_minutes 0); [reflexivity|lia].
  - apply Hall. intros i. unfold qualifies.
    apply has_col_false_lookup in Hh. rewrite Hh. reflexivity.
Qed.

(** C5.  For a table [build_top_table] accepts, the call returns a
    display table with one row per qualifying row of the table, up to
    ten: exactly ten rows when at least ten rows of the table qualify,
    exactly [k] rows when [k < 10] rows qualify.  The qualifying rows are
    counted on the table given, by [qualifies]; every column of the
    display has that number of cells. *)
Theorem leaderboard_size (df : DataFrame) (metric : string) (per_90 : bool)
    (min_minutes : Z) (ascending : bool) (extra_cols : option (list string)) :
  leaderboard_input_ok df metric extra_cols = true ->
  exists display,
    build_top_table df metric per_90 min_minutes ascending extra_cols = ret display
    /\ frame_ok display = true
    /\ nrows display = Nat.min 10 (length (qualifying_rows df min_minutes))
    /\ ((10 <= length (qualifying_rows df min_minutes))%nat -> nrows display = 10%nat)
    /\ (forall k, length (qualifying_rows df min_minutes) = k -> (k < 10)%nat ->
          nrows display = k)
    /\ NoDup (qualifying_rows df min_minutes)
    /\ (forall i, In i (qualifying_rows df min_minutes)
                  <-> (i < nrows df)%nat /\ qualifies df min_minutes i = true).
Proof.
  intros Hin.
  destruct (display_size df metric per_90 min_minutes ascending extra_cols Hin)
    as [q [display [Hq [Hb [Hn [Hok _]]]]]].
  assert (Hq' : filter_minutes df min_minutes
                = ret (frame_take (qualifying_rows df min_minutes) df)).
  { unfold leaderboard_input_ok in Hin.
    repeat (apply andb_true_iff in Hin; destruct Hin as [Hin ?]).
    apply filter_minutes_qualifying; assumption. }
  rewrite Hq' in Hq. inv_ret Hq. subst q. rewrite nrows_frame_take in Hn.
  exists display. split; [exact Hb|]. split; [exact Hok|]. split; [exact Hn|].
  split; [intros; lia|]. split; [intros; lia|].
  split; [apply NoDup_filter, seq_NoDup|apply qualifying_rows_spec].
Qed.

End QualifyingRows.

Lemma leaderboard_size_witness :
  exists display,
    build_top_table (S := stable_kind) squad "goals" true 600 false squad_extras
    = ret display
    /\ frame_ok display = true
    /\ nrows display = Nat.min 10 (length (qualifying_rows squad 600))
    /\ ((10 <= length (qualifying_rows squad 600))%nat -> nrows display = 10%nat)
    /\ (forall k, length (qualifying_rows squad 600) = k -> (k < 10)%nat ->
          nrows display = k)
    /\ NoDup (qualifying_rows squad 600)
    /\ (forall i, In i (qualifying_rows squad 600)
                  <-> (i < nrows squad)%nat /\ qualifies squad 600 i = true).
Proof.
  apply (leaderboard_size (S := stable_kind) squad "goals" true 600 false squad_extras).
  reflexivity.
Defined.

(** Of the twelve players of [squad], six have 600 minutes or more, and
    eleven have 90 or more: the leaderboards have six and ten rows. *)
Example squad_leaderboard_sizes :
  nrows squad = 12%nat
  /\ qualifying_rows squad 600 = [0; 4; 7; 8; 9; 10]%nat
  /\ nrows (frame_of (build_top_table (S := stable_kind) squad "goals" true 600 false
                        squad_extras)) = 6%nat
  /\ length (qualifying_rows squad 90) = 11%nat
  /\ nrows (frame_of (build_top_table (S := stable_kind) squad "goals" true 90 false
                        squad_extras)) = 10%nat.
Proof. vm_compute. repeat split; reflexivity. Qed.

(** * The extractor on any file *)

(** ** The rows it returns *)

Lemma select_raises (names : list string) (df : DataFrame) (n : string) :
  In n names -> has_col n df = false ->
  exists k, In k names /\ has_col k df = false /\ select names df = raise (KeyError k).
Proof.
  unfold select. induction names as [|m names IH]; intros Hin Hn; [contradiction|].
  cbn [mapM]. unfold getcol at 1.
  destruct (lookup m (columns df)) as [c|] eqn:Hm.
  - assert (Hne : m <> n).
    { intros ->. apply has_col_false_lookup in Hn. congruence. }
    destruct Hin as [Heq|Hin]; [contradiction|].
    destruct (IH Hin Hn) as [k [Hk [Hkf Hr]]].
    exists k. split; [right; exact Hk|]. split; [exact Hkf|].
    unfold ret, raise, bind in *.
    destruct (mapM _ names) as [e|cs]; [|discriminate].
    injection Hr as ->. reflexivity.
  - exists m. split; [left; reflexivity|]. split; [|reflexivity].
    apply has_col_false_lookup. exact Hm.
Qed.

Lemma rows_where_NoDup (P : pyval -> bool) (c : column) (pos : list nat) :
  NoDup pos -> NoDup (rows_where P c pos).
Proof. intros H. unfold rows_where. apply NoDup_filter. exact H. Qed.

Lemma take_NoDup (p q : list nat) :
  NoDup p -> NoDup q -> Forall (fun i => (i < length q)%nat) p -> NoDup (take 0%nat p q).
Proof.
  intros Hp Hq Hb. apply NoDup_nth with (d := 0%nat).
  intros i j Hi Hj. rewrite length_take in Hi, Hj.
  rewrite !nth_take by assumption. intros Heq.
  rewrite Forall_forall in Hb.
  apply (proj1 (NoDup_nth q 0%nat) Hq) in Heq;
    [|apply Hb; apply nth_In; assumption|apply Hb; apply nth_In; assumption].
  apply (proj1 (NoDup_nth p 0%nat) Hp); assumption.
Qed.

Lemma take_In (p q : list nat) (x : nat) :
  Forall (fun i => (i < length q)%nat) p -> In x (take 0%nat p q) -> In x q.
Proof.
  intros Hb H. unfold take in H. apply in_map_iff in H. destruct H as [i [<- Hi]].
  rewrite Forall_forall in Hb. apply nth_In. apply Hb. exact Hi.
Qed.

Lemma firstn_NoDup {A : Type} (h : nat) (l : list A) : NoDup l -> NoDup (firstn h l).
Proof.
  intros H. rewrite <- (firstn_skipn h l) in H. apply NoDup_app_remove_r in H. exact H.
Qed.

Section ExtractorRows.

Context {S : ArgSort}.

(** The rows of the file that pass the age filter and have a tackle
    count, in file order. *)
Definition counted_rows (ages tackles : column) (n : nat) (min_age max_age : option Z)
  : list nat :=
  rows_where present tackles
    (rows_where (fun v => age_passes v min_age max_age) ages (seq 0 n)).

(** The rows the extractor returns, as positions in the file: the counted
    rows in descending order of tackles, cut to [top_n]. *)
Definition tackler_rows (ages tackles : column) (n : nat) (top_n : Z)
    (min_age max_age : option Z) : list nat :=
  let counted := counted_rows ages tackles n min_age max_age in
  take 0%nat
    (firstn (head_count top_n (length counted))
            (col_argsort (col_take counted tackles) false))
    counted.

Lemma counted_rows_bound (ages tackles : column) (n : nat) (min_age max_age : option Z) :
  Forall (fun i => (i < n)%nat) (counted_rows ages tackles n min_age max_age).
Proof. unfold counted_rows. apply rows_where_bound, rows_where_bound, seq_bound. Qed.

Lemma counted_rows_NoDup (ages tackles : column) (n : nat) (min_age max_age : option Z) :
  NoDup (counted_rows ages tackles n min_age max_age).
Proof. unfold counted_rows. apply rows_where_NoDup, rows_where_NoDup, seq_NoDup. Qed.

Lemma counted_rows_spec (ages tackles : column) (n : nat) (min_age max_age : option Z)
    (i : nat) :
  In i (counted_rows ages tackles n min_age max_age)
  <-> (i < n)%nat /\ age_passes (cell ages i) min_age max_age = true
      /\ isna (cell tackles i) = false.
Proof.
  unfold counted_rows, rows_where, present. rewrite !filter_In, in_seq, negb_true_iff.
  split; [intros [[H1 H2] H3]; repeat split; [lia|assumption|assumption]|].
  intros [H1 [H2 H3]]. repeat split; [lia|lia|assumption|assumption].
Qed.

Lemma ranked_order_bound (counted : list nat) (tackles : column) (h : nat) :
  Forall (fun i => (i < length counted)%nat)
         (firstn h (col_argsort (col_take counted tackles) false)).
Proof.
  apply Forall_forall. intros k Hk. apply In_firstn in Hk.
  apply (Permutation_in _ (col_argsort_perm _ _)) in Hk. apply in_seq in Hk.
  rewrite col_len_take in Hk. lia.
Qed.

Lemma tackler_rows_bound (ages tackles : column) (n : nat) (top_n : Z)
    (min_age max_age : option Z) :
  Forall (fun i => (i < n)%nat) (tackler_rows ages tackles n top_n min_age max_age).
Proof.
  apply Forall_forall. intros x Hx. unfold tackler_rows in Hx.
  apply take_In in Hx; [|apply ranked_order_bound].
  pose proof (counted_rows_bound ages tackles n min_age max_age) as Hb.
  rewrite Forall_forall in Hb. apply Hb. exact Hx.
Qed.

Lemma tackler_rows_counted (ages tackles : column) (n : nat) (top_n : Z)
    (min_age max_age : option Z) (x : nat) :
  In x (tackler_rows ages tackles n top_n min_age max_age) ->
  In x (counted_rows ages tackles n min_age max_age).
Proof. unfold tackler_rows. apply take_In, ranked_order_bound. Qed.

Lemma tackler_rows_NoDup (ages tackles : column) (n : nat) (top_n : Z)
    (min_age max_age : option Z) :
  NoDup (tackler_rows ages tackles n top_n min_age max_age).
Proof.
  unfold tackler_rows. apply take_NoDup.
  - apply firstn_NoDup, col_argsort_NoDup.
  - apply counted_rows_NoDup.
  - apply ranked_order_bound.
Qed.

Lemma tackler_rows_length (ages tackles : column) (n : nat) (top_n : Z)
    (min_age max_age : option Z) :
  length (tackler_rows ages tackles n top_n min_age max_age)
  = head_count top_n (length (counted_rows ages tackles n min_age max_age)).
Proof.
  unfold tackler_rows. rewrite length_take, length_firstn, col_argsort_length, col_len_take.
  apply Nat.min_l. unfold head_count. destruct (0 <=? top_n); lia.
Qed.

Lemma rank_tacklers_taken (df : DataFrame) (pos : list nat) (tackles : column)
    (top_n : Z) :
  Forall (fun i => (i < col_len tackles)%nat) pos ->
  lookup "tackles" (columns df) = Some tackles ->
  rank_tacklers (frame_take pos df) top_n
  = ret (reset_index
           (frame_take
              (take 0%nat
                 (firstn (head_count top_n (length (rows_where present tackles pos)))
                    (col_argsort (col_take (rows_where present tackles pos) tackles) false))
                 (rows_where present tackles pos))
              df)).
Proof.
  intros Hpos Htk. unfold rank_tacklers, dropna, getcol.
  rewrite lookup_frame_take, Htk. cbn [option_map]. rewrite bind_ret_l.
  unfold col_isna, mask_not. rewrite map_map.
  change (fun x : pyval => negb (isna x)) with present.
  rewrite (frame_filter_taken present df tackles pos Hpos). rewrite bind_ret_l.
  unfold sort_values, getcol. rewrite lookup_frame_take, Htk. cbn [option_map].
  rewrite !bind_ret_l. rewrite head_frame_take, col_argsort_length, col_len_take.
  rewrite frame_take_take by apply ranked_order_bound. reflexivity.
Qed.

(** The table the extractor selects its columns from, for a file with an
    age column: the rows [tackler_rows] of the file under a fresh index. *)
Lemma top_tacklers_local_rows (df : DataFrame) (a : string) (ages tackles : column)
    (top_n : Z) (min_age max_age : option Z) :
  frame_ok df = true ->
  choose_age_col df = Some a ->
  lookup a (columns df) = Some ages -> numeric ages = true ->
  lookup "tackles" (columns df) = Some tackles ->
  top_tacklers_local df top_n min_age max_age
  = select tackler_columns
      (normalised (Some a)
         (reset_index
            (frame_take (tackler_rows ages tackles (nrows df) top_n min_age max_age) df))).
Proof.
  intros Hok Hchoose Hages Hnum Htk.
  unfold top_tacklers_local. rewrite Hchoose.
  rewrite (filter_age_bounds_rows df a ages min_age max_age Hok Hages Hnum), bind_ret_l.
  rewrite (rank_tacklers_taken df _ tackles top_n).
  - rewrite bind_ret_l. reflexivity.
  - rewrite (frame_ok_lookup df "tackles" tackles Hok Htk).
    apply rows_where_bound, seq_bound.
  - exact Htk.
Qed.

End ExtractorRows.

(** ** What the returned table holds *)

Lemma choose_age_col_first (df : DataFrame) (a : string) :
  choose_age_col df = Some a -> a <> "age" -> has_col "age" df = false.
Proof.
  unfold choose_age_col. destruct (has_col "age" df); [|reflexivity].
  intros H Hne. injection H as <-. contradiction.
Qed.

Lemma lookup_normalised_other (a n : string) (top : DataFrame) :
  a = "age" \/ a = "age_x" \/ a = "age_y" ->
  n <> "age" -> n <> "age_x" -> n <> "age_y" ->
  n <> "position" -> n <> "nationality" ->
  lookup n (columns (normalised (Some a) top)) = lookup n (columns top).
Proof.
  intros Ha H1 H2 H3 H4 H5. unfold normalised.
  rewrite !lookup_ensure_col_other by assumption.
  destruct (String.eqb_spec a "age") as [->|Hne]; simpl; [reflexivity|].
  apply lookup_rename_other; [|exact H1].
  destruct Ha as [->|[->| ->]]; assumption.
Qed.

Lemma lookup_normalised_age (a : string) (top : DataFrame) :
  (a <> "age" -> has_col "age" top = false) ->
  lookup "age" (columns (normalised (Some a) top)) = lookup a (columns top).
Proof.
  intros Hf. unfold normalised. rewrite !lookup_ensure_col_other by discriminate.
  destruct (String.eqb_spec a "age") as [->|Hne]; simpl; [reflexivity|].
  apply lookup_rename_new. auto.
Qed.

Lemma lookup_ensure_col_same (name : string) (top : DataFrame) :
  lookup name (columns (ensure_col name top))
  = Some (match lookup name (columns top) with
          | Some c => c
          | None => Object (repeat None (nrows top))
          end).
Proof.
  unfold ensure_col. destruct (has_col name top) eqn:H.
  - apply has_col_lookup in H. destruct H as [c Hc]. rewrite Hc. reflexivity.
  - apply has_col_false_lookup in H. rewrite H. unfold setcol. cbn [columns].
    apply lookup_assign_same.
Qed.

Lemma nrows_ensure_col (name : string) (top : DataFrame) :
  nrows (ensure_col name top) = nrows top.
Proof. unfold nrows. rewrite index_ensure_col. reflexivity. Qed.

Lemma lookup_normalised_ensured (a n : string) (top : DataFrame) :
  a = "age" \/ a = "age_x" \/ a = "age_y" ->
  n = "position" \/ n = "nationality" ->
  lookup n (columns (normalised (Some a) top))
  = Some (match lookup n (columns top) with
          | Some c => c
          | None => Object (repeat None (nrows top))
          end).
Proof.
  intros Ha Hn. unfold normalised.
  set (renamed := if negb (a =? "age")%string then rename a "age" top else top).
  assert (Hl : forall m, m = "position" \/ m = "nationality" ->
            lookup m (columns renamed) = lookup m (columns top)).
  { intros m Hm. unfold renamed. destruct (negb (a =? "age")%string); [|reflexivity].
    apply lookup_rename_other;
      destruct Ha as [->|[->| ->]], Hm as [->| ->]; discriminate. }
  assert (Hr : nrows renamed = nrows top).
  { unfold renamed. destruct (negb (a =? "age")%string); reflexivity. }
  destruct Hn as [->| ->].
  - rewrite lookup_ensure_col_other by discriminate.
    rewrite lookup_ensure_col_same, Hl, Hr by auto. reflexivity.
  - rewrite lookup_ensure_col_same, nrows_ensure_col, Hr.
    rewrite lookup_ensure_col_other by discriminate. rewrite Hl by auto. reflexivity.
Qed.

Section ExtractorTheorems.

Context {S : ArgSort}.

(** What a successful call returned, column by column. *)
Lemma top_tacklers_local_columns (df out : DataFrame) (a : string) (ages tackles : column)
    (top_n : Z) (min_age max_age : option Z) :
  frame_ok df = true ->
  choose_age_col df = Some a ->
  lookup a (columns df) = Some ages -> numeric ages = true ->
  lookup "tackles" (columns df) = Some tackles ->
  top_tacklers_local df top_n min_age max_age = ret out ->
  index out
  = seq 0 (length (tackler_rows ages tackles (nrows df) top_n min_age max_age))
  /\ lookup "age" (columns out)
     = Some (col_take (tackler_rows ages tackles (nrows df) top_n min_age max_age) ages)
  /\ lookup "tackles" (columns out)
     = Some (col_take (tackler_rows ages tackles (nrows df) top_n min_age max_age) tackles)
  /\ (forall n, n = "player" \/ n = "team" ->
        exists c, lookup n (columns df) = Some c
                  /\ lookup n (columns out)
                     = Some (col_take (tackler_rows ages tackles (nrows df) top_n
                                                    min_age max_age) c))
  /\ (forall n, n = "position" \/ n = "nationality" ->
        lookup n (columns out)
        = Some (match lookup n (columns df) with
                | Some c => col_take (tackler_rows ages tackles (nrows df) top_n
                                                   min_age max_age) c
                | None => Object (repeat None (nrows out))
                end)).
Proof.
  intros Hok Hchoose Hages Hnum Htk Hout.
  rewrite (top_tacklers_local_rows df a ages tackles top_n min_age max_age
             Hok Hchoose Hages Hnum Htk) in Hout.
  set (rows := tackler_rows ages tackles (nrows df) top_n min_age max_age) in *.
  set (top := reset_index (frame_take rows df)) in *.
  pose proof (choose_age_col_cases df a Hchoose) as [Ha Hcases].
  assert (Hltop : forall n, lookup n (columns top)
                            = option_map (col_take rows) (lookup n (columns df))).
  { intros n. unfold top, reset_index. cbn [columns]. apply lookup_frame_take. }
  assert (Hntop : nrows top = length rows).
  { unfold top, reset_index, nrows. cbn [index]. rewrite length_seq.
    apply nrows_frame_take. }
  pose proof (select_inv _ _ _ Hout) as [Hix _].
  assert (Hnout : nrows out = length rows).
  { unfold nrows at 1. rewrite Hix, index_normalised. exact Hntop. }
  split.
  { rewrite Hix, index_normalised. unfold top, reset_index. cbn [index].
    rewrite nrows_frame_take. reflexivity. }
  split.
  { rewrite (select_lookup _ _ _ "age" Hout) by (unfold tackler_columns; simpl; tauto).
    rewrite lookup_normalised_age, Hltop, Hages; [reflexivity|].
    intros Hne. unfold top. change (has_col "age" (reset_index ?x)) with (has_col "age" x).
    rewrite has_col_frame_take. apply (choose_age_col_first df a Hchoose Hne). }
  split.
  { rewrite (select_lookup _ _ _ "tackles" Hout) by (unfold tackler_columns; simpl; tauto).
    rewrite lookup_normalised_other, Hltop, Htk by (assumption || discriminate).
    reflexivity. }
  split.
  { intros n Hn.
    assert (Hin : In n tackler_columns)
      by (unfold tackler_columns; destruct Hn as [->| ->]; simpl; tauto).
    pose proof (select_present _ _ _ n Hout Hin) as Hp.
    rewrite (select_lookup _ _ _ n Hout Hin).
    apply has_col_lookup in Hp. destruct Hp as [c Hc].
    rewrite lookup_normalised_other in Hc |- *
      by (assumption || (destruct Hn as [->| ->]; discriminate)).
    rewrite Hltop in Hc |- *.
    destruct (lookup n (columns df)) as [c0|]; [|discriminate].
    exists c0. split; reflexivity. }
  intros n Hn.
  assert (Hin : In n tackler_columns)
    by (unfold tackler_columns; destruct Hn as [->| ->]; simpl; tauto).
  rewrite (select_lookup _ _ _ n Hout Hin).
  rewrite (lookup_normalised_ensured a n top Hcases Hn), Hltop, Hntop, Hnout.
  destruct (lookup n (columns df)); reflexivity.
Qed.

(** The tackle count at row [i] of the result is the count the sort put
    at place [i] among the counted rows. *)
Lemma tackler_cell (ages tackles : column) (top_n : Z) (min_age max_age : option Z)
    (i : nat) :
  (i < length (tackler_rows ages tackles (col_len tackles) top_n min_age max_age))%nat ->
  (i < length (counted_rows ages tackles (col_len tackles) min_age max_age))%nat
  /\ cell (col_take (tackler_rows ages tackles (col_len tackles) top_n min_age max_age)
                    tackles) i
     = cell (col_take (counted_rows ages tackles (col_len tackles) min_age max_age) tackles)
            (nth i (col_argsort
                      (col_take (counted_rows ages tackles (col_len tackles)
                                              min_age max_age) tackles) false) 0%nat).
Proof.
  intros Hi.
  pose proof (tackler_rows_bound ages tackles (col_len tackles) top_n min_age max_age) as Hb.
  pose proof (counted_rows_bound ages tackles (col_len tackles) min_age max_age) as Hcb.
  rewrite Forall_forall in Hb, Hcb.
  rewrite cell_col_take by (try apply Hb; try apply nth_In; exact Hi).
  unfold tackler_rows in *. cbv zeta in *.
  set (counted := counted_rows ages tackles (col_len tackles) min_age max_age) in *.
  set (tc := col_take counted tackles) in *.
  rewrite length_take, length_firstn, col_argsort_length in Hi.
  unfold tc in Hi at 1. rewrite col_len_take in Hi.
  assert (Hic : (i < length counted)%nat) by lia.
  split; [exact Hic|].
  rewrite nth_take by (rewrite length_firstn, col_argsort_length; unfold tc;
                       rewrite col_len_take; lia).
  rewrite nth_firstn_lt by lia.
  assert (Ho : (nth i (col_argsort tc false) 0 < length counted)%nat).
  { pose proof (col_argsort_bound tc false i) as H. unfold tc in H at 1 3.
    rewrite col_len_take in H. apply H. exact Hic. }
  unfold tc at 2. rewrite cell_col_take; [reflexivity|exact Ho|].
  apply Hcb. apply nth_In. exact Ho.
Qed.

Lemma counted_cell_present (ages tackles : column) (min_age max_age : option Z) (m : nat) :
  (m < length (counted_rows ages tackles (col_len tackles) min_age max_age))%nat ->
  isna (cell (col_take (counted_rows ages tackles (col_len tackles) min_age max_age)
                       tackles) m) = false.
Proof.
  intros Hm.
  assert (Hin : In (nth m (counted_rows ages tackles (col_len tackles) min_age max_age) 0%nat)
                   (counted_rows ages tackles (col_len tackles) min_age max_age))
    by (apply nth_In; exact Hm).
  apply counted_rows_spec in Hin. destruct Hin as [Hlt [_ Hp]].
  rewrite cell_col_take by assumption. exact Hp.
Qed.

(** X1.  Every row of the result is a row of the file, taken once: it passed
    the age filter, it has a tackle count, and its player, team, age and
    tackles cells are those of the file.  The result has a fresh index
    0, 1, 2, ... *)
Theorem tackler_rows_from_file (df out : DataFrame) (a : string) (ages tackles : column)
    (top_n : Z) (min_age max_age : option Z) :
  frame_ok df = true ->
  choose_age_col df = Some a ->
  lookup a (columns df) = Some ages -> numeric ages = true ->
  lookup "tackles" (columns df) = Some tackles ->
  top_tacklers_local df top_n min_age max_age = ret out ->
  exists rows,
    NoDup rows
    /\ (forall i, In i rows ->
          (i < nrows df)%nat
          /\ age_passes (cell ages i) min_age max_age = true
          /\ isna (cell tackles i) = false)
    /\ index out = seq 0 (length rows)
    /\ lookup "age" (columns out) = Some (col_take rows ages)
    /\ lookup "tackles" (columns out) = Some (col_take rows tackles)
    /\ (exists c, lookup "player" (columns df) = Some c
                  /\ lookup "player" (columns out) = Some (col_take rows c))
    /\ (exists c, lookup "team" (columns df) = Some c
                  /\ lookup "team" (columns out) = Some (col_take rows c)).
Proof.
  intros Hok Hchoose Hages Hnum Htk Hout.
  destruct (top_tacklers_local_columns df out a ages tackles top_n min_age max_age
              Hok Hchoose Hages Hnum Htk Hout) as [Hix [Hage [Htack [Hid _]]]].
  exists (tackler_rows ages tackles (nrows df) top_n min_age max_age).
  split; [apply tackler_rows_NoDup|].
  split.
  { intros i Hi. apply tackler_rows_counted in Hi. apply counted_rows_spec in Hi.
    exact Hi. }
  repeat split; try assumption; apply Hid; auto.
Qed.

(** X5.  The [position] and [nationality] columns of the result: the cells of
    the file's column when the file has one, and otherwise a column in
    which every cell is missing. *)
Theorem tackler_missing_columns_filled (df out : DataFrame) (a n : string)
    (ages tackles : column) (top_n : Z) (min_age max_age : option Z) :
  frame_ok df = true ->
  choose_age_col df = Some a ->
  lookup a (columns df) = Some ages -> numeric ages = true ->
  lookup "tackles" (columns df) = Some tackles ->
  n = "position" \/ n = "nationality" ->
  top_tacklers_local df top_n min_age max_age = ret out ->
  exists c,
    lookup n (columns out) = Some c
    /\ col_len c = nrows out
    /\ (has_col n df = false -> c = Object (repeat None (nrows out)))
    /\ (forall c0, lookup n (columns df) = Some c0 ->
          c = col_take (tackler_rows ages tackles (nrows df) top_n min_age max_age) c0).
Proof.
  intros Hok Hchoose Hages Hnum Htk Hn Hout.
  destruct (top_tacklers_local_columns df out a ages tackles top_n min_age max_age
              Hok Hchoose Hages Hnum Htk Hout) as [Hix [_ [_ [_ Hopt]]]].
  specialize (Hopt n Hn). eexists. split; [exact Hopt|].
  assert (Hnout : nrows out
                  = length (tackler_rows ages tackles (nrows df) top_n min_age max_age)).
  { unfold nrows at 1. rewrite Hix. apply length_seq. }
  split.
  { destruct (lookup n (columns df)).
    - rewrite col_len_take. symmetry. exact Hnout.
    - simpl. apply repeat_length. }
  split.
  { intros Hf. apply has_col_false_lookup in Hf. rewrite Hf. reflexivity. }
  intros c0 Hc0. rewrite Hc0. reflexivity.
Qed.

(** X4.  The number of rows returned: of the [k] rows that pass the age filter
    and have a tackle count, the first [top_n], all of them if there are
    fewer; none for [top_n = 0]; and for a negative [top_n] all but the
    last [- top_n]. *)
Theorem tackler_row_count (df out : DataFrame) (a : string) (ages tackles : column)
    (top_n : Z) (min_age max_age : option Z) :
  frame_ok df = true ->
  choose_age_col df = Some a ->
  lookup a (columns df) = Some ages -> numeric ages = true ->
  lookup "tackles" (columns df) = Some tackles ->
  top_tacklers_local df top_n min_age max_age = ret out ->
  (0 <= top_n ->
   nrows out
   = Nat.min (Z.to_nat top_n)
             (length (counted_rows ages tackles (nrows df) min_age max_age)))
  /\ (top_n < 0 ->
      nrows out
      = (length (counted_rows ages tackles (nrows df) min_age max_age)
         - Z.to_nat (- top_n))%nat).
Proof.
  intros Hok Hchoose Hages Hnum Htk Hout.
  destruct (top_tacklers_local_columns df out a ages tackles top_n min_age max_age
              Hok Hchoose Hages Hnum Htk Hout) as [Hix _].
  assert (Hn : nrows out
               = head_count top_n
                   (length (counted_rows ages tackles (nrows df) min_age max_age))).
  { unfold nrows at 1. rewrite Hix, length_seq. apply tackler_rows_length. }
  rewrite Hn. unfold head_count. split; intros H.
  - destruct (Z.leb_spec 0 top_n); [reflexivity|lia].
  - destruct (Z.leb_spec 0 top_n); [lia|reflexivity].
Qed.

(** X2.  The result is ranked: no tackle count in it is missing, and going
    down the rows the count never increases. *)
Theorem tacklers_descending (df out : DataFrame) (a : string) (ages tackles : column)
    (top_n : Z) (min_age max_age : option Z) :
  frame_ok df = true ->
  choose_age_col df = Some a ->
  lookup a (columns df) = Some ages -> numeric ages = true ->
  lookup "tackles" (columns df) = Some tackles -> numeric tackles = true ->
  top_tacklers_local df top_n min_age max_age = ret out ->
  exists t,
    lookup "tackles" (columns out) = Some t
    /\ col_len t = nrows out
    /\ (forall i, (i < nrows out)%nat -> isna (cell t i) = false)
    /\ (forall i j, (i < j < nrows out)%nat -> cell_less (cell t i) (cell t j) = false).
Proof.
  intros Hok Hchoose Hages Hnum Htk Htnum Hout.
  destruct (top_tacklers_local_columns df out a ages tackles top_n min_age max_age
              Hok Hchoose Hages Hnum Htk Hout) as [Hix [_ [Htack _]]].
  pose proof (frame_ok_lookup df "tackles" tackles Hok Htk) as Hlen.
  rewrite <- Hlen in *.
  assert (Hn : nrows out
               = length (tackler_rows ages tackles (col_len tackles) top_n min_age max_age)).
  { unfold nrows at 1. rewrite Hix. apply length_seq. }
  eexists. split; [exact Htack|].
  split; [rewrite col_len_take; symmetry; exact Hn|].
  split.
  - intros i Hi. rewrite Hn in Hi.
    destruct (tackler_cell ages tackles top_n min_age max_age i Hi) as [Hic ->].
    apply counted_cell_present.
    pose proof (col_argsort_bound
                  (col_take (counted_rows ages tackles (col_len tackles) min_age max_age)
                            tackles) false i) as Hb.
    rewrite col_len_take in Hb. apply Hb. exact Hic.
  - intros i j Hij. rewrite Hn in Hij.
    destruct (tackler_cell ages tackles top_n min_age max_age i ltac:(lia)) as [Hic ->].
    destruct (tackler_cell ages tackles top_n min_age max_age j ltac:(lia)) as [Hjc ->].
    set (tc := col_take (counted_rows ages tackles (col_len tackles) min_age max_age)
                        tackles).
    assert (Hcl : col_len tc
                  = length (counted_rows ages tackles (col_len tackles) min_age max_age))
      by apply col_len_take.
    apply (col_argsort_ordered tc false i j).
    + unfold tc. rewrite numeric_col_take. exact Htnum.
    + lia.
    + apply counted_cell_present. rewrite <- Hcl. apply col_argsort_bound. lia.
Qed.

(** X3.  The result holds the best rows: a row of the file that passed the age
    filter and has a tackle count, but was left out, has no more tackles
    than any row returned. *)
Theorem tacklers_are_the_best (df out : DataFrame) (a : string) (ages tackles : column)
    (top_n : Z) (min_age max_age : option Z) :
  frame_ok df = true ->
  choose_age_col df = Some a ->
  lookup a (columns df) = Some ages -> numeric ages = true ->
  lookup "tackles" (columns df) = Some tackles -> numeric tackles = true ->
  top_tacklers_local df top_n min_age max_age = ret out ->
  exists rows t,
    index out = seq 0 (length rows)
    /\ lookup "tackles" (columns out) = Some t
    /\ t = col_take rows tackles
    /\ forall k i,
         (k < nrows df)%nat ->
         age_passes (cell ages k) min_age max_age = true ->
         isna (cell tackles k) = false ->
         ~ In k rows ->
         (i < nrows out)%nat ->
         cell_less (cell t i) (cell tackles k) = false.
Proof.
  intros Hok Hchoose Hages Hnum Htk Htnum Hout.
  destruct (top_tacklers_local_columns df out a ages tackles top_n min_age max_age
              Hok Hchoose Hages Hnum Htk Hout) as [Hix [_ [Htack _]]].
  pose proof (frame_ok_lookup df "tackles" tackles Hok Htk) as Hlen.
  rewrite <- Hlen in *.
  exists (tackler_rows ages tackles (col_len tackles) top_n min_age max_age).
  eexists. split; [exact Hix|]. split; [exact Htack|]. split; [reflexivity|].
  intros k i Hk Hpass Hpres Hnot Hi.
  assert (Hn : nrows out
               = length (tackler_rows ages tackles (col_len tackles) top_n min_age max_age)).
  { unfold nrows at 1. rewrite Hix. apply length_seq. }
  rewrite Hn in Hi.
  destruct (tackler_cell ages tackles top_n min_age max_age i Hi) as [Hic ->].
  set (counted := counted_rows ages tackles (col_len tackles) min_age max_age) in *.
  set (tc := col_take counted tackles) in *.
  assert (Hcl : col_len tc = length counted) by apply col_len_take.
  assert (Hkc : In k counted) by (apply counted_rows_spec; auto).
  apply (In_nth _ _ 0%nat) in Hkc. destruct Hkc as [m [Hm Hmk]].
  assert (Hmo : In m (col_argsort tc false)).
  { apply (Permutation_in m (Permutation_sym (col_argsort_perm tc false))).
    apply in_seq. lia. }
  apply (In_nth _ _ 0%nat) in Hmo. destruct Hmo as [j [Hj Hjm]].
  rewrite col_argsort_length, Hcl in Hj.
  assert (Hcell : cell tackles k = cell tc (nth j (col_argsort tc false) 0%nat)).
  { rewrite Hjm. unfold tc. rewrite cell_col_take by (rewrite ?Hmk; assumption).
    rewrite Hmk. reflexivity. }
  rewrite Hcell.
  pose proof (tackler_rows_length ages tackles (col_len tackles) top_n min_age max_age)
    as Hrl. fold counted in Hrl.
  destruct (Nat.lt_ge_cases j (head_count top_n (length counted))) as [Hlt|Hge].
  - exfalso. apply Hnot. rewrite <- Hmk, <- Hjm.
    unfold tackler_rows. cbv zeta. fold counted. fold tc.
    assert (Hjl : (j < length (firstn (head_count top_n (length counted))
                                     (col_argsort tc false)))%nat).
    { rewrite length_firstn, col_argsort_length, Hcl. lia. }
    rewrite <- (nth_firstn_lt 0%nat (head_count top_n (length counted)) j
                  (col_argsort tc false) Hlt).
    rewrite <- (nth_take 0%nat _ counted j Hjl). apply nth_In.
    rewrite length_take. exact Hjl.
  - apply (col_argsort_ordered tc false i j).
    + unfold tc. rewrite numeric_col_take. exact Htnum.
    + rewrite Hrl in Hi. lia.
    + rewrite <- Hcell. exact Hpres.
Qed.

(** X6.  A file with none of the columns [age], [age_x], [age_y] makes the
    extractor fail with [KeyError], whatever else the file holds and
    whatever is asked for. *)
Theorem no_age_column_raises (df : DataFrame) (top_n : Z) (min_age max_age : option Z) :
  choose_age_col df = None ->
  exists k, top_tacklers_local df top_n min_age max_age = raise (KeyError k).
Proof.
  intros Hchoose.
  assert (Hage : has_col "age" df = false).
  { unfold choose_age_col in Hchoose. destruct (has_col "age" df); [discriminate|].
    reflexivity. }
  unfold top_tacklers_local. rewrite Hchoose. cbn [filter_age_bounds]. rewrite bind_ret_l.
  destruct (rank_tacklers df top_n) as [e|top] eqn:Hr.
  - unfold rank_tacklers, dropna, getcol in Hr.
    destruct (lookup "tackles" (columns df)) as [t0|] eqn:Ht0.
    + exfalso. rewrite !bind_ret_l in Hr. unfold sort_values, getcol, frame_filter in Hr.
      rewrite lookup_frame_take, Ht0 in Hr. discriminate.
    + injection Hr as <-. exists "tackles". reflexivity.
  - change (inr top) with (ret top). rewrite bind_ret_l.
    destruct (select_raises tackler_columns (ensure_col "nationality"
                                               (ensure_col "position" top)) "age")
      as [k [_ [_ Hk]]].
    + unfold tackler_columns. simpl. tauto.
    + rewrite !has_col_ensure_col. simpl. rewrite !orb_false_r.
      rewrite (rank_tacklers_has_col _ _ _ "age" Hr). exact Hage.
    + exists k. exact Hk.
Qed.

End ExtractorTheorems.

(** ** The extractor on the sample file *)

(** The five best tacklers aged 21 to 30, or of unknown age. *)
Definition sample_top_five : DataFrame :=
  Eval vm_compute in
    frame_of (top_tacklers_local (S := stable_kind) tackles_joined 5 (Some 21) (Some 30)).

Example sample_top_five_run :
  top_tacklers_local (S := stable_kind) tackles_joined 5 (Some 21) (Some 30)
  = ret sample_top_five.
Proof. vm_compute. reflexivity. Qed.

Example sample_top_five_rows :
  tackler_rows (S := stable_kind) tackler_ages tackle_counts 20 5 (Some 21) (Some 30)
  = [16; 6; 11; 9; 14]%nat.
Proof. vm_compute. reflexivity. Qed.

Lemma tackler_rows_from_file_witness :
  exists rows,
    NoDup rows
    /\ (forall i, In i rows ->
          (i < nrows tackles_joined)%nat
          /\ age_passes (cell tackler_ages i) (Some 21) (Some 30) = true
          /\ isna (cell tackle_counts i) = false)
    /\ index sample_top_five = seq 0 (length rows)
    /\ lookup "age" (columns sample_top_five) = Some (col_take rows tackler_ages)
    /\ lookup "tackles" (columns sample_top_five) = Some (col_take rows tackle_counts)
    /\ (exists c, lookup "player" (columns tackles_joined) = Some c
                  /\ lookup "player" (columns sample_top_five) = Some (col_take rows c))
    /\ (exists c, lookup "team" (columns tackles_joined) = Some c
                  /\ lookup "team" (columns sample_top_five) = Some (col_take rows c)).
Proof.
  apply (tackler_rows_from_file (S := stable_kind) tackles_joined sample_top_five "age_x"
           tackler_ages tackle_counts 5 (Some 21) (Some 30)); reflexivity.
Defined.

Lemma tackler_missing_columns_filled_witness :
  exists c,
    lookup "position" (columns sample_top_five) = Some c
    /\ col_len c = nrows sample_top_five
    /\ (has_col "position" tackles_joined = false ->
        c = Object (repeat None (nrows sample_top_five)))
    /\ (forall c0, lookup "position" (columns tackles_joined) = Some c0 ->
          c = col_take (tackler_rows (S := stable_kind) tackler_ages tackle_counts
                                     (nrows tackles_joined) 5 (Some 21) (Some 30)) c0).
Proof.
  apply (tackler_missing_columns_filled (S := stable_kind) tackles_joined sample_top_five
           "age_x" "position" tackler_ages tackle_counts 5 (Some 21) (Some 30));
    try reflexivity.
  left. reflexivity.
Defined.

Lemma tackler_row_count_witness :
  (0 <= 5 ->
   nrows sample_top_five
   = Nat.min (Z.to_nat 5)
             (length (counted_rows tackler_ages tackle_counts (nrows tackles_joined)
                                   (Some 21) (Some 30))))
  /\ (5 < 0 ->
      nrows sample_top_five
      = (length (counted_rows tackler_ages tackle_counts (nrows tackles_joined)
                              (Some 21%Z) (Some 30%Z))
         - Z.to_nat (- 5))%nat).
Proof.
  apply (tackler_row_count (S := stable_kind) tackles_joined sample_top_five "age_x"
           tackler_ages tackle_counts 5 (Some 21) (Some 30)); reflexivity.
Defined.

Lemma tacklers_descending_witness :
  exists t,
    lookup "tackles" (columns sample_top_five) = Some t
    /\ col_len t = nrows sample_top_five
    /\ (forall i, (i < nrows sample_top_five)%nat -> isna (cell t i) = false)
    /\ (forall i j, (i < j < nrows sample_top_five)%nat ->
          cell_less (cell t i) (cell t j) = false).
Proof.
  apply (tacklers_descending (S := stable_kind) tackles_joined sample_top_five "age_x"
           tackler_ages tackle_counts 5 (Some 21) (Some 30)); reflexivity.
Defined.

Lemma tacklers_are_the_best_witness :
  exists rows t,
    index sample_top_five = seq 0 (length rows)
    /\ lookup "tackles" (columns sample_top_five) = Some t
    /\ t = col_take rows tackle_counts
    /\ forall k i,
         (k < nrows tackles_joined)%nat ->
         age_passes (cell tackler_ages k) (Some 21) (Some 30) = true ->
         isna (cell tackle_counts k) = false ->
         ~ In k rows ->
         (i < nrows sample_top_five)%nat ->
         cell_less (cell t i) (cell tackle_counts k) = false.
Proof.
  apply (tacklers_are_the_best (S := stable_kind) tackles_joined sample_top_five "age_x"
           tackler_ages tackle_counts 5 (Some 21) (Some 30)); reflexivity.
Defined.

Lemma no_age_column_raises_witness :
  exists k,
    top_tacklers_local (S := stable_kind) tackles_without_age 15 None None
    = raise (KeyError k).
Proof.
  apply (no_age_column_raises (S := stable_kind) tackles_without_age 15 None None).
  reflexivity.
Defined.

(** * main.py: the scrape fallback (lines 81-123) *)

(** ** The pandas operations it uses *)

(** Equality of two cells as pandas' hash tables see it ([unique], join
    keys): missing values are equal to each other. *)
Definition same_value (a b : pyval) : bool :=
  match a, b with
  | PyNone, PyNone => true
  | PyInt x, PyInt y => x =? y
  | PyFloat x, PyFloat y => (F64.isnan x && F64.isnan y) || F64.eqb x y
  | PyStr s, PyStr t => String.eqb s t
  | _, _ => false
  end.

(** [Series.unique()], as the positions of the first occurrences. *)
Fixpoint first_seen (seen vs : list pyval) (i : nat) : list nat :=
  match vs with
  | [] => []
  | v :: vs' =>
      if existsb (same_value v) seen then first_seen seen vs' (Datatypes.S i)
      else i :: first_seen (v :: seen) vs' (Datatypes.S i)
  end.

Definition unique_positions (c : column) : list nat := first_seen [] (cells c) 0.

Definition is_some {A : Type} (o : option A) : bool :=
  match o with Some _ => true | None => false end.

(** The cells of the right-hand table of a left join: a left row without
    a match gets a missing cell, which turns an integer column into a
    float64 one. *)
Definition col_take_opt (pos : list (option nat)) (c : column) : column :=
  match c with
  | Float64 xs =>
      Float64 (map (fun o => match o with
                             | Some j => nth j xs F64.nan
                             | None => F64.nan
                             end) pos)
  | Int64 xs =>
      if forallb is_some pos
      then Int64 (map (fun o => match o with Some j => nth j xs 0 | None => 0 end) pos)
      else Float64 (map (fun o => match o with
                                  | Some j => F64.of_Z (nth j xs 0)
                                  | None => F64.nan
                                  end) pos)
  | Object xs =>
      Object (map (fun o => match o with Some j => nth j xs None | None => None end) pos)
  end.

(** The rows of a left join: every left row in order, once with each
    right row that has its key, or once with no right row. *)
Definition join_rows (lk rk : column) : list (nat * option nat) :=
  flat_map (fun i =>
              match filter (fun j => same_value (cell lk i) (cell rk j))
                           (seq 0 (col_len rk)) with
              | [] => [(i, None)]
              | js => map (fun j => (i, Some j)) js
              end)
           (seq 0 (col_len lk)).

(** [left.merge(right, on=key, how="left")], the key columns being of one
    dtype: the key once, then the other columns of both tables; a label
    that both tables have gets the suffixes [_x] and [_y]. *)
Definition merge_left (key : string) (left right : DataFrame) : result DataFrame :=
  lk <- getcol left key ;;
  rk <- getcol right key ;;
  let rows := join_rows lk rk in
  let lcols :=
    map (fun nc =>
           (if negb (String.eqb (fst nc) key) && has_col (fst nc) right
            then fst nc ++ "_x" else fst nc,
            col_take (map fst rows) (snd nc)))
        (columns left) in
  let rcols :=
    map (fun nc =>
           (if has_col (fst nc) left then fst nc ++ "_y" else fst nc,
            col_take_opt (map snd rows) (snd nc)))
        (filter (fun nc => negb (String.eqb (fst nc) key)) (columns right)) in
  ret (mkFrame (seq 0 (length rows)) (lcols ++ rcols)%list).

(** ** The enrichment *)

(** What [scrape_player_info] answers for a player, as far as the
    extractor reads it: [info.get] of the three keys, [None] for a key
    the answer lacks; the age a whole number, the others text. *)
Record PlayerInfo : Type := mkInfo {
  info_age : option Z;
  info_position : option string;
  info_nationality : option string
}.

(** Lines 86-100: the answers collected, each with the row at which its
    player first occurs; a player whose lookup raises is skipped. *)
Definition player_info (scrape_player_info : pyval -> result PlayerInfo)
    (players : column) : list (nat * PlayerInfo) :=
  flat_map (fun i =>
              match scrape_player_info (cell players i) with
              | inr info => [(i, info)]
              | inl _ => []
              end)
           (unique_positions players).

(** The dtype pandas infers for a column of whole numbers and [None]. *)
Definition ages_column (ages : list (option Z)) : column :=
  if forallb is_some ages
  then Int64 (map (fun o => match o with Some z => z | None => 0 end) ages)
  else if existsb is_some ages
       then Float64 (map (fun o => match o with
                                   | Some z => F64.of_Z z
                                   | None => F64.nan
                                   end) ages)
       else Object (map (fun _ => None) ages).

(** Line 102: [pd.DataFrame(player_info)] for a list that is not empty. *)
Definition info_frame (players : column) (found : list (nat * PlayerInfo)) : DataFrame :=
  mkFrame (seq 0 (length found))
    [ ("player", col_take (map fst found) players);
      ("age", ages_column (map (fun f => info_age (snd f)) found));
      ("position", Object (map (fun f => info_position (snd f)) found));
      ("nationality", Object (map (fun f => info_nationality (snd f)) found)) ].

(** [df[name] = None]. *)
Definition set_none (name : string) (df : DataFrame) : DataFrame :=
  setcol df name (Object (repeat None (nrows df))).

Definition scraped_columns : list string :=
  ["player"; "team"; "tackles"; "position"; "age"].

Section Fallback.

Context {S : ArgSort}.

(** Lines 104-109. *)
Definition enrich (scrape_player_info : pyval -> result PlayerInfo) (df : DataFrame)
  : result DataFrame :=
  players <- getcol df "player" ;;
  match player_info scrape_player_info players with
  | [] => ret (set_none "nationality" (set_none "position" (set_none "age" df)))
  | found => merge_left "player" df (info_frame players found)
  end.

(** Lines 81-123: what follows a successful scrape. *)
Definition fallback_rank (scrape_player_info : pyval -> result PlayerInfo)
    (scraped : DataFrame) (top_n : Z) (min_age max_age : option Z) : result DataFrame :=
  df <- select scraped_columns scraped ;;
  df <- dropna "tackles" df ;;
  df <- enrich scrape_player_info df ;;
  df <- filter_age_bounds df (Some "age") min_age max_age ;;
  sorted <- sort_values "tackles" false df ;;
  select tackler_columns (reset_index (head top_n sorted)).

(** The world of a run without the CSV file. *)
Definition live_world (stats : string -> result DataFrame)
    (scrape_player_info : pyval -> result PlayerInfo) : World :=
  mkWorld None stats (fallback_rank scrape_player_info).

End Fallback.

(** A scraped league table, and a scraper that knows every player but
    one. *)
Definition league_stats : DataFrame :=
  mkFrame (seq 0 5)
    [ ("player", Object (map Some ["Torreira"; "Fred"; "Sara"; "Fred"; "Ndidi"]));
      ("team", Object (map Some ["GS"; "FB"; "GS"; "FB"; "BJK"]));
      ("tackles", Float64 [F64.of_Z 41; F64.of_Z 58; F64.nan; F64.of_Z 9; F64.of_Z 90]);
      ("position", Object (map Some ["M"; "M"; "M"; "M"; "M"]));
      ("age", Int64 [29; 32; 26; 32; 28]);
      ("rating", Float64 [F64.of_Z 7; F64.of_Z 7; F64.of_Z 7; F64.of_Z 7; F64.of_Z 7]) ].

Definition known_players (p : pyval) : result PlayerInfo :=
  match p with
  | PyStr "Ndidi" => raise (OtherError "player page not found")
  | PyStr _ => ret (mkInfo (Some 30) (Some "M") None)
  | _ => raise TypeError
  end.

Definition no_players (p : pyval) : result PlayerInfo :=
  raise (OtherError "player page not found").

Definition show (r : result DataFrame) : exn + list (string * list pyval) :=
  match r with
  | inl e => inl e
  | inr df => inr (map (fun nc => (fst nc, cells (snd nc))) (columns df))
  end.

(** ** Facts about the pandas operations *)

Lemma same_value_refl (v : pyval) : same_value v v = true.
Proof.
  destruct v as [|z|f|s]; simpl.
  - reflexivity.
  - apply Z.eqb_refl.
  - destruct f as [s|s| |s m e]; try reflexivity.
    + destruct s; reflexivity.
    + unfold F64.eqb, SFeqb, SFcompare. rewrite orb_false_l.
      change (PosDef.Pos.compare_cont Eq m m) with (Pos.compare m m).
      destruct s; rewrite Z.compare_refl, Pos.compare_refl; reflexivity.
  - apply String.eqb_refl.
Qed.

(** On the cells of a text column the equality is plain equality. *)
Lemma same_value_text (xs : list (option string)) (a b : pyval) :
  In a (cells (Object xs)) -> In b (cells (Object xs)) ->
  same_value a b = true -> a = b.
Proof.
  simpl. rewrite !in_map_iff. intros [oa [<- _]] [ob [<- _]].
  destruct oa as [s|], ob as [t|]; simpl; try discriminate; [|reflexivity].
  intros H. apply String.eqb_eq in H. subst. reflexivity.
Qed.

(** Every value occurs among the first occurrences. *)
Lemma first_seen_covers (seen vs : list pyval) (i0 k : nat) :
  (k < length vs)%nat ->
  existsb (same_value (nth k vs PyNone)) seen = true
  \/ exists u, In u (first_seen seen vs i0)
               /\ (i0 <= u < i0 + length vs)%nat
               /\ same_value (nth k vs PyNone) (nth (u - i0) vs PyNone) = true.
Proof.
  revert seen i0 k. induction vs as [|v vs IH]; intros seen i0 k Hk; [simpl in Hk; lia|].
  cbn [first_seen]. destruct k as [|k].
  - change (nth 0 (v :: vs) PyNone) with v.
    destruct (existsb (same_value v) seen) eqn:He; [left; reflexivity|].
    right. exists i0. split; [left; reflexivity|]. split; [simpl; lia|].
    rewrite Nat.sub_diag. apply same_value_refl.
  - change (nth (Datatypes.S k) (v :: vs) PyNone) with (nth k vs PyNone). simpl in Hk.
    assert (Hshift : forall u, (Datatypes.S i0 <= u)%nat ->
              nth (u - i0) (v :: vs) PyNone = nth (u - Datatypes.S i0) vs PyNone).
    { intros u Hu. replace (u - i0)%nat with (Datatypes.S (u - Datatypes.S i0)) by lia.
      reflexivity. }
    destruct (existsb (same_value v) seen) eqn:He.
    + destruct (IH seen (Datatypes.S i0) k ltac:(lia)) as [H|[u [Hu [Hb Hs]]]];
        [left; exact H|].
      right. exists u. split; [exact Hu|]. split; [simpl; lia|].
      rewrite Hshift by lia. exact Hs.
    + destruct (IH (v :: seen) (Datatypes.S i0) k ltac:(lia)) as [H|[u [Hu [Hb Hs]]]].
      * cbn [existsb] in H. apply orb_true_iff in H. destruct H as [H|H]; [|left; exact H].
        right. exists i0. split; [left; reflexivity|]. split; [simpl; lia|].
        rewrite Nat.sub_diag. exact H.
      * right. exists u. split; [right; exact Hu|]. split; [simpl; lia|].
        rewrite Hshift by lia. exact Hs.
Qed.

Lemma first_seen_bound (seen vs : list pyval) (i0 u : nat) :
  In u (first_seen seen vs i0) -> (i0 <= u < i0 + length vs)%nat.
Proof.
  revert seen i0. induction vs as [|v vs IH]; intros seen i0 H; [contradiction|].
  cbn [first_seen] in H. destruct (existsb (same_value v) seen).
  - apply IH in H. simpl. lia.
  - destruct H as [<-|H]; [simpl; lia|]. apply IH in H. simpl. lia.
Qed.

Lemma unique_positions_covers (c : column) (k : nat) :
  (k < col_len c)%nat ->
  exists u, In u (unique_positions c) /\ (u < col_len c)%nat
            /\ same_value (cell c k) (cell c u) = true.
Proof.
  intros Hk. rewrite <- length_cells in Hk.
  destruct (first_seen_covers [] (cells c) 0 k Hk) as [H|[u [Hu [Hb Hs]]]];
    [discriminate|].
  exists u. rewrite Nat.sub_0_r in Hs. rewrite length_cells in Hb.
  split; [exact Hu|]. split; [lia|exact Hs].
Qed.

(** A player of a text column whose lookup succeeds is collected. *)
Lemma player_info_found (scrape_player_info : pyval -> result PlayerInfo)
    (ps : list (option string)) (k : nat) (x : PlayerInfo) :
  (k < length ps)%nat ->
  scrape_player_info (cell (Object ps) k) = ret x ->
  player_info scrape_player_info (Object ps) <> [].
Proof.
  intros Hk Hx.
  destruct (unique_positions_covers (Object ps) k Hk) as [u [Hu [Hb Hs]]].
  assert (Heq : cell (Object ps) k = cell (Object ps) u).
  { apply (same_value_text ps); [| |exact Hs]; apply nth_In; rewrite length_cells;
      assumption. }
  unfold player_info. intros Hnil.
  assert (Hin : In (u, x) (flat_map (fun i =>
                  match scrape_player_info (cell (Object ps) i) with
                  | inr info => [(i, info)]
                  | inl _ => []
                  end) (unique_positions (Object ps)))).
  { apply in_flat_map. exists u. split; [exact Hu|].
    rewrite <- Heq, Hx. left. reflexivity. }
  rewrite Hnil in Hin. contradiction.
Qed.

Lemma player_info_none (scrape_player_info : pyval -> result PlayerInfo)
    (players : column) :
  (forall p, exists e, scrape_player_info p = raise e) ->
  player_info scrape_player_info players = [].
Proof.
  intros H. unfold player_info.
  induction (unique_positions players) as [|i l IH]; [reflexivity|].
  cbn [flat_map]. destruct (H (cell players i)) as [e ->]. exact IH.
Qed.

Lemma merge_left_labels (key : string) (left right merged : DataFrame) :
  merge_left key left right = ret merged ->
  labels merged
  = (map (fun n => if negb (String.eqb n key) && has_col n right
                   then (n ++ "_x")%string else n)
         (labels left)
     ++ map (fun n => if has_col n left then (n ++ "_y")%string else n)
            (filter (fun n => negb (String.eqb n key)) (labels right)))%list.
Proof.
  unfold merge_left. intros H. bind_inv H as lk Hlk. bind_inv H as rk Hrk.
  unfold ret in H. injection H as <-. unfold labels. cbn [columns].
  rewrite map_app, !map_map. cbn [fst]. f_equal.
  rewrite <- (map_filter_comm fst (fun n => negb (String.eqb n key))).
  rewrite map_map. reflexivity.
Qed.

Lemma merge_left_total (key : string) (left right : DataFrame) :
  has_col key left = true -> has_col key right = true ->
  exists merged, merge_left key left right = ret merged.
Proof.
  intros Hl Hr. apply has_col_lookup in Hl, Hr.
  destruct Hl as [lk Hlk], Hr as [rk Hrk].
  unfold merge_left, getcol. rewrite Hlk, Hrk. eexists. reflexivity.
Qed.

(** [df[names]] fails on the first name the table lacks. *)
(** ** What the fallback does after a successful scrape *)

Lemma scraped_selected (scraped : DataFrame) :
  forallb (fun n => has_col n scraped) scraped_columns = true ->
  exists df,
    select scraped_columns scraped = ret df
    /\ labels df = scraped_columns
    /\ index df = index scraped
    /\ forall n, In n scraped_columns -> lookup n (columns df) = lookup n (columns scraped).
Proof.
  intros H. rewrite forallb_forall in H.
  destruct (select_total scraped_columns scraped H) as [df Hdf].
  exists df. split; [exact Hdf|]. split; [apply (select_labels _ _ _ Hdf)|].
  split; [apply (select_inv _ _ _ Hdf)|].
  intros n Hn. apply (select_lookup _ _ _ n Hdf Hn).
Qed.

Lemma has_col_labels (n : string) (df : DataFrame) (l : list string) :
  labels df = l -> has_col n df = mem n l.
Proof. intros <-. reflexivity. Qed.

Lemma dropna_rows (name : string) (df : DataFrame) (c : column) :
  lookup name (columns df) = Some c ->
  dropna name df = ret (frame_take (where_true (map present (cells c))) df).
Proof.
  intros Hc. unfold dropna, getcol. rewrite Hc, bind_ret_l.
  unfold frame_filter, mask_not, col_isna. rewrite map_map. reflexivity.
Qed.

Lemma as_float_all_missing (n : nat) :
  as_float (Object (repeat None n)) = ret (repeat F64.nan n).
Proof.
  simpl. induction n as [|n IH]; [reflexivity|].
  cbn [repeat mapM]. rewrite bind_ret_l, IH. reflexivity.
Qed.

Lemma mask_or_all_missing (n : nat) :
  mask_or (repeat false n) (repeat true n) = repeat true n.
Proof.
  unfold mask_or. induction n as [|n IH]; [reflexivity|].
  cbn [repeat combine map fst snd orb]. rewrite IH. reflexivity.
Qed.

Lemma frame_filter_all_true (df : DataFrame) :
  frame_ok df = true -> frame_filter (repeat true (nrows df)) df = df.
Proof.
  intros Hok. unfold frame_filter. rewrite where_true_all.
  - rewrite repeat_length. apply frame_take_all. exact Hok.
  - apply forallb_forall. intros b Hb. apply repeat_spec in Hb. exact Hb.
Qed.

(** An age column in which every cell is missing lets every row pass,
    whatever the bounds. *)
Lemma filter_age_bounds_all_missing (df : DataFrame) (min_age max_age : option Z) :
  frame_ok df = true ->
  lookup "age" (columns df) = Some (Object (repeat None (nrows df))) ->
  filter_age_bounds df (Some "age") min_age max_age = ret df.
Proof.
  intros Hok Hage.
  assert (Hisna : col_isna (Object (repeat None (nrows df))) = repeat true (nrows df)).
  { unfold col_isna. simpl. rewrite !map_repeat. reflexivity. }
  assert (Hmin : forall lo, filter_min_age df "age" lo = ret df).
  { intros lo. unfold filter_min_age, getcol. rewrite Hage, bind_ret_l.
    unfold ge_scalar. rewrite as_float_all_missing, !bind_ret_l, Hisna, map_repeat.
    rewrite geb_nan.
    rewrite mask_or_all_missing, frame_filter_all_true by exact Hok. reflexivity. }
  assert (Hmax : forall hi, filter_max_age df "age" hi = ret df).
  { intros hi. unfold filter_max_age, getcol. rewrite Hage, bind_ret_l.
    unfold le_scalar. rewrite as_float_all_missing, !bind_ret_l, Hisna, map_repeat.
    replace (F64.leb F64.nan (F64.of_Z hi)) with false by reflexivity.
    rewrite mask_or_all_missing, frame_filter_all_true by exact Hok. reflexivity. }
  unfold filter_age_bounds.
  destruct min_age as [lo|]; [rewrite Hmin|]; rewrite bind_ret_l;
    (destruct max_age as [hi|]; [apply Hmax|reflexivity]).
Qed.

Lemma take_repeat {A : Type} (d : A) (p : list nat) (n : nat) :
  take d p (repeat d n) = repeat d (length p).
Proof.
  unfold take. induction p as [|i p IH]; [reflexivity|].
  cbn [map length repeat]. rewrite IH. f_equal.
  destruct (Nat.lt_ge_cases i n) as [H|H].
  - apply (repeat_spec n d). apply nth_In. rewrite repeat_length. exact H.
  - apply nth_overflow. rewrite repeat_length. exact H.
Qed.

Lemma nrows_set_none (name : string) (df : DataFrame) : nrows (set_none name df) = nrows df.
Proof. reflexivity. Qed.

Lemma frame_ok_set_none (name : string) (df : DataFrame) :
  frame_ok df = true -> frame_ok (set_none name df) = true.
Proof.
  intros H. unfold set_none. apply frame_ok_setcol; [exact H|]. simpl. apply repeat_length.
Qed.

Lemma lookup_set_none_same (name : string) (df : DataFrame) :
  lookup name (columns (set_none name df)) = Some (Object (repeat None (nrows df))).
Proof. unfold set_none, setcol. cbn [columns]. apply lookup_assign_same. Qed.

Lemma lookup_set_none_other (name n : string) (df : DataFrame) :
  n <> name -> lookup n (columns (set_none name df)) = lookup n (columns df).
Proof. intros H. unfold set_none, setcol. cbn [columns]. apply lookup_assign_other, H. Qed.

Section FallbackTheorems.

Context {S : ArgSort}.

(** The table the enrichment is applied to: the five columns of the rows
    with a tackle count. *)
Lemma fallback_rank_prepared (scrape_player_info : pyval -> result PlayerInfo)
    (scraped : DataFrame) (tackles : column) (top_n : Z) (min_age max_age : option Z) :
  forallb (fun n => has_col n scraped) scraped_columns = true ->
  lookup "tackles" (columns scraped) = Some tackles ->
  exists df,
    labels df = scraped_columns
    /\ frame_ok df = true
    /\ index df = take 0%nat (where_true (map present (cells tackles))) (index scraped)
    /\ (forall n, In n scraped_columns ->
          lookup n (columns df)
          = option_map (col_take (where_true (map present (cells tackles))))
                       (lookup n (columns scraped)))
    /\ fallback_rank scrape_player_info scraped top_n min_age max_age
       = (df <- enrich scrape_player_info df ;;
          df <- filter_age_bounds df (Some "age") min_age max_age ;;
          sorted <- sort_values "tackles" false df ;;
          select tackler_columns (reset_index (head top_n sorted))).
Proof.
  intros Hcols Htk.
  destruct (scraped_selected scraped Hcols) as [df1 [Hsel [Hlab [Hix Hlook]]]].
  assert (Htk1 : lookup "tackles" (columns df1) = Some tackles).
  { rewrite Hlook by (unfold scraped_columns; simpl; tauto). exact Htk. }
  exists (frame_take (where_true (map present (cells tackles))) df1).
  split; [rewrite labels_frame_take; exact Hlab|].
  split; [apply frame_ok_take|].
  split; [unfold frame_take; cbn [index]; rewrite Hix; reflexivity|].
  split.
  { intros n Hn. rewrite lookup_frame_take, Hlook by exact Hn. reflexivity. }
  unfold fallback_rank. rewrite Hsel, bind_ret_l.
  rewrite (dropna_rows "tackles" df1 tackles Htk1), bind_ret_l. reflexivity.
Qed.

(** X7.  As soon as one player with a tackle count is found by
    [scrape_player_info], the merge of line 105 gives the [age] and
    [position] columns of both tables the suffixes [_x] and [_y], no
    column is called [age] any more, and the call fails with
    [KeyError] for [age]: in the age filter when a bound is given, in the
    final selection of columns otherwise. *)
Theorem enrichment_breaks_the_fallback (stats : string -> result DataFrame)
    (scrape_player_info : pyval -> result PlayerInfo) (season : string) (top_n : Z)
    (min_age max_age : option Z) (scraped : DataFrame) (ps : list (option string))
    (tackles : column) (i : nat) (x : PlayerInfo) :
  stats season = ret scraped ->
  frame_ok scraped = true ->
  forallb (fun n => has_col n scraped) scraped_columns = true ->
  lookup "player" (columns scraped) = Some (Object ps) ->
  lookup "tackles" (columns scraped) = Some tackles ->
  (i < nrows scraped)%nat ->
  isna (cell tackles i) = false ->
  scrape_player_info (cell (Object ps) i) = ret x ->
  get_top_tacklers_super_lig (live_world stats scrape_player_info) season top_n
                             min_age max_age
  = raise (KeyError "age").
Proof.
  intros Hstats Hok Hcols Hps Htk Hi Hpres Hx.
  unfold get_top_tacklers_super_lig, live_world.
  cbn [csv_file scrape_player_league_stats enrich_and_rank].
  rewrite Hstats. change (fetch_league_stats (ret scraped)) with (ret scraped).
  rewrite bind_ret_l.
  destruct (fallback_rank_prepared scrape_player_info scraped tackles top_n min_age max_age
              Hcols Htk) as [df [Hlab [_ [_ [Hlook ->]]]]].
  set (w := where_true (map present (cells tackles))) in *.
  assert (Hpl : lookup "player" (columns df) = Some (Object (take None w ps))).
  { rewrite Hlook by (unfold scraped_columns; simpl; tauto). rewrite Hps. reflexivity. }
  pose proof (frame_ok_lookup scraped "tackles" tackles Hok Htk) as Hlen.
  pose proof (frame_ok_lookup scraped "player" (Object ps) Hok Hps) as Hplen.
  simpl in Hplen.
  (* the row [i] survives the dropna, and its player is looked up *)
  assert (Hiw : In i w).
  { apply where_true_In. rewrite length_map, length_cells, Hlen. split; [exact Hi|].
    rewrite (nth_map_at _ _ PyNone) by (rewrite length_cells, Hlen; exact Hi).
    unfold present. fold (cell tackles i). rewrite Hpres. reflexivity. }
  apply (In_nth _ _ 0%nat) in Hiw. destruct Hiw as [k [Hk Hki]].
  assert (Hfound : player_info scrape_player_info (Object (take None w ps)) <> []).
  { apply (player_info_found scrape_player_info (take None w ps) k x).
    - rewrite length_take. exact Hk.
    - change (Object (take None w ps)) with (col_take w (Object ps)).
      rewrite cell_col_take by (simpl; rewrite ?Hki, ?Hplen; assumption).
      rewrite Hki. exact Hx. }
  unfold enrich at 1, getcol at 1. rewrite Hpl, bind_ret_l.
  destruct (player_info scrape_player_info (Object (take None w ps))) as [|f found] eqn:Hpi;
    [contradiction|].
  destruct (merge_left_total "player" df (info_frame (Object (take None w ps)) (f :: found)))
    as [merged Hm].
  { rewrite (has_col_labels _ _ _ Hlab). reflexivity. }
  { reflexivity. }
  rewrite Hm, bind_ret_l.
  assert (Hml : labels merged
                = ["player"; "team"; "tackles"; "position_x"; "age_x";
                   "age_y"; "position_y"; "nationality"]).
  { rewrite (merge_left_labels _ _ _ _ Hm).
    unfold has_col. rewrite Hlab. reflexivity. }
  assert (Hage : lookup "age" (columns merged) = None).
  { apply has_col_false_lookup. rewrite (has_col_labels _ _ _ Hml). reflexivity. }
  assert (Hmt : has_col "tackles" merged = true).
  { rewrite (has_col_labels _ _ _ Hml). reflexivity. }
  destruct min_age as [lo|].
  { cbn [filter_age_bounds]. unfold filter_min_age at 1, getcol at 1.
    rewrite Hage. reflexivity. }
  destruct max_age as [hi|].
  { cbn [filter_age_bounds]. rewrite bind_ret_l. unfold filter_max_age at 1, getcol at 1.
    rewrite Hage. reflexivity. }
  cbn [filter_age_bounds]. rewrite !bind_ret_l.
  apply has_col_lookup in Hmt. destruct Hmt as [t Ht].
  unfold sort_values, getcol. rewrite Ht, !bind_ret_l.
  apply (select_first_missing ["player"; "team"] ["tackles"; "position"; "nationality"]
           "age").
  - intros m Hm'.
    change (has_col m (reset_index ?d)) with (has_col m d).
    unfold head. rewrite !has_col_frame_take, (has_col_labels _ _ _ Hml).
    destruct Hm' as [<-|[<-|[]]]; reflexivity.
  - change (has_col "age" (reset_index ?d)) with (has_col "age" d).
    unfold head. rewrite !has_col_frame_take, (has_col_labels _ _ _ Hml). reflexivity.
Qed.

(** X8.  When no player is found by [scrape_player_info], the call returns:
    the rows with a tackle count, ranked and cut to [top_n], under the six
    columns; but the age and the position that came with the scraped table
    are overwritten, so every [age], [position] and [nationality] cell of
    the result is missing, and the age bounds change nothing. *)
Theorem fallback_without_enrichment (stats : string -> result DataFrame)
    (scrape_player_info : pyval -> result PlayerInfo) (season : string) (top_n : Z)
    (scraped : DataFrame) (tackles : column) :
  stats season = ret scraped ->
  forallb (fun n => has_col n scraped) scraped_columns = true ->
  lookup "tackles" (columns scraped) = Some tackles ->
  (forall p, exists e, scrape_player_info p = raise e) ->
  exists out,
    (forall min_age max_age,
       get_top_tacklers_super_lig (live_world stats scrape_player_info) season top_n
                                  min_age max_age = ret out)
    /\ labels out = ["player"; "team"; "age"; "tackles"; "position"; "nationality"]
    /\ nrows out = head_count top_n (length (where_true (map present (cells tackles))))
    /\ (forall n, n = "age" \/ n = "position" \/ n = "nationality" ->
          lookup n (columns out) = Some (Object (repeat None (nrows out)))).
Proof.
  intros Hstats Hcols Htk Hnone.
  destruct (scraped_selected scraped Hcols) as [df1 [Hsel [Hlab1 [_ Hlook1]]]].
  assert (Htk1 : lookup "tackles" (columns df1) = Some tackles).
  { rewrite Hlook1 by (unfold scraped_columns; simpl; tauto). exact Htk. }
  set (w := where_true (map present (cells tackles))).
  set (df := frame_take w df1).
  set (df3 := set_none "nationality" (set_none "position" (set_none "age" df))).
  set (p := firstn (head_count top_n (length w)) (col_argsort (col_take w tackles) false)).
  assert (Hlab : labels df = scraped_columns)
    by (unfold df; rewrite labels_frame_take; exact Hlab1).
  assert (Hok3 : frame_ok df3 = true).
  { unfold df3, df. auto using frame_ok_set_none, frame_ok_take. }
  assert (Hnone3 : forall n, n = "age" \/ n = "position" \/ n = "nationality" ->
            lookup n (columns df3) = Some (Object (repeat None (nrows df3)))).
  { intros n [->|[->| ->]]; unfold df3.
    - rewrite !lookup_set_none_other by discriminate.
      exact (lookup_set_none_same "age" df).
    - rewrite lookup_set_none_other by discriminate.
      exact (lookup_set_none_same "position" (set_none "age" df)).
    - exact (lookup_set_none_same "nationality" (set_none "position" (set_none "age" df))). }
  assert (Htk3 : lookup "tackles" (columns df3) = Some (col_take w tackles)).
  { unfold df3, df. rewrite !lookup_set_none_other by discriminate.
    rewrite lookup_frame_take, Htk1. reflexivity. }
  assert (Hhas3 : forall n, In n tackler_columns -> has_col n df3 = true).
  { intros n Hn. unfold df3, set_none. rewrite !has_col_setcol_iff.
    rewrite (has_col_labels _ _ _ Hlab).
    unfold tackler_columns in Hn. simpl in Hn.
    destruct Hn as [<-|[<-|[<-|[<-|[<-|[<-|[]]]]]]]; reflexivity. }
  assert (Hpl : has_col "player" df = true)
    by (rewrite (has_col_labels _ _ _ Hlab); reflexivity).
  apply has_col_lookup in Hpl. destruct Hpl as [players Hplayers].
  assert (Hrank : forall min_age max_age,
            fallback_rank scrape_player_info scraped top_n min_age max_age
            = select tackler_columns (reset_index (frame_take p df3))).
  { intros min_age max_age. unfold fallback_rank.
    rewrite Hsel, bind_ret_l.
    rewrite (dropna_rows "tackles" df1 tackles Htk1), bind_ret_l.
    fold w. fold df.
    unfold enrich, getcol. rewrite Hplayers, bind_ret_l.
    rewrite (player_info_none scrape_player_info players Hnone), bind_ret_l.
    fold df3.
    rewrite (filter_age_bounds_all_missing df3 min_age max_age Hok3)
      by (apply Hnone3; auto).
    rewrite bind_ret_l. unfold sort_values, getcol. rewrite Htk3, !bind_ret_l.
    rewrite head_frame_take, col_argsort_length, col_len_take. reflexivity. }
  destruct (select_total tackler_columns (reset_index (frame_take p df3))) as [out Hout].
  { intros n Hn. change (has_col n (reset_index ?d)) with (has_col n d).
    rewrite has_col_frame_take. apply Hhas3. exact Hn. }
  assert (Hplen : length p = head_count top_n (length w)).
  { unfold p. rewrite length_firstn, col_argsort_length, col_len_take.
    apply Nat.min_l. unfold head_count. destruct (0 <=? top_n); lia. }
  assert (Hnrows : nrows out = length p).
  { pose proof (select_inv _ _ _ Hout) as [Hix _]. unfold nrows at 1. rewrite Hix.
    unfold reset_index. cbn [index]. rewrite length_seq. apply nrows_frame_take. }
  exists out. split.
  { intros min_age max_age. unfold get_top_tacklers_super_lig, live_world.
    cbn [csv_file scrape_player_league_stats enrich_and_rank].
    rewrite Hstats. change (fetch_league_stats (ret scraped)) with (ret scraped).
    rewrite bind_ret_l, Hrank. exact Hout. }
  split; [apply (select_labels _ _ _ Hout)|].
  split; [rewrite Hnrows; exact Hplen|].
  intros n Hn.
  rewrite (select_lookup _ _ _ n Hout)
    by (unfold tackler_columns; destruct Hn as [->|[->| ->]]; simpl; tauto).
  unfold reset_index. cbn [columns]. rewrite lookup_frame_take, (Hnone3 n Hn).
  cbn [option_map col_take]. rewrite take_repeat, Hnrows. reflexivity.
Qed.

(** X9.  A scraped table that lacks one of the five columns the extractor
    reads makes the call fail with the [KeyError] of line 81, naming a
    missing column: this failure happens after the [try] block and is not
    turned into the [RuntimeError] with the explanation. *)
Theorem missing_scraped_column_raises (stats : string -> result DataFrame)
    (scrape_player_info : pyval -> result PlayerInfo) (season : string) (top_n : Z)
    (min_age max_age : option Z) (scraped : DataFrame) (n : string) :
  stats season = ret scraped ->
  In n scraped_columns -> has_col n scraped = false ->
  exists k,
    In k scraped_columns /\ has_col k scraped = false
    /\ get_top_tacklers_super_lig (live_world stats scrape_player_info) season top_n
                                  min_age max_age
       = raise (KeyError k).
Proof.
  intros Hstats Hin Hn.
  destruct (select_raises scraped_columns scraped n Hin Hn) as [k [Hk [Hkf Hr]]].
  exists k. split; [exact Hk|]. split; [exact Hkf|].
  unfold get_top_tacklers_super_lig, live_world.
  cbn [csv_file scrape_player_league_stats enrich_and_rank].
  rewrite Hstats. change (fetch_league_stats (ret scraped)) with (ret scraped).
  rewrite bind_ret_l. unfold fallback_rank. rewrite Hr. reflexivity.
Qed.

End FallbackTheorems.

(** ** The fallback on the sample league table *)

Definition scraper (table : DataFrame) (season : string) : result DataFrame := ret table.

Lemma enrichment_breaks_the_fallback_witness :
  get_top_tacklers_super_lig (S := stable_kind)
    (live_world (S := stable_kind) (scraper league_stats) known_players) "25/26" 15 None None
  = raise (KeyError "age").
Proof.
  apply (enrichment_breaks_the_fallback (S := stable_kind) (scraper league_stats)
           known_players "25/26" 15 None None league_stats
           (map Some ["Torreira"; "Fred"; "Sara"; "Fred"; "Ndidi"])
           (Float64 [F64.of_Z 41; F64.of_Z 58; F64.nan; F64.of_Z 9; F64.of_Z 90])
           0 (mkInfo (Some 30) (Some "M") None));
    try reflexivity.
  unfold nrows, league_stats. cbn [index]. rewrite length_seq. lia.
Defined.

Lemma fallback_without_enrichment_witness :
  exists out,
    (forall min_age max_age,
       get_top_tacklers_super_lig (S := stable_kind)
         (live_world (S := stable_kind) (scraper league_stats) no_players) "25/26" 3 min_age max_age
       = ret out)
    /\ labels out = ["player"; "team"; "age"; "tackles"; "position"; "nationality"]
    /\ nrows out
       = head_count 3
           (length (where_true
                      (map present
                         (cells (Float64 [F64.of_Z 41; F64.of_Z 58; F64.nan; F64.of_Z 9;
                                          F64.of_Z 90])))))
    /\ (forall n, n = "age" \/ n = "position" \/ n = "nationality" ->
          lookup n (columns out) = Some (Object (repeat None (nrows out)))).
Proof.
  apply (fallback_without_enrichment (S := stable_kind) (scraper league_stats) no_players
           "25/26" 3 league_stats).
  - reflexivity.
  - reflexivity.
  - reflexivity.
  - intros p. eexists. reflexivity.
Defined.

(** A league table that came without the [age] column. *)
Definition league_stats_without_age : DataFrame :=
  mkFrame (index league_stats)
          (filter (fun nc => negb (String.eqb (fst nc) "age")) (columns league_stats)).

Lemma missing_scraped_column_raises_witness :
  exists k,
    In k scraped_columns /\ has_col k league_stats_without_age = false
    /\ get_top_tacklers_super_lig (S := stable_kind)
         (live_world (S := stable_kind) (scraper league_stats_without_age) known_players) "25/26" 15
         None None
       = raise (KeyError k).
Proof.
  apply (missing_scraped_column_raises (S := stable_kind)
           (scraper league_stats_without_age) known_players "25/26" 15 None None
           league_stats_without_age "age").
  - reflexivity.
  - unfold scraped_columns. simpl. tauto.
  - reflexivity.
Defined.

(** The merged table of the sample, whose labels are those of
    [tackles_joined.csv]. *)
Example sample_merge_labels :
  option_map labels
    (match (df <- select scraped_columns league_stats ;;
            df <- dropna "tackles" df ;;
            enrich known_players df) with
     | inr df => Some df
     | inl _ => None
     end)
  = Some ["player"; "team"; "tackles"; "position_x"; "age_x"; "age_y"; "position_y";
          "nationality"].
Proof. vm_compute. reflexivity. Qed.

(** * dashboard.py: the Table Loader *)

(** What [pd.to_numeric] reads in one text cell: a whole number or a
    real one. *)
Inductive parsed : Type :=
| Whole (z : Z)
| Real (f : spec_float).

Definition is_whole (v : option parsed) : bool :=
  match v with Some (Whole _) => true | _ => false end.

Definition whole_of (v : option parsed) : Z :=
  match v with Some (Whole z) => z | _ => 0 end.

Definition real_of (v : option parsed) : spec_float :=
  match v with
  | Some (Whole z) => F64.of_Z z
  | Some (Real f) => f
  | None => F64.nan
  end.

Definition identifiers : list string := ["player"; "team"; "country"].

Section Loading.

(** The number pandas reads in a text, if it reads one. *)
Variable parse_number : string -> option parsed.

Definition parse_cell (o : option string) : option parsed :=
  match o with
  | Some s => parse_number s
  | None => None
  end.

(** [pd.to_numeric(series, errors="coerce")]: a numeric column is returned
    as it is; in a text column a cell that is not a number becomes
    missing, and the column is int64 when every cell is a whole number
    and float64 otherwise. *)
Definition to_numeric (c : column) : column :=
  match c with
  | Object xs =>
      let vs := map parse_cell xs in
      if forallb is_whole vs then Int64 (map whole_of vs) else Float64 (map real_of vs)
  | _ => c
  end.

(** Lines 10-12, for one column label. *)
Definition coerce_column (df : DataFrame) (col : string) : result DataFrame :=
  if mem col identifiers then ret df
  else c <- getcol df col ;; ret (setcol df col (to_numeric c)).

(** Lines 10-12: the loop over [df.columns]. *)
Definition coerce_columns (df : DataFrame) : result DataFrame :=
  fold_left (fun acc col => d <- acc ;; coerce_column d col) (labels df) (ret df).

(** Lines 15-16. *)
Definition add_nineties (df : DataFrame) : result DataFrame :=
  if has_col "minutesPlayed" df then
    c <- getcol df "minutesPlayed" ;;
    v <- div_scalar c F64.ninety ;;
    ret (setcol df "90s" (Float64 v))
  else ret df.

(** [load_data] of dashboard.py; [read_csv] is the file system seen
    through [pd.read_csv]. *)
Definition load_data (read_csv : string -> result DataFrame) (path : string)
  : result DataFrame :=
  df <- read_csv path ;;
  df <- coerce_columns df ;;
  add_nineties df.

(** The columns after the loop, one by one. *)
Definition coerced (nc : string * column) : string * column :=
  if mem (fst nc) identifiers then nc else (fst nc, to_numeric (snd nc)).

Lemma to_numeric_numeric (c : column) : numeric (to_numeric c) = true.
Proof.
  destruct c as [xs|xs|xs]; simpl; try reflexivity.
  destruct (forallb is_whole (map parse_cell xs)); reflexivity.
Qed.

Lemma to_numeric_len (c : column) : col_len (to_numeric c) = col_len c.
Proof.
  destruct c as [xs|xs|xs]; simpl; try reflexivity.
  destruct (forallb is_whole (map parse_cell xs)); simpl; rewrite !length_map; reflexivity.
Qed.

Lemma to_numeric_of_numeric (c : column) : numeric c = true -> to_numeric c = c.
Proof. destruct c; simpl; [reflexivity|reflexivity|discriminate]. Qed.

Lemma to_numeric_idempotent (c : column) : to_numeric (to_numeric c) = to_numeric c.
Proof. apply to_numeric_of_numeric, to_numeric_numeric. Qed.

Lemma lookup_app_notin (n : string) (a b : list (string * column)) :
  ~ In n (map fst a) -> lookup n (a ++ b) = lookup n b.
Proof.
  induction a as [|[m c] a IH]; intros H; simpl; [reflexivity|].
  simpl in H. destruct (String.eqb_spec n m) as [->|Hne]; [exfalso; auto|].
  apply IH. auto.
Qed.

Lemma assign_app_notin (n : string) (c : column) (a b : list (string * column)) :
  ~ In n (map fst a) -> assign n c (a ++ b) = (a ++ assign n c b)%list.
Proof.
  induction a as [|[m c'] a IH]; intros H; simpl; [reflexivity|].
  simpl in H. destruct (String.eqb_spec n m) as [->|Hne]; [exfalso; auto|].
  rewrite IH by auto. reflexivity.
Qed.

Lemma coerce_columns_from (ix : list nat) (done todo : list (string * column)) :
  NoDup (map fst (done ++ todo)) ->
  fold_left (fun acc col => d <- acc ;; coerce_column d col) (map fst todo)
            (ret (mkFrame ix (done ++ todo)))
  = ret (mkFrame ix (done ++ map coerced todo)).
Proof.
  revert done. induction todo as [|[n c] todo IH]; intros done Hnd; [reflexivity|].
  cbn [map fst fold_left]. rewrite bind_ret_l.
  assert (Hn : ~ In n (map fst done)).
  { rewrite map_app in Hnd. cbn [map fst] in Hnd. apply NoDup_remove_2 in Hnd.
    intros Hin. apply Hnd. apply in_or_app. left. exact Hin. }
  assert (Hstep : coerce_column (mkFrame ix (done ++ (n, c) :: todo)) n
                  = ret (mkFrame ix ((done ++ [coerced (n, c)]) ++ todo))).
  { unfold coerce_column, coerced. cbn [fst snd].
    destruct (mem n identifiers); [rewrite <- app_assoc; reflexivity|].
    unfold getcol, setcol. cbn [columns index].
    rewrite lookup_app_notin by exact Hn. cbn [lookup]. rewrite String.eqb_refl.
    rewrite bind_ret_l, assign_app_notin by exact Hn. cbn [assign].
    rewrite String.eqb_refl, <- app_assoc. reflexivity. }
  rewrite Hstep, IH.
  - rewrite <- app_assoc. reflexivity.
  - rewrite <- app_assoc. cbn [app].
    replace (map fst (done ++ coerced (n, c) :: todo))
      with (map fst (done ++ (n, c) :: todo)); [exact Hnd|].
    rewrite !map_app. cbn [map]. f_equal. f_equal.
    unfold coerced. cbn [fst]. destruct (mem n identifiers); reflexivity.
Qed.

(** A table whose labels are all different, as [read_csv] returns it: the
    loop replaces every column but the identifiers by its numeric
    reading, in place. *)
Lemma coerce_columns_map (df : DataFrame) :
  NoDup (labels df) ->
  coerce_columns df = ret (mkFrame (index df) (map coerced (columns df))).
Proof.
  intros Hnd. unfold coerce_columns, labels. destruct df as [ix cs]. cbn [index columns].
  apply (coerce_columns_from ix [] cs). exact Hnd.
Qed.

End Loading.

(** ** What the loader returns *)

Lemma labels_assign (name : string) (c : column) (cs : list (string * column)) :
  map fst (assign name c cs)
  = (map fst cs ++ (if existsb (String.eqb name) (map fst cs) then [] else [name]))%list.
Proof.
  induction cs as [|[n c'] cs IH]; [reflexivity|].
  cbn [assign map fst existsb]. destruct (String.eqb name n) eqn:E; cbn [map fst orb app].
  - rewrite app_nil_r. reflexivity.
  - rewrite IH. reflexivity.
Qed.

Lemma labels_setcol (df : DataFrame) (name : string) (c : column) :
  labels (setcol df name c)
  = (labels df ++ (if has_col name df then [] else [name]))%list.
Proof. unfold labels, setcol, has_col, labels. cbn [columns]. apply labels_assign. Qed.

Lemma assign_same (name : string) (c : column) (cs : list (string * column)) :
  lookup name cs = Some c -> assign name c cs = cs.
Proof.
  induction cs as [|[n c'] cs IH]; [discriminate|].
  cbn [lookup assign]. destruct (String.eqb_spec name n) as [->|Hne].
  - intros H. injection H as ->. reflexivity.
  - intros H. rewrite IH by exact H. reflexivity.
Qed.

Section LoadingFacts.

Variable parse_number : string -> option parsed.

Lemma labels_coerced (cs : list (string * column)) :
  map fst (map (coerced parse_number) cs) = map fst cs.
Proof.
  rewrite map_map. apply map_ext. intros [n c]. unfold coerced. cbn [fst].
  destruct (mem n identifiers); reflexivity.
Qed.

Lemma lookup_coerced (n : string) (cs : list (string * column)) :
  lookup n (map (coerced parse_number) cs)
  = option_map (fun c => if mem n identifiers then c else to_numeric parse_number c)
               (lookup n cs).
Proof.
  induction cs as [|[m c] cs IH]; [reflexivity|].
  unfold coerced at 1. cbn [map fst snd].
  destruct (mem m identifiers) eqn:Hm; cbn [lookup];
    (destruct (String.eqb_spec n m) as [->|Hne]; [rewrite Hm; reflexivity|exact IH]).
Qed.

(** The table after the loop of lines 10-12. *)
Definition cleaned (raw : DataFrame) : DataFrame :=
  mkFrame (index raw) (map (coerced parse_number) (columns raw)).

Lemma cleaned_labels (raw : DataFrame) : labels (cleaned raw) = labels raw.
Proof. unfold labels, cleaned. cbn [columns]. apply labels_coerced. Qed.

Lemma cleaned_ok (raw : DataFrame) : frame_ok raw = true -> frame_ok (cleaned raw) = true.
Proof.
  unfold frame_ok, cleaned, nrows. cbn [index columns]. intros H.
  rewrite forallb_forall in *. intros nc Hnc. apply in_map_iff in Hnc.
  destruct Hnc as [[n c] [<- Hin]]. specialize (H _ Hin). cbn [snd] in H.
  unfold coerced. cbn [fst snd]. destruct (mem n identifiers); cbn [snd];
    rewrite ?to_numeric_len; exact H.
Qed.

Lemma cleaned_minutes (raw : DataFrame) :
  has_col "minutesPlayed" raw = true ->
  exists m0, lookup "minutesPlayed" (columns raw) = Some m0
             /\ lookup "minutesPlayed" (columns (cleaned raw))
                = Some (to_numeric parse_number m0).
Proof.
  intros H. apply has_col_lookup in H. destruct H as [m0 Hm0]. exists m0.
  split; [exact Hm0|]. unfold cleaned. cbn [columns]. rewrite lookup_coerced, Hm0.
  reflexivity.
Qed.

(** The loader, step by step, on a table with distinct labels. *)
Lemma load_data_steps (read_csv : string -> result DataFrame) (path : string)
    (raw : DataFrame) :
  read_csv path = ret raw -> NoDup (labels raw) ->
  load_data parse_number read_csv path
  = ret (match lookup "minutesPlayed" (columns raw) with
         | Some m0 =>
             setcol (cleaned raw) "90s"
               (Float64 (map (fun v => F64.div (float_view v) F64.ninety)
                             (cells (to_numeric parse_number m0))))
         | None => cleaned raw
         end).
Proof.
  intros Hread Hnd. unfold load_data. rewrite Hread, bind_ret_l.
  rewrite (coerce_columns_map parse_number raw Hnd), bind_ret_l. fold (cleaned raw).
  unfold add_nineties.
  assert (Hh : has_col "minutesPlayed" (cleaned raw) = has_col "minutesPlayed" raw)
    by (unfold has_col; rewrite cleaned_labels; reflexivity).
  rewrite Hh. destruct (has_col "minutesPlayed" raw) eqn:Hm.
  - destruct (cleaned_minutes raw Hm) as [m0 [Hm0 Hc]]. rewrite Hm0.
    unfold getcol. rewrite Hc, bind_ret_l. unfold div_scalar.
    destruct (as_float_total (to_numeric parse_number m0) (to_numeric_numeric _ m0))
      as [xs Hxs].
    rewrite Hxs, !bind_ret_l. apply as_float_view in Hxs. subst xs.
    rewrite map_map. reflexivity.
  - apply has_col_false_lookup in Hm. rewrite Hm. reflexivity.
Qed.

(** X10.  Loading never fails on the content of the file: whatever the cells
    hold, a table that [read_csv] returned is loaded, with the same rows
    and the same columns, and with the column [90s] added when the
    table has minutes; a failure of [read_csv] itself is passed on. *)
Theorem load_data_succeeds (read_csv : string -> result DataFrame) (path : string) :
  (forall e, read_csv path = raise e -> load_data parse_number read_csv path = raise e)
  /\ (forall raw, read_csv path = ret raw -> NoDup (labels raw) ->
        exists df,
          load_data parse_number read_csv path = ret df
          /\ index df = index raw
          /\ labels df
             = (labels raw
                ++ (if has_col "minutesPlayed" raw && negb (has_col "90s" raw)
                    then ["90s"] else []))%list
          /\ (frame_ok raw = true -> frame_ok df = true)).
Proof.
  split.
  { intros e He. unfold load_data. rewrite He. reflexivity. }
  intros raw Hread Hnd. eexists. split; [apply (load_data_steps _ _ raw Hread Hnd)|].
  destruct (lookup "minutesPlayed" (columns raw)) as [m0|] eqn:Hm0.
  - assert (Hm : has_col "minutesPlayed" raw = true) by (apply has_col_lookup; eauto).
    rewrite Hm. split; [reflexivity|]. split.
    + rewrite labels_setcol, cleaned_labels. unfold has_col at 1.
      rewrite cleaned_labels. fold (has_col "90s" raw).
      destruct (has_col "90s" raw); reflexivity.
    + intros Hok. apply frame_ok_setcol; [apply cleaned_ok; exact Hok|].
      cbn [col_len]. rewrite length_map, length_cells, to_numeric_len.
      apply (frame_ok_lookup raw "minutesPlayed" m0 Hok Hm0).
  - assert (Hm : has_col "minutesPlayed" raw = false) by (apply has_col_false_lookup; exact Hm0).
    rewrite Hm. cbn [andb]. rewrite app_nil_r.
    split; [reflexivity|]. split; [apply cleaned_labels|apply cleaned_ok].
Qed.

Lemma loaded_lookup (raw : DataFrame) (n : string) :
  n <> "90s" ->
  lookup n (columns (match lookup "minutesPlayed" (columns raw) with
                     | Some m0 =>
                         setcol (cleaned raw) "90s"
                           (Float64 (map (fun v => F64.div (float_view v) F64.ninety)
                                         (cells (to_numeric parse_number m0))))
                     | None => cleaned raw
                     end))
  = option_map (fun c => if mem n identifiers then c else to_numeric parse_number c)
               (lookup n (columns raw)).
Proof.
  intros Hn. destruct (lookup "minutesPlayed" (columns raw)).
  - unfold setcol. cbn [columns]. rewrite lookup_assign_other by exact Hn.
    apply lookup_coerced.
  - apply lookup_coerced.
Qed.

(** The cells of a text column after coercion. *)
Lemma to_numeric_cell (xs : list (option string)) (i : nat) :
  (i < length xs)%nat ->
  float_view (cell (to_numeric parse_number (Object xs)) i)
  = real_of (parse_cell parse_number (nth i xs None)).
Proof.
  intros Hi. unfold to_numeric.
  destruct (forallb is_whole (map (parse_cell parse_number) xs)) eqn:Hw.
  - rewrite cell_int by (rewrite !length_map; exact Hi).
    rewrite (nth_map_at whole_of _ None) by (rewrite length_map; exact Hi).
    rewrite (nth_map_at (parse_cell parse_number) _ None) by exact Hi.
    rewrite forallb_forall in Hw.
    assert (Hin : In (parse_cell parse_number (nth i xs None))
                     (map (parse_cell parse_number) xs))
      by (apply in_map, nth_In; exact Hi).
    apply Hw in Hin.
    destruct (parse_cell parse_number (nth i xs None)) as [[z|f]|]; try discriminate.
    reflexivity.
  - rewrite cell_float by (rewrite !length_map; exact Hi).
    rewrite (nth_map_at real_of _ None) by (rewrite length_map; exact Hi).
    rewrite (nth_map_at (parse_cell parse_number) _ None) by exact Hi. reflexivity.
Qed.

Lemma to_numeric_missing (xs : list (option string)) (i : nat) :
  (i < length xs)%nat ->
  parse_cell parse_number (nth i xs None) = None ->
  isna (cell (to_numeric parse_number (Object xs)) i) = true.
Proof.
  intros Hi Hp. unfold to_numeric.
  destruct (forallb is_whole (map (parse_cell parse_number) xs)) eqn:Hw.
  - exfalso. rewrite forallb_forall in Hw.
    assert (Hin : In (parse_cell parse_number (nth i xs None))
                     (map (parse_cell parse_number) xs))
      by (apply in_map, nth_In; exact Hi).
    apply Hw in Hin. rewrite Hp in Hin. discriminate.
  - rewrite cell_float by (rewrite !length_map; exact Hi).
    rewrite (nth_map_at real_of _ None) by (rewrite length_map; exact Hi).
    rewrite (nth_map_at (parse_cell parse_number) _ None) by exact Hi.
    rewrite Hp. reflexivity.
Qed.

(** The columns of the loaded table that are not identifiers are
    numeric. *)
Lemma loaded_columns_numeric (read_csv : string -> result DataFrame) (path : string)
    (raw df : DataFrame) (n : string) (c : column) :
  read_csv path = ret raw -> NoDup (labels raw) ->
  load_data parse_number read_csv path = ret df ->
  lookup n (columns df) = Some c -> mem n identifiers = false -> numeric c = true.
Proof.
  intros Hread Hnd Hload.
  rewrite (load_data_steps read_csv path raw Hread Hnd) in Hload.
  unfold ret in Hload. injection Hload as <-.
  intros Hc Hid. destruct (String.eqb_spec n "90s") as [->|Hne].
  - destruct (lookup "minutesPlayed" (columns raw)) as [m0|].
    + unfold setcol in Hc. cbn [columns] in Hc. rewrite lookup_assign_same in Hc.
      injection Hc as <-. reflexivity.
    + unfold cleaned in Hc. cbn [columns] in Hc. rewrite lookup_coerced in Hc.
      destruct (lookup "90s" (columns raw)); [|discriminate].
      injection Hc as <-. apply to_numeric_numeric.
  - rewrite loaded_lookup in Hc by exact Hne. rewrite Hid in Hc.
    destruct (lookup n (columns raw)); [|discriminate].
    injection Hc as <-. apply to_numeric_numeric.
Qed.

(** X11.  Every column of the loaded table other than [player], [team] and
    [country] is numeric: a numeric column of the file is kept as it is,
    and in a text column a cell that is empty or is not a number becomes a
    missing value, the others the number read.  The three identifier
    columns are returned untouched. *)
Theorem load_data_coerces (read_csv : string -> result DataFrame) (path : string)
    (raw df : DataFrame) :
  read_csv path = ret raw -> NoDup (labels raw) ->
  load_data parse_number read_csv path = ret df ->
  (forall n c, lookup n (columns df) = Some c -> mem n identifiers = false ->
     numeric c = true)
  /\ (forall n, mem n identifiers = true ->
        lookup n (columns df) = lookup n (columns raw))
  /\ (forall n c0, mem n identifiers = false -> n <> "90s" ->
        lookup n (columns raw) = Some c0 ->
        exists c,
          lookup n (columns df) = Some c
          /\ col_len c = col_len c0
          /\ (numeric c0 = true -> c = c0)
          /\ (forall xs i, c0 = Object xs -> (i < length xs)%nat ->
                float_view (cell c i) = real_of (parse_cell parse_number (nth i xs None))
                /\ (parse_cell parse_number (nth i xs None) = None ->
                    isna (cell c i) = true))).
Proof.
  intros Hread Hnd Hload.
  split; [|split].
  - intros n c. apply (loaded_columns_numeric read_csv path raw df n c Hread Hnd Hload).
  - rewrite (load_data_steps read_csv path raw Hread Hnd) in Hload.
    unfold ret in Hload. injection Hload as <-.
    intros n Hid. rewrite loaded_lookup by (intros ->; discriminate). rewrite Hid.
    destruct (lookup n (columns raw)); reflexivity.
  - rewrite (load_data_steps read_csv path raw Hread Hnd) in Hload.
    unfold ret in Hload. injection Hload as <-.
    intros n c0 Hid Hne Hc0. rewrite loaded_lookup by exact Hne. rewrite Hc0, Hid.
    eexists. split; [reflexivity|]. split; [apply to_numeric_len|].
    split; [apply to_numeric_of_numeric|].
    intros xs i -> Hi. split; [apply to_numeric_cell; exact Hi|].
    apply to_numeric_missing. exact Hi.
Qed.

(** X12.  The column [90s]: for a file with minutes it holds, row by row, the
    minutes divided by 90.0, computed in binary64 on the coerced minutes,
    and it is missing wherever the minutes are; for a file without minutes
    no such column is added. *)
Theorem load_data_nineties (read_csv : string -> result DataFrame) (path : string)
    (raw df : DataFrame) :
  read_csv path = ret raw -> NoDup (labels raw) ->
  load_data parse_number read_csv path = ret df ->
  (forall m0, lookup "minutesPlayed" (columns raw) = Some m0 ->
     exists m v,
       lookup "minutesPlayed" (columns df) = Some m
       /\ numeric m = true
       /\ lookup "90s" (columns df) = Some (Float64 v)
       /\ length v = col_len m0
       /\ forall i, (i < col_len m0)%nat ->
            nth i v F64.nan = F64.div (float_view (cell m i)) F64.ninety
            /\ (isna (cell m i) = true -> F64.isnan (nth i v F64.nan) = true))
  /\ (has_col "minutesPlayed" raw = false -> has_col "90s" df = has_col "90s" raw).
Proof.
  intros Hread Hnd Hload.
  rewrite (load_data_steps read_csv path raw Hread Hnd) in Hload.
  unfold ret in Hload. injection Hload as <-. split.
  - intros m0 Hm0. rewrite Hm0.
    exists (to_numeric parse_number m0). eexists.
    split.
    { unfold setcol, cleaned. cbn [columns]. rewrite lookup_assign_other by discriminate.
      rewrite lookup_coerced, Hm0. reflexivity. }
    split; [apply to_numeric_numeric|].
    split; [unfold setcol; cbn [columns]; apply lookup_assign_same|].
    split; [rewrite length_map, length_cells; apply to_numeric_len|].
    intros i Hi.
    assert (Hi' : (i < length (cells (to_numeric parse_number m0)))%nat)
      by (rewrite length_cells, to_numeric_len; exact Hi).
    rewrite (nth_map_at _ _ PyNone) by exact Hi'. fold (cell (to_numeric parse_number m0) i).
    split; [reflexivity|].
    intros Hna.
    pose proof (to_numeric_numeric parse_number m0) as Hnum.
    unfold cell in *.
    destruct (to_numeric parse_number m0) as [ys|ys|ys]; try discriminate.
    + simpl in Hi', Hna |- *. rewrite length_map in Hi'.
      rewrite (nth_map_at PyFloat _ F64.nan) in * by exact Hi'. simpl in *.
      destruct (nth i ys F64.nan); try discriminate. reflexivity.
    + simpl in Hi', Hna. rewrite length_map in Hi'.
      rewrite (nth_map_at PyInt _ 0) in Hna by exact Hi'. discriminate.
  - intros Hm. apply has_col_false_lookup in Hm. rewrite Hm.
    unfold has_col. rewrite cleaned_labels. reflexivity.
Qed.

(** X13.  Loading is idempotent: a table that the loader returned is left as it
    is by the cleaning steps, so that loading it again gives it back. *)
Theorem load_data_idempotent (read_csv : string -> result DataFrame) (path : string)
    (raw df : DataFrame) :
  read_csv path = ret raw -> NoDup (labels raw) ->
  load_data parse_number read_csv path = ret df ->
  load_data parse_number (fun _ => ret df) path = ret df.
Proof.
  intros Hread Hnd Hload.
  pose proof Hload as Hsteps.
  rewrite (load_data_steps read_csv path raw Hread Hnd) in Hsteps.
  unfold ret in Hsteps. injection Hsteps as Hdf.
  assert (Hlab : labels df
                 = (labels raw ++ (if has_col "minutesPlayed" raw && negb (has_col "90s" raw)
                                   then ["90s"] else []))%list).
  { rewrite <- Hdf. destruct (lookup "minutesPlayed" (columns raw)) as [m0|] eqn:Hm0.
    - assert (Hm : has_col "minutesPlayed" raw = true) by (apply has_col_lookup; eauto).
      rewrite Hm, labels_setcol, cleaned_labels. unfold has_col at 1.
      rewrite cleaned_labels. fold (has_col "90s" raw).
      destruct (has_col "90s" raw); reflexivity.
    - assert (Hm : has_col "minutesPlayed" raw = false)
        by (apply has_col_false_lookup; exact Hm0).
      rewrite Hm. cbn [andb]. rewrite app_nil_r. apply cleaned_labels. }
  assert (Hnd' : NoDup (labels df)).
  { rewrite Hlab. destruct (has_col "minutesPlayed" raw && negb (has_col "90s" raw)) eqn:E.
    - apply NoDup_app; [exact Hnd|repeat constructor; simpl; tauto|].
      intros x Hx [<-|[]]. apply andb_true_iff in E. destruct E as [_ E].
      apply negb_true_iff in E. apply has_col_In in Hx. congruence.
    - rewrite app_nil_r. exact Hnd. }
  assert (Hnum : forall n c, lookup n (columns df) = Some c ->
                   mem n identifiers = false -> numeric c = true).
  { intros n c. apply (loaded_columns_numeric read_csv path raw df n c Hread Hnd Hload). }
  assert (Hclean : cleaned df = df).
  { unfold cleaned. destruct df as [ix cs]. cbn [index columns] in *. f_equal.
    rewrite <- (map_id cs) at 2. apply map_ext_in. intros [n c] Hin.
    unfold coerced. cbn [fst snd]. destruct (mem n identifiers) eqn:Hn; [reflexivity|].
    f_equal. apply to_numeric_of_numeric. apply (Hnum n); [|exact Hn].
    clear - Hnd' Hin. unfold labels in Hnd'. cbn [columns] in Hnd'.
    induction cs as [|[m c'] cs IH]; [contradiction|].
    cbn [map fst] in Hnd'. apply NoDup_cons_iff in Hnd'. destruct Hnd' as [Hm Hnd'].
    cbn [lookup]. destruct Hin as [Heq|Hin].
    - injection Heq as -> ->. rewrite String.eqb_refl. reflexivity.
    - destruct (String.eqb_spec n m) as [->|Hne].
      + exfalso. apply Hm. apply in_map_iff. exists (m, c). auto.
      + apply IH; assumption. }
  rewrite (load_data_steps (fun _ => ret df) path df eq_refl Hnd'), Hclean.
  f_equal. destruct (lookup "minutesPlayed" (columns df)) as [m|] eqn:Hm; [|reflexivity].
  assert (Hm0 : exists m0, lookup "minutesPlayed" (columns raw) = Some m0
                           /\ m = to_numeric parse_number m0).
  { rewrite <- Hdf in Hm. rewrite loaded_lookup in Hm by discriminate.
    destruct (lookup "minutesPlayed" (columns raw)) as [m0|]; [|discriminate].
    exists m0. split; [reflexivity|]. simpl in Hm. congruence. }
  destruct Hm0 as [m0 [Hm0 ->]]. rewrite to_numeric_idempotent.
  unfold setcol. destruct df as [ix cs]. cbn [index columns] in *. f_equal.
  apply assign_same. rewrite Hm0 in Hdf. unfold setcol in Hdf.
  injection Hdf as _ <-. apply lookup_assign_same.
Qed.

End LoadingFacts.

(** ** Loading a sample file *)

(** Numbers written with digits only, read as whole numbers unless they
    are too large for binary64; it stands for pandas' parser on the cells
    of the sample. *)
Definition read_whole (s : string) : option parsed :=
  if all_digits s && negb (String.eqb s "") then
    match Z_of_str s with
    | Some z => Some (if fits_float z then Whole z else Real (F64.of_Z z))
    | None => None
    end
  else None.

(** The file as [read_csv] returns it: one player's minutes were entered
    as "n/a", so the whole column arrived as text. *)
Definition raw_squad : DataFrame :=
  mkFrame (seq 0 4)
    [ ("player", Object (map Some ["Icardi"; "Dzeko"; "Rafa"; "Uzun"]));
      ("team", Object (map Some ["GS"; "FB"; "BJK"; "TS"]));
      ("goals", Int64 [5; 3; 3; 0]);
      ("minutesPlayed", Object [Some "900"; Some "450"; Some "n/a"; None]);
      ("age_x", Object (map Some ["31"; "38"; "30"; "19"]));
      ("country", Object [Some "Argentina"; Some "Bosnia"; Some "Portugal"; None]) ].

Definition disk (path : string) : result DataFrame :=
  if String.eqb path "tackles_joined.csv" then ret raw_squad
  else raise (OtherError "FileNotFoundError").

Definition loaded_squad : DataFrame :=
  Eval vm_compute in frame_of (load_data read_whole disk "tackles_joined.csv").

Example loaded_squad_minutes :
  lookup "minutesPlayed" (columns loaded_squad)
  = Some (Float64 [F64.of_Z 900; F64.of_Z 450; F64.nan; F64.nan])
  /\ lookup "age_x" (columns loaded_squad) = Some (Int64 [31; 38; 30; 19])
  /\ lookup "90s" (columns loaded_squad)
     = Some (Float64 [F64.of_Z 10; F64.of_Z 5; F64.nan; F64.nan]).
Proof. vm_compute. repeat split. Qed.

Lemma raw_squad_labels : NoDup (labels raw_squad).
Proof.
  unfold labels, raw_squad. cbn [columns map fst].
  repeat (constructor; [simpl; intuition discriminate|]). constructor.
Qed.

Lemma load_data_coerces_witness :
  (forall n c, lookup n (columns loaded_squad) = Some c -> mem n identifiers = false ->
     numeric c = true)
  /\ (forall n, mem n identifiers = true ->
        lookup n (columns loaded_squad) = lookup n (columns raw_squad))
  /\ (forall n c0, mem n identifiers = false -> n <> "90s" ->
        lookup n (columns raw_squad) = Some c0 ->
        exists c,
          lookup n (columns loaded_squad) = Some c
          /\ col_len c = col_len c0
          /\ (numeric c0 = true -> c = c0)
          /\ (forall xs i, c0 = Object xs -> (i < length xs)%nat ->
                float_view (cell c i) = real_of (parse_cell read_whole (nth i xs None))
                /\ (parse_cell read_whole (nth i xs None) = None ->
                    isna (cell c i) = true))).
Proof.
  apply (load_data_coerces read_whole disk "tackles_joined.csv" raw_squad loaded_squad).
  - reflexivity.
  - exact raw_squad_labels.
  - vm_compute. reflexivity.
Defined.

Lemma load_data_nineties_witness :
  (forall m0, lookup "minutesPlayed" (columns raw_squad) = Some m0 ->
     exists m v,
       lookup "minutesPlayed" (columns loaded_squad) = Some m
       /\ numeric m = true
       /\ lookup "90s" (columns loaded_squad) = Some (Float64 v)
       /\ length v = col_len m0
       /\ forall i, (i < col_len m0)%nat ->
            nth i v F64.nan = F64.div (float_view (cell m i)) F64.ninety
            /\ (isna (cell m i) = true -> F64.isnan (nth i v F64.nan) = true))
  /\ (has_col "minutesPlayed" raw_squad = false ->
      has_col "90s" loaded_squad = has_col "90s" raw_squad).
Proof.
  apply (load_data_nineties read_whole disk "tackles_joined.csv" raw_squad loaded_squad).
  - reflexivity.
  - exact raw_squad_labels.
  - vm_compute. reflexivity.
Defined.

Lemma load_data_idempotent_witness :
  load_data read_whole (fun _ => ret loaded_squad) "tackles_joined.csv" = ret loaded_squad.
Proof.
  apply (load_data_idempotent read_whole disk "tackles_joined.csv" raw_squad loaded_squad).
  - reflexivity.
  - exact raw_squad_labels.
  - vm_compute. reflexivity.
Defined.

Example load_data_missing_file :
  load_data read_whole disk "missing.csv" = raise (OtherError "FileNotFoundError").
Proof. reflexivity. Qed.

(** * dashboard.py: the filters, row by row *)

Lemma mask_and_map {A : Type} (f g : A -> bool) (l : list A) :
  mask_and (map f l) (map g l) = map (fun v => f v && g v) l.
Proof.
  unfold mask_and. induction l as [|a l IH]; simpl; [reflexivity|].
  rewrite IH. reflexivity.
Qed.

Lemma rows_where_In (P : pyval -> bool) (c : column) (n i : nat) :
  In i (rows_where P c (seq 0 n)) <-> (i < n)%nat /\ P (cell c i) = true.
Proof.
  unfold rows_where. rewrite filter_In, in_seq. split; [tauto|].
  intros [H1 H2]. split; [lia|exact H2].
Qed.

Lemma cell_ge_missing (v : pyval) (k : Z) : isna v = true -> cell_ge v k = false.
Proof.
  destruct v as [|z|f|s]; simpl; try discriminate; try reflexivity.
  destruct f; try discriminate. intros _. apply geb_nan.
Qed.

Lemma cell_le_missing (v : pyval) (k : Z) : isna v = true -> cell_le v k = false.
Proof.
  destruct v as [|z|f|s]; simpl; try discriminate; try reflexivity.
  destruct f; try discriminate. reflexivity.
Qed.

(** X14.  The minutes filter of [build_top_table]: with a positive threshold it
    keeps, in table order, exactly the rows whose minutes reach the
    threshold, and so drops every row whose minutes are missing; with a
    threshold of zero or less, or without a minutes column, it keeps
    every row, those with missing minutes included. *)
Theorem minutes_filter_rows (df : DataFrame) (min_minutes : Z) :
  (min_minutes <= 0 \/ has_col "minutesPlayed" df = false ->
   filter_minutes df min_minutes = ret df)
  /\ (forall minutes,
        0 < min_minutes ->
        frame_ok df = true ->
        lookup "minutesPlayed" (columns df) = Some minutes ->
        numeric minutes = true ->
        filter_minutes df min_minutes
        = ret (frame_take
                 (rows_where (fun v => cell_ge v min_minutes) minutes (seq 0 (nrows df)))
                 df)
        /\ forall i,
             (In i (rows_where (fun v => cell_ge v min_minutes) minutes (seq 0 (nrows df)))
              <-> (i < nrows df)%nat /\ cell_ge (cell minutes i) min_minutes = true)
             /\ (isna (cell minutes i) = true ->
                 ~ In i (rows_where (fun v => cell_ge v min_minutes) minutes
                                    (seq 0 (nrows df))))).
Proof.
  split.
  - intros H. unfold filter_minutes. destruct H as [H|H].
    + destruct (Z.ltb_spec 0 min_minutes); [lia|]. rewrite andb_false_r. reflexivity.
    + rewrite H. reflexivity.
  - intros minutes Hpos Hok Hm Hnum. split.
    + unfold filter_minutes.
      assert (Hh : has_col "minutesPlayed" df = true) by (apply has_col_lookup; eauto).
      rewrite Hh. destruct (Z.ltb_spec 0 min_minutes); [|lia]. cbn [andb].
      unfold getcol. rewrite Hm, bind_ret_l.
      destruct (ge_scalar_total minutes min_minutes Hnum) as [m Hge].
      rewrite Hge, bind_ret_l. apply ge_scalar_cells in Hge. subst m.
      rewrite (frame_filter_rows _ df "minutesPlayed" minutes Hok Hm). reflexivity.
    + intros i. split; [apply rows_where_In|].
      intros Hna Hin. apply rows_where_In in Hin. destruct Hin as [_ Hin].
      rewrite (cell_ge_missing _ _ Hna) in Hin. discriminate.
Qed.

(** X15.  The age filter of the dashboard: it keeps, in table order, exactly
    the rows whose age lies in the selected range, the bounds included;
    unlike the extractor it drops every row whose age is missing.
    Without an age column it keeps the table as it is. *)
Theorem age_range_rows (df : DataFrame) (a : string) (ages : column) (lo hi : Z) :
  frame_ok df = true ->
  lookup a (columns df) = Some ages ->
  numeric ages = true ->
  filter_age_range df (Some a) (lo, hi)
  = ret (frame_take
           (rows_where (fun v => cell_ge v lo && cell_le v hi) ages (seq 0 (nrows df)))
           df)
  /\ filter_age_range df None (lo, hi) = ret df
  /\ forall i,
       (In i (rows_where (fun v => cell_ge v lo && cell_le v hi) ages (seq 0 (nrows df)))
        <-> (i < nrows df)%nat
            /\ cell_ge (cell ages i) lo = true /\ cell_le (cell ages i) hi = true)
       /\ (isna (cell ages i) = true ->
           ~ In i (rows_where (fun v => cell_ge v lo && cell_le v hi) ages
                              (seq 0 (nrows df)))).
Proof.
  intros Hok Ha Hnum. split; [|split; [reflexivity|]].
  - unfold filter_age_range, getcol. cbn [fst snd]. rewrite Ha, bind_ret_l.
    destruct (ge_scalar_total ages lo Hnum) as [m1 H1].
    destruct (le_scalar_total ages hi Hnum) as [m2 H2].
    rewrite H1, bind_ret_l, H2, bind_ret_l.
    apply ge_scalar_cells in H1. apply le_scalar_cells in H2. subst m1 m2.
    rewrite mask_and_map.
    rewrite (frame_filter_rows (fun v => cell_ge v lo && cell_le v hi) df a ages Hok Ha).
    reflexivity.
  - intros i. split.
    + rewrite rows_where_In, andb_true_iff. tauto.
    + intros Hna Hin. apply rows_where_In in Hin. destruct Hin as [_ Hin].
      rewrite (cell_ge_missing _ _ Hna) in Hin. discriminate.
Qed.

(** [v == s] for a cell and a text. *)
Definition is_text (v : pyval) (s : string) : bool :=
  match v with
  | PyStr t => String.eqb t s
  | _ => false
  end.

Lemma eq_text_cells (c : column) (s : string) :
  eq_text c s = map (fun v => is_text v s) (cells c).
Proof.
  destruct c as [xs|xs|xs]; simpl; rewrite ?map_map.
  - induction xs as [|x xs IH]; simpl; [reflexivity|f_equal; exact IH].
  - induction xs as [|x xs IH]; simpl; [reflexivity|f_equal; exact IH].
  - apply map_ext. intros [t|]; reflexivity.
Qed.

Lemma is_text_spec (v : pyval) (s : string) : is_text v s = true <-> v = PyStr s.
Proof.
  destruct v as [|z|f|t]; simpl; try (split; [discriminate|intros H; discriminate]).
  rewrite String.eqb_eq. split; [intros ->; reflexivity|intros H; congruence].
Qed.

(** X16.  The nationality filter: "Türk Oyuncular" keeps exactly the rows whose
    country is Türkiye, "Yabancı Oyuncular" exactly the rows that have a
    country and it is another one, so a row without a country is in
    neither selection; any other choice keeps every row. *)
Theorem nationality_rows (df : DataFrame) (country : column) :
  frame_ok df = true ->
  lookup "country" (columns df) = Some country ->
  filter_nationality df "Türk Oyuncular"
  = ret (frame_take (rows_where (fun v => is_text v turkiye) country (seq 0 (nrows df))) df)
  /\ filter_nationality df "Yabancı Oyuncular"
     = ret (frame_take
              (rows_where (fun v => negb (is_text v turkiye) && negb (isna v)) country
                          (seq 0 (nrows df))) df)
  /\ (forall choice, choice <> "Türk Oyuncular" -> choice <> "Yabancı Oyuncular" ->
        filter_nationality df choice = ret df)
  /\ (forall i, (i < nrows df)%nat ->
        (In i (rows_where (fun v => is_text v turkiye) country (seq 0 (nrows df)))
         <-> cell country i = PyStr turkiye)
        /\ (In i (rows_where (fun v => negb (is_text v turkiye) && negb (isna v)) country
                             (seq 0 (nrows df)))
            <-> isna (cell country i) = false /\ cell country i <> PyStr turkiye)).
Proof.
  intros Hok Hc.
  assert (Hh : has_col "country" df = true) by (apply has_col_lookup; eauto).
  split; [|split; [|split]].
  - unfold filter_nationality, getcol. rewrite Hh, Hc, bind_ret_l.
    rewrite String.eqb_refl, eq_text_cells.
    rewrite (frame_filter_rows _ df "country" country Hok Hc). reflexivity.
  - unfold filter_nationality, getcol. rewrite Hh, Hc, bind_ret_l.
    replace ("Yabancı Oyuncular" =? "Türk Oyuncular")%string with false by reflexivity.
    rewrite String.eqb_refl, eq_text_cells. unfold mask_not, col_isna.
    rewrite !map_map, mask_and_map.
    rewrite (frame_filter_rows (fun v => negb (is_text v turkiye) && negb (isna v))
               df "country" country Hok Hc).
    reflexivity.
  - intros choice H1 H2. unfold filter_nationality, getcol. rewrite Hh, Hc, bind_ret_l.
    destruct (String.eqb_spec choice "Türk Oyuncular"); [contradiction|].
    destruct (String.eqb_spec choice "Yabancı Oyuncular"); [contradiction|]. reflexivity.
  - intros i Hi. split.
    + rewrite rows_where_In, is_text_spec. tauto.
    + rewrite rows_where_In, andb_true_iff, !negb_true_iff.
      split.
      * intros [_ [H1 H2]]. split; [exact H2|]. intros Heq.
        apply is_text_spec in Heq. congruence.
      * intros [H1 H2]. split; [exact Hi|]. split; [|exact H1].
        destruct (is_text (cell country i) turkiye) eqn:E; [|reflexivity].
        apply is_text_spec in E. contradiction.
Qed.

(** ** The filters on the sample table *)

Definition squad_ages : column :=
  Float64 [F64.of_Z 31; F64.of_Z 38; F64.of_Z 30; F64.nan; F64.of_Z 25;
           F64.of_Z 24; F64.of_Z 35; F64.of_Z 36; F64.of_Z 34; F64.of_Z 27;
           F64.of_Z 25; F64.of_Z 23].

Definition squad_countries : column :=
  Object [Some "Argentina"; Some "Bosnia"; Some "Portugal"; Some turkiye;
          Some "Nigeria"; Some turkiye; Some "Serbia"; Some "Belgium";
          Some "Italy"; Some turkiye; Some "Poland"; None].

Lemma age_range_rows_witness :
  filter_age_range squad (Some "age_x") (25, 31)
  = ret (frame_take
           (rows_where (fun v => cell_ge v 25 && cell_le v 31) squad_ages
                       (seq 0 (nrows squad)))
           squad)
  /\ filter_age_range squad None (25, 31) = ret squad
  /\ forall i,
       (In i (rows_where (fun v => cell_ge v 25 && cell_le v 31) squad_ages
                         (seq 0 (nrows squad)))
        <-> (i < nrows squad)%nat
            /\ cell_ge (cell squad_ages i) 25 = true /\ cell_le (cell squad_ages i) 31 = true)
       /\ (isna (cell squad_ages i) = true ->
           ~ In i (rows_where (fun v => cell_ge v 25 && cell_le v 31) squad_ages
                              (seq 0 (nrows squad)))).
Proof.
  apply (age_range_rows squad "age_x" squad_ages 25 31); reflexivity.
Defined.

Example squad_aged_25_to_31 :
  rows_where (fun v => cell_ge v 25 && cell_le v 31) squad_ages (seq 0 (nrows squad))
  = [0; 2; 4; 9; 10]%nat.
Proof. vm_compute. reflexivity. Qed.

Lemma nationality_rows_witness :
  filter_nationality squad "Türk Oyuncular"
  = ret (frame_take (rows_where (fun v => is_text v turkiye) squad_countries
                                (seq 0 (nrows squad))) squad)
  /\ filter_nationality squad "Yabancı Oyuncular"
     = ret (frame_take
              (rows_where (fun v => negb (is_text v turkiye) && negb (isna v))
                          squad_countries (seq 0 (nrows squad))) squad)
  /\ (forall choice, choice <> "Türk Oyuncular" -> choice <> "Yabancı Oyuncular" ->
        filter_nationality squad choice = ret squad)
  /\ (forall i, (i < nrows squad)%nat ->
        (In i (rows_where (fun v => is_text v turkiye) squad_countries
                          (seq 0 (nrows squad)))
         <-> cell squad_countries i = PyStr turkiye)
        /\ (In i (rows_where (fun v => negb (is_text v turkiye) && negb (isna v))
                             squad_countries (seq 0 (nrows squad)))
            <-> isna (cell squad_countries i) = false
                /\ cell squad_countries i <> PyStr turkiye)).
Proof.
  apply (nationality_rows squad squad_countries); reflexivity.
Defined.

Example squad_by_nationality :
  rows_where (fun v => is_text v turkiye) squad_countries (seq 0 (nrows squad))
  = [3; 5; 9]%nat
  /\ rows_where (fun v => negb (is_text v turkiye) && negb (isna v)) squad_countries
                (seq 0 (nrows squad))
     = [0; 1; 2; 4; 6; 7; 8; 10]%nat.
Proof. vm_compute. split; reflexivity. Qed.

(** * dashboard.py: the rank column *)

Section RankColumn.

Context {S : ArgSort}.

Lemma display_table_rank (work : DataFrame) (metric mc : string)
    (extra_cols : option (list string)) (display : DataFrame) :
  display_table work metric mc extra_cols = ret display ->
  exists cs,
    columns display = ("Rk", Int64 (map Z.of_nat (seq 1 (nrows work)))) :: cs.
Proof.
  intros H.
  pose proof (display_table_inv _ _ _ _ _ H) as [_ [_ [_ [HRk _]]]].
  assert (Hmc : mc <> "Rk").
  { intros ->. unfold display_cols, mem in HRk. simpl in HRk. discriminate. }
  unfold display_table in H.
  bind_inv H as sel Hsel. bind_inv H as ins Hins.
  unfold insert_first in Hins.
  destruct (has_col "Rk" sel); [discriminate|]. inv_ret Hins. subst ins.
  pose proof (select_inv _ _ _ Hsel) as [Hix _].
  apply format_columns_inv in H. destruct H as [_ H].
  rewrite !columns_rename_if_present in H. unfold rename in H.
  cbn [columns] in H. rewrite !map_map in H. cbn [map fst snd] in H.
  assert (Hlabel : relabel "country" "Country"
                     (relabel "age_y" "Age"
                        (relabel "age_x" "Age"
                           (relabel "age" "Age"
                              (if ("Rk" =? mc)%string
                               then title (replace_char "_" " " metric) else "Rk"))))
                   = "Rk").
  { destruct (String.eqb_spec "Rk" mc) as [Heq|_]; [congruence|]. reflexivity. }
  rewrite Hlabel in H.
  remember (map _ (columns sel)) as rest eqn:Hrest_eq. clear Hrest_eq.
  remember "Rk" as rk eqn:Hrk.
  inversion H as [|a b l l' [Hab Hf] Hrest]; subst a l.
  exists l'. destruct b as [n c]. cbn [fst snd] in Hab, Hf. subst n rk.
  change (mem "Rk" unformatted) with true in Hf. cbv iota in Hf. subst c.
  unfold nrows. rewrite Hix. reflexivity.
Qed.

(** X19.  The first column of every table [build_top_table] returns is [Rk],
    and it numbers the rows 1, 2, ..., in display order; the numbers are
    integers, not formatted text. *)
Theorem rank_numbers (df : DataFrame) (metric : string) (per_90 : bool)
    (min_minutes : Z) (ascending : bool) (extra_cols : option (list string))
    (display : DataFrame) :
  build_top_table df metric per_90 min_minutes ascending extra_cols = ret display ->
  exists cs,
    columns display = ("Rk", Int64 (map Z.of_nat (seq 1 (nrows display)))) :: cs
    /\ (nrows display <= 10)%nat.
Proof.
  intros H. apply build_top_table_inv in H. destruct H as [work [mc [Hr Hd]]].
  destruct (display_table_rank _ _ _ _ _ Hd) as [cs Hcs].
  pose proof (display_table_inv _ _ _ _ _ Hd) as [Hix _].
  assert (Hn : nrows display = nrows work) by (unfold nrows; rewrite Hix; reflexivity).
  exists cs. rewrite Hn. split; [exact Hcs|].
  apply rank_rows_inv in Hr. destruct Hr as [keyed [c [_ [_ ->]]]].
  rewrite nrows_frame_take, length_firstn. lia.
Qed.

End RankColumn.

Lemma rank_numbers_witness :
  exists cs,
    columns squad_goals_per90
    = ("Rk", Int64 (map Z.of_nat (seq 1 (nrows squad_goals_per90)))) :: cs
    /\ (nrows squad_goals_per90 <= 10)%nat.
Proof.
  apply (rank_numbers (S := stable_kind) squad "goals" true 90 false squad_extras).
  vm_compute. reflexivity.
Defined.

(** * dashboard.py: the whole page *)

(** A table as [load_data] returns it, with the two identifier columns
    the display needs: whole columns, integers that [float] converts, and
    numbers in every column but [player], [team] and [country]. *)
Definition loaded_ok (df : DataFrame) : bool :=
  frame_ok df && ints_fit df && has_col "player" df && has_col "team" df
  && forallb (fun nc => mem (fst nc) identifiers || numeric (snd nc)) (columns df).

Lemma loaded_ok_numeric (df : DataFrame) (n : string) :
  loaded_ok df = true -> mem n identifiers = false -> has_col n df = true ->
  numeric_at n df = true.
Proof.
  unfold loaded_ok. intros H Hid Hn.
  apply andb_true_iff in H. destruct H as [_ H]. rewrite forallb_forall in H.
  apply has_col_lookup in Hn. destruct Hn as [c Hc].
  unfold numeric_at. rewrite Hc. apply lookup_In in Hc. apply H in Hc.
  cbn [fst snd] in Hc. rewrite Hid in Hc. exact Hc.
Qed.

Lemma loaded_ok_take (p : list nat) (df : DataFrame) :
  loaded_ok df = true -> loaded_ok (frame_take p df) = true.
Proof.
  unfold loaded_ok. intros H.
  repeat (apply andb_true_iff in H; destruct H as [H ?]).
  rewrite frame_ok_take, ints_fit_take, !has_col_frame_take by assumption.
  rewrite H1, H2. cbn [andb]. unfold frame_take. cbn [columns].
  rewrite forallb_forall in *. intros nc Hnc. apply in_map_iff in Hnc.
  destruct Hnc as [[n c] [<- Hin]]. cbn [fst snd]. rewrite numeric_col_take.
  apply (H0 _ Hin).
Qed.

Lemma main_extra_cols_names (df : DataFrame) (age_col : option string) (e : string) :
  age_col = choose_age_col df ->
  In e (extras_list (main_extra_cols df age_col)) ->
  e = "age" \/ e = "age_x" \/ e = "age_y" \/ e = "country".
Proof.
  intros ->. unfold main_extra_cols, choose_age_col.
  destruct (has_col "age" df); [|destruct (has_col "age_x" df);
    [|destruct (has_col "age_y" df)]];
    destruct (has_col "country" df); simpl; intuition (subst; auto).
Qed.

(** The metrics of the page are neither identifiers nor the rank label. *)
Definition metric_name_ok (m : string) : bool :=
  negb (mem m identifiers) && negb (String.eqb "Rk" m).

Lemma metric_names_ok (mp : string * bool) :
  In mp (flat_map snd metric_groups) -> metric_name_ok (fst mp) = true.
Proof.
  assert (H : forallb (fun mp : string * bool => metric_name_ok (fst mp))
                      (flat_map snd metric_groups) = true) by reflexivity.
  rewrite forallb_forall in H. apply H.
Qed.

Section Page.

Context {S : ArgSort}.

Lemma build_top_table_total (df : DataFrame) (metric : string) (per_90 : bool)
    (min_minutes : Z) (ascending : bool) (extra_cols : option (list string)) :
  leaderboard_input_ok df metric extra_cols = true ->
  exists display,
    build_top_table df metric per_90 min_minutes ascending extra_cols = ret display
    /\ (nrows display <= 10)%nat
    /\ frame_ok display = true.
Proof.
  intros Hin.
  destruct (keyed_rows_total df metric per_90 min_minutes extra_cols Hin)
    as [q [keyed [mc [c [Hq [Hk [Hc [Hrows [Hok [Hfit [Hhas Hmc]]]]]]]]]]].
  unfold leaderboard_input_ok in Hin.
  repeat (apply andb_true_iff in Hin; destruct Hin as [Hin ?]).
  rename H into HRk, H0 into Hextras, H3 into Hteam, H4 into Hplayer.
  set (work := frame_take (firstn 10 (col_argsort c ascending)) keyed).
  assert (Hrank : rank_rows df metric per_90 min_minutes ascending = ret (work, mc)).
  { unfold rank_rows. rewrite Hk, bind_ret_l. cbn [fst snd]. unfold sort_values.
    apply getcol_lookup in Hc. rewrite Hc, !bind_ret_l.
    rewrite head_frame_take, head_count_10, firstn_min. reflexivity. }
  destruct (display_table_total work metric mc extra_cols) as [display Hd].
  - intros n Hn. unfold work. rewrite has_col_frame_take.
    unfold display_cols in Hn.
    destruct Hn as [<-|[<-|[<-|Hn]]]; auto.
    + apply has_col_lookup. eauto.
    + apply Hhas. rewrite forallb_forall in Hextras. apply Hextras. exact Hn.
  - apply (mem_display_cols_Rk metric mc extra_cols Hmc).
    apply negb_true_iff. exact HRk.
  - apply ints_fit_take. exact Hfit.
  - exists display.
    pose proof (display_table_inv _ _ _ _ _ Hd) as [Hix [_ [_ [_ Hdok]]]].
    split; [unfold build_top_table; rewrite Hrank; exact Hd|].
    split; [|apply Hdok; apply frame_ok_take].
    unfold nrows. rewrite Hix. fold (nrows work). unfold work.
    rewrite nrows_frame_take, length_firstn. lia.
Qed.

(** A metric of the page on a loaded table: [build_top_table] accepts
    the call [main] makes. *)
Lemma card_input_ok (df : DataFrame) (age_col : option string) (mp : string * bool) :
  loaded_ok df = true ->
  age_col = choose_age_col df ->
  In mp (flat_map snd metric_groups) ->
  has_col (fst mp) df = true ->
  leaderboard_input_ok df (fst mp) (main_extra_cols df age_col) = true.
Proof.
  intros Hl Hage Hmp Hhas.
  pose proof (metric_names_ok mp Hmp) as Hname. unfold metric_name_ok in Hname.
  apply andb_true_iff in Hname. destruct Hname as [Hid HRk].
  apply negb_true_iff in Hid. apply negb_true_iff in HRk.
  pose proof (loaded_ok_numeric df (fst mp) Hl Hid Hhas) as Hnum.
  pose proof Hl as Hl'. unfold loaded_ok in Hl'.
  repeat (apply andb_true_iff in Hl'; destruct Hl' as [Hl' ?]).
  unfold leaderboard_input_ok. rewrite Hl', H2, H1, H0, Hnum. cbn [andb].
  assert (Hmin : implb (has_col "minutesPlayed" df) (numeric_at "minutesPlayed" df) = true).
  { destruct (has_col "minutesPlayed" df) eqn:Hm; [|reflexivity].
    cbn [implb]. apply (loaded_ok_numeric df "minutesPlayed" Hl); [reflexivity|exact Hm]. }
  rewrite Hmin. cbn [andb].
  assert (Hex : forallb (fun e => has_col e df) (extras_list (main_extra_cols df age_col))
                = true).
  { apply forallb_forall. intros e He. subst age_col.
    apply main_extra_cols_present. exact He. }
  rewrite Hex. cbn [andb]. apply negb_true_iff.
  unfold display_cols, mem. cbn [app existsb]. rewrite HRk. cbn [orb].
  destruct (existsb (String.eqb "Rk") (extras_list (main_extra_cols df age_col))) eqn:E;
    [|destruct (main_extra_cols df age_col); exact E].
  exfalso. apply existsb_exists in E. destruct E as [e [He Heq]].
  apply String.eqb_eq in Heq. subst e.
  apply (main_extra_cols_names df age_col "Rk" Hage) in He.
  destruct He as [He|[He|[He|He]]]; discriminate.
Qed.

Lemma card_total (df : DataFrame) (age_col : option string) (ctl : Controls)
    (mp : string * bool) :
  loaded_ok df = true ->
  age_col = choose_age_col df ->
  In mp (flat_map snd metric_groups) ->
  exists o,
    card df age_col ctl mp = ret o
    /\ (if has_col (fst mp) df
        then exists t, o = Some (fst mp, t) /\ (nrows t <= 10)%nat /\ frame_ok t = true
        else o = None).
Proof.
  intros Hl Hage Hmp. unfold card.
  destruct (has_col (fst mp) df) eqn:Hhas; cbn [negb].
  - destruct (build_top_table_total df (fst mp) (per_90_ctl ctl && negb (snd mp))
                (min_minutes_ctl ctl) false (main_extra_cols df age_col)
                (card_input_ok df age_col mp Hl Hage Hmp Hhas)) as [t [Ht [Hn Hok]]].
    rewrite Ht, bind_ret_l. eexists. split; [reflexivity|]. exists t. auto.
  - eexists. split; [reflexivity|reflexivity].
Qed.

(** The cards in page order: one for each metric the table has. *)
Lemma cards_total (df : DataFrame) (age_col : option string) (ctl : Controls)
    (metrics : list (string * bool)) :
  loaded_ok df = true ->
  age_col = choose_age_col df ->
  incl metrics (flat_map snd metric_groups) ->
  exists cards,
    mapM (card df age_col ctl) metrics = ret cards
    /\ map fst (flat_map (fun o : option (string * DataFrame) =>
                            match o with Some t => [t] | None => [] end) cards)
       = filter (fun m => has_col m df) (map fst metrics)
    /\ forall m t, In (Some (m, t)) cards -> (nrows t <= 10)%nat /\ frame_ok t = true.
Proof.
  intros Hl Hage. induction metrics as [|mp metrics IH]; intros Hincl.
  - exists []. split; [reflexivity|]. split; [reflexivity|]. intros m t [].
  - destruct IH as [cards [Hcards [Hnames Hrows]]].
    { intros x Hx. apply Hincl. right. exact Hx. }
    destruct (card_total df age_col ctl mp Hl Hage (Hincl mp (or_introl eq_refl)))
      as [o [Ho Hshape]].
    exists (o :: cards). cbn [mapM]. rewrite Ho, bind_ret_l, Hcards, bind_ret_l.
    split; [reflexivity|]. cbn [flat_map map filter].
    destruct (has_col (fst mp) df).
    + destruct Hshape as [t [-> [Hn Hok]]]. split.
      * cbn [app map fst]. rewrite Hnames. reflexivity.
      * intros m t' [Heq|Hin]; [|apply (Hrows m t' Hin)].
        injection Heq as _ <-. auto.
    + subst o. split; [exact Hnames|].
      intros m t' [Heq|Hin]; [discriminate|apply (Hrows m t' Hin)].
Qed.

Lemma filter_age_range_loaded (df : DataFrame) (r : Z * Z) :
  loaded_ok df = true ->
  exists df', filter_age_range df (choose_age_col df) r = ret df'
              /\ loaded_ok df' = true.
Proof.
  intros Hl. destruct (choose_age_col df) as [a|] eqn:Ha.
  - destruct (choose_age_col_cases df a Ha) as [Hhas Hcases].
    assert (Hnum : numeric_at a df = true).
    { apply (loaded_ok_numeric df a Hl); [|exact Hhas].
      destruct Hcases as [->|[->| ->]]; reflexivity. }
    unfold numeric_at in Hnum. unfold filter_age_range, getcol.
    destruct (lookup a (columns df)) as [c|]; [|discriminate].
    rewrite bind_ret_l.
    destruct (ge_scalar_total c (fst r) Hnum) as [m1 ->].
    destruct (le_scalar_total c (snd r) Hnum) as [m2 ->].
    rewrite !bind_ret_l. eexists. split; [reflexivity|].
    unfold frame_filter. apply loaded_ok_take. exact Hl.
  - exists df. split; [reflexivity|exact Hl].
Qed.

Lemma filter_nationality_loaded (df : DataFrame) (choice : string) :
  loaded_ok df = true ->
  exists df', filter_nationality df choice = ret df' /\ loaded_ok df' = true.
Proof.
  intros Hl. unfold filter_nationality.
  destruct (has_col "country" df) eqn:Hc; [|exists df; auto].
  apply has_col_lookup in Hc. destruct Hc as [c Hc]. unfold getcol. rewrite Hc, bind_ret_l.
  destruct (String.eqb choice "Türk Oyuncular");
    [|destruct (String.eqb choice "Yabancı Oyuncular")];
    eexists; (split; [reflexivity|]); try exact Hl;
    unfold frame_filter; apply loaded_ok_take; exact Hl.
Qed.

Lemma choose_age_col_ext (df df' : DataFrame) :
  (forall n, has_col n df' = has_col n df) -> choose_age_col df' = choose_age_col df.
Proof. intros H. unfold choose_age_col. rewrite !H. reflexivity. Qed.

(** The page on an accepted table: every filter and every card goes
    through. *)
Lemma dashboard_tables_total (loaded : DataFrame) (ctl : Controls) :
  loaded_ok loaded = true ->
  exists tables,
    dashboard_tables loaded ctl = ret tables
    /\ map fst tables
       = filter (fun m => has_col m loaded) (map fst (flat_map snd metric_groups))
    /\ forall m t, In (m, t) tables -> (nrows t <= 10)%nat /\ frame_ok t = true.
Proof.
  intros Hl. unfold dashboard_tables.
  destruct (filter_age_range_loaded loaded (age_range_ctl ctl) Hl) as [df1 [H1 Hl1]].
  destruct (filter_nationality_loaded df1 (nationality_ctl ctl) Hl1) as [df [H2 Hl2]].
  rewrite H1, bind_ret_l, H2, bind_ret_l.
  assert (Hcols : forall n, has_col n df = has_col n loaded).
  { intros n. rewrite (filter_nationality_has_col _ _ _ n H2).
    apply (filter_age_range_has_col _ _ _ _ n H1). }
  destruct (cards_total df (choose_age_col loaded) ctl (flat_map snd metric_groups) Hl2)
    as [cards [Hcards [Hnames Hrows]]].
  { symmetry. apply choose_age_col_ext. exact Hcols. }
  { apply incl_refl. }
  rewrite Hcards, bind_ret_l. eexists. split; [reflexivity|]. split.
  - rewrite Hnames. apply filter_ext. exact Hcols.
  - intros m t Hin. apply in_flat_map in Hin. destruct Hin as [o [Ho Hin]].
    destruct o as [mt|]; [|contradiction]. destruct Hin as [->|[]].
    apply (Hrows m t Ho).
Qed.

End Page.

(** ** From the file to the page *)

Section FileToPage.

Context {S : ArgSort}.

Variable parse_number : string -> option parsed.

Hypothesis whole_numbers_fit :
  forall s z, parse_number s = Some (Whole z) -> fits_float z = true.

Lemma to_numeric_fits (c : column) :
  col_fits c = true -> col_fits (to_numeric parse_number c) = true.
Proof.
  destruct c as [xs|xs|xs]; simpl; try (intros H; exact H). intros _.
  destruct (forallb is_whole (map (parse_cell parse_number) xs)) eqn:Hw; [|reflexivity].
  simpl. rewrite forallb_forall in *. intros z Hz.
  apply in_map_iff in Hz. destruct Hz as [v [<- Hv]]. specialize (Hw v Hv).
  apply in_map_iff in Hv. destruct Hv as [o [<- _]].
  destruct o as [s|]; simpl in *; [|discriminate].
  destruct (parse_number s) as [[z|f]|] eqn:Hp; try discriminate.
  simpl. apply (whole_numbers_fit s z Hp).
Qed.

Lemma cleaned_loaded_ok (raw : DataFrame) :
  frame_ok raw = true -> ints_fit raw = true ->
  has_col "player" raw = true -> has_col "team" raw = true ->
  loaded_ok (cleaned parse_number raw) = true.
Proof.
  intros Hok Hfit Hp Ht. unfold loaded_ok.
  rewrite (cleaned_ok parse_number raw Hok).
  assert (Hh : forall n, has_col n (cleaned parse_number raw) = has_col n raw).
  { intros n. unfold has_col. rewrite cleaned_labels. reflexivity. }
  rewrite !Hh, Hp, Ht.
  assert (Hf : ints_fit (cleaned parse_number raw) = true).
  { unfold ints_fit, cleaned in *. cbn [columns]. rewrite forallb_forall in *.
    intros nc Hnc. apply in_map_iff in Hnc. destruct Hnc as [[n c] [<- Hin]].
    specialize (Hfit _ Hin). cbn [snd] in Hfit. unfold coerced. cbn [fst snd].
    destruct (mem n identifiers); cbn [snd]; [exact Hfit|apply to_numeric_fits, Hfit]. }
  rewrite Hf. cbn [andb]. unfold cleaned. cbn [columns]. apply forallb_forall.
  intros nc Hnc. apply in_map_iff in Hnc. destruct Hnc as [[n c] [<- Hin]].
  unfold coerced. cbn [fst snd]. destruct (mem n identifiers) eqn:Hn; cbn [fst snd].
  - rewrite Hn. reflexivity.
  - rewrite to_numeric_numeric. apply orb_true_r.
Qed.

Lemma loaded_ok_setcol_float (df : DataFrame) (name : string) (v : list spec_float) :
  loaded_ok df = true -> length v = nrows df ->
  loaded_ok (setcol df name (Float64 v)) = true.
Proof.
  unfold loaded_ok. intros H Hlen.
  repeat (apply andb_true_iff in H; destruct H as [H ?]).
  rewrite frame_ok_setcol, ints_fit_setcol_float, !has_col_setcol by assumption.
  cbn [andb]. unfold setcol. cbn [columns]. rewrite forallb_forall in *.
  intros nc Hnc. apply assign_In in Hnc. destruct Hnc as [Hnc| ->]; [auto|].
  cbn [fst snd numeric]. apply orb_true_r.
Qed.

(** X18.  The page never fails on a file: whatever the cells of the file hold
    and whatever the resolved values of the controls are, a file with
    the columns [player] and [team] is loaded and every card of the page
    is built; for each metric of the page that is a column of the file
    there is one table, in page order, of at most ten rows. *)
Theorem page_renders_every_card (read_csv : string -> result DataFrame) (path : string)
    (raw : DataFrame) (ctl : Controls) :
  read_csv path = ret raw ->
  NoDup (labels raw) ->
  frame_ok raw = true -> ints_fit raw = true ->
  has_col "player" raw = true -> has_col "team" raw = true ->
  exists loaded tables,
    load_data parse_number read_csv path = ret loaded
    /\ dashboard_tables loaded ctl = ret tables
    /\ map fst tables
       = filter (fun m => has_col m raw) (map fst (flat_map snd metric_groups))
    /\ forall m t, In (m, t) tables -> (nrows t <= 10)%nat /\ frame_ok t = true.
Proof.
  intros Hread Hnd Hok Hfit Hp Ht.
  pose proof (load_data_steps parse_number read_csv path raw Hread Hnd) as Hload.
  pose proof (cleaned_loaded_ok raw Hok Hfit Hp Ht) as Hc.
  set (loaded := match lookup "minutesPlayed" (columns raw) with
                 | Some m0 => _
                 | None => _
                 end) in Hload.
  assert (Hl : loaded_ok loaded = true).
  { unfold loaded. destruct (lookup "minutesPlayed" (columns raw)) as [m0|] eqn:Hm0;
      [|exact Hc].
    apply loaded_ok_setcol_float; [exact Hc|].
    rewrite length_map, length_cells, to_numeric_len.
    rewrite (frame_ok_lookup raw "minutesPlayed" m0 Hok Hm0). reflexivity. }
  assert (Hcols : forall mp, In mp (flat_map snd metric_groups) ->
            has_col (fst mp) loaded = has_col (fst mp) raw).
  { intros mp Hmp.
    assert (Hne : negb (String.eqb (fst mp) "90s") = true).
    { assert (H : forallb (fun mp : string * bool => negb (String.eqb (fst mp) "90s"))
                          (flat_map snd metric_groups) = true) by reflexivity.
      rewrite forallb_forall in H. apply H. exact Hmp. }
    apply negb_true_iff in Hne. unfold loaded.
    destruct (lookup "minutesPlayed" (columns raw)).
    - rewrite has_col_setcol_iff, Hne, orb_false_r.
      unfold has_col. rewrite cleaned_labels. reflexivity.
    - unfold has_col. rewrite cleaned_labels. reflexivity. }
  destruct (dashboard_tables_total loaded ctl Hl) as [tables [Htab [Hnames Hrows]]].
  exists loaded, tables. split; [exact Hload|]. split; [exact Htab|].
  split; [|exact Hrows].
  rewrite Hnames. apply filter_ext_in. intros m Hm. apply in_map_iff in Hm.
  destruct Hm as [mp [<- Hmp]]. apply Hcols. exact Hmp.
Qed.

End FileToPage.

(** ** The page of the sample file *)

Definition sample_controls : Controls := mkControls 300 (19, 38) "Tümü" true.

Lemma read_whole_fits (s : string) (z : Z) :
  read_whole s = Some (Whole z) -> fits_float z = true.
Proof.
  unfold read_whole. destruct (all_digits s && negb (String.eqb s "")); [|discriminate].
  destruct (Z_of_str s) as [z0|]; [|discriminate].
  destruct (fits_float z0) eqn:E; intros H; [|discriminate].
  injection H as <-. exact E.
Qed.

Lemma page_renders_every_card_witness :
  exists loaded tables,
    load_data read_whole disk "tackles_joined.csv" = ret loaded
    /\ dashboard_tables (S := stable_kind) loaded sample_controls = ret tables
    /\ map fst tables
       = filter (fun m => has_col m raw_squad) (map fst (flat_map snd metric_groups))
    /\ forall m t, In (m, t) tables -> (nrows t <= 10)%nat /\ frame_ok t = true.
Proof.
  apply (page_renders_every_card (S := stable_kind) read_whole read_whole_fits disk
           "tackles_joined.csv" raw_squad sample_controls).
  - reflexivity.
  - exact raw_squad_labels.
  - reflexivity.
  - reflexivity.
  - reflexivity.
  - reflexivity.
Defined.

Example sample_page :
  option_map (map (fun mt : string * DataFrame => (fst mt, columns (snd mt))))
    (match dashboard_tables (S := stable_kind) loaded_squad sample_controls with
     | inr tables => Some tables
     | inl _ => None
     end)
  = Some [("goals",
           [("Rk", Int64 [1; 2]);
            ("player", Object [Some "Dzeko"; Some "Icardi"]);
            ("team", Object [Some "FB"; Some "GS"]);
            ("Goals", Object [Some "0.60"; Some "0.50"]);
            ("Age", Object [Some "38"; Some "31"]);
            ("Country", Object [Some "Bosnia"; Some "Argentina"])])].
Proof. vm_compute. reflexivity. Qed.

(** * dashboard.py: the rows a card shows *)

Lemma rows_where_incl (P : pyval -> bool) (c : column) (r : list nat) :
  incl (rows_where P c r) r.
Proof. intros i Hi. unfold rows_where in Hi. apply filter_In in Hi. tauto. Qed.

Lemma rows_where_holds (P : pyval -> bool) (c : column) (r : list nat) (i : nat) :
  In i (rows_where P c r) -> P (cell c i) = true.
Proof. intros Hi. unfold rows_where in Hi. apply filter_In in Hi. tauto. Qed.

Lemma frame_filter_of_taken (P : pyval -> bool) (loaded : DataFrame) (name : string)
    (c : column) (r : list nat) :
  frame_ok loaded = true ->
  Forall (fun i => (i < nrows loaded)%nat) r ->
  lookup name (columns loaded) = Some c ->
  frame_filter (map P (cells (col_take r c))) (frame_take r loaded)
  = frame_take (rows_where P c r) loaded.
Proof.
  intros Hok Hr Hc. apply frame_filter_taken.
  rewrite (frame_ok_lookup loaded name c Hok Hc). exact Hr.
Qed.

Section ShownRows.

Context {S : ArgSort}.

(** Each filter of the page, applied to rows [r] of the loaded table,
    returns some of these rows, and the rows it returns satisfy its
    condition. *)
Lemma filter_age_range_taken (loaded : DataFrame) (r : list nat)
    (age_col : option string) (lo hi : Z) (d : DataFrame) :
  frame_ok loaded = true ->
  Forall (fun i => (i < nrows loaded)%nat) r ->
  filter_age_range (frame_take r loaded) age_col (lo, hi) = ret d ->
  exists r',
    d = frame_take r' loaded /\ incl r' r
    /\ forall i a ages,
         In i r' -> age_col = Some a -> lookup a (columns loaded) = Some ages ->
         cell_ge (cell ages i) lo = true /\ cell_le (cell ages i) hi = true.
Proof.
  intros Hok Hr H. unfold filter_age_range in H. destruct age_col as [a|].
  - bind_inv H as c Hc. bind_inv H as m1 H1. bind_inv H as m2 H2. inv_ret H. subst d.
    apply getcol_lookup in Hc. rewrite lookup_frame_take in Hc.
    destruct (lookup a (columns loaded)) as [ages|] eqn:Ha; [|discriminate].
    cbn [option_map] in Hc. injection Hc as <-. cbn [fst snd] in *.
    apply ge_scalar_cells in H1. apply le_scalar_cells in H2. subst m1 m2.
    rewrite mask_and_map.
    rewrite (frame_filter_of_taken (fun v => cell_ge v lo && cell_le v hi)
               loaded a ages r Hok Hr Ha).
    eexists. split; [reflexivity|]. split; [apply rows_where_incl|].
    intros i a' ages' Hi Heq Hages. injection Heq as <-. rewrite Ha in Hages.
    injection Hages as <-. apply rows_where_holds in Hi.
    apply andb_true_iff in Hi. exact Hi.
  - inv_ret H. subst d. exists r. split; [reflexivity|]. split; [apply incl_refl|].
    intros i a ages _ Heq. discriminate.
Qed.

Lemma filter_nationality_taken (loaded : DataFrame) (r : list nat) (choice : string)
    (d : DataFrame) :
  frame_ok loaded = true ->
  Forall (fun i => (i < nrows loaded)%nat) r ->
  filter_nationality (frame_take r loaded) choice = ret d ->
  exists r',
    d = frame_take r' loaded /\ incl r' r
    /\ forall i country,
         In i r' -> lookup "country" (columns loaded) = Some country ->
         (choice = "Türk Oyuncular" -> cell country i = PyStr turkiye)
         /\ (choice = "Yabancı Oyuncular" ->
             isna (cell country i) = false /\ cell country i <> PyStr turkiye).
Proof.
  intros Hok Hr H. unfold filter_nationality in H.
  rewrite has_col_frame_take in H.
  destruct (has_col "country" loaded) eqn:Hh.
  - bind_inv H as c Hc. apply getcol_lookup in Hc. rewrite lookup_frame_take in Hc.
    destruct (lookup "country" (columns loaded)) as [country|] eqn:Hco; [|discriminate].
    cbn [option_map] in Hc. injection Hc as <-.
    destruct (String.eqb_spec choice "Türk Oyuncular") as [->|Hn1].
    + inv_ret H. subst d. rewrite eq_text_cells.
      rewrite (frame_filter_of_taken (fun v => is_text v turkiye)
                 loaded "country" country r Hok Hr Hco).
      eexists. split; [reflexivity|]. split; [apply rows_where_incl|].
      intros i country' Hi Heq. injection Heq as <-. apply rows_where_holds in Hi.
      split; [intros _; apply is_text_spec; exact Hi|discriminate].
    + destruct (String.eqb_spec choice "Yabancı Oyuncular") as [->|Hn2].
      * inv_ret H. subst d. rewrite eq_text_cells. unfold mask_not, col_isna.
        rewrite !map_map, mask_and_map.
        rewrite (frame_filter_of_taken
                   (fun v => negb (is_text v turkiye) && negb (isna v))
                   loaded "country" country r Hok Hr Hco).
        eexists. split; [reflexivity|]. split; [apply rows_where_incl|].
        intros i country' Hi Heq. injection Heq as <-. apply rows_where_holds in Hi.
        apply andb_true_iff in Hi. destruct Hi as [H1 H2].
        apply negb_true_iff in H1. apply negb_true_iff in H2.
        split; [discriminate|]. intros _. split; [exact H2|].
        intros Heq. apply is_text_spec in Heq. congruence.
      * inv_ret H. subst d. exists r. split; [reflexivity|]. split; [apply incl_refl|].
        intros i country' _ _. split; intros; contradiction.
  - inv_ret H. subst d. exists r. split; [reflexivity|]. split; [apply incl_refl|].
    intros i country' _ Hc. apply has_col_false_lookup in Hh. congruence.
Qed.

Lemma filter_minutes_taken (loaded : DataFrame) (r : list nat) (min_minutes : Z)
    (q : DataFrame) :
  frame_ok loaded = true ->
  Forall (fun i => (i < nrows loaded)%nat) r ->
  filter_minutes (frame_take r loaded) min_minutes = ret q ->
  exists r',
    q = frame_take r' loaded /\ incl r' r
    /\ forall i minutes,
         In i r' -> 0 < min_minutes ->
         lookup "minutesPlayed" (columns loaded) = Some minutes ->
         cell_ge (cell minutes i) min_minutes = true.
Proof.
  intros Hok Hr H. apply filter_minutes_inv in H.
  destruct H as [[-> Hno]|[Hh [Hpos [c [Hc [_ ->]]]]]].
  - exists r. split; [reflexivity|]. split; [apply incl_refl|].
    intros i minutes _ Hpos Hm. exfalso.
    rewrite has_col_frame_take in Hno.
    assert (Hh : has_col "minutesPlayed" loaded = true) by (apply has_col_lookup; eauto).
    rewrite Hh in Hno. destruct (Z.ltb_spec 0 min_minutes); [discriminate|lia].
  - rewrite lookup_frame_take in Hc.
    destruct (lookup "minutesPlayed" (columns loaded)) as [minutes|] eqn:Hm; [|discriminate].
    cbn [option_map] in Hc. injection Hc as <-.
    rewrite (frame_filter_of_taken (fun v => cell_ge v min_minutes)
               loaded "minutesPlayed" minutes r Hok Hr Hm).
    eexists. split; [reflexivity|]. split; [apply rows_where_incl|].
    intros i minutes' Hi _ Heq. injection Heq as <-.
    apply (rows_where_holds _ _ _ _ Hi).
Qed.

Lemma incl_bound (n : nat) (r r' : list nat) :
  incl r' r -> Forall (fun i => (i < n)%nat) r -> Forall (fun i => (i < n)%nat) r'.
Proof.
  intros Hi Hr. rewrite Forall_forall in *. intros x Hx. apply Hr, Hi, Hx.
Qed.

(** X17.  Every row a card shows is a row of the loaded table that passes the
    three filters: its age lies in the selected range, its country
    agrees with the nationality selected, and its minutes reach the
    minimum (where the table has the column in question and the filter
    is active). *)
Theorem shown_rows_pass_the_filters (loaded : DataFrame) (ctl : Controls)
    (tables : list (string * DataFrame)) (m : string) (t : DataFrame) (l : nat) :
  frame_ok loaded = true ->
  dashboard_tables loaded ctl = ret tables ->
  In (m, t) tables ->
  In l (index t) ->
  exists i,
    (i < nrows loaded)%nat /\ l = nth i (index loaded) 0%nat
    /\ (forall a ages,
          choose_age_col loaded = Some a -> lookup a (columns loaded) = Some ages ->
          cell_ge (cell ages i) (fst (age_range_ctl ctl)) = true
          /\ cell_le (cell ages i) (snd (age_range_ctl ctl)) = true)
    /\ (forall country,
          lookup "country" (columns loaded) = Some country ->
          (nationality_ctl ctl = "Türk Oyuncular" -> cell country i = PyStr turkiye)
          /\ (nationality_ctl ctl = "Yabancı Oyuncular" ->
              isna (cell country i) = false /\ cell country i <> PyStr turkiye))
    /\ (forall minutes,
          0 < min_minutes_ctl ctl ->
          lookup "minutesPlayed" (columns loaded) = Some minutes ->
          cell_ge (cell minutes i) (min_minutes_ctl ctl) = true).
Proof.
  intros Hok Htab Hin Hl.
  destruct (dashboard_tables_inv loaded ctl tables m t Htab Hin)
    as [df1 [df [pct [H1 [H2 [_ Hb]]]]]].
  pose proof (seq_bound (nrows loaded)) as Hr0.
  rewrite <- (frame_take_all loaded Hok) in H1 at 1.
  destruct (age_range_ctl ctl) as [lo hi] eqn:Hrange.
  destruct (filter_age_range_taken loaded _ _ lo hi df1 Hok Hr0 H1)
    as [r1 [-> [Hi1 Hage]]].
  pose proof (incl_bound _ _ _ Hi1 Hr0) as Hr1.
  destruct (filter_nationality_taken loaded r1 _ df Hok Hr1 H2) as [r2 [-> [Hi2 Hnat]]].
  pose proof (incl_bound _ _ _ Hi2 Hr1) as Hr2.
  apply build_top_table_inv in Hb. destruct Hb as [work [mc [Hrank Hd]]].
  pose proof (display_table_inv _ _ _ _ _ Hd) as [Hix _]. rewrite Hix in Hl.
  destruct (rank_rows_index _ _ _ _ _ _ _ l (frame_ok_take r2 loaded) Hrank Hl)
    as [q [Hq Hlq]].
  destruct (filter_minutes_taken loaded r2 _ q Hok Hr2 Hq) as [r3 [-> [Hi3 Hmin]]].
  unfold frame_take, take in Hlq. cbn [index] in Hlq. apply in_map_iff in Hlq.
  destruct Hlq as [i [Hli Hi]]. exists i.
  pose proof (incl_bound _ _ _ Hi3 Hr2) as Hr3. rewrite Forall_forall in Hr3.
  split; [apply Hr3; exact Hi|]. split; [symmetry; exact Hli|].
  cbn [fst snd]. split; [|split].
  - intros a ages Ha Hages. apply (Hage i a ages); auto.
  - intros country Hc. apply (Hnat i country); auto.
  - intros minutes Hpos Hm. apply (Hmin i minutes); auto.
Qed.

End ShownRows.

(** ** The cards of the sample table *)

Definition foreign_controls : Controls := mkControls 300 (25, 35) "Yabancı Oyuncular" false.

Definition squad_page : list (string * DataFrame) :=
  Eval vm_compute in
    match dashboard_tables (S := stable_kind) squad foreign_controls with
    | inr tables => tables
    | inl _ => []
    end.

Definition squad_goals_card : DataFrame :=
  Eval vm_compute in snd (hd ("", mkFrame [] []) squad_page).

Example squad_goals_card_rows :
  index squad_goals_card = [8; 4; 10; 0; 2; 6]%nat.
Proof. reflexivity. Qed.

Lemma shown_rows_pass_the_filters_witness :
  exists i,
    (i < nrows squad)%nat /\ 4%nat = nth i (index squad) 0%nat
    /\ (forall a ages,
          choose_age_col squad = Some a -> lookup a (columns squad) = Some ages ->
          cell_ge (cell ages i) (fst (age_range_ctl foreign_controls)) = true
          /\ cell_le (cell ages i) (snd (age_range_ctl foreign_controls)) = true)
    /\ (forall country,
          lookup "country" (columns squad) = Some country ->
          (nationality_ctl foreign_controls = "Türk Oyuncular" ->
           cell country i = PyStr turkiye)
          /\ (nationality_ctl foreign_controls = "Yabancı Oyuncular" ->
              isna (cell country i) = false /\ cell country i <> PyStr turkiye))
    /\ (forall minutes,
          0 < min_minutes_ctl foreign_controls ->
          lookup "minutesPlayed" (columns squad) = Some minutes ->
          cell_ge (cell minutes i) (min_minutes_ctl foreign_controls) = true).
Proof.
  apply (shown_rows_pass_the_filters (S := stable_kind) squad foreign_controls squad_page
           "goals" squad_goals_card 4).
  - reflexivity.
  - vm_compute. reflexivity.
  - left. reflexivity.
  - right. left. reflexivity.
Defined.

(** * dashboard.py: what [build_top_table] needs and what it shows *)

Lemma title_not_lower (s : string) (c : ascii) (rest : string) :
  is_lower c = true -> title s <> String c rest.
Proof.
  intros Hc. unfold title. destruct s as [|a s]; [discriminate|].
  cbn [title_from]. destruct (is_lower a || is_upper a) eqn:Hcased.
  - intros H. injection H as Ha _. unfold to_upper in Ha.
    destruct (is_lower a) eqn:Hl.
    + subst c. unfold is_lower in Hl, Hc.
      rewrite nat_ascii_embedding in Hc
        by (apply andb_true_iff in Hl; destruct Hl as [H1 H2];
            apply Nat.leb_le in H1, H2; lia).
      apply andb_true_iff in Hl. destruct Hl as [H1 H2].
      apply andb_true_iff in Hc. destruct Hc as [H3 H4].
      apply Nat.leb_le in H1, H2, H3, H4. lia.
    + subst c. congruence.
  - intros H. injection H as Ha _. subst c.
    apply orb_false_iff in Hcased. destruct Hcased. congruence.
Qed.

Lemma relabel_title (old new metric : string) (c : ascii) (rest : string) :
  old = String c rest -> is_lower c = true ->
  relabel old new (title (replace_char "_" " " metric))
  = title (replace_char "_" " " metric).
Proof.
  intros -> Hc. unfold relabel.
  destruct (String.eqb_spec (title (replace_char "_" " " metric)) (String c rest)) as [H|];
    [|reflexivity].
  exfalso. apply (title_not_lower _ c rest Hc H).
Qed.

(** The title of a metric starts with no lower-case letter, so it is
    none of the labels [age], [age_x], [age_y], [country] that lines
    69-76 rename. *)
Lemma display_label_ranking (metric mc : string) :
  display_label metric mc mc = title (replace_char "_" " " metric).
Proof.
  unfold display_label. unfold relabel at 5. rewrite String.eqb_refl.
  rewrite (relabel_title "age" "Age" metric "a" "ge") by reflexivity.
  rewrite (relabel_title "age_x" "Age" metric "a" "ge_x") by reflexivity.
  rewrite (relabel_title "age_y" "Age" metric "a" "ge_y") by reflexivity.
  apply (relabel_title "country" "Country" metric "c" "ountry"); reflexivity.
Qed.

Section TableContents.

Context {S : ArgSort}.

(** X21.  [build_top_table] needs the metric column: for a table without it
    the call fails with [KeyError] for the metric, once the minutes
    filter has gone through; [main] does not make such a call. *)
Theorem missing_metric_raises (df q : DataFrame) (metric : string) (per_90 : bool)
    (min_minutes : Z) (ascending : bool) (extra_cols : option (list string)) :
  has_col metric df = false ->
  filter_minutes df min_minutes = ret q ->
  build_top_table df metric per_90 min_minutes ascending extra_cols
  = raise (KeyError metric)
  /\ forall (ctl : Controls) (is_percentage : bool),
       card df (choose_age_col df) ctl (metric, is_percentage) = ret None.
Proof.
  intros Hm Hq. split.
  - assert (Hqm : lookup metric (columns q) = None).
    { apply has_col_false_lookup. rewrite (filter_minutes_has_col df q _ metric Hq).
      exact Hm. }
    unfold build_top_table, rank_rows, keyed_rows. rewrite Hq, bind_ret_l.
    unfold add_per90. destruct (per_90 && has_col "minutesPlayed" q).
    + unfold per90_values, getcol. rewrite Hqm. reflexivity.
    + rewrite bind_ret_l. cbn [fst snd]. unfold sort_values, getcol. rewrite Hqm.
      reflexivity.
  - intros ctl pct. unfold card. cbn [fst]. rewrite Hm. reflexivity.
Qed.

(** X20.  The fourth column of the table is the ranking column: it is labelled
    with the title of the metric, per 90 minutes or not, and its cells
    are the ranking values of the ranked rows, each passed through
    [format_number], in rank order.  Stated for a metric name in ASCII,
    where [title] is Python's [str.title()]. *)
Theorem ranking_column_is_formatted (df : DataFrame) (metric : string) (per_90 : bool)
    (min_minutes : Z) (ascending : bool) (extra_cols : option (list string))
    (display : DataFrame) :
  isascii metric = true ->
  mem (title (replace_char "_" " " metric)) unformatted = false ->
  build_top_table df metric per_90 min_minutes ascending extra_cols = ret display ->
  exists work mc values shown,
    rank_rows df metric per_90 min_minutes ascending = ret (work, mc)
    /\ lookup mc (columns work) = Some values
    /\ mapM format_number (cells values) = ret shown
    /\ nth_error (columns display) 3
       = Some (title (replace_char "_" " " metric), Object (map Some shown)).
Proof.
  intros _ Hfmt H. apply build_top_table_inv in H. destruct H as [work [mc [Hr Hd]]].
  destruct (display_table_columns _ _ _ _ _ Hd) as [rk [cs [Hcols Hall]]].
  unfold display_cols in Hall. cbn [app] in Hall.
  inversion Hall as [|n1 c1 l1 l1' _ Hall1]; subst.
  inversion Hall1 as [|n2 c2 l2 l2' _ Hall2]; subst.
  inversion Hall2 as [|n3 c3 l3 l3' [Hlabel [values [Hv Hshown]]] _]; subst.
  rewrite display_label_ranking in Hlabel, Hshown. rewrite Hfmt in Hshown.
  unfold format_column in Hshown. bind_inv Hshown as shown Hs. inv_ret Hshown.
  exists work, mc, values, shown. split; [exact Hr|]. split; [exact Hv|].
  split; [exact Hs|]. rewrite Hcols. cbn [nth_error].
  destruct c3 as [n c]. cbn [fst snd] in *. subst. reflexivity.
Qed.

End TableContents.

Lemma missing_metric_raises_witness :
  build_top_table (S := stable_kind) squad "assists" true 300 false squad_extras
  = raise (KeyError "assists")
  /\ forall (ctl : Controls) (is_percentage : bool),
       card (S := stable_kind) squad (choose_age_col squad) ctl ("assists", is_percentage)
       = ret None.
Proof.
  apply (missing_metric_raises (S := stable_kind) squad
           (frame_of (filter_minutes squad 300)) "assists" true 300 false squad_extras).
  - reflexivity.
  - vm_compute. reflexivity.
Defined.

Lemma ranking_column_is_formatted_witness :
  exists work mc values shown,
    rank_rows (S := stable_kind) squad "goals" true 90 false = ret (work, mc)
    /\ lookup mc (columns work) = Some values
    /\ mapM format_number (cells values) = ret shown
    /\ nth_error (columns squad_goals_per90) 3
       = Some (title (replace_char "_" " " "goals"), Object (map Some shown)).
Proof.
  apply (ranking_column_is_formatted (S := stable_kind) squad "goals" true 90 false
           squad_extras squad_goals_per90).
  - reflexivity.
  - reflexivity.
  - vm_compute. reflexivity.
Defined.

(** * dashboard.py: the defaults of the sidebar (lines 221-257) *)

(** [Series.min()] and [Series.max()] on the cells that are not missing:
    a scan that keeps the least, or the greatest, cell met so far. *)
Definition least {A : Type} (less : A -> A -> bool) (v : A) (vs : list A) : A :=
  fold_left (fun m x => if less x m then x else m) vs v.

Definition greatest {A : Type} (less : A -> A -> bool) (v : A) (vs : list A) : A :=
  fold_left (fun m x => if less m x then x else m) vs v.

Definition series_min (c : column) : pyval :=
  match filter present (cells c) with
  | [] => PyFloat F64.nan
  | v :: vs => least cell_less v vs
  end.

Definition series_max (c : column) : pyval :=
  match filter present (cells c) with
  | [] => PyFloat F64.nan
  | v :: vs => greatest cell_less v vs
  end.

(** [int(x)] of a float: [ValueError] for NaN, [OverflowError] for an
    infinity. *)
Definition int_of_float (f : spec_float) : result Z :=
  match F64.trunc f with
  | Some z => ret z
  | None => if F64.isnan f then raise ValueError else raise OverflowError
  end.

(** The truth value of a scalar, negated: what [x or 0] replaces. *)
Definition falsy (v : pyval) : bool :=
  match v with
  | PyNone => true
  | PyInt z => z =? 0
  | PyFloat f => F64.is_zero f
  | PyStr s => String.eqb s ""
  end.

Definition age_defaults : Z * Z := (16, 45).

Section Sidebar.

(** [int(s)] of a text. *)
Variable int_of_text : string -> result Z.

Definition int_of_cell (v : pyval) : result Z :=
  match v with
  | PyInt z => ret z
  | PyFloat f => int_of_float f
  | PyStr s => int_of_text s
  | PyNone => raise TypeError
  end.

(** Line 224: the upper end of the minutes slider,
    [int(df.get("minutesPlayed", pd.Series([0])).max() or 0)]. *)
Definition minutes_slider_max (df : DataFrame) : result Z :=
  let m := match lookup "minutesPlayed" (columns df) with
           | Some c => series_max c
           | None => PyInt 0
           end in
  if falsy m then ret 0 else int_of_cell m.

(** Lines 237-249: the ends of the age slider. *)
Definition age_slider_range (df : DataFrame) (age_col : option string)
  : result (Z * Z) :=
  r <- match age_col with
       | Some a =>
           c <- getcol df a ;;
           match filter present (cells c) with
           | [] => ret age_defaults
           | v :: vs =>
               age_min <- int_of_cell (least cell_less v vs) ;;
               age_max <- int_of_cell (greatest cell_less v vs) ;;
               ret (age_min, age_max)
           end
       | None => ret age_defaults
       end ;;
  ret (if snd r <=? fst r then age_defaults else r).

End Sidebar.

(** ** The scans *)

Section Scans.

Context {A : Type}.
Variable less : A -> A -> bool.
Variable ok : A -> Prop.

Hypothesis less_asym : forall x y, ok x -> ok y -> less x y = true -> less y x = false.
Hypothesis less_trans :
  forall x y z, ok x -> ok y -> ok z ->
    less y x = false -> less z y = false -> less z x = false.

Lemma least_spec (v : A) (vs : list A) :
  ok v -> Forall ok vs ->
  In (least less v vs) (v :: vs)
  /\ forall x, In x (v :: vs) -> less x (least less v vs) = false.
Proof.
  intros Hv Hvs. unfold least.
  assert (H : forall (seen : list A) (m : A),
             ok m -> Forall ok seen -> In m seen ->
             (forall x, In x seen -> less x m = false) ->
             In (fold_left (fun m x => if less x m then x else m) vs m) (seen ++ vs)
             /\ forall x, In x (seen ++ vs) ->
                  less x (fold_left (fun m x => if less x m then x else m) vs m) = false).
  { induction Hvs as [|y vs Hy Hvs IH]; intros seen m Hm Hseen Hin Hmin.
    - rewrite app_nil_r. auto.
    - cbn [fold_left].
      replace (seen ++ y :: vs)%list with ((seen ++ [y]) ++ vs)%list
        by (rewrite <- app_assoc; reflexivity).
      assert (Hseen' : Forall ok (seen ++ [y]))
        by (apply Forall_app; split; [exact Hseen|constructor; [exact Hy|constructor]]).
      destruct (less y m) eqn:Hlt.
      + apply IH; [exact Hy|exact Hseen'|apply in_or_app; right; left; reflexivity|].
        intros x Hx. apply in_app_or in Hx. destruct Hx as [Hx|[<-|[]]].
        * rewrite Forall_forall in Hseen.
          apply (less_trans y m x Hy Hm (Hseen x Hx)).
          -- apply less_asym; assumption.
          -- apply Hmin. exact Hx.
        * destruct (less y y) eqn:E; [|reflexivity].
          rewrite (less_asym y y Hy Hy E) in E. discriminate.
      + apply IH; [exact Hm|exact Hseen'|apply in_or_app; left; exact Hin|].
        intros x Hx. apply in_app_or in Hx. destruct Hx as [Hx|[<-|[]]];
          [apply Hmin; exact Hx|exact Hlt]. }
  apply (H [v] v Hv); [constructor; [exact Hv|constructor]|left; reflexivity|].
  intros x [<-|[]]. destruct (less v v) eqn:E; [|reflexivity].
  rewrite (less_asym v v Hv Hv E) in E. discriminate.
Qed.

Lemma greatest_spec (v : A) (vs : list A) :
  ok v -> Forall ok vs ->
  In (greatest less v vs) (v :: vs)
  /\ forall x, In x (v :: vs) -> less (greatest less v vs) x = false.
Proof.
  intros Hv Hvs. unfold greatest.
  assert (H : forall (seen : list A) (m : A),
             ok m -> Forall ok seen -> In m seen ->
             (forall x, In x seen -> less m x = false) ->
             In (fold_left (fun m x => if less m x then x else m) vs m) (seen ++ vs)
             /\ forall x, In x (seen ++ vs) ->
                  less (fold_left (fun m x => if less m x then x else m) vs m) x = false).
  { induction Hvs as [|y vs Hy Hvs IH]; intros seen m Hm Hseen Hin Hmax.
    - rewrite app_nil_r. auto.
    - cbn [fold_left].
      replace (seen ++ y :: vs)%list with ((seen ++ [y]) ++ vs)%list
        by (rewrite <- app_assoc; reflexivity).
      assert (Hseen' : Forall ok (seen ++ [y]))
        by (apply Forall_app; split; [exact Hseen|constructor; [exact Hy|constructor]]).
      destruct (less m y) eqn:Hlt.
      + apply IH; [exact Hy|exact Hseen'|apply in_or_app; right; left; reflexivity|].
        intros x Hx. apply in_app_or in Hx. destruct Hx as [Hx|[<-|[]]].
        * rewrite Forall_forall in Hseen.
          apply (less_trans x m y (Hseen x Hx) Hm Hy).
          -- apply Hmax. exact Hx.
          -- apply less_asym; assumption.
        * destruct (less y y) eqn:E; [|reflexivity].
          rewrite (less_asym y y Hy Hy E) in E. discriminate.
      + apply IH; [exact Hm|exact Hseen'|apply in_or_app; left; exact Hin|].
        intros x Hx. apply in_app_or in Hx. destruct Hx as [Hx|[<-|[]]];
          [apply Hmax; exact Hx|exact Hlt]. }
  apply (H [v] v Hv); [constructor; [exact Hv|constructor]|left; reflexivity|].
  intros x [<-|[]]. destruct (less v v) eqn:E; [|reflexivity].
  rewrite (less_asym v v Hv Hv E) in E. discriminate.
Qed.

End Scans.

(** On the cells of a numeric column numpy's order is a strict weak
    order. *)
Lemma cell_less_asym (c : column) (x y : pyval) :
  numeric c = true -> In x (cells c) -> In y (cells c) ->
  cell_less x y = true -> cell_less y x = false.
Proof.
  intros Hnum Hx Hy. destruct c as [xs|xs|xs]; try discriminate; simpl in Hx, Hy;
    apply in_map_iff in Hx; apply in_map_iff in Hy;
    destruct Hx as [a [<- _]], Hy as [b [<- _]]; simpl.
  - destruct npy_less_strict_weak as [_ [H _]]. apply H.
  - destruct Zltb_strict_weak as [_ [H _]]. apply H.
Qed.

Lemma cell_less_trans (c : column) (x y z : pyval) :
  numeric c = true -> In x (cells c) -> In y (cells c) -> In z (cells c) ->
  cell_less y x = false -> cell_less z y = false -> cell_less z x = false.
Proof.
  intros Hnum Hx Hy Hz. destruct c as [xs|xs|xs]; try discriminate; simpl in Hx, Hy, Hz;
    apply in_map_iff in Hx; apply in_map_iff in Hy; apply in_map_iff in Hz;
    destruct Hx as [a [<- _]], Hy as [b [<- _]], Hz as [d [<- _]]; simpl.
  - destruct npy_less_strict_weak as [_ [_ H]]. apply H.
  - destruct Zltb_strict_weak as [_ [_ H]]. apply H.
Qed.

Lemma present_cells (c : column) (v : pyval) :
  In v (filter present (cells c)) <-> In v (cells c) /\ isna v = false.
Proof. rewrite filter_In. unfold present. rewrite negb_true_iff. reflexivity. Qed.

Section SidebarTheorems.

Variable int_of_text : string -> result Z.

(** X22.  The ends of the age slider are always in order, as the slider
    requires.  They are the defaults 16 and 45, or the least and the
    greatest age present in the age column, cut to whole numbers. *)
Theorem age_slider_range_valid (df : DataFrame) (age_col : option string)
    (age_min age_max : Z) :
  age_slider_range int_of_text df age_col = ret (age_min, age_max) ->
  age_min < age_max
  /\ ((age_min, age_max) = (16, 45)
      \/ exists a c youngest oldest,
           age_col = Some a /\ lookup a (columns df) = Some c
           /\ In youngest (cells c) /\ isna youngest = false
           /\ In oldest (cells c) /\ isna oldest = false
           /\ int_of_cell int_of_text youngest = ret age_min
           /\ int_of_cell int_of_text oldest = ret age_max
           /\ (numeric c = true ->
               forall v, In v (cells c) -> isna v = false ->
                 cell_less v youngest = false /\ cell_less oldest v = false)).
Proof.
  unfold age_slider_range. intros H. bind_inv H as r Hr. unfold ret in H.
  injection H as H.
  destruct (Z.leb_spec (snd r) (fst r)) as [Hle|Hlt].
  { injection H as <- <-. split; [lia|left; reflexivity]. }
  subst r. cbn [fst snd] in Hlt. split; [exact Hlt|].
  destruct age_col as [a|];
    [|unfold ret, age_defaults in Hr; injection Hr as <- <-; left; reflexivity].
  bind_inv Hr as c Hc. apply getcol_lookup in Hc.
  destruct (filter present (cells c)) as [|v vs] eqn:Hp;
    [unfold ret, age_defaults in Hr; injection Hr as <- <-; left; reflexivity|].
  bind_inv Hr as lo Hlo. bind_inv Hr as hi Hhi. unfold ret in Hr.
  injection Hr as <- <-.
  assert (Hall : forall x, In x (v :: vs) -> In x (cells c) /\ isna x = false).
  { intros x Hx. apply present_cells. rewrite Hp. exact Hx. }
  assert (Hfold_min : forall xs m, In m (v :: vs) -> incl xs (v :: vs) ->
            In (fold_left (fun m x => if cell_less x m then x else m) xs m) (v :: vs)).
  { induction xs as [|x xs IH]; intros m Hm Hincl; [exact Hm|].
    cbn [fold_left]. apply IH.
    - destruct (cell_less x m); [apply Hincl; left; reflexivity|exact Hm].
    - intros y Hy. apply Hincl. right. exact Hy. }
  assert (Hfold_max : forall xs m, In m (v :: vs) -> incl xs (v :: vs) ->
            In (fold_left (fun m x => if cell_less m x then x else m) xs m) (v :: vs)).
  { induction xs as [|x xs IH]; intros m Hm Hincl; [exact Hm|].
    cbn [fold_left]. apply IH.
    - destruct (cell_less m x); [apply Hincl; left; reflexivity|exact Hm].
    - intros y Hy. apply Hincl. right. exact Hy. }
  assert (Hmin_in : In (least cell_less v vs) (v :: vs)).
  { apply Hfold_min; [left; reflexivity|intros y Hy; right; exact Hy]. }
  assert (Hmax_in : In (greatest cell_less v vs) (v :: vs)).
  { apply Hfold_max; [left; reflexivity|intros y Hy; right; exact Hy]. }
  right. exists a, c, (least cell_less v vs), (greatest cell_less v vs).
  split; [reflexivity|]. split; [exact Hc|].
  split; [apply (Hall _ Hmin_in)|]. split; [apply (Hall _ Hmin_in)|].
  split; [apply (Hall _ Hmax_in)|]. split; [apply (Hall _ Hmax_in)|].
  split; [exact Hlo|]. split; [exact Hhi|].
  intros Hnum x Hx Hna.
  assert (Hxin : In x (v :: vs)) by (rewrite <- Hp; apply present_cells; auto).
  assert (Hokv : In v (cells c)) by (apply Hall; left; reflexivity).
  assert (Hokvs : Forall (fun y => In y (cells c)) vs).
  { apply Forall_forall. intros y Hy. apply Hall. right. exact Hy. }
  split.
  - apply (least_spec cell_less (fun y => In y (cells c))
             (fun p q => cell_less_asym c p q Hnum)
             (fun p q r => cell_less_trans c p q r Hnum) v vs Hokv Hokvs). exact Hxin.
  - apply (greatest_spec cell_less (fun y => In y (cells c))
             (fun p q => cell_less_asym c p q Hnum)
             (fun p q r => cell_less_trans c p q r Hnum) v vs Hokv Hokvs). exact Hxin.
Qed.

(** X23.  The upper end of the minutes slider cannot be computed for a table
    whose [minutesPlayed] column holds no value at all, a file with no
    rows for one: the maximum of the column is NaN, which [or] keeps, and
    [int] fails on it with [ValueError].  Without the column the upper
    end is 0. *)
Theorem minutes_slider_needs_a_value (df : DataFrame) :
  (has_col "minutesPlayed" df = false -> minutes_slider_max int_of_text df = ret 0)
  /\ (forall c, lookup "minutesPlayed" (columns df) = Some c ->
        forallb isna (cells c) = true ->
        minutes_slider_max int_of_text df = raise ValueError)
  /\ (frame_ok df = true -> nrows df = 0%nat -> has_col "minutesPlayed" df = true ->
      minutes_slider_max int_of_text df = raise ValueError).
Proof.
  assert (Hmissing : forall c, lookup "minutesPlayed" (columns df) = Some c ->
            forallb isna (cells c) = true ->
            minutes_slider_max int_of_text df = raise ValueError).
  { intros c Hc Hna. unfold minutes_slider_max. rewrite Hc. unfold series_max.
    assert (Hp : filter present (cells c) = []).
    { induction (cells c) as [|v vs IH]; [reflexivity|].
      cbn [forallb] in Hna. apply andb_true_iff in Hna. destruct Hna as [Hv Hvs].
      cbn [filter]. unfold present at 1. rewrite Hv. cbn [negb]. apply IH. exact Hvs. }
    rewrite Hp. reflexivity. }
  split; [|split; [exact Hmissing|]].
  - intros H. apply has_col_false_lookup in H. unfold minutes_slider_max. rewrite H.
    reflexivity.
  - intros Hok Hn Hh. apply has_col_lookup in Hh. destruct Hh as [c Hc].
    apply (Hmissing c Hc).
    pose proof (length_cells_lookup df "minutesPlayed" c Hok Hc) as Hlen.
    rewrite Hn in Hlen. destruct (cells c); [reflexivity|discriminate].
Qed.

End SidebarTheorems.

(** ** The sidebar of the sample tables *)

Definition no_text (s : string) : result Z := raise ValueError.

Lemma age_slider_range_valid_witness :
  23 < 38
  /\ ((23, 38) = (16, 45)
      \/ exists a c youngest oldest,
           Some "age_x" = Some a /\ lookup a (columns squad) = Some c
           /\ In youngest (cells c) /\ isna youngest = false
           /\ In oldest (cells c) /\ isna oldest = false
           /\ int_of_cell no_text youngest = ret 23
           /\ int_of_cell no_text oldest = ret 38
           /\ (numeric c = true ->
               forall v, In v (cells c) -> isna v = false ->
                 cell_less v youngest = false /\ cell_less oldest v = false)).
Proof.
  apply (age_slider_range_valid no_text squad (Some "age_x") 23 38).
  vm_compute. reflexivity.
Defined.

(** A file with the header line only. *)
Definition empty_file : DataFrame :=
  mkFrame [] [("player", Object []); ("team", Object []); ("minutesPlayed", Int64 [])].

Example empty_file_slider :
  minutes_slider_max no_text empty_file = raise ValueError
  /\ age_slider_range no_text empty_file (choose_age_col empty_file) = ret (16, 45)
  /\ minutes_slider_max no_text squad = ret 1500.
Proof. vm_compute. repeat split. Qed.

(** * main.py: an age column that is not numeric *)

Lemma as_float_text (xs : list (option string)) (s : string) :
  In (Some s) xs -> as_float (Object xs) = raise TypeError.
Proof.
  simpl. induction xs as [|[t|] xs IH]; intros Hin; [contradiction| |].
  - reflexivity.
  - destruct Hin as [Heq|Hin]; [discriminate|].
    cbn [mapM]. rewrite bind_ret_l, (IH Hin). reflexivity.
Qed.

Section TextAges.

Context {S : ArgSort}.

(** X24.  The extractor reads the file without coercing it, so an age
    column with one cell that is text arrives as a text column, and an
    age bound cannot be compared with it: the call fails with
    [TypeError] as soon as a bound is given.  Without bounds the column
    is not compared and the call is not stopped there. *)
Theorem text_age_raises (df : DataFrame) (a : string) (xs : list (option string))
    (s : string) (top_n : Z) (min_age max_age : option Z) :
  choose_age_col df = Some a ->
  lookup a (columns df) = Some (Object xs) ->
  In (Some s) xs ->
  (min_age <> None \/ max_age <> None ->
   top_tacklers_local df top_n min_age max_age = raise TypeError)
  /\ filter_age_bounds df (Some a) None None = ret df.
Proof.
  intros Hchoose Ha Hs. split; [|reflexivity].
  assert (Hmin : forall d lo, lookup a (columns d) = Some (Object xs) ->
            filter_min_age d a lo = raise TypeError).
  { intros d lo Hd. unfold filter_min_age, getcol. rewrite Hd, bind_ret_l.
    unfold ge_scalar. rewrite (as_float_text xs s Hs). reflexivity. }
  assert (Hmax : forall d hi, lookup a (columns d) = Some (Object xs) ->
            filter_max_age d a hi = raise TypeError).
  { intros d hi Hd. unfold filter_max_age, getcol. rewrite Hd, bind_ret_l.
    unfold le_scalar. rewrite (as_float_text xs s Hs). reflexivity. }
  intros Hb. unfold top_tacklers_local. rewrite Hchoose. unfold filter_age_bounds.
  destruct min_age as [lo|].
  - rewrite (Hmin df lo Ha). reflexivity.
  - destruct max_age as [hi|]; [|destruct Hb; contradiction].
    rewrite bind_ret_l, (Hmax df hi Ha). reflexivity.
Qed.

End TextAges.

(** The sample file with one age entered as text. *)
Definition tackles_with_text_age : DataFrame :=
  setcol tackles_joined "age_x"
    (Object (Some "unknown" :: repeat (Some "24") 19)).

Lemma text_age_raises_witness :
  (Some 21 <> None \/ @None Z <> None ->
   top_tacklers_local (S := stable_kind) tackles_with_text_age 15 (Some 21) None
   = raise TypeError)
  /\ filter_age_bounds tackles_with_text_age (Some "age_x") None None
     = ret tackles_with_text_age.
Proof.
  apply (text_age_raises (S := stable_kind) tackles_with_text_age "age_x"
           (Some "unknown" :: repeat (Some "24") 19) "unknown" 15 (Some 21) None).
  - reflexivity.
  - reflexivity.
  - left. reflexivity.
Defined.

Example text_age_type_error :
  top_tacklers_local (S := stable_kind) tackles_with_text_age 15 (Some 21) None
  = raise TypeError.
Proof. vm_compute. reflexivity. Qed.

(** * Age reconciliation, on the rows of the table *)

Lemma age_passes_unbounded (v : pyval) : age_passes v None None = true.
Proof. unfold age_passes. apply orb_true_r. Qed.

(** The display table of ranked rows [work], for a metric of the page
    and the extra columns [main] asks for when the age column is
    [age_x]: the formatted [age_x] cells stand under the label "Age", and
    no column is labelled [age_x]. *)
Lemma display_exposes_age (work : DataFrame) (m : string) (pct : bool) (mc : string)
    (country : bool) (t : DataFrame) :
  In (m, pct) (flat_map snd metric_groups) ->
  mc = m \/ mc = m ++ "_per90" ->
  display_table work m mc (Some ("age_x" :: (if country then ["country"] else []))%list)
  = ret t ->
  exists ages shown,
    lookup "age_x" (columns work) = Some ages
    /\ format_column ages = ret shown
    /\ lookup "Age" (columns t) = Some shown
    /\ labels t
       = ("Rk" :: "player" :: "team" :: title (replace_char "_" " " m) :: "Age"
          :: (if country then ["Country"] else []))%list
    /\ has_col "age_x" t = false.
Proof.
  intros Hm Hmc Hdt.
  pose proof (metric_labels_ok (m, pct) mc Hm Hmc) as Hlab.
  unfold labels_ok in Hlab. cbn [fst] in Hlab.
  repeat (apply andb_true_iff in Hlab; destruct Hlab as [Hlab ?]).
  repeat match goal with
         | H : String.eqb _ _ = true |- _ => apply String.eqb_eq in H
         | H : negb _ = true |- _ => apply negb_true_iff in H
         end.
  rename Hlab into LRk, H into Lnot, H0 into Lper, H1 into Lcountry, H2 into Lage,
    H3 into Ltitle, H4 into Lmc, H5 into Lteam, H6 into Lplayer.
  apply display_table_columns in Hdt. destruct Hdt as [rk [cs [Hcols Hcs]]].
  unfold display_cols in Hcs. cbn [app] in Hcs.
  assert (Hshape : exists c1 c2 c3 c4 rest,
             cs = (c1 :: c2 :: c3 :: c4 :: rest)%list
             /\ fst c1 = "player" /\ fst c2 = "team"
             /\ fst c3 = title (replace_char "_" " " m)
             /\ fst c4 = "Age"
             /\ (exists ages, lookup "age_x" (columns work) = Some ages
                              /\ format_column ages = ret (snd c4))
             /\ map fst rest = if country then ["Country"] else []).
  { destruct country; cbn [app] in Hcs;
      repeat match goal with
             | H : Forall2 _ (_ :: _) _ |- _ =>
                 inversion H as [|? ? ? ? [? [? [? ?]]] ?]; subst; clear H
             | H : Forall2 _ [] _ |- _ => inversion H; subst; clear H
             end;
      repeat eexists; try eassumption; try congruence;
      try (rewrite Lage in *; simpl in *; eassumption);
      try (simpl; f_equal; congruence). }
  destruct Hshape as [c1 [c2 [c3 [c4 [rest [-> [F1 [F2 [F3 [F4 [[ages [Hl Hf]] Hrest]]]]]]]]]]].
  assert (Hlabels : labels t
       = ("Rk" :: "player" :: "team" :: title (replace_char "_" " " m) :: "Age"
          :: (if country then ["Country"] else []))%list).
  { unfold labels. rewrite Hcols. cbn [map fst]. rewrite LRk, F1, F2, F3, F4, Hrest.
    reflexivity. }
  exists ages, (snd c4).
  split; [exact Hl|]. split; [exact Hf|]. split; [|split; [exact Hlabels|]].
  - rewrite Hcols. destruct c1 as [l1 x1], c2 as [l2 x2], c3 as [l3 x3], c4 as [l4 x4].
    cbn [fst snd] in *. subst l1 l2 l3 l4. rewrite LRk. cbn [lookup].
    replace (String.eqb "Age" "Rk") with false by reflexivity.
    replace (String.eqb "Age" "player") with false by reflexivity.
    replace (String.eqb "Age" "team") with false by reflexivity.
    rewrite String.eqb_sym, Ltitle. rewrite String.eqb_refl. reflexivity.
  - unfold has_col. rewrite Hlabels. unfold mem in Lnot. cbn [existsb] in Lnot |- *.
    apply orb_false_iff in Lnot. destruct Lnot as [_ Lnot].
    apply orb_false_iff in Lnot. destruct Lnot as [Lnot _].
    rewrite (String.eqb_sym "age_x" (title (replace_char "_" " " m))), Lnot.
    destruct country; reflexivity.
Qed.

Section AgeOnRows.

Context {S : ArgSort}.

(** The age filter of the extractor, also for an age column that holds
    text when no bound is given: the column is then not compared. *)
Lemma filter_age_bounds_rows_any (df : DataFrame) (a : string) (ages : column)
    (min_age max_age : option Z) :
  frame_ok df = true ->
  lookup a (columns df) = Some ages ->
  numeric ages = true \/ (min_age = None /\ max_age = None) ->
  filter_age_bounds df (Some a) min_age max_age
  = ret (frame_take
           (rows_where (fun v => age_passes v min_age max_age) ages (seq 0 (nrows df)))
           df).
Proof.
  intros Hok Hc [Hnum|[-> ->]]; [apply filter_age_bounds_rows; assumption|].
  unfold filter_age_bounds. rewrite bind_ret_l. unfold rows_where.
  rewrite filter_all by (intros; apply age_passes_unbounded).
  rewrite frame_take_all by exact Hok. reflexivity.
Qed.

(** The extractor on a table whose age column is [age_x]: the call
    returns, and the column [age] of the result holds the [age_x] cells
    of the rows it returns. *)
Lemma extractor_exposes_age (df : DataFrame) (ages tackles : column) (top_n : Z)
    (min_age max_age : option Z) :
  frame_ok df = true ->
  has_col "player" df = true -> has_col "team" df = true ->
  has_col "age" df = false ->
  lookup "age_x" (columns df) = Some ages ->
  numeric ages = true \/ (min_age = None /\ max_age = None) ->
  lookup "tackles" (columns df) = Some tackles ->
  exists out,
    top_tacklers_local df top_n min_age max_age = ret out
    /\ labels out = tackler_columns
    /\ index out
       = seq 0 (length (tackler_rows ages tackles (nrows df) top_n min_age max_age))
    /\ lookup "age" (columns out)
       = Some (col_take (tackler_rows ages tackles (nrows df) top_n min_age max_age) ages)
    /\ forall n c,
         n = "player" \/ n = "team" \/ n = "tackles" ->
         lookup n (columns df) = Some c ->
         lookup n (columns out)
         = Some (col_take (tackler_rows ages tackles (nrows df) top_n min_age max_age) c).
Proof.
  intros Hok Hp Ht Hage Hages Hnum Htk.
  assert (Hagex : has_col "age_x" df = true) by (apply has_col_lookup; eauto).
  assert (Hk : has_col "tackles" df = true) by (apply has_col_lookup; eauto).
  assert (Hchoose : choose_age_col df = Some "age_x").
  { unfold choose_age_col. rewrite Hage, Hagex. reflexivity. }
  set (rows := tackler_rows ages tackles (nrows df) top_n min_age max_age).
  set (top := reset_index (frame_take rows df)).
  assert (Heq : top_tacklers_local df top_n min_age max_age
                = select tackler_columns (normalised (Some "age_x") top)).
  { unfold top_tacklers_local. rewrite Hchoose.
    rewrite (filter_age_bounds_rows_any df "age_x" ages min_age max_age Hok Hages Hnum),
      bind_ret_l.
    rewrite (rank_tacklers_taken df _ tackles top_n).
    - rewrite bind_ret_l. reflexivity.
    - rewrite (frame_ok_lookup df "tackles" tackles Hok Htk).
      apply rows_where_bound, seq_bound.
    - exact Htk. }
  assert (Hltop : forall n, lookup n (columns top)
                            = option_map (col_take rows) (lookup n (columns df))).
  { intros n. unfold top, reset_index. cbn [columns]. apply lookup_frame_take. }
  assert (Hhtop : forall n, has_col n top = has_col n df).
  { intros n. unfold top. change (has_col n (reset_index ?x)) with (has_col n x).
    apply has_col_frame_take. }
  assert (Hcases : "age_x" = "age" \/ "age_x" = "age_x" \/ "age_x" = "age_y") by auto.
  destruct (select_total tackler_columns (normalised (Some "age_x") top)) as [out Hout].
  { intros n Hn. unfold tackler_columns in Hn. simpl in Hn.
    destruct Hn as [<-|[<-|[<-|[<-|[<-|[<-|[]]]]]]].
    - apply has_col_normalised_other; [exact Hcases|discriminate|discriminate|].
      rewrite Hhtop. exact Hp.
    - apply has_col_normalised_other; [exact Hcases|discriminate|discriminate|].
      rewrite Hhtop. exact Ht.
    - apply has_col_normalised_age. rewrite Hhtop. exact Hagex.
    - apply has_col_normalised_other; [exact Hcases|discriminate|discriminate|].
      rewrite Hhtop. exact Hk.
    - apply has_col_normalised_ensured.
    - apply has_col_normalised_ensured. }
  exists out. split; [rewrite Heq; exact Hout|].
  split; [apply (select_labels _ _ _ Hout)|].
  pose proof (select_inv _ _ _ Hout) as [Hix _].
  split.
  { rewrite Hix, index_normalised. unfold top, reset_index. cbn [index].
    rewrite nrows_frame_take. reflexivity. }
  split.
  { rewrite (select_lookup _ _ _ "age" Hout) by (unfold tackler_columns; simpl; tauto).
    rewrite lookup_normalised_age, Hltop, Hages; [reflexivity|].
    intros _. rewrite Hhtop. exact Hage. }
  intros n c Hn Hc.
  rewrite (select_lookup _ _ _ n Hout)
    by (unfold tackler_columns; destruct Hn as [->|[->| ->]]; simpl; tauto).
  rewrite lookup_normalised_other, Hltop, Hc;
    [reflexivity|exact Hcases| | | | |]; destruct Hn as [->|[->| ->]]; discriminate.
Qed.

(** Ranking rows [r] of a loaded table: the ranked rows are rows of [r],
    and each column of the table is carried along with them. *)
Lemma rank_rows_taken (loaded : DataFrame) (r : list nat) (metric : string)
    (per_90 : bool) (min_minutes : Z) (ascending : bool) (work : DataFrame)
    (mc : string) :
  frame_ok loaded = true ->
  Forall (fun i => (i < nrows loaded)%nat) r ->
  rank_rows (frame_take r loaded) metric per_90 min_minutes ascending = ret (work, mc) ->
  exists rows,
    incl rows r
    /\ index work = take 0%nat rows (index loaded)
    /\ forall n c,
         n <> metric ++ "_per90" -> lookup n (columns loaded) = Some c ->
         lookup n (columns work) = Some (col_take rows c).
Proof.
  intros Hok Hr H.
  apply rank_rows_inv in H. destruct H as [keyed [c [Hk [Hc ->]]]].
  destruct (keyed_rows_ok _ _ _ _ _ _ (frame_ok_take r loaded) Hk) as [q0 [Hq0 [Hix Hkok]]].
  apply keyed_rows_inv in Hk. destruct Hk as [q [Hq Hk]].
  rewrite Hq in Hq0. inv_ret Hq0. subst q0.
  destruct (filter_minutes_taken loaded r _ q Hok Hr Hq) as [r3 [Hq3 [Hi3 _]]].
  subst q.
  set (p := firstn 10 (col_argsort c ascending)).
  assert (Hp : Forall (fun i => (i < length r3)%nat) p).
  { apply Forall_forall. intros k Hkin. unfold p in Hkin. apply In_firstn in Hkin.
    apply (Permutation_in _ (col_argsort_perm c ascending)) in Hkin.
    apply in_seq in Hkin.
    rewrite (frame_ok_lookup keyed mc c Hkok Hc) in Hkin. unfold nrows in Hkin.
    rewrite Hix in Hkin. fold (nrows (frame_take r3 loaded)) in Hkin.
    rewrite nrows_frame_take in Hkin. lia. }
  exists (take 0%nat p r3). split; [|split].
  - intros x Hx. apply Hi3. apply (take_In p r3 x Hp Hx).
  - unfold frame_take at 1. cbn [index]. rewrite Hix. unfold frame_take. cbn [index].
    apply take_take. exact Hp.
  - intros n cn Hn Hcn. rewrite lookup_frame_take.
    assert (Hkeyed : lookup n (columns keyed) = Some (col_take r3 cn)).
    { destruct Hk as [[Hkq _]|[_ [_ [Hmc [v [_ Hkq]]]]]]; rewrite Hkq.
      - rewrite lookup_frame_take, Hcn. reflexivity.
      - unfold setcol. cbn [columns].
        rewrite lookup_assign_other by (rewrite Hmc; exact Hn).
        rewrite lookup_frame_take, Hcn. reflexivity. }
    rewrite Hkeyed. cbn [option_map]. rewrite col_take_take by exact Hp. reflexivity.
Qed.

(** The page for a loaded table whose age column is [age_x]: every card
    is rendered, and each shows, under the label "Age", the formatted
    [age_x] cells of the rows of the loaded table it ranks. *)
Lemma dashboard_exposes_age (loaded : DataFrame) (ctl : Controls) (ages : column) :
  loaded_ok loaded = true ->
  has_col "age" loaded = false ->
  lookup "age_x" (columns loaded) = Some ages ->
  exists tables,
    dashboard_tables loaded ctl = ret tables
    /\ map fst tables
       = filter (fun m => has_col m loaded) (map fst (flat_map snd metric_groups))
    /\ forall m t, In (m, t) tables ->
         exists rows shown,
           Forall (fun i => (i < nrows loaded)%nat) rows
           /\ index t = take 0%nat rows (index loaded)
           /\ mapM format_number (map (cell ages) rows) = ret shown
           /\ lookup "Age" (columns t) = Some (Object (map Some shown))
           /\ labels t
              = ("Rk" :: "player" :: "team" :: title (replace_char "_" " " m) :: "Age"
                 :: (if has_col "country" loaded then ["Country"] else []))%list
           /\ has_col "age_x" t = false.
Proof.
  intros Hl Hage Hages.
  destruct (dashboard_tables_total loaded ctl Hl) as [tables [Htab [Hnames _]]].
  exists tables. split; [exact Htab|]. split; [exact Hnames|].
  intros m t Hin.
  assert (Hok : frame_ok loaded = true).
  { unfold loaded_ok in Hl. repeat (apply andb_true_iff in Hl; destruct Hl as [Hl ?]).
    exact Hl. }
  assert (Hagex : has_col "age_x" loaded = true) by (apply has_col_lookup; eauto).
  assert (Hchoose : choose_age_col loaded = Some "age_x").
  { unfold choose_age_col. rewrite Hage, Hagex. reflexivity. }
  destruct (dashboard_tables_inv loaded ctl tables m t Htab Hin)
    as [df1 [df [pct [H1 [H2 [Hm Hb]]]]]].
  rewrite Hchoose in H1, Hb.
  pose proof (seq_bound (nrows loaded)) as Hr0.
  rewrite <- (frame_take_all loaded Hok) in H1 at 1.
  destruct (age_range_ctl ctl) as [lo hi].
  destruct (filter_age_range_taken loaded _ _ lo hi df1 Hok Hr0 H1) as [r1 [-> [Hi1 _]]].
  pose proof (incl_bound _ _ _ Hi1 Hr0) as Hr1.
  destruct (filter_nationality_taken loaded r1 _ df Hok Hr1 H2) as [r2 [-> [Hi2 _]]].
  pose proof (incl_bound _ _ _ Hi2 Hr1) as Hr2.
  apply build_top_table_inv in Hb. destruct Hb as [work [mc [Hrank Hd]]].
  assert (Hmc : mc = m \/ mc = m ++ "_per90").
  { pose proof Hrank as Hr'. apply rank_rows_inv in Hr'.
    destruct Hr' as [keyed [c [Hk _]]]. apply keyed_rows_inv in Hk.
    destruct Hk as [q [_ [[_ [-> _]]|[_ [_ [-> _]]]]]]; auto. }
  destruct (rank_rows_taken loaded r2 m _ _ false work mc Hok Hr2 Hrank)
    as [rows [Hincl [Hix Hcols]]].
  pose proof (incl_bound _ _ _ Hincl Hr2) as Hrows.
  assert (Hextra : main_extra_cols (frame_take r2 loaded) (Some "age_x")
                   = Some ("age_x" :: (if has_col "country" loaded
                                       then ["country"] else []))%list).
  { unfold main_extra_cols. rewrite has_col_frame_take.
    destruct (has_col "country" loaded); reflexivity. }
  rewrite Hextra in Hd.
  pose proof (display_table_inv _ _ _ _ _ Hd) as [Hixt _].
  destruct (display_exposes_age work m pct mc (has_col "country" loaded) t Hm Hmc Hd)
    as [wages [shown [Hw [Hf [HAge [Hlab Hno]]]]]].
  assert (Hne : "age_x" <> m ++ "_per90").
  { pose proof (metric_labels_ok (m, pct) mc Hm Hmc) as Hlo.
    unfold labels_ok in Hlo. cbn [fst] in Hlo.
    repeat (apply andb_true_iff in Hlo; destruct Hlo as [Hlo ?]).
    apply negb_true_iff in H0. apply String.eqb_neq. exact H0. }
  rewrite (Hcols "age_x" ages Hne Hages) in Hw. injection Hw as <-.
  unfold format_column in Hf. bind_inv Hf as strs Hs. inv_ret Hf. subst shown.
  rewrite cells_col_take in Hs
    by (rewrite (frame_ok_lookup loaded "age_x" ages Hok Hages); exact Hrows).
  exists rows, strs. split; [exact Hrows|]. split; [rewrite Hixt; exact Hix|].
  split; [exact Hs|]. split; [exact HAge|]. split; [exact Hlab|exact Hno].
Qed.

(** C7.  Both programs read the age from the first of [age], [age_x],
    [age_y] that the table has.  For a table with [age_x] and no [age]:
    the Tackler Extractor returns a table with the columns player, team,
    age, tackles, position, nationality whose [age] column holds the
    [age_x] cells of the rows it returns; the dashboard renders its
    cards, and every card shows, under the label "Age", the formatted
    [age_x] cells of the rows of the loaded table it ranks, and has no
    column labelled [age_x]. *)
Theorem age_reconciliation :
  (forall df, has_col "age" df = true -> choose_age_col df = Some "age")
  /\ (forall df, has_col "age" df = false -> has_col "age_x" df = true ->
        choose_age_col df = Some "age_x")
  /\ (forall df, has_col "age" df = false -> has_col "age_x" df = false ->
        has_col "age_y" df = true -> choose_age_col df = Some "age_y")
  /\ (forall df, has_col "age" df = false -> has_col "age_x" df = false ->
        has_col "age_y" df = false -> choose_age_col df = None)
  /\ (forall df ages tackles top_n min_age max_age,
        frame_ok df = true ->
        has_col "player" df = true -> has_col "team" df = true ->
        has_col "age" df = false ->
        lookup "age_x" (columns df) = Some ages ->
        numeric ages = true \/ (min_age = None /\ max_age = None) ->
        lookup "tackles" (columns df) = Some tackles ->
        exists out,
          top_tacklers_local df top_n min_age max_age = ret out
          /\ labels out = tackler_columns
          /\ index out
             = seq 0 (length (tackler_rows ages tackles (nrows df) top_n min_age max_age))
          /\ lookup "age" (columns out)
             = Some (col_take (tackler_rows ages tackles (nrows df) top_n min_age max_age)
                              ages)
          /\ forall n c,
               n = "player" \/ n = "team" \/ n = "tackles" ->
               lookup n (columns df) = Some c ->
               lookup n (columns out)
               = Some (col_take (tackler_rows ages tackles (nrows df) top_n
                                              min_age max_age) c))
  /\ (forall loaded ctl ages,
        loaded_ok loaded = true ->
        has_col "age" loaded = false ->
        lookup "age_x" (columns loaded) = Some ages ->
        exists tables,
          dashboard_tables loaded ctl = ret tables
          /\ map fst tables
             = filter (fun m => has_col m loaded) (map fst (flat_map snd metric_groups))
          /\ forall m t, In (m, t) tables ->
               exists rows shown,
                 Forall (fun i => (i < nrows loaded)%nat) rows
                 /\ index t = take 0%nat rows (index loaded)
                 /\ mapM format_number (map (cell ages) rows) = ret shown
                 /\ lookup "Age" (columns t) = Some (Object (map Some shown))
                 /\ labels t
                    = ("Rk" :: "player" :: "team" :: title (replace_char "_" " " m)
                       :: "Age"
                       :: (if has_col "country" loaded then ["Country"] else []))%list
                 /\ has_col "age_x" t = false).
Proof.
  split.
  { intros df H. unfold choose_age_col. rewrite H. reflexivity. }
  split.
  { intros df H1 H2. unfold choose_age_col. rewrite H1, H2. reflexivity. }
  split.
  { intros df H1 H2 H3. unfold choose_age_col. rewrite H1, H2, H3. reflexivity. }
  split.
  { intros df H1 H2 H3. unfold choose_age_col. rewrite H1, H2, H3. reflexivity. }
  split; [exact extractor_exposes_age|exact dashboard_exposes_age].
Qed.

End AgeOnRows.

Lemma age_reconciliation_witness :
  (exists out,
     top_tacklers_local (S := stable_kind) tackles_joined 5 (Some 21) (Some 30) = ret out
     /\ labels out = tackler_columns
     /\ index out
        = seq 0 (length (tackler_rows (S := stable_kind) tackler_ages tackle_counts
                           (nrows tackles_joined) 5 (Some 21) (Some 30)))
     /\ lookup "age" (columns out)
        = Some (col_take (tackler_rows (S := stable_kind) tackler_ages tackle_counts
                            (nrows tackles_joined) 5 (Some 21) (Some 30))
                         tackler_ages)
     /\ forall n c,
          n = "player" \/ n = "team" \/ n = "tackles" ->
          lookup n (columns tackles_joined) = Some c ->
          lookup n (columns out)
          = Some (col_take (tackler_rows (S := stable_kind) tackler_ages tackle_counts
                              (nrows tackles_joined) 5 (Some 21) (Some 30)) c))
  /\ (exists tables,
        dashboard_tables (S := stable_kind) squad foreign_controls = ret tables
        /\ map fst tables
           = filter (fun m => has_col m squad) (map fst (flat_map snd metric_groups))
        /\ forall m t, In (m, t) tables ->
             exists rows shown,
               Forall (fun i => (i < nrows squad)%nat) rows
               /\ index t = take 0%nat rows (index squad)
               /\ mapM format_number (map (cell squad_ages) rows) = ret shown
               /\ lookup "Age" (columns t) = Some (Object (map Some shown))
               /\ labels t
                  = ("Rk" :: "player" :: "team" :: title (replace_char "_" " " m)
                     :: "Age"
                     :: (if has_col "country" squad then ["Country"] else []))%list
               /\ has_col "age_x" t = false).
Proof.
  destruct (age_reconciliation (S := stable_kind)) as [_ [_ [_ [_ [Hx Hd]]]]].
  split.
  - apply (Hx tackles_joined tackler_ages tackle_counts 5 (Some 21) (Some 30));
      try reflexivity.
    left. reflexivity.
  - apply (Hd squad foreign_controls squad_ages); reflexivity.
Defined.

(** The ages the two programs show for the samples: the extractor under
    [age], the goals card of the page under "Age". *)
Example sample_ages_shown :
  option_map cells (lookup "age" (columns sample_top_five))
  = Some (map PyFloat [F64.of_Z 23; F64.of_Z 22; F64.of_Z 26; F64.of_Z 30; F64.of_Z 28])
  /\ lookup "age_x" (columns sample_top_five) = None
  /\ lookup "Age" (columns squad_goals_card)
     = Some (Object (map Some ["34"; "25"; "25"; "31"; "30"; "35"]))
  /\ lookup "age_x" (columns squad_goals_card) = None.
Proof. vm_compute. repeat split; reflexivity. Qed.
